(* ===== verification/_CoqProject ===== *)
-Q . S2P
Prelude.v
Schema.v
GoStrings.v
Json.v
JsonSpec.v
HostStore.v
PlacementStore.v
OperationStore.v
AccountStore.v
CatalogStore.v
StoreStep.v
CapacityInv.v
TableInv.v
RecordInv.v
AccountInv.v
CatalogInv.v
Scenario.v
StoreSpec.v
World.v
Fleet.v
FleetLemmas.v
FleetSpec.v
Versions.v
VersionSpec.v
Routing.v
RoutingSpec.v
Runtime.v
RuntimeLemmas.v
PollerLemmas.v
RuntimeSpec.v
Reconciler.v
ReconcilerLemmas.v
ReconcilerSpec.v
Workflows.v
Api.v
Members.v
MembersLemmas.v
MembersSpec.v
Agents.v
AgentsSpec.v
BrowserVMs.v
BrowserLemmas.v
BrowserModes.v
BrowserSpec.v
ConfigValues.v
ConfigAssembly.v
ConfigLemmas.v
ConfigSpec.v
Migration.v
MigrationLemmas.v
MigrationSpec.v
Machines.v
MachinesLemmas.v
MachinesSpec.v
HostUpdates.v
HostUpdatesSpec.v
Provisioner.v
HostAdmin.v
ProvisionerSpec.v
GoText.v
Integrations.v
IntegrationStore.v
ToolGateway.v
IntegrationAdmin.v
IntegrationLemmas.v
IntegrationRuns.v
AddressSpec.v
RedactionSpec.v
ProjectionSpec.v
GatewaySpec.v
