(* ===== verification/Prelude.v ===== *)
(** * OpenClaw Machines: a verification library for the control plane

    The control plane (src/backend, Go) rents micro-VMs to accounts.  Hosts
    register and send heartbeats, a placement service puts machines on hosts, a
    runtime service drives their life cycle through the agents on the hosts, a
    reconciler repairs what drifted, a routing service publishes machines at the
    edge, workflows migrate machines between hosts, and an HTTP API lets users
    and agents in.  All of them share one PostgreSQL database.

    ** Parts and files

    A component has a file with its data and operations, one Definition per Go
    function under the Go name (error paths, early returns and log entries of
    the activity log included, slog output not), and a file [...Spec] with its
    theorems; files [...Lemmas] and [...Inv] hold what the proofs share.

    - Prelude: errors, the state-and-error monad [ST], record update, the
      relations [steps R m] with their tactics.
    - Schema: the rows of store/store.go and the database [DB], a finite map per
      table with a clock and a sequence.
    - GoStrings: the functions of strings, strconv and fmt that are used; Json:
      texts of encoding/json, which JsonSpec shows to be read back.
    - HostStore, PlacementStore, OperationStore, AccountStore, CatalogStore: the
      statements and transactions of store/postgres.go and
      store/postgres_artifact_releases.go ([Q A] is [ST DB A]; [tx] rolls back).
      StoreStep makes them a transition system: [store_op] has a constructor per
      operation that writes, [step] runs any of them or advances the clock,
      [reachable] is what interleavings of them reach.
    - World: the services' state: the database, the edge's KV store, a trace of
      the calls to other processes, the answers of the random source and a list
      of fault flags; [M A] is [ST World A] and [call] a database call.
    - Fleet (fleet/placement.go), Versions (machines/version_resolver.go,
      openclawver/, store/compat.go, metadata/metadata.go), Routing (routing/,
      kvstore/cloudflare.go), Runtime (machines/runtime.go), Reconciler
      (reconciler/), Workflows (workflows/service.go).
    - Api, Members, Agents, BrowserVMs, Migration, Machines (api/server.go,
      accounts.go, members.go, invitations.go, notification_workflow.go,
      enrollment.go, agent_heartbeat.go, agent_auth.go, browser_vms.go,
      admin_browser_vms.go, admin_migrate.go, admin_migrate_workflow.go,
      machines.go, sizes.go, admin_machines.go): handlers take a decoded request
      and return a [response].  [serve], [serve_agent], [serve_browser],
      [serve_machine] and [serve_admin_machine] are the routes.  BrowserModes follows runs by what an agent
      holds of a browser VM.
    - HostUpdates, Provisioner, HostAdmin (api/admin_host_update_operations.go,
      provisioner/provisioner.go, admin_hosts.go): [U] adds the operations in the
      server's memory to the world; a handler leaves a job ([update_job],
      [host_work]) that runs after it.
    - Integrations, IntegrationStore, ToolGateway, IntegrationAdmin
      (store/workspace_integrations_postgres.go, api/workspace_integrations_gateway.go and
      _management.go): [Integrations] adds the integration tables and the calls made
      to services to the world, [stmt] is one statement that can fail, and
      [handleWorkspaceIntegrationCallTool] is a machine's call of a tool.  GoText has
      runes, replacement and splitting; IntegrationRuns a workspace for the
      instances.
    - ConfigValues, ConfigAssembly (configassembly/assembler.go): JSON documents as
      nested maps, and the assembly of a guest's configuration.
    - Scenario: a deployment reached by store operations, for the instances.

    Calls between components follow the code: Migration calls Runtime and
    Workflows, Machines calls Runtime and the waiting loop of Migration, HostUpdates and
    HostAdmin call Runtime and leave to Agents what a heartbeat restarts, Runtime
    calls Fleet, Routing and Versions, the Reconciler calls Runtime and Fleet, the API calls Routing, ToolGateway and IntegrationAdmin
    call IntegrationStore, and all call the store.

    ** What the theorems show

    - StoreSpec: in every reachable database a host's counters fit its capacity
      and machines of a host have distinct addresses; placement records,
      enrollment tokens, invitations and workflow locks move one way; machine
      operations refine an abstract lock per machine; PlaceOnHost does what its
      transaction promises; a stop and a restart cancel out; a machine has one
      enabled plugin at most in a slot (CatalogInv).  Two executions
      show addresses shared with browser VMs and counters below zero.
    - FleetSpec: the automatic selection places whenever a host is eligible and
      else changes nothing; a release undoes a reservation; a restart returns to
      its home host; where the Go and the SQL checks of a host differ.
    - VersionSpec: precedence of the version sources; version strings parse,
      print and order as dates.
    - RoutingSpec: retries, errors and clean-up of routes, and that a projection
      followed by a reconciliation makes the KV store the database's image.
    - RuntimeSpec: a machine with an operation in flight refuses another; every
      call clears its operation; every poll ends and settles the machine.
    - ReconcilerSpec: a tick changes only what it is entitled to, whatever fails,
      and gives up what a dead host held.
    - MembersSpec: membership changes are authorized, every account keeps one
      owner, and the edge learns of changes.
    - AgentsSpec: agents are authenticated and confined to their host; what a
      heartbeat does to a host's status; one token that enrols two hosts.
    - BrowserSpec: no history of requests, agents' calls and reconciliations
      loses a browser VM that an agent may hold; a failed release that strands
      one.
    - MachinesSpec: the requests of an account stay within it (MachinesLemmas has
      the relation [confined]) and keep the selections of versions well formed;
      the answers of upgrades and roll backs are true of the database, and their
      operation is given back; a resize that makes a host's counters drift.
    - HostUpdatesSpec: a host has one operation at a time, every job ends its own
      with a result that is true, and the machines a drain stops are those that the
      next heartbeat restarts, through the JSON of the status message; two runs
      where that goes wrong.
    - GatewaySpec: only tools whose policy is allow are called, and only by the machine
      of a valid token; runs in which a policy or a result is lost.  ProjectionSpec:
      the connector tables follow the row of an integration.  RedactionSpec: a
      result that goes back holds no secret.  AddressSpec: addresses of tools are
      read back.  Their shared reasoning on runs that read ([looks]) and that make one
      call ([calls]) is in IntegrationLemmas.
    - ProvisionerSpec: a host takes machines only once it is provisioned; its disks
      hold them.
    - ConfigSpec: overrides of capabilities cannot touch what the platform decides,
      overrides of plugins can; the check of overrides agrees with the assembly;
      every model that is named is listed; which search provider is active; what
      the seed of a first boot shares with later configurations.
    - MigrationSpec: a reported success is a move, every run ends and gives the
      machine back, the source is freed once; an aborted run that frees twice.

    ** Choices and bounds

    - Times are nanoseconds since the epoch; the clock stands still within a
      handler and moves between steps of [step].  Go's [int] is [Z]; where a
      product of inputs can overflow, it is wrapped to 64 bits.
    - Loops that poll take the list of the answers they get: a list as long as
      the code's deadline allows rounds, or shorter, ends them as the code does
      ([poll_loop], [wait_running], [await_gateway]); retries take the number of attempts the code
      has (three for the KV store, the step's own for a workflow step).  Other
      recursion is structural.
    - Faults: a set flag makes one call fail without an effect.  A call whose
      effect happens and whose answer is lost, and a crash of the server between
      two calls, are not modelled; DBOS resuming a workflow is the parameter
      [StepRunner].
    - Services run one at a time in [World]; interleaving is modelled at the
      store, by [step], and where a theorem says so.  Goroutines started by a
      handler (the poller after a start, the restarts after an update) are
      definitions of their own that run after it.
    - Parameters: [GoSort] (sort.Slice is not stable), [StepRunner], the answers
      of agents and of the compute API (arguments), [GoSchedule] (the order in which
      goroutines get through), the letters outside ASCII ([GoUnicode]), the text of numbers
      and containers ([GoFormat]), the services behind integrations ([upstream]),
      AES-GCM ([decrypt]) and the ranking of a search ([rank]), what the server does between two polls of a host update
      ([rounds]).  [allowed] in StoreStep
      says what callers pass to the store: sizes that are not negative, a
      recalculated capacity not below what is used, and a restart on the host
      that the machine's address belongs to.
    - Strings are bytes; letters are folded as ASCII.

    ** Not modelled

    The agent on the host, Firecracker, networks and guests (system calls);
    tunnels, proxies and other third-party clients beyond the fact of their
    calls; the storage of guests' metadata; login protocols and
    cryptography; of the workspace integrations, the imports, OAuth, MCP and the
    providers' own handlers, guidance, telemetry, probes, the lists of tools and the
    diagnosis of a failed call; the operations of store/postgres.go on
    tools, usage, images, backup jobs and activity logs; the handlers of
    plugins, credentials, providers and the registry, and the push of a
    running machine's configuration; the deadlines of request contexts; EffectiveCapacity of fleet/placement.go (floating point).
    The manifest of the development says so part by part. *)

From Stdlib Require Export ZArith Lia String Ascii.
From stdpp Require Export base decidable numbers list gmap strings pretty sorting.

Export ListNotations.
#[global] Open Scope Z_scope.
#[global] Open Scope list_scope.

(** The hint databases: [steps] follows the structure of computations, [store]
    unfolds the store's operations, [cap] has the capacity lemmas, [run]
    rewrites runs. *)
Create HintDb steps.
Create HintDb store.
Create HintDb cap.
Create HintDb run.

(** ** Errors *)

(** Go error values.  The sentinels are those of store/errors.go,
    store/store.go, orchestrator/orchestrator.go and pgx, with the classes of
    constraint violation PostgreSQL reports ([ErrConflict] is SQLSTATE 23505); [ErrText] is a fresh [fmt.Errorf] text without its
    interpolated arguments and [ErrWrap] is [fmt.Errorf("...: %w", err)]. *)
Inductive error : Type :=
| ErrNoRows
| ErrConflict
| ErrForeignKey
| ErrCheckViolation
| ErrTransient
| ErrNoEligibleHost
| ErrAlreadyMember
| ErrWorkflowLockHeld
| ErrWorkflowLockNotFound
| ErrPluginNotFound
| ErrPluginStillEnabled
| ErrMachinePluginNotFound
| ErrUpgradeRestoredPreviousVM
| ErrText (msg : string)
| ErrWrap (msg : string) (e : error).

#[export] Instance error_eq_dec : EqDecision error.
Proof. solve_decision. Defined.

(** [errors.Is err target]. *)
Fixpoint errors_is (e target : error) : bool :=
  bool_decide (e = target) ||
  match e with ErrWrap _ e' => errors_is e' target | _ => false end.

Inductive res (A : Type) : Type :=
| Ok (a : A)
| Err (e : error).
Arguments Ok {A} a.
Arguments Err {A} e.

#[export] Instance res_eq_dec {A} `{EqDecision A} : EqDecision (res A).
Proof. solve_decision. Defined.

Definition is_ok {A} (r : res A) : bool :=
  match r with Ok _ => true | Err _ => false end.

(** ** The state-and-error monad

    A computation over a state [S] returns a Go pair (value, error) as a
    [res] together with the final state: state changes made before an error
    are kept, as in Go, and are undone only where the code says so
    (a database transaction, see [tx] below). *)
Definition ST (S A : Type) : Type := S → res A * S.

Definition ret {S A} (a : A) : ST S A := λ s, (Ok a, s).
Definition fail {S A} (e : error) : ST S A := λ s, (Err e, s).
Definition bind {S A B} (m : ST S A) (k : A → ST S B) : ST S B := λ s,
  match m s with
  | (Ok a, s') => k a s'
  | (Err e, s') => (Err e, s')
  end.
(** [v, err := m]: the error becomes a value. *)
Definition try {S A} (m : ST S A) : ST S (res A) := λ s,
  let '(r, s') := m s in (Ok r, s').
Definition get {S} : ST S S := λ s, (Ok s, s).
Definition gets {S A} (f : S → A) : ST S A := λ s, (Ok (f s), s).
Definition modify {S} (f : S → S) : ST S unit := λ s, (Ok tt, f s).
Definition of_res {S A} (r : res A) : ST S A := λ s, (r, s).
(** [if err != nil { return fmt.Errorf("msg: %w", err) }]. *)
Definition wrap {S A} (msg : string) (m : ST S A) : ST S A := λ s,
  match m s with
  | (Ok a, s') => (Ok a, s')
  | (Err e, s') => (Err (ErrWrap msg e), s')
  end.
(** [_ = m], or [if err := m; err != nil { slog... }]: the error is dropped. *)
Definition ignore {S A} (m : ST S A) : ST S unit := λ s, (Ok tt, snd (m s)).
(** A database transaction: any error rolls the state back. *)
Definition tx {S A} (m : ST S A) : ST S A := λ s,
  match m s with
  | (Ok a, s') => (Ok a, s')
  | (Err e, _) => (Err e, s)
  end.

Definition when {S} (b : bool) (m : ST S unit) : ST S unit :=
  if b then m else ret tt.

(** [for _, x := range xs { ... }], without early exit. *)
Fixpoint for_each {S A} (xs : list A) (body : A → ST S unit) : ST S unit :=
  match xs with
  | [] => ret tt
  | x :: xs' => bind (body x) (λ _, for_each xs' body)
  end.

Declare Scope go_scope.
Delimit Scope go_scope with go.
Notation "'let!' x ':=' m 'in' k" := (bind m (λ x, k))
  (at level 10, x binder, m at level 100, k at level 200,
   format "'let!'  x  ':='  m  'in' '//' k") : go_scope.
Notation "m ;; k" := (bind m (λ _, k))
  (at level 100, k at level 200, right associativity,
   format "m  ;; '//' k") : go_scope.
#[global] Open Scope go_scope.

(** ** Record update

    [r <| f := v |>] is [r] with the field [f] set to [v], and
    [r <| f ::= g |>] applies [g] to it.  A record type opts in with an
    instance of [Eta] (its eta expansion); the setter of each field is found by
    replacing that field's projection in the expansion. *)
Class Eta (R : Type) := eta : R → R.

Class Setter {R T : Type} (proj : R → T) := set : (T → T) → R → R.
Arguments set {R T} proj {_} f r.

Ltac solve_setter :=
  match goal with
  | |- @Setter ?R ?T ?proj =>
      let inst := constr:(_ : Eta R) in
      let inst' := eval cbv beta delta [eta] in inst in
      let f := fresh "f" in
      let r := fresh "r" in
      red; intros f r;
      let body := eval hnf in (inst' r) in
      let pat := eval pattern (proj r) in body in
      match pat with
      | ?F _ => let out := eval cbv beta in (F (f (proj r))) in exact out
      end
  end.

#[export] Hint Extern 1 (Setter _) => solve_setter : typeclass_instances.

Notation "r <| f := v |>" := (set f (λ _, v) r)
  (at level 1, left associativity, f constr at level 9, only parsing) : go_scope.
Notation "r <| f ::= g |>" := (set f g r)
  (at level 1, left associativity, f constr at level 9, only parsing) : go_scope.

(** ** Reasoning about computations

    [steps R m]: every run of [m] relates its initial and final states by the
    preorder [R], whatever its result.  Frame conditions ("only the hosts
    change") and invariants ([R s s' := I s → I s']) are instances; the lemmas
    follow the structure of a computation and are gathered by [go_steps]. *)

Definition steps {S A} (R : relation S) (m : ST S A) : Prop :=
  ∀ s, R s (m s).2.

(** The relation of an invariant. *)
Definition keeps {S} (I : S → Prop) : relation S := λ s s', I s → I s'.
#[export] Instance keeps_preorder {S} (I : S → Prop) : PreOrder (keeps I).
Proof. split; unfold keeps; [intros ?; auto|intros ???; auto]. Qed.

(** The relation of a frame condition: [f] reads the same value. *)
Definition same {S T} (f : S → T) : relation S := λ s s', f s' = f s.
#[export] Instance same_preorder {S T} (f : S → T) : PreOrder (same f).
Proof. split; unfold same; [intros ?; auto|intros ???; congruence]. Qed.

Section Steps.
Context {S : Type} (R : relation S) `{!PreOrder R}.
Implicit Types A B : Type.

Lemma steps_ret {A} (a : A) : steps R (ret a).
Proof. intros s. simpl. reflexivity. Qed.
Lemma steps_fail {A} e : steps R (@fail S A e).
Proof. intros s. simpl. reflexivity. Qed.
Lemma steps_get : steps R get.
Proof. intros s. simpl. reflexivity. Qed.
Lemma steps_gets {A} (f : S → A) : steps R (gets f).
Proof. intros s. simpl. reflexivity. Qed.
Lemma steps_of_res {A} (r : res A) : steps R (@of_res S A r).
Proof. intros s. simpl. reflexivity. Qed.
Lemma steps_modify (f : S → S) : (∀ s, R s (f s)) → steps R (modify f).
Proof. intros H s. apply H. Qed.
Lemma steps_bind {A B} (m : ST S A) (k : A → ST S B) :
  steps R m → (∀ a, steps R (k a)) → steps R (bind m k).
Proof.
  intros Hm Hk s. unfold bind. specialize (Hm s).
  destruct (m s) as [[a|e] s']; simpl in *; [|done].
  transitivity s'; [done|apply Hk].
Qed.
Lemma steps_try {A} (m : ST S A) : steps R m → steps R (try m).
Proof. intros Hm s. unfold try. specialize (Hm s). by destruct (m s). Qed.
Lemma steps_wrap {A} msg (m : ST S A) : steps R m → steps R (wrap msg m).
Proof.
  intros Hm s. unfold wrap. specialize (Hm s). by destruct (m s) as [[]].
Qed.
Lemma steps_ignore {A} (m : ST S A) : steps R m → steps R (ignore m).
Proof. intros Hm s. apply Hm. Qed.
Lemma steps_tx {A} (m : ST S A) : steps R m → steps R (tx m).
Proof.
  intros Hm s. unfold tx. specialize (Hm s).
  destruct (m s) as [[]]; simpl in *; [done|reflexivity].
Qed.
Lemma steps_when b m : steps R m → steps R (when b m).
Proof. destruct b; simpl; [done|]. intros _. apply steps_ret. Qed.
Lemma steps_for_each {A} (xs : list A) body :
  (∀ x, steps R (body x)) → steps R (for_each xs body).
Proof.
  intros H. induction xs; simpl; [apply steps_ret|by apply steps_bind].
Qed.
End Steps.

#[export] Hint Resolve steps_ret steps_fail steps_get steps_gets steps_of_res
  steps_modify steps_bind steps_try steps_wrap steps_ignore steps_tx steps_when
  steps_for_each : steps.

(** Follow the structure of a computation down to its [modify]s. *)
Ltac go_step :=
  match goal with
  | |- steps _ (let _ := _ in _) => cbv zeta
  | |- steps _ (ret _) => apply steps_ret; typeclasses eauto
  | |- steps _ (fail _) => apply steps_fail; typeclasses eauto
  | |- steps _ get => apply steps_get; typeclasses eauto
  | |- steps _ (gets _) => apply steps_gets; typeclasses eauto
  | |- steps _ (of_res _) => apply steps_of_res; typeclasses eauto
  | |- steps _ (modify _) => apply steps_modify
  | |- steps _ (bind _ _) => apply steps_bind; [typeclasses eauto| |intros ?]
  | |- steps _ (try _) => apply steps_try
  | |- steps _ (wrap _ _) => apply steps_wrap
  | |- steps _ (ignore _) => apply steps_ignore
  | |- steps _ (tx _) => apply steps_tx; [typeclasses eauto|]
  | |- steps _ (when _ _) => apply steps_when; [typeclasses eauto|]
  | |- steps _ (for_each _ _) => apply steps_for_each; [typeclasses eauto|intros ?]
  | |- steps _ (match ?x with _ => _ end) => destruct x eqn:?
  end.
Ltac go_steps := repeat go_step.

(** [m] leaves the state alone. *)
Notation reads := (steps eq).

(** *** Inversion of runs *)

Lemma bind_ok {S A B} (m : ST S A) (k : A → ST S B) s b s' :
  bind m k s = (Ok b, s') ↔ ∃ a s1, m s = (Ok a, s1) ∧ k a s1 = (Ok b, s').
Proof.
  unfold bind. destruct (m s) as [[a|e] s1]; naive_solver.
Qed.
Lemma bind_err {S A B} (m : ST S A) (k : A → ST S B) s e s' :
  bind m k s = (Err e, s') ↔
  m s = (Err e, s') ∨ ∃ a s1, m s = (Ok a, s1) ∧ k a s1 = (Err e, s').
Proof.
  unfold bind. destruct (m s) as [[a|e'] s1]; naive_solver.
Qed.
Lemma wrap_ok {S A} msg (m : ST S A) s a s' :
  wrap msg m s = (Ok a, s') ↔ m s = (Ok a, s').
Proof. unfold wrap. destruct (m s) as [[]]; naive_solver. Qed.
Lemma tx_ok {S A} (m : ST S A) s a s' : tx m s = (Ok a, s') ↔ m s = (Ok a, s').
Proof. unfold tx. destruct (m s) as [[]]; naive_solver. Qed.
(** A failed transaction changes nothing. *)
Lemma tx_err {S A} (m : ST S A) s e s' : tx m s = (Err e, s') → s' = s.
Proof. unfold tx. destruct (m s) as [[]]; naive_solver. Qed.
(** A call after which an earlier call's state is known. *)
Lemma bind_eq_ok {S A B} (m : ST S A) (k : A → ST S B) s a s1 :
  m s = (Ok a, s1) → bind m k s = k a s1.
Proof. unfold bind. by intros ->. Qed.
Lemma bind_eq_err {S A B} (m : ST S A) (k : A → ST S B) s e s1 :
  m s = (Err e, s1) → bind m k s = (Err e, s1).
Proof. unfold bind. by intros ->. Qed.
Lemma bind_try {S A B} (m : ST S A) (k : res A → ST S B) s :
  bind (try m) k s = k (m s).1 (m s).2.
Proof. unfold bind, try. by destruct (m s). Qed.
Lemma bind_ignore {S A B} (m : ST S A) (k : unit → ST S B) s :
  bind (ignore m) k s = k tt (m s).2.
Proof. done. Qed.
Lemma bind_gets {S A B} (f : S → A) (k : A → ST S B) s :
  bind (gets f) k s = k (f s) s.
Proof. done. Qed.
#[export] Hint Rewrite @bind_try @bind_ignore @bind_gets : run.

(** Case analysis on everything a run branches on. *)
Ltac split_run :=
  repeat (case_match; simplify_eq/=).
