(* ===== verification/Schema.v ===== *)
(** * The rows of the control plane's database

    The entity types of store/store.go, as records with the fields of the Go
    structs in their order.  A pointer field is an [option]; [int] and the
    database's INT are [Z]; a [time.Time] is its nanoseconds since the epoch; a
    [json.RawMessage] column is [None] when it is NULL or empty and otherwise
    the value it holds.  [DB] is the database: one finite map per table, keyed
    by the primary key, with the server's clock and the sequence its generated
    keys are drawn from. *)

From S2P Require Import Prelude.

Definition time := Z.

(** JSON values, numbers being the integers the modelled code reads. *)
Inductive json : Type :=
| JNull
| JBool (b : bool)
| JNum (n : Z)
| JFloat (numeral : string)   (* a number with a fraction or an exponent *)
| JStr (s : string)
| JArr (l : list json)
| JObj (fields : list (string * json)).

(** A user row (users table). *)
Record User : Type := mkUser {
  User_ID : Z;
  User_Email : string;
  User_Name : string;
  User_AvatarURL : option string;
  User_AuthProvider : string;
  User_AuthProviderID : string;
  User_CfSub : string;
  User_IdentityIssuer : option string;
  User_IdentitySubject : option string;
  User_Status : string;
  User_CreatedAt : time
}.
#[export] Instance eta_User : Eta User := λ r,
  mkUser (User_ID r) (User_Email r) (User_Name r) (User_AvatarURL r)
    (User_AuthProvider r) (User_AuthProviderID r) (User_CfSub r)
    (User_IdentityIssuer r) (User_IdentitySubject r) (User_Status r)
    (User_CreatedAt r).

(** An account row. *)
Record Account : Type := mkAccount {
  Account_ID : Z;
  Account_Name : string;
  Account_Slug : string;
  Account_CreatedBy : Z;
  Account_CreatedAt : time
}.
#[export] Instance eta_Account : Eta Account := λ r,
  mkAccount (Account_ID r) (Account_Name r) (Account_Slug r)
    (Account_CreatedBy r) (Account_CreatedAt r).

(** A membership row; Email and Name are joined from users. *)
Record AccountMember : Type := mkAccountMember {
  AccountMember_AccountID : Z;
  AccountMember_UserID : Z;
  AccountMember_Role : string;
  AccountMember_Email : string;
  AccountMember_Name : string;
  AccountMember_CreatedAt : time
}.
#[export] Instance eta_AccountMember : Eta AccountMember := λ r,
  mkAccountMember (AccountMember_AccountID r) (AccountMember_UserID r)
    (AccountMember_Role r) (AccountMember_Email r) (AccountMember_Name r)
    (AccountMember_CreatedAt r).

(** An invitation row; AccountName is joined. *)
Record AccountInvitation : Type := mkAccountInvitation {
  AccountInvitation_ID : Z;
  AccountInvitation_AccountID : Z;
  AccountInvitation_AccountName : string;
  AccountInvitation_Email : string;
  AccountInvitation_Role : string;
  AccountInvitation_Token : string;
  AccountInvitation_Status : string;
  AccountInvitation_InvitedBy : Z;
  AccountInvitation_AcceptedBy : option Z;
  AccountInvitation_ExpiresAt : time;
  AccountInvitation_CreatedAt : time;
  AccountInvitation_RespondedAt : option time
}.
#[export] Instance eta_AccountInvitation : Eta AccountInvitation := λ r,
  mkAccountInvitation (AccountInvitation_ID r) (AccountInvitation_AccountID r)
    (AccountInvitation_AccountName r) (AccountInvitation_Email r)
    (AccountInvitation_Role r) (AccountInvitation_Token r)
    (AccountInvitation_Status r) (AccountInvitation_InvitedBy r)
    (AccountInvitation_AcceptedBy r) (AccountInvitation_ExpiresAt r)
    (AccountInvitation_CreatedAt r) (AccountInvitation_RespondedAt r).

(** A machine row: one OpenClaw or Hermes VM of an account. *)
Record Machine : Type := mkMachine {
  Machine_ID : string;
  Machine_AccountID : Z;
  Machine_WorkspaceID : option string;
  Machine_Kind : string;
  Machine_Name : string;
  Machine_Slug : string;
  Machine_PreferredRegion : option string;
  Machine_Status : string;
  Machine_StatusMessage : option string;
  Machine_VCPUs : Z;
  Machine_MemoryMB : Z;
  Machine_HostID : option Z;
  Machine_VMIP : option string;
  Machine_TunnelHostname : option string;
  Machine_CustomDomain : option string;
  Machine_GatewayToken : option string;
  Machine_ProxyToken : option string;
  Machine_WorkspaceIntegrationTokensValidAfter : option time;
  Machine_ProvisionStep : option string;
  Machine_ProvisioningStartedAt : option time;
  Machine_ProvisioningCompletedAt : option time;
  Machine_BudgetMicrocents : option Z;
  Machine_CreatedAt : time;
  Machine_StartedAt : option time;
  Machine_StoppedAt : option time;
  Machine_DataVolumeGB : Z;
  Machine_DesiredRootfsVersion : option string;
  Machine_DesiredOpenclawVersion : option string;
  Machine_DesiredChannel : option string;
  Machine_ResolvedRootfsVersion : option string;
  Machine_ResolvedOpenclawVersion : option string;
  Machine_ActualRootfsVersion : option string;
  Machine_ActualOpenclawVersion : option string;
  Machine_VersionSource : option string;
  Machine_RuntimeSource : option string;
  Machine_RootfsSnapshot : option string;
  Machine_OpenclawVersion : option string;
  Machine_LastStartedAt : option time;
  Machine_TunnelID : option string;
  Machine_SigningKey : option string;
  Machine_TunnelToken : string;
  Machine_HomeHostID : option Z;
  Machine_StorageMode : string;
  Machine_BackupsEnabled : bool;
  Machine_BackupKey : option string;
  Machine_BrowserVMID : option string
}.
#[export] Instance eta_Machine : Eta Machine := λ r,
  mkMachine (Machine_ID r) (Machine_AccountID r) (Machine_WorkspaceID r)
    (Machine_Kind r) (Machine_Name r) (Machine_Slug r)
    (Machine_PreferredRegion r) (Machine_Status r) (Machine_StatusMessage r)
    (Machine_VCPUs r) (Machine_MemoryMB r) (Machine_HostID r) (Machine_VMIP r)
    (Machine_TunnelHostname r) (Machine_CustomDomain r)
    (Machine_GatewayToken r) (Machine_ProxyToken r)
    (Machine_WorkspaceIntegrationTokensValidAfter r) (Machine_ProvisionStep r)
    (Machine_ProvisioningStartedAt r) (Machine_ProvisioningCompletedAt r)
    (Machine_BudgetMicrocents r) (Machine_CreatedAt r) (Machine_StartedAt r)
    (Machine_StoppedAt r) (Machine_DataVolumeGB r)
    (Machine_DesiredRootfsVersion r) (Machine_DesiredOpenclawVersion r)
    (Machine_DesiredChannel r) (Machine_ResolvedRootfsVersion r)
    (Machine_ResolvedOpenclawVersion r) (Machine_ActualRootfsVersion r)
    (Machine_ActualOpenclawVersion r) (Machine_VersionSource r)
    (Machine_RuntimeSource r) (Machine_RootfsSnapshot r)
    (Machine_OpenclawVersion r) (Machine_LastStartedAt r) (Machine_TunnelID r)
    (Machine_SigningKey r) (Machine_TunnelToken r) (Machine_HomeHostID r)
    (Machine_StorageMode r) (Machine_BackupsEnabled r) (Machine_BackupKey r)
    (Machine_BrowserVMID r).

(** The machine paired with a browser VM. *)
Record BrowserVMPairedMachine : Type := mkBrowserVMPairedMachine {
  BrowserVMPairedMachine_ID : string;
  BrowserVMPairedMachine_Name : string
}.
#[export] Instance eta_BrowserVMPairedMachine : Eta BrowserVMPairedMachine := λ r,
  mkBrowserVMPairedMachine (BrowserVMPairedMachine_ID r)
    (BrowserVMPairedMachine_Name r).

(** A browser VM row. *)
Record BrowserVM : Type := mkBrowserVM {
  BrowserVM_ID : string;
  BrowserVM_AccountID : Z;
  BrowserVM_Slug : string;
  BrowserVM_Name : string;
  BrowserVM_HostID : option Z;
  BrowserVM_VMIP : option string;
  BrowserVM_Status : string;
  BrowserVM_VCPUs : Z;
  BrowserVM_MemoryMB : Z;
  BrowserVM_CDPPort : Z;
  BrowserVM_DesiredRootfsManifest : option string;
  BrowserVM_DesiredRootfsVersion : option string;
  BrowserVM_RootfsVersion : option string;
  BrowserVM_ErrorMessage : option string;
  BrowserVM_CreatedAt : time;
  BrowserVM_UpdatedAt : time;
  BrowserVM_PairedMachine : option BrowserVMPairedMachine
}.
#[export] Instance eta_BrowserVM : Eta BrowserVM := λ r,
  mkBrowserVM (BrowserVM_ID r) (BrowserVM_AccountID r) (BrowserVM_Slug r)
    (BrowserVM_Name r) (BrowserVM_HostID r) (BrowserVM_VMIP r)
    (BrowserVM_Status r) (BrowserVM_VCPUs r) (BrowserVM_MemoryMB r)
    (BrowserVM_CDPPort r) (BrowserVM_DesiredRootfsManifest r)
    (BrowserVM_DesiredRootfsVersion r) (BrowserVM_RootfsVersion r)
    (BrowserVM_ErrorMessage r) (BrowserVM_CreatedAt r) (BrowserVM_UpdatedAt r)
    (BrowserVM_PairedMachine r).

(** A host row; MachineCount is computed by the queries that read it. *)
Record Host : Type := mkHost {
  Host_ID : Z;
  Host_VMName : string;
  Host_VMID : option string;
  Host_Zone : string;
  Host_Region : string;
  Host_MachineType : string;
  Host_ExternalIP : option string;
  Host_InternalIP : option string;
  Host_TunnelURL : option string;
  Host_Status : string;
  Host_StatusMessage : option string;
  Host_SourceImage : option string;
  Host_CapacityVCPUs : Z;
  Host_CapacityMemoryMB : Z;
  Host_CapacityDiskMB : Z;
  Host_UsedVCPUs : Z;
  Host_UsedMemoryMB : Z;
  Host_UsedDiskMB : Z;
  Host_MachineCount : Z;
  Host_AgentVersion : option string;
  Host_OpenclawVersion : option string;
  Host_RootfsVersion : string;
  Host_BrowserRootfsVersion : string;
  Host_LastHeartbeat : option time;
  Host_CreatedAt : time;
  Host_Provider : string;
  Host_ProviderClass : string;
  Host_LifecycleMode : string;
  Host_AgentEndpoint : option string;
  Host_AgentEndpointType : string;
  Host_ProviderHostID : option string;
  Host_ProviderMetadata : option json;
  Host_Capabilities : option json;
  Host_Labels : option json;
  Host_AgentToken : option string;
  Host_MaintenanceMode : bool
}.
#[export] Instance eta_Host : Eta Host := λ r,
  mkHost (Host_ID r) (Host_VMName r) (Host_VMID r) (Host_Zone r)
    (Host_Region r) (Host_MachineType r) (Host_ExternalIP r)
    (Host_InternalIP r) (Host_TunnelURL r) (Host_Status r)
    (Host_StatusMessage r) (Host_SourceImage r) (Host_CapacityVCPUs r)
    (Host_CapacityMemoryMB r) (Host_CapacityDiskMB r) (Host_UsedVCPUs r)
    (Host_UsedMemoryMB r) (Host_UsedDiskMB r) (Host_MachineCount r)
    (Host_AgentVersion r) (Host_OpenclawVersion r) (Host_RootfsVersion r)
    (Host_BrowserRootfsVersion r) (Host_LastHeartbeat r) (Host_CreatedAt r)
    (Host_Provider r) (Host_ProviderClass r) (Host_LifecycleMode r)
    (Host_AgentEndpoint r) (Host_AgentEndpointType r) (Host_ProviderHostID r)
    (Host_ProviderMetadata r) (Host_Capabilities r) (Host_Labels r)
    (Host_AgentToken r) (Host_MaintenanceMode r).

(** A one-time host enrollment token. *)
Record EnrollmentToken : Type := mkEnrollmentToken {
  EnrollmentToken_ID : string;
  EnrollmentToken_Token : string;
  EnrollmentToken_Provider : string;
  EnrollmentToken_ProviderClass : string;
  EnrollmentToken_Labels : option json;
  EnrollmentToken_UsedByHostID : option Z;
  EnrollmentToken_ExpiresAt : time;
  EnrollmentToken_CreatedAt : time
}.
#[export] Instance eta_EnrollmentToken : Eta EnrollmentToken := λ r,
  mkEnrollmentToken (EnrollmentToken_ID r) (EnrollmentToken_Token r)
    (EnrollmentToken_Provider r) (EnrollmentToken_ProviderClass r)
    (EnrollmentToken_Labels r) (EnrollmentToken_UsedByHostID r)
    (EnrollmentToken_ExpiresAt r) (EnrollmentToken_CreatedAt r).

(** A workspace of an account. *)
Record Workspace : Type := mkWorkspace {
  Workspace_ID : string;
  Workspace_AccountID : Z;
  Workspace_Slug : string;
  Workspace_Name : string;
  Workspace_CreatedAt : time;
  Workspace_UpdatedAt : time
}.
#[export] Instance eta_Workspace : Eta Workspace := λ r,
  mkWorkspace (Workspace_ID r) (Workspace_AccountID r) (Workspace_Slug r)
    (Workspace_Name r) (Workspace_CreatedAt r) (Workspace_UpdatedAt r).

(** A published version of a rootfs or of a runtime. *)
Record ArtifactRelease : Type := mkArtifactRelease {
  ArtifactRelease_ID : Z;
  ArtifactRelease_Kind : string;
  ArtifactRelease_Version : string;
  ArtifactRelease_Channel : string;
  ArtifactRelease_URL : string;
  ArtifactRelease_SHA256 : string;
  ArtifactRelease_SizeBytes : option Z;
  ArtifactRelease_Metadata : option json;
  ArtifactRelease_CreatedAt : time;
  ArtifactRelease_MinRootfsVersion : option string
}.
#[export] Instance eta_ArtifactRelease : Eta ArtifactRelease := λ r,
  mkArtifactRelease (ArtifactRelease_ID r) (ArtifactRelease_Kind r)
    (ArtifactRelease_Version r) (ArtifactRelease_Channel r)
    (ArtifactRelease_URL r) (ArtifactRelease_SHA256 r)
    (ArtifactRelease_SizeBytes r) (ArtifactRelease_Metadata r)
    (ArtifactRelease_CreatedAt r) (ArtifactRelease_MinRootfsVersion r).

(** A plugin that machines can enable. *)
Record PluginCatalogEntry : Type := mkPluginCatalogEntry {
  PluginCatalogEntry_ID : string;
  PluginCatalogEntry_Name : string;
  PluginCatalogEntry_Description : option string;
  PluginCatalogEntry_Slot : string;
  PluginCatalogEntry_Version : string;
  PluginCatalogEntry_InstallKind : string;
  PluginCatalogEntry_ArtifactURL : option string;
  PluginCatalogEntry_ArtifactSHA256 : option string;
  PluginCatalogEntry_ConfigTemplate : option json;
  PluginCatalogEntry_Status : string;
  PluginCatalogEntry_SortOrder : Z;
  PluginCatalogEntry_CreatedAt : time;
  PluginCatalogEntry_UpdatedAt : time
}.
#[export] Instance eta_PluginCatalogEntry : Eta PluginCatalogEntry := λ r,
  mkPluginCatalogEntry (PluginCatalogEntry_ID r) (PluginCatalogEntry_Name r)
    (PluginCatalogEntry_Description r) (PluginCatalogEntry_Slot r)
    (PluginCatalogEntry_Version r) (PluginCatalogEntry_InstallKind r)
    (PluginCatalogEntry_ArtifactURL r) (PluginCatalogEntry_ArtifactSHA256 r)
    (PluginCatalogEntry_ConfigTemplate r) (PluginCatalogEntry_Status r)
    (PluginCatalogEntry_SortOrder r) (PluginCatalogEntry_CreatedAt r)
    (PluginCatalogEntry_UpdatedAt r).

(** A plugin of a machine. *)
Record MachinePlugin : Type := mkMachinePlugin {
  MachinePlugin_ID : string;
  MachinePlugin_MachineID : string;
  MachinePlugin_PluginID : string;
  MachinePlugin_Slot : string;
  MachinePlugin_Enabled : bool;
  MachinePlugin_ConfigOverrides : option json;
  MachinePlugin_InstallStatus : string;
  MachinePlugin_InstalledVersion : option string;
  MachinePlugin_InstalledAt : option time;
  MachinePlugin_CreatedAt : time;
  MachinePlugin_UpdatedAt : time
}.
#[export] Instance eta_MachinePlugin : Eta MachinePlugin := λ r,
  mkMachinePlugin (MachinePlugin_ID r) (MachinePlugin_MachineID r)
    (MachinePlugin_PluginID r) (MachinePlugin_Slot r)
    (MachinePlugin_Enabled r) (MachinePlugin_ConfigOverrides r)
    (MachinePlugin_InstallStatus r) (MachinePlugin_InstalledVersion r)
    (MachinePlugin_InstalledAt r) (MachinePlugin_CreatedAt r)
    (MachinePlugin_UpdatedAt r).

(** What a KV route entry is built from. *)
Record RouteData : Type := mkRouteData {
  RouteData_AccountSlug : string;
  RouteData_MachineID : string;
  RouteData_MachineSlug : string;
  RouteData_HostHostname : string;
  RouteData_ProxyToken : string
}.
#[export] Instance eta_RouteData : Eta RouteData := λ r,
  mkRouteData (RouteData_AccountSlug r) (RouteData_MachineID r)
    (RouteData_MachineSlug r) (RouteData_HostHostname r)
    (RouteData_ProxyToken r).

(** The data a request to a running machine is routed with. *)
Record ResolvedRoute : Type := mkResolvedRoute {
  ResolvedRoute_AccountID : Z;
  ResolvedRoute_MachineID : string;
  ResolvedRoute_ProxyToken : string;
  ResolvedRoute_HostHostname : string;
  ResolvedRoute_UserIDs : list Z
}.
#[export] Instance eta_ResolvedRoute : Eta ResolvedRoute := λ r,
  mkResolvedRoute (ResolvedRoute_AccountID r) (ResolvedRoute_MachineID r)
    (ResolvedRoute_ProxyToken r) (ResolvedRoute_HostHostname r)
    (ResolvedRoute_UserIDs r).

(** An in-flight lifecycle operation (start, stop, delete). *)
Record MachineOperation : Type := mkMachineOperation {
  MachineOperation_ID : string;
  MachineOperation_MachineID : string;
  MachineOperation_Kind : string;
  MachineOperation_State : string;
  MachineOperation_IdempotencyKey : option string;
  MachineOperation_ErrorCode : option string;
  MachineOperation_ErrorMessage : option string;
  MachineOperation_CreatedAt : time;
  MachineOperation_CompletedAt : option time
}.
#[export] Instance eta_MachineOperation : Eta MachineOperation := λ r,
  mkMachineOperation (MachineOperation_ID r) (MachineOperation_MachineID r)
    (MachineOperation_Kind r) (MachineOperation_State r)
    (MachineOperation_IdempotencyKey r) (MachineOperation_ErrorCode r)
    (MachineOperation_ErrorMessage r) (MachineOperation_CreatedAt r)
    (MachineOperation_CompletedAt r).

(** A machine-to-host placement record. *)
Record Placement : Type := mkPlacement {
  Placement_ID : string;
  Placement_MachineID : string;
  Placement_HostID : Z;
  Placement_VMIP : string;
  Placement_State : string;
  Placement_ReservedAt : time;
  Placement_ActivatedAt : option time;
  Placement_ReleasedAt : option time;
  Placement_CreatedByOperationID : option string
}.
#[export] Instance eta_Placement : Eta Placement := λ r,
  mkPlacement (Placement_ID r) (Placement_MachineID r) (Placement_HostID r)
    (Placement_VMIP r) (Placement_State r) (Placement_ReservedAt r)
    (Placement_ActivatedAt r) (Placement_ReleasedAt r)
    (Placement_CreatedByOperationID r).

(** A row of browser_vm_placements (migrations/072_browser_vms.sql). *)
Record BrowserVMPlacement : Type := mkBrowserVMPlacement {
  BrowserVMPlacement_ID : string;
  BrowserVMPlacement_BrowserVMID : string;
  BrowserVMPlacement_HostID : Z;
  BrowserVMPlacement_VMIP : string;
  BrowserVMPlacement_State : string;
  BrowserVMPlacement_ReservedAt : time;
  BrowserVMPlacement_ActivatedAt : option time;
  BrowserVMPlacement_ReleasedAt : option time
}.
#[export] Instance eta_BrowserVMPlacement : Eta BrowserVMPlacement := λ r,
  mkBrowserVMPlacement (BrowserVMPlacement_ID r)
    (BrowserVMPlacement_BrowserVMID r) (BrowserVMPlacement_HostID r)
    (BrowserVMPlacement_VMIP r) (BrowserVMPlacement_State r)
    (BrowserVMPlacement_ReservedAt r) (BrowserVMPlacement_ActivatedAt r)
    (BrowserVMPlacement_ReleasedAt r).

(** Overcommit ratios (hundredths of the NUMERIC(4,2) columns) and reserves. *)
Record CapacityPolicy : Type := mkCapacityPolicy {
  CapacityPolicy_ID : string;
  CapacityPolicy_Name : string;
  CapacityPolicy_ScopeType : string;
  CapacityPolicy_ScopeRef : option string;
  CapacityPolicy_CPUOvercommitRatio : Z;
  CapacityPolicy_MemoryOvercommitRatio : Z;
  CapacityPolicy_ReserveVCPUs : Z;
  CapacityPolicy_ReserveMemoryMB : Z;
  CapacityPolicy_MaxMachineCount : option Z;
  CapacityPolicy_Enabled : bool;
  CapacityPolicy_CreatedAt : time;
  CapacityPolicy_UpdatedAt : time
}.
#[export] Instance eta_CapacityPolicy : Eta CapacityPolicy := λ r,
  mkCapacityPolicy (CapacityPolicy_ID r) (CapacityPolicy_Name r)
    (CapacityPolicy_ScopeType r) (CapacityPolicy_ScopeRef r)
    (CapacityPolicy_CPUOvercommitRatio r)
    (CapacityPolicy_MemoryOvercommitRatio r) (CapacityPolicy_ReserveVCPUs r)
    (CapacityPolicy_ReserveMemoryMB r) (CapacityPolicy_MaxMachineCount r)
    (CapacityPolicy_Enabled r) (CapacityPolicy_CreatedAt r)
    (CapacityPolicy_UpdatedAt r).

(** A workflow run. *)
Record WorkflowRun : Type := mkWorkflowRun {
  WorkflowRun_ID : string;
  WorkflowRun_Kind : string;
  WorkflowRun_ScopeType : string;
  WorkflowRun_ScopeID : string;
  WorkflowRun_Status : string;
  WorkflowRun_CurrentPhase : option string;
  WorkflowRun_RequestedBy : option Z;
  WorkflowRun_AccountID : option Z;
  WorkflowRun_Priority : string;
  WorkflowRun_InputJSON : option json;
  WorkflowRun_OutputJSON : option json;
  WorkflowRun_SummaryJSON : option json;
  WorkflowRun_ErrorCode : option string;
  WorkflowRun_ErrorMessage : option string;
  WorkflowRun_StartedAt : option time;
  WorkflowRun_CompletedAt : option time;
  WorkflowRun_CreatedAt : time;
  WorkflowRun_UpdatedAt : time
}.
#[export] Instance eta_WorkflowRun : Eta WorkflowRun := λ r,
  mkWorkflowRun (WorkflowRun_ID r) (WorkflowRun_Kind r)
    (WorkflowRun_ScopeType r) (WorkflowRun_ScopeID r) (WorkflowRun_Status r)
    (WorkflowRun_CurrentPhase r) (WorkflowRun_RequestedBy r)
    (WorkflowRun_AccountID r) (WorkflowRun_Priority r)
    (WorkflowRun_InputJSON r) (WorkflowRun_OutputJSON r)
    (WorkflowRun_SummaryJSON r) (WorkflowRun_ErrorCode r)
    (WorkflowRun_ErrorMessage r) (WorkflowRun_StartedAt r)
    (WorkflowRun_CompletedAt r) (WorkflowRun_CreatedAt r)
    (WorkflowRun_UpdatedAt r).

(** A workflow without recent events. *)
Record StalledWorkflow : Type := mkStalledWorkflow {
  StalledWorkflow_ID : string;
  StalledWorkflow_Kind : string;
  StalledWorkflow_ScopeType : string;
  StalledWorkflow_ScopeID : string;
  StalledWorkflow_LastEventAt : time
}.
#[export] Instance eta_StalledWorkflow : Eta StalledWorkflow := λ r,
  mkStalledWorkflow (StalledWorkflow_ID r) (StalledWorkflow_Kind r)
    (StalledWorkflow_ScopeType r) (StalledWorkflow_ScopeID r)
    (StalledWorkflow_LastEventAt r).

(** A workflow event. *)
Record WorkflowEvent : Type := mkWorkflowEvent {
  WorkflowEvent_ID : Z;
  WorkflowEvent_WorkflowID : string;
  WorkflowEvent_Phase : option string;
  WorkflowEvent_Level : string;
  WorkflowEvent_EventType : string;
  WorkflowEvent_Message : string;
  WorkflowEvent_DetailsJSON : option json;
  WorkflowEvent_CreatedAt : time
}.
#[export] Instance eta_WorkflowEvent : Eta WorkflowEvent := λ r,
  mkWorkflowEvent (WorkflowEvent_ID r) (WorkflowEvent_WorkflowID r)
    (WorkflowEvent_Phase r) (WorkflowEvent_Level r)
    (WorkflowEvent_EventType r) (WorkflowEvent_Message r)
    (WorkflowEvent_DetailsJSON r) (WorkflowEvent_CreatedAt r).

(** A leased workflow lock. *)
Record WorkflowLock : Type := mkWorkflowLock {
  WorkflowLock_ResourceType : string;
  WorkflowLock_ResourceID : string;
  WorkflowLock_LockKind : string;
  WorkflowLock_WorkflowID : string;
  WorkflowLock_LeaseExpiresAt : time;
  WorkflowLock_CreatedAt : time;
  WorkflowLock_UpdatedAt : time
}.
#[export] Instance eta_WorkflowLock : Eta WorkflowLock := λ r,
  mkWorkflowLock (WorkflowLock_ResourceType r) (WorkflowLock_ResourceID r)
    (WorkflowLock_LockKind r) (WorkflowLock_WorkflowID r)
    (WorkflowLock_LeaseExpiresAt r) (WorkflowLock_CreatedAt r)
    (WorkflowLock_UpdatedAt r).

(** Resource requirements of a placement query. *)
Record HostFilter : Type := mkHostFilter {
  HostFilter_MinVCPUs : Z;
  HostFilter_MinMemoryMB : Z;
  HostFilter_MinDiskMB : Z;
  HostFilter_Region : string;
  HostFilter_Image : string;
  HostFilter_RequireBrowserReflink : bool
}.
#[export] Instance eta_HostFilter : Eta HostFilter := λ r,
  mkHostFilter (HostFilter_MinVCPUs r) (HostFilter_MinMemoryMB r)
    (HostFilter_MinDiskMB r) (HostFilter_Region r) (HostFilter_Image r)
    (HostFilter_RequireBrowserReflink r).

(** ** The database *)

(** The database: [db_now] is the clock, [db_next] the sequence generated keys are
    drawn from, [db_host_policy] the hosts.capacity_policy_id column. *)
Record DB : Type := mkDB {
  db_now : time;
  db_next : N;
  db_hosts : gmap Z Host;
  db_host_policy : gmap Z string;
  db_policies : gmap string CapacityPolicy;
  db_machines : gmap string Machine;
  db_placements : gmap string Placement;
  db_browser_vms : gmap string BrowserVM;
  db_browser_vm_placements : gmap string BrowserVMPlacement;
  db_operations : gmap string MachineOperation;
  db_workflow_runs : gmap string WorkflowRun;
  db_workflow_events : gmap Z WorkflowEvent;
  db_workflow_locks : gmap (string * string * string) WorkflowLock;
  db_users : gmap Z User;
  db_accounts : gmap Z Account;
  db_members : gmap (Z * Z) AccountMember;
  db_invitations : gmap Z AccountInvitation;
  db_enrollment_tokens : gmap string EnrollmentToken;
  db_workspaces : gmap string Workspace;
  db_artifact_releases : gmap Z ArtifactRelease;
  db_plugin_catalog : gmap string PluginCatalogEntry;
  db_machine_plugins : gmap string MachinePlugin;
  db_secrets : gmap (string * string) string
}.
#[export] Instance eta_DB : Eta DB := λ r,
  mkDB (db_now r) (db_next r) (db_hosts r) (db_host_policy r) (db_policies r)
    (db_machines r) (db_placements r) (db_browser_vms r)
    (db_browser_vm_placements r) (db_operations r) (db_workflow_runs r)
    (db_workflow_events r) (db_workflow_locks r) (db_users r) (db_accounts r)
    (db_members r) (db_invitations r) (db_enrollment_tokens r)
    (db_workspaces r) (db_artifact_releases r) (db_plugin_catalog r)
    (db_machine_plugins r) (db_secrets r).

Definition db_empty (now : time) : DB :=
  mkDB now 1%N ∅ ∅ ∅ ∅ ∅ ∅ ∅ ∅ ∅ ∅ ∅ ∅ ∅ ∅ ∅ ∅ ∅ ∅ ∅ ∅ ∅.

(** A statement or a store operation over the database. *)
Definition Q := ST DB.

Definition second : Z := 1000000000.
Definition seconds (n : Z) : Z := n * second.

(** [now()] in SQL and [time.Now()] in the processes: one clock. *)
Definition now : Q time := gets db_now.

(** The generated keys: a fresh number, as a UUID or as a SERIAL value. *)
Definition next_serial : Q Z :=
  let! n := gets db_next in
  modify (set db_next N.succ) ;; ret (Z.of_N n).
Definition uuid_of (n : N) : string := ("id-" +:+ pretty n)%string.
Definition gen_random_uuid : Q string :=
  let! n := gets db_next in
  modify (set db_next N.succ) ;; ret (uuid_of n).

(** [NULLIF(x, '')]. *)
Definition NULLIF (x : string) : option string :=
  if bool_decide (x = EmptyString) then None else Some x.

(** [x IN ('a', 'b', ...)]. *)
Definition one_of (xs : list string) (x : string) : bool :=
  bool_decide (x ∈ xs).

(** ** Statements over a table *)

(** The rows of a table that satisfy a WHERE clause, in key order. *)
Definition select {K V} `{Countable K} (p : V → bool) (t : gmap K V) : list V :=
  List.filter p (map_to_list t).*2.

(** [UPDATE t SET f WHERE p]. *)
Definition update_where {K V} `{Countable K} (p : V → bool) (f : V → V)
    (t : gmap K V) : gmap K V :=
  (λ v, if p v then f v else v) <$> t.

(** [DELETE FROM t WHERE p]. *)
Definition delete_where {K V} `{Countable K} (p : V → bool) (t : gmap K V)
    : gmap K V := filter (λ kv, p kv.2 = false) t.

(** The number of rows a statement with the WHERE clause [p] affects. *)
Definition count_where {K V} `{Countable K} (p : V → bool) (t : gmap K V) : Z :=
  Z.of_nat (length (select p t)).

(** A query for one row: no row is [pgx.ErrNoRows]. *)
Definition query_row {S A} (o : option A) : ST S A :=
  of_res (match o with Some a => Ok a | None => Err ErrNoRows end).

(** [ORDER BY key], ascending or descending. *)
Definition key_le {V} (key : V → Z) : relation V := λ a b, key a ≤ key b.
Definition key_ge {V} (key : V → Z) : relation V := λ a b, key b ≤ key a.
#[export] Instance key_le_dec {V} (key : V → Z) : RelDecision (key_le key).
Proof. intros a b. unfold key_le. apply _. Defined.
#[export] Instance key_ge_dec {V} (key : V → Z) : RelDecision (key_ge key).
Proof. intros a b. unfold key_ge. apply _. Defined.
Definition order_by_asc {V} (key : V → Z) (l : list V) : list V :=
  merge_sort (key_le key) l.
Definition order_by_desc {V} (key : V → Z) (l : list V) : list V :=
  merge_sort (key_ge key) l.

(** A foreign key: the statement fails when the referenced row is missing. *)
Definition references {S} (ok : bool) : ST S unit :=
  if ok then ret tt else fail ErrForeignKey.
(** A unique index: the statement fails when a row already holds the key. *)
Definition unique {S} (free : bool) : ST S unit :=
  if free then ret tt else fail ErrConflict.
Definition is_some_b {A} (o : option A) : bool :=
  match o with Some _ => true | None => false end.

(** ** JSONB *)

(** [j -> k] on an object; Go's decoder and PostgreSQL agree on the keys of
    the values stored in a JSONB column, which are distinct. *)
Fixpoint assoc {V} (k : string) (l : list (string * V)) : option V :=
  match l with
  | [] => None
  | (k', v) :: l' => if String.eqb k k' then Some v else assoc k l'
  end.
Definition json_field (k : string) (j : json) : option json :=
  match j with JObj fs => assoc k fs | _ => None end.
(** [j1 || j2]: objects are merged at the top level, the right one winning;
    anything else is concatenated as arrays. *)
Definition jsonb_concat (j1 j2 : json) : json :=
  match j1, j2 with
  | JObj f1, JObj f2 =>
      JObj (List.filter (λ kv, negb (is_some_b (assoc kv.1 f2))) f1 ++ f2)
  | _, _ =>
      let arr j := match j with JArr l => l | _ => [j] end in
      JArr (arr j1 ++ arr j2)
  end.
(** [j @> '{"a":{"b":true}}']. *)
Definition json_has_true (a b : string) (j : json) : bool :=
  match json_field a j with
  | Some j' => match json_field b j' with Some (JBool true) => true | _ => false end
  | None => false
  end.

(** ** Host-local VM addresses *)

(** [fmt.Sprintf("192.168.100.%d", i)]. *)
Definition vm_ip_of (n : nat) : string :=
  ("192.168.100." +:+ pretty n)%string.

(** The first of the addresses 192.168.100.[lo] .. 192.168.100.[hi] that is
    not in [used]; SQL's LIMIT 1 over generate_series returns them in the same
    ascending order. *)
Definition first_free_ip (lo hi : nat) (used : list string) : option string :=
  head (List.filter (λ ip, negb (bool_decide (ip ∈ used)))
          (vm_ip_of <$> seq lo (hi + 1 - lo))).

(** ** Lemmas on statements *)

Section Tables.
Context {K V : Type} `{Countable K}.
Implicit Types (t : gmap K V) (p : V → bool).

Lemma elem_of_select p t v :
  v ∈ select p t ↔ p v = true ∧ ∃ k, t !! k = Some v.
Proof.
  unfold select. rewrite list_elem_of_In, filter_In, <-list_elem_of_In, list_elem_of_fmap.
  split.
  - intros [([k v'] & -> & Hin%elem_of_map_to_list) Hp]. eauto.
  - intros [Hp [k Hk]]. split; [|done]. exists (k, v).
    by rewrite elem_of_map_to_list.
Qed.
Lemma select_nil p t : select p t = [] ↔ ∀ k v, t !! k = Some v → p v = false.
Proof.
  split.
  - intros Hn k v Hk. apply not_true_is_false. intros Hp.
    assert (v ∈ select p t) as Hin by (apply elem_of_select; eauto).
    rewrite Hn in Hin. by apply elem_of_nil in Hin.
  - intros Hf. destruct (select p t) as [|v l] eqn:E; [done|].
    assert (v ∈ select p t) as Hin by (rewrite E; apply list_elem_of_here).
    apply elem_of_select in Hin as [Hp [k Hk]]. specialize (Hf k v Hk). congruence.
Qed.
Lemma lookup_update_where p f t k :
  update_where p f t !! k = (λ v, if p v then f v else v) <$> t !! k.
Proof. apply lookup_fmap. Qed.
Lemma lookup_delete_where p t k v :
  delete_where p t !! k = Some v ↔ t !! k = Some v ∧ p v = false.
Proof. unfold delete_where. by rewrite map_lookup_filter_Some. Qed.
(** An update of a row that is known. *)
Lemma alter_known f t k v : t !! k = Some v → alter f k t = <[k := f v]> t.
Proof.
  intros Hk. apply map_eq. intros j. destruct (decide (j = k)) as [->|Hne].
  - by rewrite lookup_alter_eq, lookup_insert_eq, Hk.
  - by rewrite lookup_alter_ne, lookup_insert_ne by done.
Qed.
(** An update that changes nothing. *)
Lemma alter_same f t k v : t !! k = Some v → f v = v → alter f k t = t.
Proof. intros Hk Hf. by rewrite (alter_known _ _ _ _ Hk), Hf, insert_id. Qed.
(** A property of every row survives an update that keeps it. *)
Lemma map_Forall_alter (P : K → V → Prop) f t i :
  (∀ v, t !! i = Some v → P i v → P i (f v)) →
  map_Forall P t → map_Forall P (alter f i t).
Proof.
  intros Hf HP k v. destruct (decide (i = k)) as [->|Hne].
  - rewrite lookup_alter_eq.
    destruct (t !! k) as [v0|] eqn:E; cbn; [|done]. intros [= <-]. auto.
  - rewrite lookup_alter_ne by done. apply HP.
Qed.
Lemma map_Forall_update_where (P : K → V → Prop) p f t :
  (∀ k v, t !! k = Some v → p v = true → P k v → P k (f v)) →
  map_Forall P t → map_Forall P (update_where p f t).
Proof.
  intros Hf HP k v. rewrite lookup_update_where. intros (v0 & Hk & ->)%fmap_Some_1.
  destruct (p v0) eqn:E; eauto.
Qed.
Lemma map_Forall_delete_where (P : K → V → Prop) p t :
  map_Forall P t → map_Forall P (delete_where p t).
Proof. intros HP k v [Hk _]%lookup_delete_where. by apply HP. Qed.
(** Every row is stored under its own key. *)
Definition keyed (key : V → K) t : Prop := map_Forall (λ k v, key v = k) t.
Lemma keyed_empty key : keyed key ∅.
Proof. apply map_Forall_empty. Qed.
Lemma keyed_insert key t k v : key v = k → keyed key t → keyed key (<[k:=v]> t).
Proof. intros ??. by apply map_Forall_insert_2. Qed.
Lemma keyed_delete key t k : keyed key t → keyed key (delete k t).
Proof. apply map_Forall_delete. Qed.
Lemma keyed_alter key t f i :
  (∀ v, key (f v) = key v) → keyed key t → keyed key (alter f i t).
Proof. intros Hf. apply map_Forall_alter. intros v _. by rewrite Hf. Qed.
Lemma keyed_update_where key t p f :
  (∀ v, key (f v) = key v) → keyed key t → keyed key (update_where p f t).
Proof. intros Hf. apply map_Forall_update_where. intros k v _ _. by rewrite Hf. Qed.
Lemma keyed_delete_where key t p : keyed key t → keyed key (delete_where p t).
Proof. apply map_Forall_delete_where. Qed.
End Tables.

(** ** Lemmas on addresses *)

Lemma vm_ip_of_inj n m : vm_ip_of n = vm_ip_of m → n = m.
Proof. unfold vm_ip_of. intros H. by simplify_eq. Qed.

Lemma first_free_ip_some lo hi used ip :
  first_free_ip lo hi used = Some ip →
  (ip ∉ used) ∧ ∃ n, (lo ≤ n ≤ hi)%nat ∧ ip = vm_ip_of n.
Proof.
  unfold first_free_ip. intros Hh.
  assert (ip ∈ List.filter (λ ip, negb (bool_decide (ip ∈ used)))
            (vm_ip_of <$> seq lo (hi + 1 - lo))) as Hin.
  { destruct (List.filter _ _); simplify_eq/=. apply list_elem_of_here. }
  rewrite list_elem_of_In, filter_In, <-list_elem_of_In, list_elem_of_fmap in Hin.
  destruct Hin as [(n & -> & Hn%elem_of_seq) Hu].
  apply negb_true_iff, bool_decide_eq_false in Hu.
  split; [done|]. exists n. split; [lia|done].
Qed.

Lemma first_free_ip_none lo hi used n :
  first_free_ip lo hi used = None → (lo ≤ n ≤ hi)%nat → vm_ip_of n ∈ used.
Proof.
  unfold first_free_ip. intros Hh Hn.
  destruct (List.filter _ _) eqn:E; [|done].
  destruct (decide (vm_ip_of n ∈ used)) as [|Hu]; [done|].
  assert (In (vm_ip_of n) []) as [].
  rewrite <-E, filter_In, <-list_elem_of_In. split.
  - apply list_elem_of_fmap. exists n. split; [done|]. apply elem_of_seq. lia.
  - by rewrite bool_decide_false.
Qed.

Lemma head_filter_seq (p : string → bool) lo len n :
  head (List.filter p (vm_ip_of <$> seq lo len)) = Some (vm_ip_of n) →
  ∀ k, (lo ≤ k < n)%nat → p (vm_ip_of k) = false.
Proof.
  revert lo. induction len as [|len IH]; intros lo; cbn; [done|].
  destruct (p (vm_ip_of lo)) eqn:E.
  - cbn. intros Hs k Hk. assert (vm_ip_of lo = vm_ip_of n) as ->%vm_ip_of_inj by congruence.
    lia.
  - intros Hh k Hk. destruct (decide (k = lo)) as [->|]; [done|].
    apply (IH (S lo)); [done|lia].
Qed.

(** The allocation takes the lowest free address. *)
Lemma first_free_ip_least lo hi used n k :
  first_free_ip lo hi used = Some (vm_ip_of n) → (lo ≤ k < n)%nat →
  (vm_ip_of k) ∈ used.
Proof.
  intros Hh Hk. pose proof (head_filter_seq _ _ _ _ Hh k Hk) as Hp.
  apply negb_false_iff, bool_decide_eq_true in Hp. done.
Qed.
