(* ===== verification/GoStrings.v ===== *)
(** * Go's strings and strconv

    The functions of Go's strings and strconv packages the modelled code calls,
    on byte strings. *)

From S2P Require Import Prelude.

#[local] Open Scope string_scope.

Definition ascii_code (c : ascii) : Z := Z.of_nat (Ascii.nat_of_ascii c).

(** [unicode.IsSpace] on ASCII: tab, newline, VT, FF, CR and space. *)
Definition is_space (c : ascii) : bool :=
  let n := ascii_code c in
  bool_decide (9 ≤ n ≤ 13)%Z || bool_decide (n = 32%Z).

Fixpoint TrimLeft (s : string) : string :=
  match s with
  | String c s' => if is_space c then TrimLeft s' else s
  | EmptyString => EmptyString
  end.
Fixpoint TrimRight (s : string) : string :=
  match s with
  | EmptyString => EmptyString
  | String c s' =>
      match TrimRight s' with
      | EmptyString => if is_space c then EmptyString else String c EmptyString
      | t => String c t
      end
  end.
(** [strings.TrimSpace]. *)
Definition TrimSpace (s : string) : string := TrimRight (TrimLeft s).

(** [strings.TrimPrefix]. *)
Fixpoint TrimPrefix_from (s p : string) : option string :=
  match p with
  | EmptyString => Some s
  | String c p' =>
      match s with
      | String c' s' => if Ascii.eqb c c' then TrimPrefix_from s' p' else None
      | EmptyString => None
      end
  end.
Definition TrimPrefix (s p : string) : string := default s (TrimPrefix_from s p).

(** [if i := strings.IndexAny(s, chars); i >= 0 { s = s[:i] }]. *)
Fixpoint cut_any (p : ascii → bool) (s : string) : string :=
  match s with
  | EmptyString => EmptyString
  | String c s' => if p c then EmptyString else String c (cut_any p s')
  end.

(** [strings.Split(s, sep)] for a one-byte separator: never empty. *)
Fixpoint Split (sep : ascii) (s : string) : list string :=
  match s with
  | EmptyString => [EmptyString]
  | String c s' =>
      if Ascii.eqb c sep then EmptyString :: Split sep s'
      else match Split sep s' with
           | p :: ps => String c p :: ps
           | [] => [String c EmptyString]
           end
  end.

(** The bytes before and after the first [sep]. *)
Fixpoint split_first (sep : ascii) (s : string) : option (string * string) :=
  match s with
  | EmptyString => None
  | String c s' =>
      if Ascii.eqb c sep then Some (EmptyString, s')
      else match split_first sep s' with
           | Some (a, b) => Some (String c a, b)
           | None => None
           end
  end.

Definition digit (c : ascii) : option Z :=
  let n := (ascii_code c - 48)%Z in
  if bool_decide (0 ≤ n ≤ 9)%Z then Some n else None.
Fixpoint parse_digits (acc : Z) (s : string) : option Z :=
  match s with
  | EmptyString => Some acc
  | String c s' =>
      match digit c with
      | Some d => parse_digits (acc * 10 + d)%Z s'
      | None => None
      end
  end.
Definition parse_decimal (s : string) : option Z :=
  match s with EmptyString => None | _ => parse_digits 0%Z s end.
Definition int_range (n : Z) : option Z :=
  if bool_decide (- 2 ^ 63 ≤ n < 2 ^ 63)%Z then Some n else None.
(** [strconv.Atoi] on a 64-bit platform. *)
Definition Atoi (s : string) : option Z :=
  match s with
  | String c s' =>
      if Ascii.eqb c "-" then n ← parse_decimal s'; int_range (- n)%Z
      else if Ascii.eqb c "+" then n ← parse_decimal s'; int_range n
      else n ← parse_decimal s; int_range n
  | EmptyString => None
  end.

(** [fmt.Sscanf(s, "%d", &n)]: the first run of digits after spaces and a sign;
    what follows is ignored. *)
Fixpoint skip_space (s : string) : string :=
  match s with
  | String c s' => if is_space c && negb (Ascii.eqb c "010"%char) then skip_space s' else s
  | EmptyString => EmptyString
  end.
Fixpoint take_digits (s : string) : string :=
  match s with
  | String c s' => match digit c with Some _ => String c (take_digits s') | None => EmptyString end
  | EmptyString => EmptyString
  end.
Definition Sscanf_d (s : string) : option Z :=
  match skip_space s with
  | String c s' =>
      if Ascii.eqb c "-" then n ← parse_decimal (take_digits s'); int_range (- n)%Z
      else if Ascii.eqb c "+" then n ← parse_decimal (take_digits s'); int_range n
      else n ← parse_decimal (take_digits (String c s')); int_range n
  | EmptyString => None
  end.
Definition HasPrefix (s p : string) : bool :=
  match TrimPrefix_from s p with Some _ => true | None => false end.

(** [strings.ToLower] and [strings.EqualFold] on ASCII strings. *)
Fixpoint ToLower (s : string) : string :=
  match s with
  | EmptyString => EmptyString
  | String c s' =>
      let n := Ascii.nat_of_ascii c in
      String (if (Nat.leb 65 n && Nat.leb n 90)%bool
              then Ascii.ascii_of_nat (n + 32) else c) (ToLower s')
  end.
Definition EqualFold (a b : string) : bool := String.eqb (ToLower a) (ToLower b).

(** [strings.Contains] and, with the codes of the characters, [strings.ContainsAny]. *)
Fixpoint Contains (s substr : string) : bool :=
  HasPrefix s substr || match s with EmptyString => false | String _ s' => Contains s' substr end.
Fixpoint ContainsAny (s : string) (codes : list nat) : bool :=
  match s with
  | EmptyString => false
  | String c s' => existsb (Nat.eqb (Ascii.nat_of_ascii c)) codes || ContainsAny s' codes
  end.

(** The bytes of a string satisfy a predicate. *)
Fixpoint all_chars (p : ascii → bool) (s : string) : bool :=
  match s with
  | EmptyString => true
  | String c s' => p c && all_chars p s'
  end.
Definition is_digit (c : ascii) : bool :=
  match digit c with Some _ => true | None => false end.

(** ** Lemmas *)

Lemma all_chars_app p a b : all_chars p (a +:+ b) = all_chars p a && all_chars p b.
Proof. induction a as [|c a IH]; simpl; [done|]. by rewrite IH, andb_assoc. Qed.

Lemma all_chars_impl (p q : ascii → bool) s :
  (∀ c, p c = true → q c = true) → all_chars p s = true → all_chars q s = true.
Proof.
  intros H. induction s as [|c s IH]; simpl; [done|].
  rewrite !andb_true_iff. naive_solver.
Qed.

(** Parsing continues over a concatenation of digits. *)
Lemma parse_digits_app a b acc n :
  parse_digits acc a = Some n → parse_digits acc (a +:+ b) = parse_digits n b.
Proof.
  revert acc. induction a as [|c a IH]; intros acc; simpl; [naive_solver|].
  destruct (digit c); naive_solver.
Qed.

(** A string of digits parses to a number at least as large as the start. *)
Lemma parse_digits_total s acc :
  all_chars is_digit s = true → (0 ≤ acc)%Z →
  ∃ n, parse_digits acc s = Some n ∧ (acc ≤ n)%Z.
Proof.
  revert acc. induction s as [|c s IH]; intros acc H Hacc; simpl in *.
  { exists acc. split; [done|lia]. }
  apply andb_true_iff in H as [Hc Hs]. unfold is_digit in Hc.
  destruct (digit c) as [d|] eqn:Hd; [|done].
  unfold digit in Hd. case_bool_decide; simplify_eq.
  destruct (IH (acc * 10 + (ascii_code c - 48))%Z) as (n & ? & ?); [done|lia|].
  exists n. split; [done|lia].
Qed.

(** [pretty] prints a digit for each remainder. *)
Lemma digit_pretty (d : N) :
  (d < 10)%N → digit (pretty_N_char d) = Some (Z.of_N d).
Proof.
  intros H. destruct d as [|p]; [done|].
  do 4 (destruct p as [p|p|]; try done; try lia).
Qed.

Lemma parse_pretty_go (n : N) (s : string) acc :
  parse_digits acc (pretty_N_go n s) =
  (m ← parse_digits acc (pretty_N_go n ""); parse_digits m s).
Proof.
  revert s acc. induction (N.lt_wf_0 n) as [n _ IH]; intros s acc.
  destruct (decide (n = 0%N)) as [->|Hn].
  { by rewrite !pretty_N_go_0. }
  rewrite !(pretty_N_go_step n) by lia.
  assert (n `div` 10 < n)%N by (apply N.div_lt; lia).
  rewrite (IH _ H (String _ s)), (IH _ H (String _ "")).
  destruct (parse_digits acc (pretty_N_go (n `div` 10) "")) as [m|]; simpl; [|done].
  destruct (digit _); done.
Qed.

Lemma parse_pretty_N (n : N) :
  parse_digits 0%Z (pretty_N_go n "") = Some (Z.of_N n).
Proof.
  induction (N.lt_wf_0 n) as [n _ IH].
  destruct (decide (n = 0%N)) as [->|Hn].
  { by rewrite pretty_N_go_0. }
  rewrite pretty_N_go_step by lia.
  assert (n `div` 10 < n)%N by (apply N.div_lt; lia).
  rewrite parse_pretty_go, IH by done. simpl.
  rewrite digit_pretty by (apply N.mod_lt; lia). simpl.
  f_equal. pose proof (N.div_mod n 10 ltac:(lia)). lia.
Qed.

(** The decimal parser reads back what [pretty] prints. *)
Lemma parse_decimal_pretty (n : N) : parse_decimal (pretty n) = Some (Z.of_N n).
Proof.
  unfold parse_decimal, pretty, pretty_N. case_decide as Hn; [by subst|].
  destruct (pretty_N_go n "") eqn:E.
  - pose proof (parse_pretty_N n) as H. rewrite E in H. simpl in H.
    simplify_eq. lia.
  - rewrite <-E. apply parse_pretty_N.
Qed.

Lemma digit_code c : is_digit c = true → (48 ≤ ascii_code c ≤ 57)%Z.
Proof. unfold is_digit, digit. case_bool_decide; [lia|done]. Qed.

Lemma parse_digits_chars s acc n :
  parse_digits acc s = Some n → all_chars is_digit s = true.
Proof.
  revert acc. induction s as [|c s IH]; intros acc; simpl; [done|].
  unfold is_digit. destruct (digit c); [|done]. simpl. apply IH.
Qed.

Lemma pretty_digits (n : N) : all_chars is_digit (pretty n) = true.
Proof.
  pose proof (parse_decimal_pretty n) as H. unfold parse_decimal in H.
  destruct (pretty n) as [|c s]; [done|]. by apply parse_digits_chars in H.
Qed.

Lemma pretty_nonempty (n : N) : pretty n ≠ "".
Proof.
  intros H. pose proof (parse_decimal_pretty n) as P. by rewrite H in P.
Qed.

(** Atoi reads back a printed natural number in range. *)
Lemma Atoi_pretty (n : N) :
  (Z.of_N n < 2 ^ 63)%Z → Atoi (pretty n) = Some (Z.of_N n).
Proof.
  intros H. pose proof (parse_decimal_pretty n) as P.
  pose proof (pretty_digits n) as D.
  unfold Atoi. destruct (pretty n) as [|c s] eqn:E; [done|].
  simpl in D. apply andb_true_iff in D as [Dc _]. apply digit_code in Dc.
  destruct (Ascii.eqb_spec c "-") as [->|]; [vm_compute in Dc; naive_solver|].
  destruct (Ascii.eqb_spec c "+") as [->|]; [vm_compute in Dc; naive_solver|].
  rewrite P. simpl. unfold int_range. rewrite bool_decide_true by lia. done.
Qed.

(** Atoi never leaves the 64-bit range. *)
Lemma Atoi_range s n : Atoi s = Some n → (- 2 ^ 63 ≤ n < 2 ^ 63)%Z.
Proof.
  assert (∀ m, int_range m = Some n → (- 2 ^ 63 ≤ n < 2 ^ 63)%Z) as R.
  { intros m. unfold int_range. case_bool_decide; naive_solver. }
  unfold Atoi. destruct s as [|c s]; [done|].
  destruct (Ascii.eqb c "-"); [|destruct (Ascii.eqb c "+")];
    intros (m & _ & ?)%bind_Some; eauto.
Qed.

Lemma split_first_app sep a b :
  all_chars (λ c, negb (Ascii.eqb c sep)) a = true →
  split_first sep (a +:+ String sep b) = Some (a, b).
Proof.
  induction a as [|c a IH]; simpl.
  - intros _. by rewrite Ascii.eqb_refl.
  - intros [Hc Ha]%andb_true_iff. apply negb_true_iff in Hc. rewrite Hc.
    by rewrite IH.
Qed.

Lemma split_first_inv sep s a b :
  split_first sep s = Some (a, b) →
  s = a +:+ String sep b ∧ all_chars (λ c, negb (Ascii.eqb c sep)) a = true.
Proof.
  revert a b. induction s as [|c s IH]; intros a b; simpl; [done|].
  destruct (Ascii.eqb_spec c sep) as [->|Hc].
  - intros [= <- <-]. done.
  - destruct (split_first sep s) as [[a' b']|]; [|done].
    intros [= <- <-]. destruct (IH a' b' eq_refl) as [-> H]. simpl.
    split; [done|]. rewrite H. by destruct (Ascii.eqb_spec c sep).
Qed.

(** ** Trimming, cutting and splitting a known front *)

Definition not_space (c : ascii) : bool := negb (is_space c).

Lemma TrimRight_app a b :
  all_chars not_space a = true → TrimRight (a +:+ b) = a +:+ TrimRight b.
Proof.
  induction a as [|c a IH]; simpl; [done|]. intros [Hc Ha]%andb_true_iff.
  rewrite IH by done. apply negb_true_iff in Hc. rewrite Hc.
  change (String c a +:+ TrimRight b) with (String c (a +:+ TrimRight b)).
  by destruct (a +:+ TrimRight b).
Qed.
Lemma TrimLeft_nonspace c s : is_space c = false → TrimLeft (String c s) = String c s.
Proof. intros H. simpl. by rewrite H. Qed.
Lemma TrimRight_idem s : TrimRight (TrimRight s) = TrimRight s.
Proof.
  induction s as [|c s IH]; [done|]. cbn [TrimRight]. destruct (TrimRight s) as [|c' t].
  - destruct (is_space c) eqn:E; cbn; by rewrite ?E.
  - change (TrimRight (String c (String c' t))) with
      (match TrimRight (String c' t) with
       | EmptyString => if is_space c then EmptyString else String c EmptyString
       | t => String c t end). by rewrite IH.
Qed.
Lemma TrimLeft_front s : TrimLeft s = EmptyString ∨
  ∃ c t, TrimLeft s = String c t ∧ is_space c = false.
Proof. induction s as [|c s IH]; cbn; [by left|]. destruct (is_space c) eqn:E; eauto. Qed.
Lemma TrimSpace_idem s : TrimSpace (TrimSpace s) = TrimSpace s.
Proof.
  unfold TrimSpace. destruct (TrimLeft_front s) as [->|(c & t & -> & Hc)]; [done|].
  assert (∃ t', TrimRight (String c t) = String c t') as [t' E].
  { cbn [TrimRight]. destruct (TrimRight t); [rewrite Hc|]; eauto. }
  rewrite E, TrimLeft_nonspace by done. rewrite <- E. apply TrimRight_idem.
Qed.
Lemma TrimSpace_app c a b :
  all_chars not_space (String c a) = true →
  TrimSpace (String c a +:+ b) = String c a +:+ TrimRight b.
Proof.
  intros H. unfold TrimSpace. assert (is_space c = false) as Hc
    by (simpl in H; apply andb_true_iff in H as [Hc _]; by apply negb_true_iff in Hc).
  change (String c a +:+ b) with (String c (a +:+ b)) at 1.
  rewrite TrimLeft_nonspace by done.
  change (String c (a +:+ b)) with (String c a +:+ b). by apply TrimRight_app.
Qed.
Lemma cut_any_app p a b :
  all_chars (λ c, negb (p c)) a = true → cut_any p (a +:+ b) = a +:+ cut_any p b.
Proof.
  induction a as [|c a IH]; simpl; [done|]. intros [Hc Ha]%andb_true_iff.
  apply negb_true_iff in Hc. rewrite Hc. by rewrite IH.
Qed.
Lemma Split_nonempty sep s : Split sep s ≠ [].
Proof. destruct s as [|c s]; simpl; [done|]. destruct (Ascii.eqb c sep); [done|]. by case_match. Qed.
Lemma Split_app sep a b :
  all_chars (λ c, negb (Ascii.eqb c sep)) a = true →
  Split sep (a +:+ String sep b) = a :: Split sep b.
Proof.
  induction a as [|c a IH]; simpl.
  - intros _. by rewrite Ascii.eqb_refl.
  - intros [Hc Ha]%andb_true_iff. apply negb_true_iff in Hc. rewrite Hc. by rewrite IH.
Qed.
Lemma Split_single sep a :
  all_chars (λ c, negb (Ascii.eqb c sep)) a = true → Split sep a = [a].
Proof.
  induction a as [|c a IH]; simpl; [done|].
  intros [Hc Ha]%andb_true_iff. apply negb_true_iff in Hc. rewrite Hc. by rewrite IH.
Qed.

Lemma TrimPrefix_from_app p s : TrimPrefix_from (p +:+ s) p = Some s.
Proof.
  induction p as [|c p IH]; [by destruct s|].
  change (String c p +:+ s) with (String c (p +:+ s)). cbn [TrimPrefix_from].
  by rewrite Ascii.eqb_refl, IH.
Qed.
Lemma TrimPrefix_app p s : TrimPrefix (p +:+ s) p = s.
Proof. unfold TrimPrefix. by rewrite TrimPrefix_from_app. Qed.
Lemma TrimPrefix_other c p c' s :
  Ascii.eqb c c' = false → TrimPrefix (String c' s) (String c p) = String c' s.
Proof. intros H. unfold TrimPrefix. cbn [TrimPrefix_from]. by rewrite H. Qed.
Lemma append_nil_r s : s +:+ EmptyString = s.
Proof.
  induction s as [|c s IH]; [done|].
  change (String c (s +:+ EmptyString) = String c s). by rewrite IH.
Qed.
Lemma append_assoc a b c : (a +:+ b) +:+ c = a +:+ (b +:+ c).
Proof.
  induction a as [|x a IH]; [done|].
  change (String x ((a +:+ b) +:+ c) = String x (a +:+ (b +:+ c))). by rewrite IH.
Qed.

(** A digit is none of the characters the version code looks for. *)
Lemma digit_neq c d : is_digit c = true → is_digit d = false → Ascii.eqb c d = false.
Proof. intros Hc Hd. destruct (Ascii.eqb_spec c d) as [->|]; congruence. Qed.
Lemma digit_not_space c : is_digit c = true → not_space c = true.
Proof.
  intros H%digit_code. unfold not_space, is_space.
  rewrite !bool_decide_false by lia. done.
Qed.

Lemma TrimPrefix_from_Some s p t : TrimPrefix_from s p = Some t → s = (p +:+ t)%string.
Proof.
  revert s. induction p as [|c p IH]; intros s; [by destruct s; intros [= <-]|].
  destruct s as [|c' s]; cbn; [done|]. destruct (Ascii.eqb_spec c c') as [<-|]; [|done].
  intros H. change (String c s = String c (p +:+ t)). f_equal. by apply IH.
Qed.
Lemma HasPrefix_app s p : HasPrefix s p = true → s = (p +:+ TrimPrefix s p)%string.
Proof.
  unfold HasPrefix, TrimPrefix. destruct (TrimPrefix_from s p) as [t|] eqn:E; [|done].
  intros _. by apply TrimPrefix_from_Some.
Qed.
Lemma append_inj p a b : (p +:+ a)%string = (p +:+ b)%string → a = b.
Proof. intros E. by rewrite <-(TrimPrefix_app p a), E, TrimPrefix_app. Qed.
