(* ===== verification/Json.v ===== *)
(** * encoding/json: texts of JSON documents

    [Marshal] and [Unmarshal] of Go's encoding/json on the values of [json], a
    printer and a parser on bytes.  The printer escapes as json.Marshal does
    (control characters, quotation marks, backslashes, the HTML characters and the
    line separators U+2028 and U+2029); the parser accepts RFC 8259 with Go's
    treatment of surrogates.  Other bytes from 128 on are copied: texts are valid
    UTF-8.  The parser's fuel bounds the nesting and the number of elements by the
    length of the text, which is enough; Go's own limit of 10000 levels is not
    modelled. *)

From S2P Require Import Prelude Schema GoStrings.

#[local] Open Scope string_scope.

(** ** Characters *)

Definition code (c : ascii) : nat := Ascii.nat_of_ascii c.
Definition chr (n : nat) : ascii := Ascii.ascii_of_nat n.
Definition text1 (c : ascii) : string := String c EmptyString.
Definition quote : ascii := chr 34.
Definition backslash : ascii := chr 92.

Definition hex_char (n : nat) : ascii := if Nat.ltb n 10 then chr (48 + n) else chr (87 + n).
Definition hex_value (c : ascii) : option nat :=
  let n := code c in
  if Nat.leb 48 n && Nat.leb n 57 then Some (n - 48)%nat
  else if Nat.leb 65 n && Nat.leb n 70 then Some (n - 55)%nat
  else if Nat.leb 97 n && Nat.leb n 102 then Some (n - 87)%nat
  else None.
Definition hex4 (a b c d : ascii) : option Z :=
  x ← hex_value a; y ← hex_value b; z ← hex_value c; t ← hex_value d;
  Some (((Z.of_nat x * 16 + Z.of_nat y) * 16 + Z.of_nat z) * 16 + Z.of_nat t)%Z.

(** The UTF-8 encoding of a code point. *)
Definition byte (n : Z) : ascii := chr (Z.to_nat n).
Definition utf8 (n : Z) : string :=
  if bool_decide (n < 128)%Z then text1 (byte n)
  else
    let tail k := byte (128 + Z.land (Z.shiftr n k) 63) in
    if bool_decide (n < 2048)%Z then
      String (byte (192 + Z.shiftr n 6)) (text1 (tail 0%Z))
    else if bool_decide (n < 65536)%Z then
      String (byte (224 + Z.shiftr n 12)) (String (tail 6%Z) (text1 (tail 0%Z)))
    else
      String (byte (240 + Z.shiftr n 18))
        (String (tail 12%Z) (String (tail 6%Z) (text1 (tail 0%Z)))).
Definition replacement : string := utf8 65533.
Definition high_surrogate (n : Z) : bool := bool_decide (55296 ≤ n < 56320)%Z.
Definition low_surrogate (n : Z) : bool := bool_decide (56320 ≤ n < 57344)%Z.

(** ** Printing *)

Definition escape_char (c : ascii) : string :=
  let n := code c in
  let short l := String backslash (text1 l) in
  if Nat.eqb n 34 || Nat.eqb n 92 then short c
  else if Nat.eqb n 8 then short "b"%char
  else if Nat.eqb n 12 then short "f"%char
  else if Nat.eqb n 10 then short "n"%char
  else if Nat.eqb n 13 then short "r"%char
  else if Nat.eqb n 9 then short "t"%char
  else if Nat.ltb n 32 || Nat.eqb n 60 || Nat.eqb n 62 || Nat.eqb n 38 then
    String backslash ("u00" ++ String (hex_char (n / 16)) (text1 (hex_char (n mod 16))))
  else text1 c.
(** The last character of the escape of U+2028 (E2 80 A8) and U+2029 (E2 80 A9). *)
Definition separator (c c2 c3 : ascii) : option ascii :=
  if Nat.eqb (code c) 226 && Nat.eqb (code c2) 128 then
    if Nat.eqb (code c3) 168 then Some "8"%char
    else if Nat.eqb (code c3) 169 then Some "9"%char else None
  else None.
Fixpoint escape (s : string) : string :=
  match s with
  | EmptyString => EmptyString
  | String c s1 =>
      let plain := escape_char c ++ escape s1 in
      match s1 with
      | String c2 (String c3 s3) =>
          match separator c c2 c3 with
          | Some d => String backslash ("u202" ++ String d (escape s3))
          | None => plain
          end
      | _ => plain
      end
  end.
Definition marshal_string (s : string) : string := String quote (escape s ++ text1 quote).
Definition marshal_int (n : Z) : string :=
  if bool_decide (n < 0)%Z then String "-"%char (pretty (Z.to_N (- n))) else pretty (Z.to_N n).

Fixpoint separated (parts : list string) : string :=
  match parts with
  | [] => EmptyString
  | [p] => p
  | p :: rest => p ++ String ","%char (separated rest)
  end.
Fixpoint Marshal (j : json) : string :=
  match j with
  | JNull => "null"
  | JBool b => if b then "true" else "false"
  | JNum n => marshal_int n
  | JFloat numeral => numeral
  | JStr s => marshal_string s
  | JArr l => String "["%char (separated (Marshal <$> l) ++ "]")
  | JObj fields =>
      String "{"%char (separated ((λ '(k, v),
        marshal_string k ++ String ":"%char (Marshal v)) <$> fields) ++ "}")
  end.

(** ** Parsing *)

Definition is_blank (c : ascii) : bool := existsb (Nat.eqb (code c)) [9; 10; 13; 32]%nat.
Fixpoint skip_blank (s : string) : string :=
  match s with
  | String c s' => if is_blank c then skip_blank s' else s
  | EmptyString => EmptyString
  end.

Definition prepend (a : string) (r : option (string * string)) : option (string * string) :=
  match r with Some (s, rest) => Some (a ++ s, rest) | None => None end.
Definition unescape (c : ascii) : option ascii :=
  if Ascii.eqb c "b" then Some (chr 8) else if Ascii.eqb c "f" then Some (chr 12)
  else if Ascii.eqb c "n" then Some (chr 10) else if Ascii.eqb c "r" then Some (chr 13)
  else if Ascii.eqb c "t" then Some (chr 9)
  else if existsb (Ascii.eqb c) [quote; backslash; "/"%char] then Some c else None.
(** The characters of a string up to its closing quotation mark, and what follows. *)
Fixpoint parse_chars (s : string) : option (string * string) :=
  match s with
  | EmptyString => None
  | String c s1 =>
      if Ascii.eqb c quote then Some (EmptyString, s1)
      else if Nat.ltb (code c) 32 then None
      else if negb (Ascii.eqb c backslash) then prepend (text1 c) (parse_chars s1)
      else
        match s1 with
        | EmptyString => None
        | String e s2 =>
            if negb (Ascii.eqb e "u") then
              match unescape e with
              | Some c' => prepend (text1 c') (parse_chars s2)
              | None => None
              end
            else
              match s2 with
              | String h1 (String h2 (String h3 (String h4 s6))) =>
                  match hex4 h1 h2 h3 h4 with
                  | None => None
                  | Some n =>
                      if high_surrogate n then
                        let alone := prepend replacement (parse_chars s6) in
                        match s6 with
                        | String b (String u (String l1 (String l2 (String l3 (String l4 s12))))) =>
                            if Ascii.eqb b backslash && Ascii.eqb u "u" then
                              match hex4 l1 l2 l3 l4 with
                              | Some m =>
                                  if low_surrogate m then
                                    prepend (utf8 (65536 + (n - 55296) * 1024 + (m - 56320)))
                                      (parse_chars s12)
                                  else alone
                              | None => None
                              end
                            else alone
                        | _ => alone
                        end
                      else if low_surrogate n then prepend replacement (parse_chars s6)
                      else prepend (utf8 n) (parse_chars s6)
                  end
              | _ => None
              end
        end
  end.

Fixpoint span_digits (s : string) : string * string :=
  match s with
  | String c s' =>
      if is_digit c then let '(a, b) := span_digits s' in (String c a, b) else (EmptyString, s)
  | EmptyString => (EmptyString, EmptyString)
  end.
Definition digits1 (prefix : string) (s : string) : option (string * string) :=
  match span_digits s with
  | (EmptyString, _) => None
  | (d, rest) => Some (prefix ++ d, rest)
  end.
Definition parse_fraction (s : string) : option (string * string) :=
  match s with
  | String c s' => if Ascii.eqb c "." then digits1 "." s' else Some (EmptyString, s)
  | EmptyString => Some (EmptyString, s)
  end.
Definition parse_exponent (s : string) : option (string * string) :=
  match s with
  | String c s' =>
      if Ascii.eqb c "e" || Ascii.eqb c "E" then
        match s' with
        | String sign s'' =>
            if Ascii.eqb sign "+" || Ascii.eqb sign "-"
            then digits1 (String c (text1 sign)) s'' else digits1 (text1 c) s'
        | EmptyString => None
        end
      else Some (EmptyString, s)
  | EmptyString => Some (EmptyString, s)
  end.
(** No leading zero. *)
Definition int_digits (d : string) : bool :=
  match d with
  | EmptyString => false
  | String c rest => negb (Ascii.eqb c "0") || String.eqb rest ""
  end.
Definition parse_unsigned (neg : bool) (s : string) : option (json * string) :=
  let '(int, s1) := span_digits s in
  if negb (int_digits int) then None
  else
    '(frac, s2) ← parse_fraction s1;
    '(exp, s3) ← parse_exponent s2;
    if String.eqb frac "" && String.eqb exp "" then
      n ← parse_decimal int; Some (JNum (if neg then - n else n)%Z, s3)
    else Some (JFloat ((if neg then "-" else "") ++ int ++ frac ++ exp), s3).
Definition parse_number (s : string) : option (json * string) :=
  match s with
  | String c s' => if Ascii.eqb c "-" then parse_unsigned true s' else parse_unsigned false s
  | EmptyString => None
  end.

(** A punctuation mark, after blanks. *)
Definition expect (c : ascii) (s : string) : option string :=
  match skip_blank s with
  | String c' s' => if Ascii.eqb c' c then Some s' else None
  | EmptyString => None
  end.
Definition literal (text : string) (j : json) (s : string) : option (json * string) :=
  rest ← TrimPrefix_from s text; Some (j, rest).
(** What follows an element: a comma, or the end. *)
Definition next_or_end {A} (close : ascii) (a : A) (more : string → option (list A * string))
    (s : string) : option (list A * string) :=
  match expect close s with
  | Some rest => Some ([a], rest)
  | None => s' ← expect "," s; '(l, rest) ← more s'; Some (a :: l, rest)
  end.
Fixpoint parse_value (fuel : nat) (s : string) : option (json * string) :=
  match fuel with
  | O => None
  | S fuel' =>
      match skip_blank s with
      | EmptyString => None
      | String c s1 =>
          if Ascii.eqb c quote then '(t, rest) ← parse_chars s1; Some (JStr t, rest)
          else if Ascii.eqb c "[" then
            match expect "]" s1 with
            | Some rest => Some (JArr [], rest)
            | None => '(l, rest) ← parse_elements fuel' s1; Some (JArr l, rest)
            end
          else if Ascii.eqb c "{" then
            match expect "}" s1 with
            | Some rest => Some (JObj [], rest)
            | None => '(l, rest) ← parse_members fuel' s1; Some (JObj l, rest)
            end
          else if Ascii.eqb c "t" then literal "true" (JBool true) (String c s1)
          else if Ascii.eqb c "f" then literal "false" (JBool false) (String c s1)
          else if Ascii.eqb c "n" then literal "null" JNull (String c s1)
          else parse_number (String c s1)
      end
  end
with parse_elements (fuel : nat) (s : string) : option (list json * string) :=
  match fuel with
  | O => None
  | S fuel' =>
      '(j, s1) ← parse_value fuel' s;
      next_or_end "]" j (parse_elements fuel') s1
  end
with parse_members (fuel : nat) (s : string) : option (list (string * json) * string) :=
  match fuel with
  | O => None
  | S fuel' =>
      s1 ← expect quote s;
      '(k, s2) ← parse_chars s1;
      s3 ← expect ":" s2;
      '(j, s4) ← parse_value fuel' s3;
      next_or_end "}" (k, j) (parse_members fuel') s4
  end.
(** A value takes a character at least, and an element or a member another. *)
Definition Unmarshal (s : string) : option json :=
  '(j, rest) ← parse_value (2 * String.length s + 2) s;
  if String.eqb (skip_blank rest) "" then Some j else None.

(** ** Into a struct *)

(** A field [[]string]: keys are compared without case, the last one counts, null is
    the nil slice, a null element the empty string; [None] is an error. *)
Definition string_element (j : json) : option string :=
  match j with JStr s => Some s | JNull => Some EmptyString | _ => None end.
Fixpoint strings_field (key : string) (fields : list (string * json)) (v : list string)
    : option (list string) :=
  match fields with
  | [] => Some v
  | (k, j) :: rest =>
      if EqualFold k key then
        match j with
        | JArr l => v' ← mapM string_element l; strings_field key rest v'
        | JNull => strings_field key rest []
        | _ => None
        end
      else strings_field key rest v
  end.
