(* ===== verification/JsonSpec.v ===== *)
(** * Texts of documents are read back *)

From S2P Require Import Prelude Schema GoStrings Json.

#[local] Open Scope string_scope.

(** ** Strings *)

Lemma parse_escape_char c t : parse_chars (escape_char c ++ t) = prepend (text1 c) (parse_chars t).
Proof. destruct c as [[] [] [] [] [] [] [] []]; reflexivity. Qed.
Lemma separator_ok c c2 c3 d :
  separator c c2 c3 = Some d → ∃ n, utf8 n = String c (String c2 (text1 c3)) ∧
    (n = 8232%Z ∧ d = "8"%char ∨ n = 8233%Z ∧ d = "9"%char).
Proof.
  unfold separator. intros H. destruct (Nat.eqb (code c) 226) eqn:E1; [|done].
  destruct (Nat.eqb (code c2) 128) eqn:E2; [|done]. cbn in H.
  apply Nat.eqb_eq in E1, E2.
  assert (∀ a n, code a = n → a = chr n) as Hc by (intros a n <-; symmetry; apply ascii_nat_embedding).
  apply Hc in E1, E2. destruct (Nat.eqb (code c3) 168) eqn:E3.
  { apply Nat.eqb_eq, Hc in E3. injection H as <-. exists 8232%Z. subst. auto. }
  destruct (Nat.eqb (code c3) 169) eqn:E4; [|done].
  apply Nat.eqb_eq, Hc in E4. injection H as <-. exists 8233%Z. subst. auto.
Qed.
Lemma parse_separator c c2 c3 d t :
  separator c c2 c3 = Some d →
  parse_chars (String backslash ("u202" ++ String d t)) =
  prepend (String c (String c2 (text1 c3))) (parse_chars t).
Proof. intros (n & <- & [[-> ->]|[-> ->]])%separator_ok; reflexivity. Qed.

Lemma parse_escape s rest : parse_chars (escape s ++ String quote rest) = Some (s, rest).
Proof.
  remember (String.length s) as n eqn:En. revert s En.
  induction n as [n IH] using lt_wf_ind. intros [|c s1] ->; [reflexivity|].
  assert (parse_chars ((escape_char c ++ escape s1) ++ String quote rest) =
          Some (String c s1, rest)) as Hplain.
  { rewrite append_assoc, parse_escape_char, (IH (String.length s1)); [done|cbn; lia|done]. }
  destruct s1 as [|c2 [|c3 s3]]; [exact Hplain..|]. cbn [escape].
  destruct (separator c c2 c3) as [d|] eqn:Es; [|exact Hplain].
  change (String backslash ("u202" ++ String d (escape s3)) ++ String quote rest)
    with (String backslash ("u202" ++ String d (escape s3 ++ String quote rest))).
  rewrite (parse_separator c c2 c3 d) by done. rewrite (IH (String.length s3)); [done|cbn; lia|done].
Qed.
Lemma parse_marshal_string s rest :
  ∃ t, marshal_string s ++ rest = String quote t ∧ parse_chars t = Some (s, rest).
Proof.
  eexists. split; [reflexivity|]. rewrite append_assoc. apply parse_escape.
Qed.

(** ** Numbers *)

(** What follows a value in a text. *)
Definition ends (rest : string) : Prop :=
  match rest with EmptyString => True | String c _ => c = ","%char ∨ c = "]"%char ∨ c = "}"%char end.

Lemma span_digits_app d rest :
  all_chars is_digit d = true → ends rest → span_digits (d ++ rest) = (d, rest).
Proof.
  intros Hd Hr. induction d as [|c d IH].
  - destruct rest as [|c t]; [done|]. by destruct Hr as [->|[->| ->]].
  - cbn [all_chars] in Hd. apply andb_true_iff in Hd as [Hc Hd].
    change (String c d ++ rest) with (String c (d ++ rest)). cbn [span_digits]. by rewrite Hc, IH.
Qed.
Lemma pretty_go_front n s :
  (0 < n)%N → ∃ c t, pretty_N_go n s = String c t ∧ c ≠ "0"%char.
Proof.
  revert s. induction (N.lt_wf_0 n) as [n _ IH]. intros s Hn.
  rewrite pretty_N_go_step by done. destruct (decide (n < 10)%N) as [H|H].
  - rewrite N.div_small, N.mod_small by done. rewrite pretty_N_go_0.
    eexists _, _. split; [done|]. destruct n as [|p]; [done|].
    do 4 (destruct p as [p|p|]; try done; try lia).
  - apply IH; [apply N.div_lt; lia|]. apply N.div_str_pos. lia.
Qed.
Lemma int_digits_pretty (n : N) : int_digits (pretty n) = true.
Proof.
  unfold pretty, pretty_N. case_decide; [by subst|].
  destruct (pretty_go_front n "") as (c & t & -> & Hc); [lia|]. cbn.
  by apply Ascii.eqb_neq in Hc as ->.
Qed.
Lemma parse_unsigned_pretty neg (n : N) rest :
  ends rest →
  parse_unsigned neg (pretty n ++ rest) = Some (JNum (if neg then - Z.of_N n else Z.of_N n)%Z, rest).
Proof.
  intros Hr. unfold parse_unsigned.
  rewrite span_digits_app by (done || apply pretty_digits). rewrite int_digits_pretty. cbn.
  assert (parse_fraction rest = Some ("", rest)) as ->
    by (destruct rest as [|c t]; [done|by destruct Hr as [->|[->| ->]]]).
  cbn. assert (parse_exponent rest = Some ("", rest)) as ->
    by (destruct rest as [|c t]; [done|by destruct Hr as [->|[->| ->]]]).
  cbn. by rewrite parse_decimal_pretty.
Qed.
Lemma pretty_front (n : N) : ∃ c t, pretty n = String c t ∧ is_digit c = true.
Proof.
  pose proof (pretty_nonempty n). pose proof (pretty_digits n) as Hd.
  destruct (pretty n) as [|c t]; [done|]. apply andb_true_iff in Hd as [? _]. eauto.
Qed.
Lemma parse_marshal_int n rest :
  ends rest → parse_number (marshal_int n ++ rest) = Some (JNum n, rest).
Proof.
  intros Hr. unfold marshal_int. case_bool_decide as Hn.
  - change ((String "-" ?a) ++ rest) with (String "-"%char (a ++ rest)).
    cbn [parse_number append]. rewrite Ascii.eqb_refl, parse_unsigned_pretty by done.
    do 3 f_equal. lia.
  - destruct (pretty_front (Z.to_N n)) as (c & t & E & Hc).
    pose proof (parse_unsigned_pretty false (Z.to_N n) rest Hr) as H. rewrite E in *.
    change (String c t ++ rest) with (String c (t ++ rest)) in *. cbn [parse_number]. destruct (Ascii.eqb_spec c "-") as [->|]; [done|].
    rewrite H. do 3 f_equal. lia.
Qed.

(** ** Documents *)

(** No fractions: their texts are not canonical. *)
Fixpoint integral (j : json) : bool :=
  match j with
  | JFloat _ => false
  | JArr l => forallb integral l
  | JObj fields => forallb (λ '(_, v), integral v) fields
  | _ => true
  end.

Section Induction.
Variable P : json → Prop.
Hypothesis HNull : P JNull.
Hypothesis HBool : ∀ b, P (JBool b).
Hypothesis HNum : ∀ n, P (JNum n).
Hypothesis HFloat : ∀ t, P (JFloat t).
Hypothesis HStr : ∀ s, P (JStr s).
Hypothesis HArr : ∀ l, Forall P l → P (JArr l).
Hypothesis HObj : ∀ fields, Forall (λ f, P f.2) fields → P (JObj fields).
Fixpoint json_nested_ind (j : json) : P j :=
  match j with
  | JNull => HNull
  | JBool b => HBool b
  | JNum n => HNum n
  | JFloat t => HFloat t
  | JStr s => HStr s
  | JArr l => HArr l ((fix go l : Forall P l :=
      match l with
      | [] => List.Forall_nil _
      | j :: l' => List.Forall_cons _ _ _ (json_nested_ind j) (go l')
      end) l)
  | JObj fields => HObj fields ((fix go l : Forall (λ f, P f.2) l :=
      match l with
      | [] => List.Forall_nil _
      | (k, j) :: l' => List.Forall_cons _ (k, j) _ (json_nested_ind j) (go l')
      end) fields)
  end.
End Induction.

(** The text of a value starts with a character that is no blank and closes nothing. *)
Definition front (c : ascii) : bool :=
  is_digit c || existsb (Ascii.eqb c) [quote; "["; "{"; "t"; "f"; "n"; "-"]%char.
Lemma Marshal_front j : integral j = true → ∃ c t, Marshal j = String c t ∧ front c = true.
Proof.
  destruct j as [|[]|n| | | |]; try (intros _; eexists _, _; split; reflexivity).
  - intros _. cbn. unfold marshal_int. case_bool_decide; [eexists _, _; by split|].
    destruct (pretty_front (Z.to_N n)) as (c & t & -> & Hc). exists c, t.
    split; [done|]. unfold front. by rewrite Hc.
  - done.
Qed.
Lemma front_plain c : front c = true → is_blank c = false ∧ c ≠ "]"%char ∧ c ≠ "}"%char.
Proof. destruct c as [[] [] [] [] [] [] [] []]; vm_compute; try done; by repeat split. Qed.
Lemma skip_front c t : front c = true → skip_blank (String c t) = String c t.
Proof. intros [H _]%front_plain. cbn [skip_blank]. by rewrite H. Qed.
Lemma expect_front close c t :
  front c = true → close = "]"%char ∨ close = "}"%char → expect close (String c t) = None.
Proof.
  intros Hf Hc. unfold expect. rewrite skip_front by done. apply front_plain in Hf as (_ & H1 & H2).
  destruct (Ascii.eqb_spec c close); [|done]. naive_solver.
Qed.

Definition reads (j : json) : Prop :=
  integral j = true → ∀ fuel rest, (2 * String.length (Marshal j) ≤ fuel)%nat → ends rest →
  parse_value fuel (Marshal j ++ rest) = Some (j, rest).

Lemma length_cat a b : String.length (a ++ b) = (String.length a + String.length b)%nat.
Proof. induction a as [|c a IH]; [done|]. change (S (String.length (a ++ b)) = S (String.length a + String.length b)). by rewrite IH. Qed.
Lemma next_end {A} close (a : A) more rest :
  close = "]"%char ∨ close = "}"%char →
  next_or_end close a more (String close rest) = Some ([a], rest).
Proof. by intros [->| ->]. Qed.
Lemma next_more {A} close (a : A) more s l rest :
  close = "]"%char ∨ close = "}"%char → more s = Some (l, rest) →
  next_or_end close a more (String ","%char s) = Some (a :: l, rest).
Proof.
  intros Hc H. unfold next_or_end.
  assert (expect close (String ","%char s) = None) as -> by (by destruct Hc as [->| ->]).
  assert (expect "," (String ","%char s) = Some s) as -> by done. cbn [mbind option_bind]. by rewrite H.
Qed.

Lemma parse_elements_ok l :
  l ≠ [] → Forall reads l → forallb integral l = true → ∀ fuel rest,
  (2 * String.length (separated (Marshal <$> l)) + 1 ≤ fuel)%nat →
  parse_elements fuel (separated (Marshal <$> l) ++ String "]" rest) = Some (l, rest).
Proof.
  induction l as [|j l IH]; [done|]. intros _ [Hj Hl]%Forall_cons [Ij Il]%andb_true_iff fuel rest Hf.
  destruct fuel as [|fuel]; [lia|]. destruct l as [|j2 l].
  - cbn [fmap list_fmap separated] in *. cbn [parse_elements].
    rewrite Hj; [|done|lia|by right; left]. by apply next_end; left.
  - change (separated (Marshal <$> j :: j2 :: l))
      with (Marshal j ++ String ","%char (separated (Marshal <$> j2 :: l))) in *.
    rewrite append_assoc. rewrite length_cat in Hf. cbn [String.length] in Hf.
    cbn [parse_elements]. rewrite Hj; [|done|lia|by left].
    apply next_more; [by left|]. apply IH; [done..|]. lia.
Qed.

Definition member_text (f : string * json) : string :=
  marshal_string f.1 ++ String ":"%char (Marshal f.2).
Lemma expect_member k t :
  ∃ s1, expect quote (marshal_string k ++ t) = Some s1 ∧ parse_chars s1 = Some (k, t).
Proof.
  destruct (parse_marshal_string k t) as (s1 & -> & H). exists s1. split; [reflexivity|done].
Qed.
Lemma parse_members_ok l :
  l ≠ [] → Forall (λ f, reads f.2) l → forallb (λ '(_, v), integral v) l = true → ∀ fuel rest,
  (2 * String.length (separated (member_text <$> l)) + 1 ≤ fuel)%nat →
  parse_members fuel (separated (member_text <$> l) ++ String "}" rest) = Some (l, rest).
Proof.
  induction l as [|[k j] l IH]; [done|].
  intros _ [Hj Hl]%Forall_cons [Ij Il]%andb_true_iff fuel rest Hf.
  destruct fuel as [|fuel]; [lia|]. cbn [fst snd] in Hj.
  assert (∀ t, ends t → (2 * String.length (Marshal j) ≤ fuel)%nat →
    parse_members (S fuel) (member_text (k, j) ++ t) =
    next_or_end "}" (k, j) (parse_members fuel) t) as Hm.
  { intros t Ht Hf'. unfold member_text. cbn [fst snd].
    rewrite append_assoc. destruct (expect_member k (String ":" (Marshal j ++ t))) as (s1 & E1 & E2).
    change (String ":" (Marshal j) ++ t) with (String ":"%char (Marshal j ++ t)).
    cbn [parse_members]. rewrite E1. cbn [mbind option_bind]. rewrite E2.
    cbn [mbind option_bind]. assert (∀ t', expect ":" (String ":"%char t') = Some t') as -> by done.
    cbn [mbind option_bind]. by rewrite Hj. }
  destruct l as [|f2 l].
  - cbn [fmap list_fmap separated] in *. unfold member_text at 1 in Hf. cbn [fst snd] in Hf.
    rewrite length_cat in Hf. cbn [String.length] in Hf.
    rewrite Hm; [by apply next_end; right|by right; right|lia].
  - change (separated (member_text <$> (k, j) :: f2 :: l))
      with (member_text (k, j) ++ String ","%char (separated (member_text <$> f2 :: l))) in *.
    rewrite append_assoc. rewrite length_cat in Hf. cbn [String.length] in Hf.
    unfold member_text at 1 in Hf. cbn [fst snd] in Hf. rewrite length_cat in Hf.
    cbn [String.length] in Hf. change (String "," ?a ++ ?b) with (String ","%char (a ++ b)).
    rewrite Hm; [|by left|lia]. apply next_more; [by right|]. apply IH; [done..|]. lia.
Qed.

Lemma literal_ok text j rest : literal text j (text ++ rest) = Some (j, rest).
Proof. unfold literal. by rewrite TrimPrefix_from_app. Qed.
Lemma marshal_int_front n : ∃ c t, marshal_int n = String c t ∧ (is_digit c = true ∨ c = "-"%char).
Proof.
  unfold marshal_int. case_bool_decide; [by eauto|].
  destruct (pretty_front (Z.to_N n)) as (c & t & -> & Hc). eauto.
Qed.
Lemma parse_value_number fuel c t :
  is_digit c = true ∨ c = "-"%char → parse_value (S fuel) (String c t) = parse_number (String c t).
Proof. destruct c as [[] [] [] [] [] [] [] []]; intros [H|H]; try done; reflexivity. Qed.
Lemma parse_value_string fuel t :
  parse_value (S fuel) (String quote t) = '(s, rest) ← parse_chars t; Some (JStr s, rest).
Proof. reflexivity. Qed.
Lemma parse_value_array fuel t :
  parse_value (S fuel) (String "["%char t) =
  match expect "]" t with
  | Some rest => Some (JArr [], rest)
  | None => '(l, rest) ← parse_elements fuel t; Some (JArr l, rest)
  end.
Proof. reflexivity. Qed.
Lemma parse_value_object fuel t :
  parse_value (S fuel) (String "{"%char t) =
  match expect "}" t with
  | Some rest => Some (JObj [], rest)
  | None => '(l, rest) ← parse_members fuel t; Some (JObj l, rest)
  end.
Proof. reflexivity. Qed.
Lemma separated_front texts c t :
  (∃ rest, texts = String c t :: rest) → ∃ t', separated texts = String c t'.
Proof. intros [[|p rest] ->]; [by eauto|]. cbn [separated]. eexists. reflexivity. Qed.

Lemma reads_all j : reads j.
Proof.
  induction j as [|b|n|t|s|l Hl|l Hl] using json_nested_ind; intros Hi fuel rest Hf Hr.
  - destruct fuel as [|fuel]; [cbn in Hf; lia|]. apply (literal_ok "null").
  - destruct fuel as [|fuel]; [destruct b; cbn in Hf; lia|].
    destruct b; [apply (literal_ok "true")|apply (literal_ok "false")].
  - rewrite <- (parse_marshal_int n rest Hr). cbn [Marshal] in *.
    destruct (marshal_int_front n) as (c & t & E & Hc). rewrite E in *.
    destruct fuel as [|fuel]; [cbn in Hf; lia|]. by apply parse_value_number.
  - done.
  - destruct fuel as [|fuel]; [cbn in Hf; lia|].
    destruct (parse_marshal_string s rest) as (t & E & H). cbn [Marshal] in *. rewrite E.
    by rewrite parse_value_string, H.
  - destruct fuel as [|fuel]; [cbn in Hf; lia|]. destruct l as [|j l]; [reflexivity|].
    cbn [Marshal]. set (t := separated (Marshal <$> j :: l)) in *.
    assert (∃ c t', t = String c t' ∧ front c = true) as (c & t' & Et & Hc).
    { apply andb_true_iff in Hi as [Ij _]. destruct (Marshal_front j Ij) as (c & t' & E & Hc).
      destruct (separated_front (Marshal <$> j :: l) c t') as [t2 E2]; [cbn; rewrite E; eauto|eauto]. }
    pose proof (parse_elements_ok (j :: l) ltac:(done) Hl Hi fuel rest) as H. fold t in H.
    cbn [Marshal String.length] in Hf. fold t in Hf. rewrite length_cat in Hf.
    specialize (H ltac:(cbn [String.length] in Hf; lia)).
    change (String "[" (t ++ "]") ++ rest) with (String "["%char ((t ++ "]") ++ rest)).
    rewrite append_assoc. change ("]" ++ rest) with (String "]"%char rest).
    rewrite parse_value_array, H, Et. change (String c t' ++ ?x) with (String c (t' ++ x)).
    by rewrite expect_front by auto.
  - destruct fuel as [|fuel]; [cbn in Hf; lia|]. destruct l as [|f l]; [reflexivity|].
    assert (Marshal (JObj (f :: l)) = String "{"%char (separated (member_text <$> f :: l) ++ "}")) as E.
    { cbn [Marshal]. do 2 f_equal. f_equal. apply list_fmap_ext. by intros ? [] _. }
    rewrite E in *. set (t := separated (member_text <$> f :: l)) in *.
    pose proof (parse_members_ok (f :: l) ltac:(done) Hl Hi fuel rest) as H. fold t in H.
    cbn [String.length] in Hf. rewrite length_cat in Hf.
    specialize (H ltac:(cbn [String.length] in Hf; lia)).
    change (String "{" (t ++ "}") ++ rest) with (String "{"%char ((t ++ "}") ++ rest)).
    rewrite append_assoc. change ("}" ++ rest) with (String "}"%char rest).
    rewrite parse_value_object, H.
    destruct (separated_front (member_text <$> f :: l) quote
      (escape f.1 ++ text1 quote ++ String ":"%char (Marshal f.2))) as [t' Et].
    { eexists. cbn [fmap list_fmap]. f_equal. unfold member_text, marshal_string.
      change (String quote ?a ++ ?b) with (String quote (a ++ b)). by rewrite append_assoc. }
    unfold t. rewrite Et. change (String quote t' ++ ?x) with (String quote (t' ++ x)).
    by rewrite expect_front by auto.
Qed.

(** json.Unmarshal reads back what json.Marshal prints: every document without
    fractions, whatever its strings hold (quotation marks, control characters, HTML
    characters, line separators), with the fuel that the parser gives itself. *)
Lemma Unmarshal_Marshal (j : json) : integral j = true → Unmarshal (Marshal j) = Some j.
Proof.
  intros Hi. unfold Unmarshal.
  pose proof (reads_all j Hi (2 * String.length (Marshal j) + 2)%nat "" ltac:(lia) I) as H.
  rewrite append_nil_r in H. by rewrite H.
Qed.
