(* ===== verification/HostStore.v ===== *)
(** * Hosts and machines: store/postgres.go

    The statements of store/postgres.go on the tables hosts and machines, one
    Definition per Go method with its name.  An UPDATE of one row is [alter] on
    the table (no row, no effect); a method that opens a transaction is inside
    [tx], so that every error leaves the database as it was. *)

From S2P Require Import Prelude Schema.

(** ** Rows and predicates *)

Definition update_machine (id : string) (f : Machine → Machine) : Q unit :=
  modify (set db_machines (alter f id)).
Definition update_host (id : Z) (f : Host → Host) : Q unit :=
  modify (set db_hosts (alter f id)).

(** [(SELECT COUNT( * ) FROM machines WHERE machines.host_id = hosts.id AND
    machines.status = 'running')], which every query of a host row computes. *)
Definition machine_count (db : DB) (id : Z) : Z :=
  count_where (λ m, bool_decide (Machine_HostID m = Some id) &&
                    String.eqb (Machine_Status m) "running") (db_machines db).
Definition host_row (db : DB) (h : Host) : Host :=
  h <| Host_MachineCount := machine_count db (Host_ID h) |>.

(** [last_heartbeat > now() - interval '180 seconds'] (NULL is not). *)
Definition fresh_heartbeat (now : time) (h : Host) : bool :=
  match Host_LastHeartbeat h with
  | Some hb => bool_decide (now - seconds 180 < hb)
  | None => false
  end.
Definition room_vcpus (n : Z) (h : Host) : bool :=
  bool_decide (n ≤ Host_CapacityVCPUs h - Host_UsedVCPUs h).
Definition room_memory (n : Z) (h : Host) : bool :=
  bool_decide (n ≤ Host_CapacityMemoryMB h - Host_UsedMemoryMB h).
(** [capacity_disk_mb = 0 OR ...]: 0 means that disk is not tracked. *)
Definition room_disk (n : Z) (h : Host) : bool :=
  bool_decide (Host_CapacityDiskMB h = 0) ||
  bool_decide (n ≤ Host_CapacityDiskMB h - Host_UsedDiskMB h).

(** The WHERE clause PlaceOnHost locks the host row with. *)
Definition placeable (now : time) (vcpus memoryMB diskMB : Z) (h : Host) : bool :=
  String.eqb (Host_Status h) "ready" && negb (Host_MaintenanceMode h) &&
  fresh_heartbeat now h && room_vcpus vcpus h && room_memory memoryMB h &&
  room_disk diskMB h.

(** [SET used_vcpus = used_vcpus + ..., ...]. *)
Definition host_use (vcpus memoryMB diskMB : Z) (h : Host) : Host :=
  h <| Host_UsedVCPUs ::= λ u, u + vcpus |>
    <| Host_UsedMemoryMB ::= λ u, u + memoryMB |>
    <| Host_UsedDiskMB ::= λ u, u + diskMB |>.
(** [SET used_vcpus = GREATEST(0, used_vcpus - ...), ...]. *)
Definition host_free (vcpus memoryMB diskMB : Z) (h : Host) : Host :=
  h <| Host_UsedVCPUs ::= λ u, Z.max 0 (u - vcpus) |>
    <| Host_UsedMemoryMB ::= λ u, Z.max 0 (u - memoryMB) |>
    <| Host_UsedDiskMB ::= λ u, Z.max 0 (u - diskMB) |>.
Definition host_free_cpu (vcpus memoryMB : Z) (h : Host) : Host :=
  h <| Host_UsedVCPUs ::= λ u, Z.max 0 (u - vcpus) |>
    <| Host_UsedMemoryMB ::= λ u, Z.max 0 (u - memoryMB) |>.
Definition host_use_cpu (vcpus memoryMB : Z) (h : Host) : Host :=
  h <| Host_UsedVCPUs ::= λ u, u + vcpus |>
    <| Host_UsedMemoryMB ::= λ u, u + memoryMB |>.

(** [SET host_id = $2, vm_ip = $3, status = 'provisioning',
    provisioning_started_at = now()]. *)
Definition machine_assign (now : time) (hostID : Z) (vmIP : string) (m : Machine)
    : Machine :=
  m <| Machine_HostID := Some hostID |> <| Machine_VMIP := Some vmIP |>
    <| Machine_Status := "provisioning"%string |>
    <| Machine_ProvisioningStartedAt := Some now |>.
(** [SET host_id = NULL, vm_ip = NULL, status = 'stopped', stopped_at = now()]. *)
Definition machine_unassign (now : time) (m : Machine) : Machine :=
  m <| Machine_HostID := None |> <| Machine_VMIP := None |>
    <| Machine_Status := "stopped"%string |> <| Machine_StoppedAt := Some now |>.

(** [SELECT vm_ip FROM machines WHERE host_id = $1 AND vm_ip IS NOT NULL]. *)
Definition machine_ips (db : DB) (hostID : Z) : list string :=
  omap Machine_VMIP
    (select (λ m, bool_decide (Machine_HostID m = Some hostID)) (db_machines db)).
(** The addresses of the unreleased placement rows of a host. *)
Definition placement_ips (db : DB) (hostID : Z) : list string :=
  Placement_VMIP <$>
    select (λ p, bool_decide (Placement_HostID p = hostID) &&
                 bool_decide (Placement_ReleasedAt p = None)) (db_placements db).
Definition browser_placement_ips (db : DB) (hostID : Z) : list string :=
  BrowserVMPlacement_VMIP <$>
    select (λ p, bool_decide (BrowserVMPlacement_HostID p = hostID) &&
                 bool_decide (BrowserVMPlacement_ReleasedAt p = None))
      (db_browser_vm_placements db).
(** The CTE [used_ips]. *)
Definition used_ips (db : DB) (hostID : Z) : list string :=
  placement_ips db hostID ++ browser_placement_ips db hostID ++
  machine_ips db hostID.

(** ** Machines *)

(** chk_machines_desired_channel (migrations/097_experimental_release_channel.sql). *)
Definition allowed_channel (channel : option string) : bool :=
  match channel with
  | None => true
  | Some c => one_of ["stable"; "rc"; "dev"; "experimental"]%string c
  end.

Definition CreateMachine (m : Machine) : Q Machine :=
  tx (
    let! t := now in
    let! db := get in
    references (is_some_b (db_accounts db !! Machine_AccountID m)) ;;
    (* WITH default_workspace ... selected_workspace ... *)
    let! ws :=
      match select (λ w, bool_decide (Workspace_AccountID w = Machine_AccountID m)
                         && String.eqb (Workspace_Slug w) "default")
              (db_workspaces db) with
      | w :: _ => ret (Workspace_ID w)
      | [] =>
          let! id := gen_random_uuid in
          modify (set db_workspaces
            <[id := mkWorkspace id (Machine_AccountID m) "default" "Default" t t]>) ;;
          ret id
      end in
    let kind := if String.eqb (Machine_Kind m) "" then "openclaw"%string
                else Machine_Kind m in
    let source := default "auto"%string (Machine_RuntimeSource m) in
    (* CHECK (kind IN (...)), CHECK (runtime_source = 'artifact'), CHECK (desired_channel ...) *)
    (if one_of ["openclaw"; "hermes"]%string kind && String.eqb source "artifact" &&
        allowed_channel (Machine_DesiredChannel m)
     then ret tt else fail ErrCheckViolation) ;;
    let! id := gen_random_uuid in
    unique (negb (is_some_b (db_machines db !! id)) &&
            bool_decide (select (λ m', bool_decide (Machine_AccountID m' = Machine_AccountID m)
                && String.eqb (Machine_Slug m') (Machine_Slug m)) (db_machines db) = [])) ;;
    let row := mkMachine id (Machine_AccountID m)
      (Some (default ws (Machine_WorkspaceID m))) kind (Machine_Name m)
      (Machine_Slug m) (Machine_PreferredRegion m) (Machine_Status m) None
      (Machine_VCPUs m) (Machine_MemoryMB m) None None None None
      (Machine_GatewayToken m) None None None None None None t None None
      (Machine_DataVolumeGB m) (Machine_DesiredRootfsVersion m)
      (Machine_DesiredOpenclawVersion m) (Machine_DesiredChannel m) None None None
      None (Machine_VersionSource m) (Some source) None None None None None
      EmptyString None "host_local" true None None in
    modify (set db_machines <[id := row]>) ;;
    ret (m <| Machine_ID := id |> <| Machine_CreatedAt := t |>)).

Definition GetMachine (id : string) : Q Machine :=
  let! db := get in query_row (db_machines db !! id).

Definition GetMachineBySlug (slug : string) : Q Machine :=
  let! db := get in
  query_row (head (select (λ m, String.eqb (Machine_Slug m) slug) (db_machines db))).

Definition ListMachinesByAccount (accountID : Z) : Q (list Machine) :=
  gets (λ db, order_by_desc Machine_CreatedAt
    (select (λ m, bool_decide (Machine_AccountID m = accountID)) (db_machines db))).

Definition ListMachinesByHost (hostID : Z) : Q (list Machine) :=
  gets (λ db,
    select (λ m, bool_decide (Machine_HostID m = Some hostID)) (db_machines db)).

Definition ListAllMachines : Q (list Machine) :=
  gets (λ db, order_by_desc Machine_CreatedAt (select (λ _, true) (db_machines db))).

Definition UpdateMachine (m : Machine) : Q unit :=
  let! db := get in
  (* NOT NULL, CHECK (runtime_source = 'artifact'), CHECK (desired_channel ...) *)
  (if is_some_b (db_machines db !! Machine_ID m) &&
      negb (bool_decide (Machine_RuntimeSource m = Some "artifact"%string) &&
            allowed_channel (Machine_DesiredChannel m))
   then fail ErrCheckViolation else ret tt) ;;
  update_machine (Machine_ID m) (λ r,
    r <| Machine_Name := Machine_Name m |> <| Machine_VCPUs := Machine_VCPUs m |>
      <| Machine_MemoryMB := Machine_MemoryMB m |>
      <| Machine_CustomDomain := Machine_CustomDomain m |>
      <| Machine_DesiredRootfsVersion := Machine_DesiredRootfsVersion m |>
      <| Machine_DesiredOpenclawVersion := Machine_DesiredOpenclawVersion m |>
      <| Machine_DesiredChannel := Machine_DesiredChannel m |>
      <| Machine_VersionSource := Machine_VersionSource m |>
      <| Machine_RuntimeSource := Machine_RuntimeSource m |>).

Definition SetMachineTokens (machineID gatewayToken proxyToken : string) : Q unit :=
  update_machine machineID (λ m,
    m <| Machine_GatewayToken := Some gatewayToken |>
      <| Machine_ProxyToken := Some proxyToken |>).

(** The join of machines, accounts and hosts for the KV projection. *)
Definition route_of (db : DB) (m : Machine) : option RouteData :=
  a ← db_accounts db !! Machine_AccountID m;
  hid ← Machine_HostID m;
  h ← db_hosts db !! hid;
  tok ← Machine_ProxyToken m;
  url ← Host_TunnelURL h;
  if String.eqb (Machine_Status m) "running" then
    Some (mkRouteData (Account_Slug a) (Machine_ID m) (Machine_Slug m) url tok)
  else None.
Definition ListRunningRoutes : Q (list RouteData) :=
  gets (λ db, omap (route_of db) (select (λ _, true) (db_machines db))).

(** Rows referencing the machine are dropped with it (ON DELETE CASCADE). *)
Definition DeleteMachine (id : string) : Q unit :=
  let! db := get in
  match db_machines db !! id with
  | None => ret tt
  | Some _ =>
      modify (λ db,
        db <| db_machines ::= delete id |>
           <| db_operations ::= delete_where (λ o, String.eqb (MachineOperation_MachineID o) id) |>
           <| db_placements ::= delete_where (λ p, String.eqb (Placement_MachineID p) id) |>
           <| db_machine_plugins ::= delete_where (λ p, String.eqb (MachinePlugin_MachineID p) id) |>
           <| db_secrets ::= filter (λ kv, kv.1.1 ≠ id) |>)
  end.

(** The SET clause UpdateMachineStatus and UpdateMachineStatusCAS share. *)
Definition machine_set_status (t : time) (status : string) (message : option string)
    (m : Machine) : Machine :=
  m <| Machine_Status := status |> <| Machine_StatusMessage := message |>
    <| Machine_ProvisioningCompletedAt ::= λ old,
         if String.eqb status "running" && bool_decide (old = None)
         then Some t else old |>
    <| Machine_StartedAt ::= λ old,
         if String.eqb status "running" then Some t else old |>
    <| Machine_StoppedAt ::= λ old,
         if String.eqb status "stopped" then Some t else old |>.

Definition UpdateMachineStatus (id status : string) (message : option string)
    : Q unit :=
  let! t := now in
  update_machine id (machine_set_status t status message).

(** The statement numbers its parameters $1..$4 in the order id, newStatus,
    message, expectedStatus. *)
Definition UpdateMachineStatusCAS (id expectedStatus newStatus : string)
    (message : option string) : Q bool :=
  let! t := now in
  let! db := get in
  match db_machines db !! id with
  | Some m =>
      if String.eqb (Machine_Status m) expectedStatus then
        update_machine id (machine_set_status t newStatus message) ;; ret true
      else ret false
  | None => ret false
  end.

(** [var m Machine; rows.Scan(&m.ID, &m.Name, &m.Slug, &m.AccountID, &m.Status,
    &m.HostID)]: the other fields keep their zero values. *)
Definition stuck_row (m : Machine) : Machine :=
  mkMachine (Machine_ID m) (Machine_AccountID m) None "" (Machine_Name m)
    (Machine_Slug m) None (Machine_Status m) None 0 0 (Machine_HostID m) None None
    None None None None None None None None 0 None None 0 None None None None None
    None None None None None None None None None "" None "" false None None.
Definition FindStuckMachines (stuckThreshold : Z) : Q (list Machine) :=
  let! t := now in
  let secs := Z.quot stuckThreshold second in
  gets (λ db, stuck_row <$> select (λ m,
    one_of ["provisioning"; "starting"; "stopping"]%string (Machine_Status m) &&
    bool_decide (default (Machine_CreatedAt m) (Machine_ProvisioningStartedAt m)
                 < t - seconds secs)) (db_machines db)).

Definition AssignMachineToHost (machineID : string) (hostID : Z) (vmIP : string)
    : Q unit :=
  let! t := now in
  let! db := get in
  references (is_some_b (db_hosts db !! hostID) ||
              negb (is_some_b (db_machines db !! machineID))) ;;
  update_machine machineID (machine_assign t hostID vmIP).

Definition UnassignMachineFromHost (machineID : string) : Q unit :=
  let! t := now in
  update_machine machineID (machine_unassign t).

(** ** Hosts *)

Definition CreateHost (h : Host) : Q Host :=
  let! t := now in
  let caps := default (JObj []) (Host_Capabilities h) in
  let! id := next_serial in
  let! db := get in
  unique (negb (is_some_b (db_hosts db !! id))) ;;
  let row := mkHost id (Host_VMName h) (Host_VMID h) (Host_Zone h) (Host_Region h)
    (Host_MachineType h) (Host_ExternalIP h) (Host_InternalIP h) (Host_TunnelURL h)
    (Host_Status h) None (Host_SourceImage h) (Host_CapacityVCPUs h)
    (Host_CapacityMemoryMB h) (Host_CapacityDiskMB h) 0 0 0 0 None None EmptyString
    EmptyString None t "gcp" "managed" "provisioned" None "public_http" None
    (Some (JObj [])) (Some caps) (Some (JObj [])) None false in
  modify (set db_hosts <[id := row]>) ;;
  ret (h <| Host_Capabilities := Some caps |> <| Host_ID := id |>
         <| Host_CreatedAt := t |>).

Definition GetHost (id : Z) : Q Host :=
  let! db := get in query_row (host_row db <$> db_hosts db !! id).

Definition ListHosts : Q (list Host) :=
  gets (λ db, host_row db <$> order_by_desc Host_CreatedAt
                (select (λ _, true) (db_hosts db))).

Definition FindHostWithCapacity (vcpus memoryMB : Z) (region expectedImage : string)
    : Q Host :=
  let! t := now in
  let! db := get in
  query_row (host_row db <$> head (order_by_desc Host_UsedMemoryMB
    (select (λ h, String.eqb (Host_Status h) "ready" && fresh_heartbeat t h &&
                  room_vcpus vcpus h && room_memory memoryMB h &&
                  String.eqb (Host_Region h) region &&
                  (bool_decide (Host_SourceImage h = Some expectedImage) ||
                   String.eqb expectedImage "")) (db_hosts db)))).

Definition AllocateHostCapacity (hostID vcpus memoryMB : Z) : Q unit :=
  update_host hostID (host_use_cpu vcpus memoryMB).

Definition ReleaseHostCapacity (hostID vcpus memoryMB : Z) : Q unit :=
  update_host hostID (host_free_cpu vcpus memoryMB).

Definition ReleaseHostCapacityWithDisk (hostID vcpus memoryMB diskMB : Z) : Q unit :=
  update_host hostID (host_free vcpus memoryMB diskMB).

(** The capability test of the query's RequireBrowserReflink branch. *)
Definition sql_browser_reflink (h : Host) : bool :=
  match Host_Capabilities h with
  | None => false
  | Some c =>
      json_has_true "browser_storage" "reflink_supported" c ||
      (negb (is_some_b (json_field "browser_storage" c)) &&
       json_has_true "storage" "reflink_supported" c)
  end.

(** The WHERE clause of ListEligibleHosts. *)
Definition eligible (t : time) (f : HostFilter) (h : Host) : bool :=
  String.eqb (Host_Status h) "ready" && negb (Host_MaintenanceMode h) &&
  fresh_heartbeat t h && room_vcpus (HostFilter_MinVCPUs f) h &&
  room_memory (HostFilter_MinMemoryMB f) h && room_disk (HostFilter_MinDiskMB f) h &&
  (String.eqb (HostFilter_Region f) "" ||
   String.eqb (Host_Region h) (HostFilter_Region f)) &&
  (negb (HostFilter_RequireBrowserReflink f) || sql_browser_reflink h).

Definition ListEligibleHosts (filter : HostFilter) : Q (list Host) :=
  let! t := now in
  gets (λ db, host_row db <$> select (eligible t filter) (db_hosts db)).

Definition PlaceOnHost (hostID : Z) (machineID : string)
    (vcpus memoryMB diskMB : Z) : Q string :=
  tx (
    let! t := now in
    let! db := get in
    (* Lock host row and re-verify capacity *)
    wrap "host not available or insufficient capacity"
      (query_row (h ← db_hosts db !! hostID;
                  if placeable t vcpus memoryMB diskMB h then Some true else None)) ;;
    (* Increment counters *)
    update_host hostID (host_use vcpus memoryMB diskMB) ;;
    (* Allocate next free VM IP *)
    let! usedIPs := gets (λ db, machine_ips db hostID) in
    match first_free_ip 10 250 usedIPs with
    | None => fail (ErrText "no available VM IPs on host")
    | Some vmIP =>
        (* Assign machine to host *)
        update_machine machineID (machine_assign t hostID vmIP) ;;
        ret vmIP
    end).

Definition SoftStopMachine (machineID : string) (hostID vcpus memoryMB diskMB : Z)
    : Q unit :=
  tx (
    let! t := now in
    (* Release vCPU and memory (disk stays allocated) *)
    update_host hostID (host_free_cpu vcpus memoryMB) ;;
    (* Set status to stopped but KEEP host_id and vm_ip (host affinity) *)
    update_machine machineID (λ m,
      m <| Machine_Status := "stopped"%string |> <| Machine_StoppedAt := Some t |>)).

Definition ReAllocateHostCapacity (machineID : string)
    (hostID vcpus memoryMB diskMB : Z) : Q string :=
  tx (
    let! t := now in
    let! db := get in
    let! avail :=
      wrap "home host not eligible for affinity recovery"
        (query_row (h ← db_hosts db !! hostID;
           if String.eqb (Host_Status h) "ready" && negb (Host_MaintenanceMode h) &&
              fresh_heartbeat t h
           then Some (Host_CapacityVCPUs h - Host_UsedVCPUs h,
                      Host_CapacityMemoryMB h - Host_UsedMemoryMB h)
           else None)) in
    (if bool_decide (avail.1 < vcpus) || bool_decide (avail.2 < memoryMB)
     then fail (ErrText "host has insufficient capacity") else ret tt) ;;
    let! existingVMIP :=
      wrap "lock machine for affinity recovery"
        (query_row (Machine_VMIP <$> db_machines db !! machineID)) in
    let! vmIP :=
      if String.eqb (default EmptyString existingVMIP) "" then
        wrap "no free VM IP on home host"
          (query_row (first_free_ip 10 250 (used_ips db hostID)))
      else ret (default EmptyString existingVMIP) in
    update_host hostID (host_use_cpu vcpus memoryMB) ;;
    update_machine machineID (machine_assign t hostID vmIP) ;;
    ret vmIP).

(** ** Versions, tunnels and status *)

Definition UpdateMachineVersion (id snapshot version : string) : Q unit :=
  let! t := now in
  update_machine id (λ m,
    m <| Machine_RootfsSnapshot := Some snapshot |>
      <| Machine_OpenclawVersion := Some version |>
      <| Machine_ResolvedRootfsVersion := NULLIF snapshot |>
      <| Machine_ResolvedOpenclawVersion := NULLIF version |>
      <| Machine_VersionSource ::= λ old, Some (default "legacy"%string old) |>
      <| Machine_LastStartedAt := Some t |>).

Definition UpdateMachineActualVersions (hostID : Z)
    (machineID rootfsVersion openclawVersion : string) : Q unit :=
  update_machine machineID (λ m,
    if bool_decide (Machine_HostID m = Some hostID) then
      m <| Machine_ActualRootfsVersion := NULLIF rootfsVersion |>
        <| Machine_ActualOpenclawVersion := NULLIF openclawVersion |>
        <| Machine_RootfsSnapshot ::= λ old,
             match NULLIF rootfsVersion with None => old | v => v end |>
        <| Machine_OpenclawVersion ::= λ old,
             match NULLIF openclawVersion with None => old | v => v end |>
    else m).

Definition UpdateMachineTunnel (machineID tunnelID signingKey : string) : Q unit :=
  update_machine machineID (λ m,
    m <| Machine_TunnelID := NULLIF tunnelID |>
      <| Machine_SigningKey := NULLIF signingKey |>).

Definition ClearMachineTunnel (machineID : string) : Q unit :=
  update_machine machineID (λ m,
    m <| Machine_TunnelID := None |> <| Machine_SigningKey := None |>).

Definition UpdateHostStatus (id : Z) (status : string) : Q unit :=
  update_host id (λ h,
    h <| Host_Status := status |> <| Host_StatusMessage := None |>).

Definition UpdateHostStatusMessage (id : Z) (status message : string) : Q unit :=
  update_host id (λ h,
    h <| Host_Status := status |> <| Host_StatusMessage := Some message |>).

Definition SetHostMaintenanceMode (id : Z) (enabled : bool) : Q unit :=
  update_host id (λ h, h <| Host_MaintenanceMode := enabled |>).

Definition UpdateHostDetails (h : Host) : Q unit :=
  update_host (Host_ID h) (λ r,
    r <| Host_VMID := Host_VMID h |> <| Host_ExternalIP := Host_ExternalIP h |>
      <| Host_InternalIP := Host_InternalIP h |>
      <| Host_TunnelURL := Host_TunnelURL h |>).

(** machines.host_id, machine_placements.host_id and
    host_enrollment_tokens.used_by_host_id block the deletion; home_host_id and
    browser_vms.host_id are set to NULL; browser_vm_placements rows go too. *)
Definition DeleteHost (id : Z) : Q unit :=
  let! db := get in
  references (
    bool_decide (select (λ m, bool_decide (Machine_HostID m = Some id))
                   (db_machines db) = []) &&
    bool_decide (select (λ p, bool_decide (Placement_HostID p = id))
                   (db_placements db) = []) &&
    bool_decide (select (λ t, bool_decide (EnrollmentToken_UsedByHostID t = Some id))
                   (db_enrollment_tokens db) = [])) ;;
  modify (λ db,
    db <| db_hosts ::= delete id |>
       <| db_host_policy ::= delete id |>
       <| db_machines ::= update_where (λ m, bool_decide (Machine_HomeHostID m = Some id))
            (λ m, m <| Machine_HomeHostID := None |>) |>
       <| db_browser_vms ::= update_where (λ b, bool_decide (BrowserVM_HostID b = Some id))
            (λ b, b <| BrowserVM_HostID := None |>) |>
       <| db_browser_vm_placements ::=
            delete_where (λ p, bool_decide (BrowserVMPlacement_HostID p = id)) |>).

Definition UpdateHostSourceImage (id : Z) (sourceImage : string) : Q unit :=
  update_host id (λ h, h <| Host_SourceImage := Some sourceImage |>).

Definition UpdateHostVersions (id : Z) (agentVersion openclawVersion : string)
    : Q unit :=
  update_host id (λ h,
    h <| Host_AgentVersion := Some agentVersion |>
      <| Host_OpenclawVersion := Some openclawVersion |>).

Definition UpdateHostHeartbeat (id : Z)
    (externalIP agentVersion rootfsVersion browserRootfsVersion openclawVersion : string)
    (capabilities : option json) : Q bool :=
  let! t := now in
  let capabilitiesArg :=
    match capabilities with Some JNull => None | c => c end in
  let! db := get in
  let! old := query_row (db_hosts db !! id) in
  update_host id (λ h,
    h <| Host_LastHeartbeat := Some t |>
      <| Host_ExternalIP := Some externalIP |>
      <| Host_AgentVersion := Some agentVersion |>
      <| Host_RootfsVersion := rootfsVersion |>
      <| Host_BrowserRootfsVersion := browserRootfsVersion |>
      <| Host_OpenclawVersion ::= λ v,
           if String.eqb openclawVersion "" then v else Some openclawVersion |>
      <| Host_Capabilities ::= λ c,
           match capabilitiesArg with
           | None => c
           | Some n => Some (jsonb_concat (default (JObj []) c) n)
           end |>) ;;
  ret (negb (bool_decide (Host_ExternalIP old = Some externalIP))).

Definition ListStaleHosts (threshold : Z) : Q (list Host) :=
  let! t := now in
  gets (λ db, host_row db <$> select (λ h,
    String.eqb (Host_Status h) "ready" && negb (Host_MaintenanceMode h) &&
    match Host_LastHeartbeat h with
    | None => true
    | Some hb => bool_decide (hb < t - threshold)
    end) (db_hosts db)).

Definition ListUnreachableHosts : Q (list Host) :=
  gets (λ db, host_row db <$>
    select (λ h, String.eqb (Host_Status h) "unreachable") (db_hosts db)).

(** [(capabilities->>'cpu_threads')::int]: the cast of a value that is no
    integer fails the whole statement. *)
Definition cpu_threads (h : Host) : option (res Z) :=
  match c ← Host_Capabilities h; json_field "cpu_threads" c with
  | None | Some JNull => None
  | Some (JNum n) => Some (Ok n)
  | Some _ => Some (Err (ErrText "invalid input syntax for type integer"))
  end.
Definition overcommit_capacity (ratio : Z) (h : Host) : option Z :=
  match cpu_threads h with
  | Some (Ok n) =>
      if negb (String.eqb (Host_Status h) "terminated") && bool_decide (0 < n) &&
         negb (bool_decide (Host_CapacityVCPUs h = n * ratio))
      then Some (n * ratio) else None
  | _ => None
  end.
Definition ReconcileHostCapacityVCPUs (ratio : Z) : Q Z :=
  let! db := get in
  (if bool_decide (select (λ h, negb (String.eqb (Host_Status h) "terminated") &&
         match cpu_threads h with Some (Err _) => true | _ => false end)
         (db_hosts db) = [])
   then ret tt
   else fail (ErrWrap "reconcile host capacity"
                (ErrText "invalid input syntax for type integer"))) ;;
  let hit h := is_some_b (overcommit_capacity ratio h) in
  modify (set db_hosts (update_where hit (λ h,
    h <| Host_CapacityVCPUs ::= λ c, default c (overcommit_capacity ratio h) |>))) ;;
  ret (count_where hit (db_hosts db)).

Definition MarkMachinesOnHostError (hostID : Z) (message : string) : Q (list string) :=
  let! db := get in
  let hit m := bool_decide (Machine_HostID m = Some hostID) &&
    one_of ["running"; "provisioning"; "starting"]%string (Machine_Status m) in
  modify (set db_machines (update_where hit (λ m,
    m <| Machine_Status := "error"%string |>
      <| Machine_StatusMessage := Some message |>))) ;;
  ret (Machine_ID <$> select hit (db_machines db)).

(** ** Routes *)

Definition ResolveRoute (accountSlug machineSlug : string) : Q ResolvedRoute :=
  let! db := get in
  let! rr := query_row (head (omap (λ m,
      a ← db_accounts db !! Machine_AccountID m;
      hid ← Machine_HostID m;
      h ← db_hosts db !! hid;
      url ← Host_TunnelURL h;
      if String.eqb (Account_Slug a) accountSlug &&
         String.eqb (Machine_Slug m) machineSlug &&
         String.eqb (Machine_Status m) "running"
      then Some (mkResolvedRoute (Account_ID a) (Machine_ID m)
                   (default EmptyString (Machine_ProxyToken m)) url [])
      else None) (select (λ _, true) (db_machines db)))) in
  ret (rr <| ResolvedRoute_UserIDs := AccountMember_UserID <$>
         select (λ am, bool_decide (AccountMember_AccountID am = ResolvedRoute_AccountID rr))
           (db_members db) |>).

Definition IsMachineActive (slug : string) : Q bool :=
  gets (λ db, negb (bool_decide (select (λ m, String.eqb (Machine_Slug m) slug &&
    one_of ["running"; "provisioning"]%string (Machine_Status m)) (db_machines db) = []))).

(** ** The superseded placement transactions (no caller is left in the code) *)

Definition PlaceMachineOnHost (machineID : string) (vcpus memoryMB : Z)
    (region expectedImage : string) : Q (Host * string) :=
  tx (
    let! t := now in
    let! db := get in
    let! h :=
      match head (order_by_desc Host_UsedMemoryMB
        (select (λ h, String.eqb (Host_Status h) "ready" && fresh_heartbeat t h &&
                  room_vcpus vcpus h && room_memory memoryMB h &&
                  (String.eqb region "" || String.eqb (Host_Region h) region) &&
                  (String.eqb expectedImage "" ||
                   bool_decide (Host_SourceImage h = Some expectedImage)))
           (db_hosts db))) with
      | Some h => ret (host_row db h)
      | None => fail (ErrWrap "" ErrNoEligibleHost)
      end in
    update_host (Host_ID h) (host_use_cpu vcpus memoryMB) ;;
    match first_free_ip 10 250 (machine_ips db (Host_ID h)) with
    | None => fail (ErrText "no available VM IPs on host")
    | Some vmIP =>
        update_machine machineID (machine_assign t (Host_ID h) vmIP) ;;
        ret (h, vmIP)
    end).

Definition PlaceMachineOnSpecificHost (machineID : string)
    (hostID vcpus memoryMB : Z) : Q (Host * string) :=
  tx (
    let! t := now in
    let! db := get in
    let! h :=
      wrap "target host not ready or insufficient capacity"
        (query_row (h ← db_hosts db !! hostID;
           if String.eqb (Host_Status h) "ready" && fresh_heartbeat t h &&
              room_vcpus vcpus h && room_memory memoryMB h
           then Some (host_row db h) else None)) in
    update_host (Host_ID h) (host_use_cpu vcpus memoryMB) ;;
    match first_free_ip 10 250 (machine_ips db (Host_ID h)) with
    | None => fail (ErrText "no available VM IPs on host")
    | Some vmIP =>
        update_machine machineID (machine_assign t (Host_ID h) vmIP) ;;
        ret (h, vmIP)
    end).

(** ** Runs of the placement transactions *)

Lemma PlaceOnHost_run hostID machineID v m d db :
  PlaceOnHost hostID machineID v m d db =
  match db_hosts db !! hostID with
  | Some h =>
      if placeable (db_now db) v m d h then
        match first_free_ip 10 250 (machine_ips db hostID) with
        | Some ip =>
            (Ok ip,
             db <| db_hosts ::= alter (host_use v m d) hostID |>
                <| db_machines ::= alter (machine_assign (db_now db) hostID ip) machineID |>)
        | None => (Err (ErrText "no available VM IPs on host"), db)
        end
      else (Err (ErrWrap "host not available or insufficient capacity" ErrNoRows), db)
  | None => (Err (ErrWrap "host not available or insufficient capacity" ErrNoRows), db)
  end.
Proof.
  unfold PlaceOnHost, tx, bind, now, get, gets, wrap, query_row, of_res, update_host,
    update_machine, modify, ret, fail. cbn.
  destruct (db_hosts db !! hostID) as [h|]; cbn; [|done].
  destruct (placeable (db_now db) v m d h); cbn; [|done].
  change (machine_ips _ hostID) with (machine_ips db hostID).
  by destruct (first_free_ip 10 250 (machine_ips db hostID)).
Qed.

Lemma PlaceOnHost_err hostID id v m d db e db' :
  PlaceOnHost hostID id v m d db = (Err e, db') → db' = db.
Proof. apply tx_err. Qed.

Lemma SoftStopMachine_run machineID hostID v m d db :
  SoftStopMachine machineID hostID v m d db =
  (Ok tt, db <| db_hosts ::= alter (host_free_cpu v m) hostID |>
             <| db_machines ::= alter (λ m, m <| Machine_Status := "stopped"%string |>
                  <| Machine_StoppedAt := Some (db_now db) |>) machineID |>).
Proof. done. Qed.

(** Freed capacity is what a restart takes again. *)
Lemma host_use_free v m h :
  v ≤ Host_UsedVCPUs h → m ≤ Host_UsedMemoryMB h →
  host_use_cpu v m (host_free_cpu v m h) = h.
Proof.
  intros Hv Hm.
  transitivity (h <| Host_UsedVCPUs := Z.max 0 (Host_UsedVCPUs h - v) + v |>
                  <| Host_UsedMemoryMB := Z.max 0 (Host_UsedMemoryMB h - m) + m |>);
    [reflexivity|].
  rewrite !Z.max_r, !Z.sub_add by lia. by destruct h.
Qed.

Lemma host_free_use v m d h :
  0 ≤ Host_UsedVCPUs h ∧ 0 ≤ Host_UsedMemoryMB h ∧ 0 ≤ Host_UsedDiskMB h →
  host_free v m d (host_use v m d h) = h.
Proof.
  intros (Hv & Hm & Hd).
  transitivity (h <| Host_UsedVCPUs := Z.max 0 (Host_UsedVCPUs h + v - v) |>
                  <| Host_UsedMemoryMB := Z.max 0 (Host_UsedMemoryMB h + m - m) |>
                  <| Host_UsedDiskMB := Z.max 0 (Host_UsedDiskMB h + d - d) |>);
    [reflexivity|].
  rewrite !Z.add_simpl_r, !Z.max_r by lia. by destruct h.
Qed.

(** The address ReAllocateHostCapacity restarts a machine with. *)
Definition restart_ip (db : DB) (hostID : Z) (m : Machine) : option string :=
  if String.eqb (default EmptyString (Machine_VMIP m)) ""
  then first_free_ip 10 250 (used_ips db hostID)
  else Machine_VMIP m.

(** The host accepts a restarted machine. *)
Definition restartable (now : time) (vcpus memoryMB : Z) (h : Host) : bool :=
  String.eqb (Host_Status h) "ready" && negb (Host_MaintenanceMode h) &&
  fresh_heartbeat now h && room_vcpus vcpus h && room_memory memoryMB h.

#[local] Ltac refute_restart El :=
  split; [done|]; intros (?&?&?&?&Hr&_); simplify_eq; rewrite El in Hr; cbn in Hr;
  rewrite ?andb_true_iff, ?bool_decide_eq_true in Hr; solve [done | lia].

Lemma ReAllocate_ok machineID hostID v m d db ip db' :
  ReAllocateHostCapacity machineID hostID v m d db = (Ok ip, db') ↔
  ∃ h r, db_hosts db !! hostID = Some h ∧ db_machines db !! machineID = Some r ∧
    restartable (db_now db) v m h = true ∧ restart_ip db hostID r = Some ip ∧
    db' = db <| db_hosts ::= alter (host_use_cpu v m) hostID |>
             <| db_machines ::= alter (machine_assign (db_now db) hostID ip) machineID |>.
Proof.
  unfold ReAllocateHostCapacity. rewrite tx_ok.
  unfold bind, now, get, gets, wrap, query_row, of_res, update_host,
    update_machine, modify, ret, fail, restartable, restart_ip, room_vcpus, room_memory. cbn.
  destruct (db_hosts db !! hostID) as [h|] eqn:Eh; cbn; [|naive_solver].
  destruct (String.eqb (Host_Status h) "ready" && negb (Host_MaintenanceMode h) &&
    fresh_heartbeat (db_now db) h) eqn:El; cbn; [|refute_restart El].
  destruct (bool_decide (_ < v)) eqn:Ev; cbn.
  { apply bool_decide_eq_true in Ev. refute_restart El. }
  destruct (bool_decide (_ < m)) eqn:Em; cbn.
  { apply bool_decide_eq_true in Em. refute_restart El. }
  apply bool_decide_eq_false in Ev, Em.
  destruct (db_machines db !! machineID) as [r|] eqn:Er; cbn; [|naive_solver].
  assert (bool_decide (v ≤ Host_CapacityVCPUs h - Host_UsedVCPUs h) = true) as Hv
    by (apply bool_decide_eq_true; lia).
  assert (bool_decide (m ≤ Host_CapacityMemoryMB h - Host_UsedMemoryMB h) = true) as Hm
    by (apply bool_decide_eq_true; lia).
  destruct (String.eqb _ "") eqn:Ex; cbn.
  - destruct (first_free_ip 10 250 (used_ips db hostID)) as [i|] eqn:Ei; cbn.
    + split.
      * intros [= <- <-]. exists h, r. rewrite El, Hv, Hm, Ex. done.
      * intros (h' & r' & ? & ? & _ & Hi & ->). simplify_eq.
        rewrite Ex in Hi. by simplify_eq.
    + split; [done|]. intros (h' & r' & ? & ? & _ & Hi & ->). simplify_eq.
      by rewrite Ex in Hi.
  - destruct (Machine_VMIP r) as [i|] eqn:Ei; cbn in *; [|done].
    split.
    + intros [= <- <-]. exists h, r. rewrite El, Hv, Hm, Ei. cbn. rewrite Ex. done.
    + intros (h' & r' & ? & ? & _ & Hi & ->). simplify_eq. rewrite Ei in Hi. cbn in Hi.
      rewrite Ex in Hi. by simplify_eq.
Qed.

Lemma elem_of_machine_ips db hostID ip :
  ip ∈ machine_ips db hostID ↔
  ∃ id m, db_machines db !! id = Some m ∧ Machine_HostID m = Some hostID ∧
          Machine_VMIP m = Some ip.
Proof.
  unfold machine_ips. rewrite list_elem_of_omap. setoid_rewrite elem_of_select.
  setoid_rewrite bool_decide_eq_true. naive_solver.
Qed.

Lemma elem_of_placement_ips db hostID ip :
  ip ∈ placement_ips db hostID ↔
  ∃ id p, db_placements db !! id = Some p ∧ Placement_HostID p = hostID ∧
          Placement_ReleasedAt p = None ∧ Placement_VMIP p = ip.
Proof.
  unfold placement_ips. rewrite list_elem_of_fmap. setoid_rewrite elem_of_select.
  setoid_rewrite andb_true_iff. setoid_rewrite bool_decide_eq_true. naive_solver.
Qed.

Lemma elem_of_browser_placement_ips db hostID ip :
  ip ∈ browser_placement_ips db hostID ↔
  ∃ id p, db_browser_vm_placements db !! id = Some p ∧
          BrowserVMPlacement_HostID p = hostID ∧
          BrowserVMPlacement_ReleasedAt p = None ∧ BrowserVMPlacement_VMIP p = ip.
Proof.
  unfold browser_placement_ips. rewrite list_elem_of_fmap.
  setoid_rewrite elem_of_select. setoid_rewrite andb_true_iff.
  setoid_rewrite bool_decide_eq_true. naive_solver.
Qed.

(** ** What the placement transactions promise *)

(** The rows PlaceOnHost accepts. *)
Lemma placeable_spec now v m d h :
  placeable now v m d h = true ↔
  Host_Status h = "ready"%string ∧ Host_MaintenanceMode h = false ∧
  (∃ hb, Host_LastHeartbeat h = Some hb ∧ now - seconds 180 < hb) ∧
  Host_UsedVCPUs h + v ≤ Host_CapacityVCPUs h ∧
  Host_UsedMemoryMB h + m ≤ Host_CapacityMemoryMB h ∧
  (Host_CapacityDiskMB h = 0 ∨ Host_UsedDiskMB h + d ≤ Host_CapacityDiskMB h).
Proof.
  unfold placeable, fresh_heartbeat, room_vcpus, room_memory, room_disk.
  rewrite !andb_true_iff, orb_true_iff, negb_true_iff, !bool_decide_eq_true,
    String.eqb_eq.
  destruct (Host_LastHeartbeat h) as [hb|]; [rewrite bool_decide_eq_true|].
  - split.
    + intros (((((?&?)&?)&?)&?)&Hd). repeat split; eauto; [lia..|]. destruct Hd; [auto|right; lia].
    + intros (?&?&(hb'&?&?)&?&?&Hd); simplify_eq.
      repeat split; [done..|lia|lia|]. destruct Hd; [auto|right; lia].
  - split; [naive_solver|]. intros (?&?&(?&?&?)&?); done.
Qed.
