(* ===== verification/PlacementStore.v ===== *)
(** * Placements and browser VMs: store/postgres.go

    The statements on machine_placements, capacity_policies, browser_vms and
    browser_vm_placements, one Definition per Go method. *)

From S2P Require Import Prelude Schema HostStore.

(** ** Placement records *)

Definition placement_active (p : Placement) : bool :=
  bool_decide (Placement_ReleasedAt p = None).

Definition placement_release (t : time) (p : Placement) : Placement :=
  p <| Placement_State := "released"%string |> <| Placement_ReleasedAt := Some t |>.

(** The two partial unique indexes of machine_placements. *)
Definition placement_free (db : DB) (machineID : string) (hostID : Z) (vmIP : string)
    : bool :=
  bool_decide (select (λ p, placement_active p &&
    (String.eqb (Placement_MachineID p) machineID ||
     bool_decide (Placement_HostID p = hostID) && String.eqb (Placement_VMIP p) vmIP))
    (db_placements db) = []).

Definition ReservePlacement (machineID : string) (hostID : Z)
    (vmIP operationID : string) : Q Placement :=
  let opID := NULLIF operationID in
  wrap "reserve placement" (tx (
    let! t := now in
    let! db := get in
    references (is_some_b (db_machines db !! machineID)) ;;
    references (is_some_b (db_hosts db !! hostID)) ;;
    references (match opID with
                | Some op => is_some_b (db_operations db !! op) | None => true end) ;;
    unique (placement_free db machineID hostID vmIP) ;;
    let! id := gen_random_uuid in
    unique (negb (is_some_b (db_placements db !! id))) ;;
    let p := mkPlacement id machineID hostID vmIP "reserved" t None None opID in
    modify (set db_placements <[id := p]>) ;;
    ret p)).

Definition ActivatePlacement (placementID : string) : Q bool :=
  let! t := now in
  let! db := get in
  match db_placements db !! placementID with
  | Some p =>
      if String.eqb (Placement_State p) "reserved" then
        modify (set db_placements (alter (λ p,
          p <| Placement_State := "active"%string |>
            <| Placement_ActivatedAt := Some t |>) placementID)) ;;
        ret true
      else ret false
  | None => ret false
  end.

Definition ReleasePlacement (machineID : string) : Q unit :=
  let! t := now in
  modify (set db_placements (update_where
    (λ p, String.eqb (Placement_MachineID p) machineID && placement_active p)
    (placement_release t))).

Definition ReleaseMigrationSource (machineID : string) (expectedHostID : Z)
    (vcpus memoryMB : Z) (releaseCapacity : bool) : Q unit :=
  tx (
    let! t := now in
    let! db := get in
    let! currentHostID :=
      wrap "lock machine" (query_row (Machine_HostID <$> db_machines db !! machineID)) in
    (if bool_decide (currentHostID = Some expectedHostID) then
       (if releaseCapacity
        then update_host expectedHostID (host_free_cpu vcpus memoryMB)
        else ret tt) ;;
       update_machine machineID (λ m,
         machine_unassign t m <| Machine_HomeHostID := None |>)
     else if bool_decide (currentHostID = None) then
       update_machine machineID (λ m, m <| Machine_HomeHostID := None |>)
     else ret tt) ;;
    ReleasePlacement machineID).

Definition GetActivePlacement (machineID : string) : Q Placement :=
  let! db := get in
  query_row (head (order_by_desc Placement_ReservedAt
    (select (λ p, String.eqb (Placement_MachineID p) machineID && placement_active p)
      (db_placements db)))).

Definition ListActivePlacementsByHost (hostID : Z) : Q (list Placement) :=
  gets (λ db, select (λ p, bool_decide (Placement_HostID p = hostID) &&
                           placement_active p) (db_placements db)).

(** Host-specific override, then the pool's policy, then the oldest global one.
    The two first queries drop every error. *)
Definition ResolveCapacityPolicy (hostID : Z) (hostPool : string) : Q CapacityPolicy :=
  let! db := get in
  let host_policy :=
    _ ← db_hosts db !! hostID;
    pid ← db_host_policy db !! hostID;
    cp ← db_policies db !! pid;
    if CapacityPolicy_Enabled cp then Some cp else None in
  match host_policy with
  | Some cp => ret cp
  | None =>
      match select (λ cp, String.eqb (CapacityPolicy_ScopeType cp) "host_pool" &&
                bool_decide (CapacityPolicy_ScopeRef cp = Some hostPool) &&
                CapacityPolicy_Enabled cp) (db_policies db) with
      | cp :: _ => ret cp
      | [] =>
          wrap "no capacity policy found" (query_row (head
            (order_by_asc CapacityPolicy_CreatedAt
              (select (λ cp, String.eqb (CapacityPolicy_ScopeType cp) "global" &&
                             CapacityPolicy_Enabled cp) (db_policies db)))))
      end
  end.

Definition UpdateMachineHomeHost (machineID : string) (homeHostID : option Z)
    : Q unit :=
  let! db := get in
  references (match homeHostID with
              | Some h => is_some_b (db_hosts db !! h) ||
                          negb (is_some_b (db_machines db !! machineID))
              | None => true end) ;;
  update_machine machineID (λ m, m <| Machine_HomeHostID := homeHostID |>).

(** ** Browser VMs *)

Definition update_browser_vm (id : string) (f : BrowserVM → BrowserVM) : Q unit :=
  modify (set db_browser_vms (alter f id)).

Definition CreateBrowserVM (bvm : BrowserVM) : Q BrowserVM :=
  tx (
    let! t := now in
    let! db := get in
    references (is_some_b (db_accounts db !! BrowserVM_AccountID bvm)) ;;
    let! id := gen_random_uuid in
    unique (negb (is_some_b (db_browser_vms db !! id)) &&
            bool_decide (select (λ b, bool_decide (BrowserVM_AccountID b = BrowserVM_AccountID bvm)
               && String.eqb (BrowserVM_Slug b) (BrowserVM_Slug bvm)) (db_browser_vms db) = [])) ;;
    let row := mkBrowserVM id (BrowserVM_AccountID bvm) (BrowserVM_Slug bvm)
      (BrowserVM_Name bvm) None None "stopped" (BrowserVM_VCPUs bvm)
      (BrowserVM_MemoryMB bvm) (BrowserVM_CDPPort bvm)
      (BrowserVM_DesiredRootfsManifest bvm) (BrowserVM_DesiredRootfsVersion bvm)
      None None t t None in
    modify (set db_browser_vms <[id := row]>) ;;
    ret (bvm <| BrowserVM_ID := id |> <| BrowserVM_CreatedAt := t |>
             <| BrowserVM_UpdatedAt := t |>)).

Definition GetBrowserVM (id : string) : Q BrowserVM :=
  let! db := get in query_row (db_browser_vms db !! id).

(** LEFT JOIN machines m ON m.browser_vm_id = b.id. *)
Definition paired_machine (db : DB) (b : BrowserVM) : option BrowserVMPairedMachine :=
  (λ m, mkBrowserVMPairedMachine (Machine_ID m) (Machine_Name m)) <$>
    head (select (λ m, bool_decide (Machine_BrowserVMID m = Some (BrowserVM_ID b)))
            (db_machines db)).
Definition ListBrowserVMsByAccount (accountID : Z) : Q (list BrowserVM) :=
  gets (λ db, (λ b, b <| BrowserVM_PairedMachine := paired_machine db b |>) <$>
    order_by_desc BrowserVM_CreatedAt
      (select (λ b, bool_decide (BrowserVM_AccountID b = accountID)) (db_browser_vms db))).

Definition bvp_active (p : BrowserVMPlacement) : bool :=
  bool_decide (BrowserVMPlacement_ReleasedAt p = None).
Definition ListBrowserVMsRequiringReconciliation : Q (list BrowserVM) :=
  gets (λ db, order_by_asc BrowserVM_UpdatedAt (select (λ b,
    String.eqb (BrowserVM_Status b) "error" && is_some_b (BrowserVM_HostID b) &&
    is_some_b (BrowserVM_VMIP b) &&
    negb (bool_decide (select (λ p,
      String.eqb (BrowserVMPlacement_BrowserVMID p) (BrowserVM_ID b) && bvp_active p)
      (db_browser_vm_placements db) = []))) (db_browser_vms db))).

Definition UpdateBrowserVMStatus (id status : string) (errMsg : option string)
    : Q unit :=
  let! t := now in
  let! db := get in
  (if is_some_b (db_browser_vms db !! id) &&
      negb (one_of ["stopped"; "provisioning"; "running"; "error"]%string status)
   then fail ErrCheckViolation else ret tt) ;;
  update_browser_vm id (λ b,
    b <| BrowserVM_Status := status |> <| BrowserVM_ErrorMessage := errMsg |>
      <| BrowserVM_UpdatedAt := t |>).

Definition AssignBrowserVMToHost (id : string) (hostID : Z) (vmIP : string) : Q unit :=
  let! t := now in
  let! db := get in
  references (is_some_b (db_hosts db !! hostID) ||
              negb (is_some_b (db_browser_vms db !! id))) ;;
  update_browser_vm id (λ b,
    b <| BrowserVM_HostID := Some hostID |> <| BrowserVM_VMIP := Some vmIP |>
      <| BrowserVM_UpdatedAt := t |>).

Definition UnassignBrowserVMFromHost (id : string) : Q unit :=
  let! t := now in
  update_browser_vm id (λ b,
    b <| BrowserVM_HostID := None |> <| BrowserVM_VMIP := None |>
      <| BrowserVM_UpdatedAt := t |>).

(** browser_vm_placements rows go with the VM, pairings are set to NULL. *)
Definition DeleteBrowserVM (id : string) : Q unit :=
  let! db := get in
  match db_browser_vms db !! id with
  | None => ret tt
  | Some _ =>
      modify (λ db,
        db <| db_browser_vms ::= delete id |>
           <| db_browser_vm_placements ::=
                delete_where (λ p, String.eqb (BrowserVMPlacement_BrowserVMID p) id) |>
           <| db_machines ::= update_where
                (λ m, bool_decide (Machine_BrowserVMID m = Some id))
                (λ m, m <| Machine_BrowserVMID := None |>) |>)
  end.

Definition PairBrowserVM (machineID browserVMID : string) : Q unit :=
  let! db := get in
  (if is_some_b (db_machines db !! machineID) then
     unique (bool_decide (select (λ m,
       bool_decide (Machine_BrowserVMID m = Some browserVMID) &&
       negb (String.eqb (Machine_ID m) machineID)) (db_machines db) = [])) ;;
     references (is_some_b (db_browser_vms db !! browserVMID))
   else ret tt) ;;
  update_machine machineID (λ m, m <| Machine_BrowserVMID := Some browserVMID |>).

Definition UnpairBrowserVM (machineID : string) : Q unit :=
  update_machine machineID (λ m, m <| Machine_BrowserVMID := None |>).

Definition GetMachineByBrowserVMID (browserVMID : string) : Q Machine :=
  let! db := get in
  query_row (head (select (λ m, bool_decide (Machine_BrowserVMID m = Some browserVMID))
    (db_machines db))).

Definition browserVMTargetHostHeartbeatMaxAge : Z := seconds 180.

Definition validateBrowserVMTargetHostEligibility (status : string)
    (maintenanceMode : bool) (lastHeartbeat : option time) (now : time) : res unit :=
  if negb (String.eqb status "ready") then Err (ErrText "host is not ready")
  else if maintenanceMode then Err (ErrText "host is in maintenance mode")
  else match lastHeartbeat with
       | None => Err (ErrText "host has no heartbeat")
       | Some hb =>
           if bool_decide (hb < now - browserVMTargetHostHeartbeatMaxAge)
           then Err (ErrText "host heartbeat is stale") else Ok tt
       end.

(** The partial unique indexes of browser_vm_placements. *)
Definition bvp_free (db : DB) (browserVMID : string) (hostID : Z) (vmIP : string)
    : bool :=
  bool_decide (select (λ p, bvp_active p &&
    (String.eqb (BrowserVMPlacement_BrowserVMID p) browserVMID ||
     bool_decide (BrowserVMPlacement_HostID p = hostID) &&
     String.eqb (BrowserVMPlacement_VMIP p) vmIP))
    (db_browser_vm_placements db) = []).

Definition PlaceBrowserVMOnHost (hostID : Z) (browserVMID : string)
    (vcpus memoryMB : Z) : Q string :=
  tx (
    let! t := now in
    let! db := get in
    let! h := wrap "lock host" (query_row (db_hosts db !! hostID)) in
    of_res (validateBrowserVMTargetHostEligibility (Host_Status h)
      (Host_MaintenanceMode h) (Host_LastHeartbeat h) t) ;;
    (if negb (room_vcpus vcpus h) || negb (room_memory memoryMB h)
     then fail (ErrText "insufficient capacity on host") else ret tt) ;;
    (* Find free IP and insert placement in one query. *)
    let! vmIP := wrap "no free IP on host" (
      let! ip := query_row (first_free_ip 2 254 (used_ips db hostID)) in
      references (is_some_b (db_browser_vms db !! browserVMID)) ;;
      unique (bvp_free db browserVMID hostID ip) ;;
      let! id := gen_random_uuid in
      unique (negb (is_some_b (db_browser_vm_placements db !! id))) ;;
      modify (set db_browser_vm_placements
        <[id := mkBrowserVMPlacement id browserVMID hostID ip "reserved" t None None]>) ;;
      ret ip) in
    (* Debit capacity *)
    update_host hostID (host_use_cpu vcpus memoryMB) ;;
    ret vmIP).

Definition ActivateBrowserVMPlacement (browserVMID : string) : Q unit :=
  let! t := now in
  modify (set db_browser_vm_placements (update_where
    (λ p, String.eqb (BrowserVMPlacement_BrowserVMID p) browserVMID && bvp_active p)
    (λ p, p <| BrowserVMPlacement_State := "active"%string |>
            <| BrowserVMPlacement_ActivatedAt := Some t |>))).

(** [SET used_vcpus = used_vcpus - $2, ...]: no GREATEST in this statement. *)
Definition host_credit (vcpus memoryMB : Z) (h : Host) : Host :=
  h <| Host_UsedVCPUs ::= λ u, u - vcpus |>
    <| Host_UsedMemoryMB ::= λ u, u - memoryMB |>.

Definition ReleaseBrowserVMPlacement (browserVMID : string) : Q unit :=
  tx (
    let! t := now in
    let! db := get in
    let hit p := String.eqb (BrowserVMPlacement_BrowserVMID p) browserVMID &&
                 bvp_active p in
    match select hit (db_browser_vm_placements db) with
    | [] => ret tt
    | p :: _ =>
        modify (set db_browser_vm_placements (update_where hit (λ p,
          p <| BrowserVMPlacement_State := "released"%string |>
            <| BrowserVMPlacement_ReleasedAt := Some t |>))) ;;
        match db_browser_vms db !! browserVMID with
        | None =>
            (* vcpus and memory_mb are NULL: the scan into an int fails *)
            fail (ErrWrap "release browser VM placement" (ErrText "cannot scan NULL"))
        | Some b =>
            update_host (BrowserVMPlacement_HostID p)
              (host_credit (BrowserVM_VCPUs b) (BrowserVM_MemoryMB b))
        end
    end).

(** ** Runs *)

Lemma references_ok {S} b (s : S) u s' :
  references b s = (Ok u, s') ↔ b = true ∧ s' = s.
Proof. unfold references, ret, fail. destruct b, u; naive_solver. Qed.
Lemma unique_ok {S} b (s : S) u s' :
  unique b s = (Ok u, s') ↔ b = true ∧ s' = s.
Proof. unfold unique, ret, fail. destruct b, u; naive_solver. Qed.

(** What a successful reservation records. *)
Lemma ReservePlacement_ok machineID hostID vmIP op db p db' :
  ReservePlacement machineID hostID vmIP op db = (Ok p, db') ↔
  let id := uuid_of (db_next db) in
  is_Some (db_machines db !! machineID) ∧ is_Some (db_hosts db !! hostID) ∧
  (∀ o, NULLIF op = Some o → is_Some (db_operations db !! o)) ∧
  placement_free db machineID hostID vmIP = true ∧
  db_placements db !! id = None ∧
  p = mkPlacement id machineID hostID vmIP "reserved" (db_now db) None None (NULLIF op) ∧
  db' = db <| db_next ::= N.succ |> <| db_placements ::= <[id := p]> |>.
Proof.
  unfold ReservePlacement. rewrite wrap_ok, tx_ok.
  unfold bind, now, gets, get, gen_random_uuid, modify, ret. cbn.
  unfold references, unique, ret, fail, is_some_b.
  destruct (db_machines db !! machineID) eqn:E1; cbn; [|naive_solver].
  destruct (db_hosts db !! hostID) eqn:E2; cbn; [|naive_solver].
  destruct (NULLIF op) as [o|] eqn:E3; cbn;
    [destruct (db_operations db !! o) eqn:E4; cbn;
      [|split; [done|]; intros (_&_&H&_); destruct (H o eq_refl); congruence]|];
    (destruct (placement_free db machineID hostID vmIP) eqn:E5; cbn; [|naive_solver]);
    (destruct (db_placements db !! uuid_of (db_next db)) eqn:E6; cbn; [split; [done|by intros (_&_&_&_&?&_)]|]);
    (split; [intros [= <- <-]|by intros (_&_&_&_&_&->&->)]);
    repeat split; try done; by intros ? [= <-].
Qed.

Lemma ReservePlacement_err machineID hostID vmIP op db e db' :
  ReservePlacement machineID hostID vmIP op db = (Err e, db') → db' = db.
Proof.
  unfold ReservePlacement, wrap. destruct (tx _ db) as [[p|e'] db1] eqn:E; [done|].
  intros [= _ <-]. by apply tx_err in E.
Qed.

(** What a successful browser VM placement does. *)
Lemma PlaceBrowserVMOnHost_ok hostID bid v m db ip db' :
  PlaceBrowserVMOnHost hostID bid v m db = (Ok ip, db') →
  let id := uuid_of (db_next db) in
  ∃ h, db_hosts db !! hostID = Some h ∧
    validateBrowserVMTargetHostEligibility (Host_Status h) (Host_MaintenanceMode h)
      (Host_LastHeartbeat h) (db_now db) = Ok tt ∧
    room_vcpus v h = true ∧ room_memory m h = true ∧
    first_free_ip 2 254 (used_ips db hostID) = Some ip ∧
    is_Some (db_browser_vms db !! bid) ∧ bvp_free db bid hostID ip = true ∧
    db_browser_vm_placements db !! id = None ∧
    db' = db <| db_next ::= N.succ |>
             <| db_browser_vm_placements ::= <[id :=
                  mkBrowserVMPlacement id bid hostID ip "reserved" (db_now db) None None]> |>
             <| db_hosts ::= alter (host_use_cpu v m) hostID |>.
Proof.
  unfold PlaceBrowserVMOnHost. rewrite tx_ok.
  unfold bind, now, gets, get, gen_random_uuid, modify, ret, wrap, query_row, of_res,
    update_host. cbn.
  destruct (db_hosts db !! hostID) as [h|] eqn:E1; cbn; [|done].
  destruct (validateBrowserVMTargetHostEligibility _ _ _ _) as [[]|] eqn:E2; cbn; [|done].
  destruct (room_vcpus v h) eqn:E3; cbn; [|done].
  destruct (room_memory m h) eqn:E4; cbn; [|done].
  destruct (first_free_ip 2 254 (used_ips db hostID)) as [i|] eqn:E5; cbn; [|done].
  unfold references, unique, ret, fail, is_some_b.
  destruct (db_browser_vms db !! bid) eqn:E6; cbn; [|done].
  destruct (bvp_free db bid hostID i) eqn:E7; cbn; [|done].
  destruct (db_browser_vm_placements db !! uuid_of (db_next db)) eqn:E8; cbn; [done|].
  intros [= <- <-]. exists h. repeat split; try done.
Qed.

(** A release frees the placement's host, or does nothing. *)
Lemma ReleaseBrowserVMPlacement_db bid db :
  let db' := (ReleaseBrowserVMPlacement bid db).2 in
  db' = db ∨
  ∃ p b, db_browser_vms db !! bid = Some b ∧
    (∃ id, db_browser_vm_placements db !! id = Some p) ∧
    BrowserVMPlacement_BrowserVMID p = bid ∧ bvp_active p = true ∧
    db_hosts db' = alter (host_credit (BrowserVM_VCPUs b) (BrowserVM_MemoryMB b))
                     (BrowserVMPlacement_HostID p) (db_hosts db) ∧
    db_browser_vms db' = db_browser_vms db ∧ db_machines db' = db_machines db.
Proof.
  unfold ReleaseBrowserVMPlacement, tx, bind, now, gets, get, modify, ret, update_host. cbn.
  destruct (select _ (db_browser_vm_placements db)) as [|p l] eqn:E1; cbn; [auto|].
  destruct (db_browser_vms db !! bid) as [b|] eqn:E2; cbn; [|auto].
  right. exists p, b.
  assert (p ∈ select (λ p, String.eqb (BrowserVMPlacement_BrowserVMID p) bid &&
    bvp_active p) (db_browser_vm_placements db)) as Hp
    by (rewrite E1; apply list_elem_of_here).
  apply elem_of_select in Hp as [[Hb%String.eqb_eq Ha]%andb_true_iff Hk].
  repeat split; try done.
Qed.
