(* ===== verification/OperationStore.v ===== *)
(** * Operations, workflow runs and workflow locks: store/postgres.go *)

From S2P Require Import Prelude Schema.

(** ** Machine operations *)

Definition operation_active (o : MachineOperation) : bool :=
  one_of ["pending"; "in_progress"]%string (MachineOperation_State o).
Definition active_operations (db : DB) (machineID : string) : list MachineOperation :=
  select (λ o, String.eqb (MachineOperation_MachineID o) machineID &&
               operation_active o) (db_operations db).

Definition CreateMachineOperation (op : MachineOperation) : Q MachineOperation :=
  let insert := tx (
    let! t := now in
    let! db := get in
    references (is_some_b (db_machines db !! MachineOperation_MachineID op)) ;;
    (* idx_machine_operations_active_unique *)
    unique (bool_decide (active_operations db (MachineOperation_MachineID op) = [])) ;;
    let! id := gen_random_uuid in
    unique (negb (is_some_b (db_operations db !! id))) ;;
    modify (set db_operations
      <[id := mkMachineOperation id (MachineOperation_MachineID op)
                (MachineOperation_Kind op) "in_progress"
                (MachineOperation_IdempotencyKey op) None None t None]>) ;;
    ret (op <| MachineOperation_ID := id |> <| MachineOperation_CreatedAt := t |>)) in
  let! r := try insert in
  match r with
  | Ok op' => ret op'
  | Err e =>
      if errors_is e ErrConflict
      then fail (ErrText "machine already has an active operation") else fail e
  end.

Definition GetActiveMachineOperation (machineID : string) : Q MachineOperation :=
  let! db := get in
  query_row (head (order_by_desc MachineOperation_CreatedAt
    (active_operations db machineID))).

Definition CompleteMachineOperation (operationID state : string)
    (errMsg : option string) : Q unit :=
  let! t := now in
  let! db := get in
  (* the partial unique index holds after the update too *)
  (match db_operations db !! operationID with
   | Some o =>
       unique (negb (one_of ["pending"; "in_progress"]%string state) ||
         bool_decide (List.filter
           (λ o', negb (String.eqb (MachineOperation_ID o') operationID))
           (active_operations db (MachineOperation_MachineID o)) = []))
   | None => ret tt
   end) ;;
  modify (set db_operations (alter (λ o,
    o <| MachineOperation_State := state |>
      <| MachineOperation_ErrorMessage := errMsg |>
      <| MachineOperation_CompletedAt := Some t |>) operationID)).

Definition ExpireStaleOperations (olderThan : Z) : Q Z :=
  let! t := now in
  let cutoff := t - olderThan in
  let hit o := operation_active o && bool_decide (MachineOperation_CreatedAt o < cutoff) in
  let! db := get in
  modify (set db_operations (update_where hit (λ o,
    o <| MachineOperation_State := "failed"%string |>
      <| MachineOperation_ErrorMessage := Some "operation expired (stale)"%string |>
      <| MachineOperation_CompletedAt := Some t |>))) ;;
  ret (count_where hit (db_operations db)).

(** ** Workflow runs *)

(** CHECK (status IN (...)) of migrations/034_workflow_runs.sql. *)
Definition workflow_status_ok (status : string) : bool :=
  one_of ["queued"; "running"; "waiting"; "completed"; "failed"; "cancelled";
          "manual_action_required"]%string status.

Definition CreateWorkflowRun (run : WorkflowRun) : Q WorkflowRun :=
  let run := run
    <| WorkflowRun_Priority ::= λ p, if String.eqb p "" then "normal"%string else p |>
    <| WorkflowRun_Status ::= λ s, if String.eqb s "" then "queued"%string else s |> in
  let! t := now in
  let! db := get in
  (if workflow_status_ok (WorkflowRun_Status run) then ret tt
   else fail ErrCheckViolation) ;;
  unique (negb (is_some_b (db_workflow_runs db !! WorkflowRun_ID run))) ;;
  references (match WorkflowRun_RequestedBy run with
              | Some u => is_some_b (db_users db !! u) | None => true end) ;;
  references (match WorkflowRun_AccountID run with
              | Some a => is_some_b (db_accounts db !! a) | None => true end) ;;
  let row := run
    <| WorkflowRun_InputJSON ::= λ j, Some (default (JObj []) j) |>
    <| WorkflowRun_CreatedAt := t |> <| WorkflowRun_UpdatedAt := t |> in
  modify (set db_workflow_runs <[WorkflowRun_ID run := row]>) ;;
  ret (run <| WorkflowRun_CreatedAt := t |> <| WorkflowRun_UpdatedAt := t |>).

Definition GetWorkflowRun (id : string) : Q WorkflowRun :=
  let! db := get in query_row (db_workflow_runs db !! id).

(** An UPDATE of the run's status: the CHECK fails it when a row matches. *)
Definition check_run_status (id status : string) : Q unit :=
  let! db := get in
  if is_some_b (db_workflow_runs db !! id) && negb (workflow_status_ok status)
  then fail ErrCheckViolation else ret tt.

Definition UpdateWorkflowRunStatus (id status : string) (phase : option string)
    (summary : option json) (errCode errMsg : option string) : Q unit :=
  let! t := now in
  check_run_status id status ;;
  modify (set db_workflow_runs (alter (λ r,
    r <| WorkflowRun_Status := status |> <| WorkflowRun_CurrentPhase := phase |>
      <| WorkflowRun_SummaryJSON := summary |> <| WorkflowRun_ErrorCode := errCode |>
      <| WorkflowRun_ErrorMessage := errMsg |>
      <| WorkflowRun_StartedAt ::= λ s,
           if bool_decide (s = None) && negb (String.eqb status "queued")
           then Some t else s |>
      <| WorkflowRun_UpdatedAt := t |>) id)).

Definition CompleteWorkflowRun (id status : string) (output : option json)
    (errCode errMsg : option string) : Q unit :=
  let! t := now in
  check_run_status id status ;;
  modify (set db_workflow_runs (alter (λ r,
    r <| WorkflowRun_Status := status |> <| WorkflowRun_OutputJSON := output |>
      <| WorkflowRun_ErrorCode := errCode |> <| WorkflowRun_ErrorMessage := errMsg |>
      <| WorkflowRun_StartedAt ::= λ s, Some (default t s) |>
      <| WorkflowRun_CompletedAt := Some t |>
      <| WorkflowRun_UpdatedAt := t |>) id)).

(** [if limit <= 0 { limit = d }] and LIMIT. *)
Definition limited {A} (d limit : Z) (l : list A) : list A :=
  take (Z.to_nat (if bool_decide (limit ≤ 0) then d else limit)) l.

Definition ListWorkflowRunsByScope (scopeType scopeID : string) (limit : Z)
    : Q (list WorkflowRun) :=
  gets (λ db, limited 20 limit (order_by_desc WorkflowRun_CreatedAt
    (select (λ r, String.eqb (WorkflowRun_ScopeType r) scopeType &&
                  String.eqb (WorkflowRun_ScopeID r) scopeID) (db_workflow_runs db)))).

Definition ListAllWorkflowRuns (kind status : string) (limit : Z)
    : Q (list WorkflowRun) :=
  gets (λ db, limited 50 limit (order_by_desc WorkflowRun_CreatedAt
    (select (λ r, (String.eqb kind "" || String.eqb (WorkflowRun_Kind r) kind) &&
                  (String.eqb status "" || String.eqb (WorkflowRun_Status r) status))
      (db_workflow_runs db)))).

Definition CreateWorkflowEvent (event : WorkflowEvent) : Q WorkflowEvent :=
  let! t := now in
  let! db := get in
  (if one_of ["info"; "warn"; "error"]%string (WorkflowEvent_Level event) then ret tt
   else fail ErrCheckViolation) ;;
  references (is_some_b (db_workflow_runs db !! WorkflowEvent_WorkflowID event)) ;;
  let! id := next_serial in
  unique (negb (is_some_b (db_workflow_events db !! id))) ;;
  let row := event <| WorkflowEvent_ID := id |> <| WorkflowEvent_CreatedAt := t |> in
  modify (set db_workflow_events <[id := row]>) ;;
  ret row.

Definition ListWorkflowEvents (workflowID : string) (limit : Z)
    : Q (list WorkflowEvent) :=
  gets (λ db, limited 100 limit (order_by_asc WorkflowEvent_CreatedAt
    (select (λ e, String.eqb (WorkflowEvent_WorkflowID e) workflowID)
      (db_workflow_events db)))).

Definition last_event_at (db : DB) (r : WorkflowRun) : time :=
  match WorkflowEvent_CreatedAt <$>
          select (λ e, String.eqb (WorkflowEvent_WorkflowID e) (WorkflowRun_ID r))
            (db_workflow_events db) with
  | [] => WorkflowRun_CreatedAt r
  | t :: ts => foldr Z.max t ts
  end.
Definition FindStalledWorkflows (staleThreshold : Z) : Q (list StalledWorkflow) :=
  let! t := now in
  let secs := Z.quot staleThreshold second in
  gets (λ db, (λ r, mkStalledWorkflow (WorkflowRun_ID r) (WorkflowRun_Kind r)
                      (WorkflowRun_ScopeType r) (WorkflowRun_ScopeID r)
                      (last_event_at db r)) <$>
    select (λ r, one_of ["running"; "waiting"]%string (WorkflowRun_Status r) &&
                 bool_decide (last_event_at db r < t - seconds secs))
      (db_workflow_runs db)).

(** ** Workflow locks *)

Definition lock_key (l : WorkflowLock) : string * string * string :=
  (WorkflowLock_ResourceType l, WorkflowLock_ResourceID l, WorkflowLock_LockKind l).

(** INSERT ... ON CONFLICT (resource_type, resource_id, lock_kind) DO UPDATE ...
    WHERE the lock is this workflow's or its lease has expired. *)
Definition AcquireWorkflowLock (lock : WorkflowLock) : Q WorkflowLock :=
  let! t := now in
  let! db := get in
  references (is_some_b (db_workflow_runs db !! WorkflowLock_WorkflowID lock)) ;;
  match db_workflow_locks db !! lock_key lock with
  | None =>
      let row := lock <| WorkflowLock_CreatedAt := t |> <| WorkflowLock_UpdatedAt := t |> in
      modify (set db_workflow_locks <[lock_key lock := row]>) ;; ret row
  | Some held =>
      if String.eqb (WorkflowLock_WorkflowID held) (WorkflowLock_WorkflowID lock) ||
         bool_decide (WorkflowLock_LeaseExpiresAt held < t)
      then
        let row := held
          <| WorkflowLock_WorkflowID := WorkflowLock_WorkflowID lock |>
          <| WorkflowLock_LeaseExpiresAt := WorkflowLock_LeaseExpiresAt lock |>
          <| WorkflowLock_UpdatedAt := t |> in
        modify (set db_workflow_locks <[lock_key lock := row]>) ;;
        ret (lock <| WorkflowLock_CreatedAt := WorkflowLock_CreatedAt held |>
                  <| WorkflowLock_UpdatedAt := t |>)
      else fail ErrWorkflowLockHeld
  end.

Definition RenewWorkflowLock (workflowID resourceType resourceID lockKind : string)
    (leaseUntil : time) : Q unit :=
  let! t := now in
  let! db := get in
  match db_workflow_locks db !! (resourceType, resourceID, lockKind) with
  | Some held =>
      if String.eqb (WorkflowLock_WorkflowID held) workflowID then
        modify (set db_workflow_locks (alter (λ l,
          l <| WorkflowLock_LeaseExpiresAt := leaseUntil |>
            <| WorkflowLock_UpdatedAt := t |>) (resourceType, resourceID, lockKind)))
      else fail ErrWorkflowLockNotFound
  | None => fail ErrWorkflowLockNotFound
  end.

Definition ReleaseWorkflowLocks (workflowID : string) : Q unit :=
  modify (set db_workflow_locks
    (delete_where (λ l, String.eqb (WorkflowLock_WorkflowID l) workflowID))).
