(* ===== verification/AccountStore.v ===== *)
(** * Accounts, invitations and enrollment tokens: store/postgres.go *)

From S2P Require Import Prelude Schema GoStrings HostStore.

(** ** Accounts and members *)

Definition GetUser (id : Z) : Q User :=
  let! db := get in query_row (db_users db !! id).
Definition GetUserByEmail (email : string) : Q User :=
  let! db := get in
  query_row (head (select (λ u, String.eqb (User_Email u) email) (db_users db))).

Definition CreateAccount (a : Account) : Q Account :=
  tx (
    let! t := now in
    let! db := get in
    references (is_some_b (db_users db !! Account_CreatedBy a)) ;;
    let! id := next_serial in
    unique (negb (is_some_b (db_accounts db !! id)) &&
            bool_decide (select (λ a', String.eqb (Account_Slug a') (Account_Slug a))
                           (db_accounts db) = [])) ;;
    let row := a <| Account_ID := id |> <| Account_CreatedAt := t |> in
    modify (set db_accounts <[id := row]>) ;;
    ret row).

(** [INSERT INTO account_members (account_id, user_id, role)]. *)
Definition insert_member (accountID userID : Z) (role : string) : Q time :=
  let! t := now in
  let! db := get in
  references (is_some_b (db_accounts db !! accountID)) ;;
  references (is_some_b (db_users db !! userID)) ;;
  unique (negb (is_some_b (db_members db !! (accountID, userID)))) ;;
  modify (set db_members
    <[(accountID, userID) := mkAccountMember accountID userID role "" "" t]>) ;;
  ret t.

Definition CreateAccountWithOwner (a : Account) (ownerUserID : Z) : Q Account :=
  tx (
    let! a' := CreateAccount a in
    wrap "create owner membership" (insert_member (Account_ID a') ownerUserID "owner") ;;
    ret a').

Definition UpdateAccountName (accountID : Z) (name : string) : Q unit :=
  let! db := get in
  match db_accounts db !! accountID with
  | None => fail (ErrText "account not found")
  | Some _ =>
      modify (set db_accounts (alter (λ a, a <| Account_Name := name |>) accountID))
  end.

Definition GetAccount (id : Z) : Q Account :=
  let! db := get in query_row (db_accounts db !! id).

Definition GetAccountBySlug (slug : string) : Q Account :=
  let! db := get in
  query_row (head (select (λ a, String.eqb (Account_Slug a) slug) (db_accounts db))).

Definition ListAccountsByUser (userID : Z) : Q (list Account) :=
  gets (λ db, order_by_asc Account_CreatedAt (select (λ a,
    is_some_b (db_members db !! (Account_ID a, userID))) (db_accounts db))).

Definition AddAccountMember (m : AccountMember) : Q AccountMember :=
  let! t := insert_member (AccountMember_AccountID m) (AccountMember_UserID m)
              (AccountMember_Role m) in
  ret (m <| AccountMember_CreatedAt := t |>).

Definition RemoveAccountMember (accountID userID : Z) : Q unit :=
  modify (set db_members (delete (accountID, userID))).

(** The rows joined with their users: email and name are the user's. *)
Definition ListAccountMembers (accountID : Z) : Q (list AccountMember) :=
  gets (λ db, omap (λ m,
      u ← db_users db !! AccountMember_UserID m;
      Some (m <| AccountMember_Email := User_Email u |>
              <| AccountMember_Name := User_Name u |>))
    (order_by_asc AccountMember_CreatedAt
      (select (λ m, bool_decide (AccountMember_AccountID m = accountID))
        (db_members db)))).

Definition GetAccountMember (accountID userID : Z) : Q AccountMember :=
  let! db := get in query_row (db_members db !! (accountID, userID)).

Definition UpdateAccountMemberRole (accountID userID : Z) (role : string) : Q unit :=
  modify (set db_members
    (alter (λ m, m <| AccountMember_Role := role |>) (accountID, userID))).

(** ** Invitations *)

Definition CreateInvitation (inv : AccountInvitation) : Q AccountInvitation :=
  tx (
    let! t := now in
    let! db := get in
    references (is_some_b (db_accounts db !! AccountInvitation_AccountID inv)) ;;
    references (is_some_b (db_users db !! AccountInvitation_InvitedBy inv)) ;;
    let! id := next_serial in
    let! token := gen_random_uuid in
    unique (negb (is_some_b (db_invitations db !! id)) &&
            bool_decide (select (λ i, String.eqb (AccountInvitation_Token i) token)
                           (db_invitations db) = [])) ;;
    modify (set db_invitations
      <[id := mkAccountInvitation id (AccountInvitation_AccountID inv) ""
                (AccountInvitation_Email inv) (AccountInvitation_Role inv) token
                "pending" (AccountInvitation_InvitedBy inv) None
                (AccountInvitation_ExpiresAt inv) t None]>) ;;
    ret (inv <| AccountInvitation_ID := id |> <| AccountInvitation_Token := token |>
             <| AccountInvitation_Status := "pending"%string |>
             <| AccountInvitation_CreatedAt := t |>)).

Definition invitation_by_token (db : DB) (token : string) : option AccountInvitation :=
  head (select (λ i, String.eqb (AccountInvitation_Token i) token) (db_invitations db)).

Definition GetInvitationByToken (token : string) : Q AccountInvitation :=
  let! db := get in query_row (invitation_by_token db token).

(** The query leaves out the token. *)
Definition ListInvitationsByAccount (accountID : Z) : Q (list AccountInvitation) :=
  gets (λ db, (λ i, i <| AccountInvitation_Token := EmptyString |>) <$>
    order_by_desc AccountInvitation_CreatedAt
      (select (λ i, bool_decide (AccountInvitation_AccountID i = accountID))
        (db_invitations db))).

Definition ListPendingInvitationsByEmail (email : string)
    : Q (list AccountInvitation) :=
  let! t := now in
  gets (λ db, omap (λ i,
      a ← db_accounts db !! AccountInvitation_AccountID i;
      Some (i <| AccountInvitation_AccountName := Account_Name a |>
              <| AccountInvitation_AcceptedBy := None |>
              <| AccountInvitation_RespondedAt := None |>
              <| AccountInvitation_Token := EmptyString |>))
    (order_by_desc AccountInvitation_CreatedAt
      (select (λ i, EqualFold (AccountInvitation_Email i) email &&
                    String.eqb (AccountInvitation_Status i) "pending" &&
                    bool_decide (t < AccountInvitation_ExpiresAt i))
        (db_invitations db)))).

Definition AcceptInvitation (token : string) (userID : Z) : Q Z :=
  tx (
    let! t := now in
    let! db := get in
    match invitation_by_token db token with
    | None => ret 0
    | Some inv =>
        if negb (String.eqb (AccountInvitation_Status inv) "pending") then ret 0
        else if is_some_b (db_members db !! (AccountInvitation_AccountID inv, userID))
        then fail ErrAlreadyMember
        else
          wrap "accept invitation" (references (is_some_b (db_users db !! userID))) ;;
          modify (set db_invitations (alter (λ i,
            i <| AccountInvitation_Status := "accepted"%string |>
              <| AccountInvitation_AcceptedBy := Some userID |>
              <| AccountInvitation_RespondedAt := Some t |>)
            (AccountInvitation_ID inv))) ;;
          let! r := try (insert_member (AccountInvitation_AccountID inv) userID
                           (AccountInvitation_Role inv)) in
          match r with
          | Ok _ => ret 1
          | Err e =>
              if errors_is e ErrConflict then fail ErrAlreadyMember
              else fail (ErrWrap "add account member" e)
          end
    end).

Definition DeclineInvitation (token : string) : Q unit :=
  let! t := now in
  modify (set db_invitations (update_where
    (λ i, String.eqb (AccountInvitation_Token i) token &&
          String.eqb (AccountInvitation_Status i) "pending")
    (λ i, i <| AccountInvitation_Status := "declined"%string |>
            <| AccountInvitation_RespondedAt := Some t |>))).

Definition RevokeInvitation (accountID id : Z) : Q unit :=
  modify (set db_invitations (delete_where
    (λ i, bool_decide (AccountInvitation_ID i = id) &&
          bool_decide (AccountInvitation_AccountID i = accountID) &&
          String.eqb (AccountInvitation_Status i) "pending"))).

Definition ExpireOldInvitations : Q Z :=
  let! t := now in
  let! db := get in
  let hit i := String.eqb (AccountInvitation_Status i) "pending" &&
               bool_decide (AccountInvitation_ExpiresAt i < t) in
  modify (set db_invitations (update_where hit
    (λ i, i <| AccountInvitation_Status := "expired"%string |>))) ;;
  ret (count_where hit (db_invitations db)).

(** ** Enrollment tokens and registered hosts *)

(** A NOT NULL column given a nil value. *)
Definition not_null {A} (o : option A) : Q unit :=
  if is_some_b o then ret tt else fail ErrCheckViolation.

(** [tokenBytes] are the 16 bytes of crypto/rand in hexadecimal. *)
Definition CreateEnrollmentToken (tokenBytes : string) (tok : EnrollmentToken)
    : Q EnrollmentToken :=
  tx (
    let! t := now in
    let token := ("ocm_enroll_" +:+ tokenBytes)%string in
    not_null (EnrollmentToken_Labels tok) ;;
    let! db := get in
    unique (bool_decide (select (λ k, String.eqb (EnrollmentToken_Token k) token)
                           (db_enrollment_tokens db) = [])) ;;
    let! id := gen_random_uuid in
    unique (negb (is_some_b (db_enrollment_tokens db !! id))) ;;
    let row := tok <| EnrollmentToken_Token := token |> <| EnrollmentToken_ID := id |>
                   <| EnrollmentToken_CreatedAt := t |> in
    modify (set db_enrollment_tokens
      <[id := row <| EnrollmentToken_UsedByHostID := None |>]>) ;;
    ret row).

Definition GetEnrollmentToken (token : string) : Q EnrollmentToken :=
  let! db := get in
  query_row (head (select (λ k, String.eqb (EnrollmentToken_Token k) token)
    (db_enrollment_tokens db))).

Definition ListEnrollmentTokens : Q (list EnrollmentToken) :=
  gets (λ db, order_by_desc EnrollmentToken_CreatedAt
    (select (λ _, true) (db_enrollment_tokens db))).

Definition token_usable (t : time) (token : string) (k : EnrollmentToken) : bool :=
  String.eqb (EnrollmentToken_Token k) token &&
  bool_decide (EnrollmentToken_UsedByHostID k = None) &&
  bool_decide (t < EnrollmentToken_ExpiresAt k).

Definition MarkEnrollmentTokenUsed (token : string) (hostID : Z) : Q unit :=
  let! t := now in
  let! db := get in
  let hit := token_usable t token in
  references (is_some_b (db_hosts db !! hostID) ||
              bool_decide (select hit (db_enrollment_tokens db) = [])) ;;
  modify (set db_enrollment_tokens (update_where hit
    (λ k, k <| EnrollmentToken_UsedByHostID := Some hostID |>))) ;;
  if bool_decide (count_where hit (db_enrollment_tokens db) = 0)
  then fail (ErrText "enrollment token not found, already used, or expired")
  else ret tt.

Definition CreateRegisteredHost (h : Host) : Q Host :=
  let! t := now in
  not_null (Host_ProviderMetadata h) ;;
  not_null (Host_Capabilities h) ;;
  not_null (Host_Labels h) ;;
  let! id := next_serial in
  let! db := get in
  unique (negb (is_some_b (db_hosts db !! id))) ;;
  let row := mkHost id (Host_VMName h) None (Host_Zone h) (Host_Region h)
    (Host_MachineType h) None None None "provisioning" None (Host_SourceImage h)
    (Host_CapacityVCPUs h) (Host_CapacityMemoryMB h) (Host_CapacityDiskMB h) 0 0 0 0
    None None EmptyString EmptyString None t (Host_Provider h)
    (Host_ProviderClass h) (Host_LifecycleMode h) (Host_AgentEndpoint h)
    (Host_AgentEndpointType h) (Host_ProviderHostID h) (Host_ProviderMetadata h)
    (Host_Capabilities h) (Host_Labels h) (Host_AgentToken h) false in
  modify (set db_hosts <[id := row]>) ;;
  ret (h <| Host_ID := id |> <| Host_CreatedAt := t |>).

Definition UpdateHostAgentEndpoint (hostID : Z) (endpoint endpointType : string)
    : Q unit :=
  modify (set db_hosts (alter (λ h,
    h <| Host_AgentEndpoint := Some endpoint |>
      <| Host_AgentEndpointType := endpointType |>) hostID)).

Definition UpdateHostProviderMetadata (hostID : Z) (metadata : option json) : Q unit :=
  let! db := get in
  (if is_some_b (db_hosts db !! hostID) then not_null metadata else ret tt) ;;
  modify (set db_hosts (alter (λ h,
    h <| Host_ProviderMetadata := metadata |>) hostID)).

Definition GetHostByAgentToken (agentToken : string) : Q Host :=
  let! db := get in
  query_row (host_row db <$>
    head (select (λ h, bool_decide (Host_AgentToken h = Some agentToken))
            (db_hosts db))).
