(* ===== verification/CatalogStore.v ===== *)
(** * The store: releases, plugins, secrets and backups (store/postgres.go,
    store/postgres_artifact_releases.go)

    The tables artifact_releases, plugin_catalog, machine_plugins and secrets,
    with the unique index that allows a machine one enabled plugin per slot, and
    the backup columns of machines.  ORDER BY on a text compares bytes, as in the
    C collation. *)

From S2P Require Import Prelude Schema HostStore.

(** ** Artifact releases *)

(** Columns without a value in the request are NOT NULL ones; unique (kind, version). *)
Definition CreateArtifactRelease (r : ArtifactRelease) : Q ArtifactRelease :=
  tx (
    let! t := now in
    let! db := get in
    (if one_of ["rootfs"; "openclaw"; "hermes-rootfs"; "hermes"]%string (ArtifactRelease_Kind r) &&
        one_of ["stable"; "rc"; "dev"; "experimental"]%string (ArtifactRelease_Channel r) &&
        is_some_b (ArtifactRelease_Metadata r)
     then ret tt else fail ErrCheckViolation) ;;
    let! id := next_serial in
    unique (negb (is_some_b (db_artifact_releases db !! id)) &&
            bool_decide (select (λ r', String.eqb (ArtifactRelease_Kind r') (ArtifactRelease_Kind r) &&
              String.eqb (ArtifactRelease_Version r') (ArtifactRelease_Version r))
              (db_artifact_releases db) = [])) ;;
    let row := r <| ArtifactRelease_ID := id |> <| ArtifactRelease_CreatedAt := t |> in
    modify (set db_artifact_releases <[id := row]>) ;;
    ret row).
Definition GetArtifactRelease (kind version : string) : Q ArtifactRelease :=
  wrap "get artifact release" (
    let! db := get in
    query_row (head (select (λ r, String.eqb (ArtifactRelease_Kind r) kind &&
                                 String.eqb (ArtifactRelease_Version r) version)
                       (db_artifact_releases db)))).
(** The releases of a channel, newest first. *)
Definition channel_releases (kind channel : string) (db : DB) : list ArtifactRelease :=
  order_by_desc ArtifactRelease_CreatedAt
    (select (λ r, String.eqb (ArtifactRelease_Kind r) kind &&
                  String.eqb (ArtifactRelease_Channel r) channel) (db_artifact_releases db)).
Definition ListArtifactReleases (kind channel : string) (limit : Z) : Q (list ArtifactRelease) :=
  let limit := if bool_decide (limit ≤ 0) then 50 else limit in
  gets (λ db, take (Z.to_nat limit) (channel_releases kind channel db)).
Definition GetLatestArtifactRelease (kind channel : string) : Q ArtifactRelease :=
  wrap "get latest artifact release" (
    let! db := get in query_row (head (channel_releases kind channel db))).

(** ** The catalog of plugins *)

(** [ORDER BY n, s]. *)
Definition text_le (a b : string) : bool :=
  match String.compare a b with Gt => false | _ => true end.
Definition lex_le {V} (n : V → Z) (s : V → string) : relation V := λ a b,
  n a < n b ∨ (n a = n b ∧ text_le (s a) (s b) = true).
#[export] Instance lex_le_dec {V} (n : V → Z) (s : V → string) : RelDecision (lex_le n s).
Proof. intros a b. unfold lex_le. apply _. Defined.

Definition ListPluginCatalog : Q (list PluginCatalogEntry) :=
  gets (λ db, merge_sort (lex_le PluginCatalogEntry_SortOrder PluginCatalogEntry_Name)
                (select (λ _, true) (db_plugin_catalog db))).
Definition GetPluginCatalogEntry (id : string) : Q PluginCatalogEntry :=
  let! db := get in
  match db_plugin_catalog db !! id with
  | Some e => ret e
  | None => fail ErrPluginNotFound
  end.
Definition CreatePluginCatalogEntry (entry : PluginCatalogEntry) : Q PluginCatalogEntry :=
  let! t := now in
  let! db := get in
  unique (negb (is_some_b (db_plugin_catalog db !! PluginCatalogEntry_ID entry))) ;;
  let row := entry <| PluginCatalogEntry_CreatedAt := t |> <| PluginCatalogEntry_UpdatedAt := t |> in
  modify (set db_plugin_catalog <[PluginCatalogEntry_ID entry := row]>) ;;
  ret row.
Definition UpdatePluginCatalogEntry (entry : PluginCatalogEntry) : Q unit :=
  let! t := now in
  let! db := get in
  match db_plugin_catalog db !! PluginCatalogEntry_ID entry with
  | None => fail ErrPluginNotFound
  | Some old =>
      modify (set db_plugin_catalog <[PluginCatalogEntry_ID entry :=
        entry <| PluginCatalogEntry_CreatedAt := PluginCatalogEntry_CreatedAt old |>
              <| PluginCatalogEntry_UpdatedAt := t |>]>)
  end.
Definition DeletePluginCatalogEntry (id : string) : Q unit :=
  tx (
    let! db := get in
    let uses p := String.eqb (MachinePlugin_PluginID p) id in
    (if bool_decide (select (λ p, uses p && MachinePlugin_Enabled p) (db_machine_plugins db) = [])
     then ret tt else fail (ErrWrap "machine(s)" ErrPluginStillEnabled)) ;;
    modify (set db_machine_plugins (delete_where (λ p, uses p && negb (MachinePlugin_Enabled p)))) ;;
    (if is_some_b (db_plugin_catalog db !! id) then ret tt else fail ErrPluginNotFound) ;;
    modify (set db_plugin_catalog (delete id))).

(** ** The plugins of a machine *)

(** [ORDER BY slot, created_at]. *)
Definition slot_le : relation MachinePlugin := λ a b,
  (text_le (MachinePlugin_Slot a) (MachinePlugin_Slot b) = true ∧
   MachinePlugin_Slot a ≠ MachinePlugin_Slot b) ∨
  (MachinePlugin_Slot a = MachinePlugin_Slot b ∧
   MachinePlugin_CreatedAt a ≤ MachinePlugin_CreatedAt b).
#[export] Instance slot_le_dec : RelDecision slot_le.
Proof. intros a b. unfold slot_le. apply _. Defined.

Definition machine_plugins (machineID : string) (db : DB) : list MachinePlugin :=
  merge_sort slot_le
    (select (λ p, String.eqb (MachinePlugin_MachineID p) machineID) (db_machine_plugins db)).
Definition ListMachinePlugins (machineID : string) : Q (list MachinePlugin) :=
  gets (machine_plugins machineID).

Record MachinePluginWithCatalog : Type := mkMachinePluginWithCatalog {
  WithCatalog_Plugin : MachinePlugin;
  WithCatalog_InstallKind : string;
  WithCatalog_ArtifactURL : option string;
  WithCatalog_CatalogVersion : string
}.
Definition ListMachinePluginsWithCatalog (machineID : string) : Q (list MachinePluginWithCatalog) :=
  gets (λ db, omap (λ p,
    (λ c, mkMachinePluginWithCatalog p (PluginCatalogEntry_InstallKind c)
            (PluginCatalogEntry_ArtifactURL c) (PluginCatalogEntry_Version c))
    <$> db_plugin_catalog db !! MachinePlugin_PluginID p) (machine_plugins machineID db)).

(** The WHERE clauses of the statements. *)
Definition plugin_row (machineID pluginID : string) (p : MachinePlugin) : bool :=
  String.eqb (MachinePlugin_MachineID p) machineID && String.eqb (MachinePlugin_PluginID p) pluginID.
Definition enabled_in (machineID slot : string) (p : MachinePlugin) : bool :=
  String.eqb (MachinePlugin_MachineID p) machineID && String.eqb (MachinePlugin_Slot p) slot &&
  MachinePlugin_Enabled p.

Definition plugin_disable (t : time) (p : MachinePlugin) : MachinePlugin :=
  p <| MachinePlugin_Enabled := false |> <| MachinePlugin_UpdatedAt := t |>.

(** The row that the upsert leaves: a re-enabled row keeps its slot.  The unique index
    on (machine_id, slot) WHERE enabled is checked at the end. *)
Definition upsert_plugin (machineID pluginID slot : string) (overrides : option json)
    (installStatus : string) (installedVersion : option string) : Q unit :=
  let! t := now in
  let installedAt := if String.eqb installStatus "installed" then Some t else None in
  let! db := get in
  let! row :=
    match head (select (plugin_row machineID pluginID) (db_machine_plugins db)) with
    | Some old =>
        ret (old <| MachinePlugin_Enabled := true |>
                 <| MachinePlugin_ConfigOverrides := overrides |>
                 <| MachinePlugin_InstallStatus := installStatus |>
                 <| MachinePlugin_InstalledVersion := installedVersion |>
                 <| MachinePlugin_InstalledAt := installedAt |> <| MachinePlugin_UpdatedAt := t |>)
    | None =>
        references (is_some_b (db_machines db !! machineID)) ;;
        let! id := gen_random_uuid in
        unique (negb (is_some_b (db_machine_plugins db !! id))) ;;
        ret (mkMachinePlugin id machineID pluginID slot true overrides installStatus
               installedVersion installedAt t t)
    end in
  unique (bool_decide (select (λ p, enabled_in machineID (MachinePlugin_Slot row) p &&
            negb (String.eqb (MachinePlugin_PluginID p) pluginID)) (db_machine_plugins db) = [])) ;;
  modify (set db_machine_plugins <[MachinePlugin_ID row := row]>).

Definition EnableMachinePlugin (machineID pluginID : string) (overrides : option json) : Q unit :=
  tx (
    let! t := now in
    let! db := get in
    match db_plugin_catalog db !! pluginID with
    | None => fail ErrPluginNotFound
    | Some c =>
        if negb (String.eqb (PluginCatalogEntry_Status c) "active") then fail ErrPluginNotFound
        else
          let slot := PluginCatalogEntry_Slot c in
          modify (set db_machine_plugins (update_where
            (λ p, enabled_in machineID slot p && negb (String.eqb (MachinePlugin_PluginID p) pluginID))
            (plugin_disable t))) ;;
          let bundled := String.eqb (PluginCatalogEntry_InstallKind c) "bundled" in
          upsert_plugin machineID pluginID slot overrides
            (if bundled then "installed" else "pending")
            (if bundled then Some (PluginCatalogEntry_Version c) else None)
    end).

(** An UPDATE that must affect a row. *)
Definition update_plugin (p : MachinePlugin → bool) (f : MachinePlugin → MachinePlugin) : Q unit :=
  let! db := get in
  if bool_decide (count_where p (db_machine_plugins db) = 0) then fail ErrMachinePluginNotFound
  else modify (set db_machine_plugins (update_where p f)).

Definition DisableMachinePlugin (machineID pluginID : string) : Q unit :=
  let! t := now in
  update_plugin (λ p, plugin_row machineID pluginID p && MachinePlugin_Enabled p) (plugin_disable t).
Definition UpdateMachinePluginOverrides (machineID pluginID : string) (overrides : option json)
    : Q unit :=
  let! t := now in
  update_plugin (λ p, plugin_row machineID pluginID p && MachinePlugin_Enabled p)
    (λ p, p <| MachinePlugin_ConfigOverrides := overrides |> <| MachinePlugin_UpdatedAt := t |>).
Definition UpdateMachinePluginStatus (machineID pluginID status version : string) : Q unit :=
  let! t := now in
  update_plugin (plugin_row machineID pluginID) (λ p,
    p <| MachinePlugin_InstallStatus := status |>
      <| MachinePlugin_InstalledVersion := Some version |>
      <| MachinePlugin_InstalledAt ::= λ old, if String.eqb status "installed" then Some t else old |>
      <| MachinePlugin_UpdatedAt := t |>).

(** ** Secrets, backups and workspaces *)

(** The secrets of a machine, encrypted, by their keys. *)
Definition SetSecret (machineID key encryptedValue : string) : Q unit :=
  let! db := get in
  references (is_some_b (db_machines db !! machineID)) ;;
  modify (set db_secrets <[(machineID, key) := encryptedValue]>).

Definition EnableBackups (machineID backupKey : string) : Q unit :=
  update_machine machineID (λ m,
    m <| Machine_BackupsEnabled := true |> <| Machine_BackupKey := Some backupKey |>).
Definition DisableBackups (machineID : string) : Q unit :=
  update_machine machineID (set Machine_BackupsEnabled (λ _, false)).

Definition GetWorkspace (accountID : Z) (workspaceID : string) : Q Workspace :=
  let! db := get in
  query_row (match db_workspaces db !! workspaceID with
    | Some w => if bool_decide (Workspace_AccountID w = accountID) then Some w else None
    | None => None
    end).
