(* ===== verification/StoreStep.v ===== *)
(** * The store as a transition system

    Requests, pollers, reconcilers and agents reach the database only through
    the operations of the store, each of them one statement or one
    transaction.  [step] lets any of them run next, in any interleaving, and
    lets the clock advance; CapacityInv, TableInv and RecordInv show invariants of
    every reachable database.

    [allowed] states what the callers pass: sizes that are not negative, a
    capacity recalculation that does not go below what a host uses, and a
    restart on the host the machine's address belongs to.  The operations no
    code calls (AllocateHostCapacity and AssignMachineToHost, which check
    nothing, and the superseded PlaceMachineOnHost and
    PlaceMachineOnSpecificHost) are not steps. *)

From S2P Require Import Prelude Schema HostStore PlacementStore OperationStore.
From S2P Require Import AccountStore CatalogStore.

(** ** Operations *)

Inductive store_op : Type :=
(* machines *)
| OpCreateMachine (m : Machine)
| OpUpdateMachine (m : Machine)
| OpSetMachineTokens (id gateway proxy : string)
| OpDeleteMachine (id : string)
| OpUpdateMachineStatus (id status : string) (message : option string)
| OpUpdateMachineStatusCAS (id expected status : string) (message : option string)
| OpUnassignMachineFromHost (id : string)
| OpUpdateMachineVersion (id snapshot version : string)
| OpUpdateMachineActualVersions (hostID : Z) (id rootfs openclaw : string)
| OpUpdateMachineTunnel (id tunnel key : string)
| OpClearMachineTunnel (id : string)
| OpMarkMachinesOnHostError (hostID : Z) (message : string)
| OpUpdateMachineHomeHost (id : string) (home : option Z)
(* hosts *)
| OpCreateHost (h : Host)
| OpCreateRegisteredHost (h : Host)
| OpDeleteHost (id : Z)
| OpUpdateHostStatus (id : Z) (status : string)
| OpUpdateHostStatusMessage (id : Z) (status message : string)
| OpSetHostMaintenanceMode (id : Z) (enabled : bool)
| OpUpdateHostDetails (h : Host)
| OpUpdateHostSourceImage (id : Z) (image : string)
| OpUpdateHostVersions (id : Z) (agent openclaw : string)
| OpUpdateHostHeartbeat (id : Z) (ip agent rootfs browser openclaw : string) (caps : option json)
| OpUpdateHostAgentEndpoint (id : Z) (endpoint kind : string)
| OpUpdateHostProviderMetadata (id : Z) (metadata : option json)
| OpReconcileHostCapacityVCPUs (ratio : Z)
| OpReleaseHostCapacity (id vcpus memoryMB : Z)
| OpReleaseHostCapacityWithDisk (id vcpus memoryMB diskMB : Z)
(* placement transactions *)
| OpPlaceOnHost (hostID : Z) (id : string) (vcpus memoryMB diskMB : Z)
| OpSoftStopMachine (id : string) (hostID vcpus memoryMB diskMB : Z)
| OpReAllocateHostCapacity (id : string) (hostID vcpus memoryMB diskMB : Z)
| OpReservePlacement (id : string) (hostID : Z) (vmIP op : string)
| OpActivatePlacement (id : string)
| OpReleasePlacement (machineID : string)
| OpReleaseMigrationSource (id : string) (hostID vcpus memoryMB : Z) (release : bool)
(* browser VMs *)
| OpCreateBrowserVM (b : BrowserVM)
| OpUpdateBrowserVMStatus (id status : string) (message : option string)
| OpAssignBrowserVMToHost (id : string) (hostID : Z) (vmIP : string)
| OpUnassignBrowserVMFromHost (id : string)
| OpDeleteBrowserVM (id : string)
| OpPairBrowserVM (machineID id : string)
| OpUnpairBrowserVM (machineID : string)
| OpPlaceBrowserVMOnHost (hostID : Z) (id : string) (vcpus memoryMB : Z)
| OpActivateBrowserVMPlacement (id : string)
| OpReleaseBrowserVMPlacement (id : string)
(* operations and workflows *)
| OpCreateMachineOperation (o : MachineOperation)
| OpCompleteMachineOperation (id state : string) (message : option string)
| OpExpireStaleOperations (olderThan : Z)
| OpCreateWorkflowRun (r : WorkflowRun)
| OpUpdateWorkflowRunStatus (id status : string) (phase : option string) (summary : option json) (code message : option string)
| OpCompleteWorkflowRun (id status : string) (output : option json) (code message : option string)
| OpCreateWorkflowEvent (e : WorkflowEvent)
| OpAcquireWorkflowLock (l : WorkflowLock)
| OpRenewWorkflowLock (workflow rtype rid kind : string) (until : time)
| OpReleaseWorkflowLocks (workflow : string)
(* accounts *)
| OpCreateAccountWithOwner (a : Account) (owner : Z)
| OpUpdateAccountName (id : Z) (name : string)
| OpAddAccountMember (m : AccountMember)
| OpRemoveAccountMember (account user : Z)
| OpUpdateAccountMemberRole (account user : Z) (role : string)
| OpCreateInvitation (i : AccountInvitation)
| OpAcceptInvitation (token : string) (user : Z)
| OpDeclineInvitation (token : string)
| OpRevokeInvitation (account id : Z)
| OpExpireOldInvitations
| OpCreateEnrollmentToken (bytes : string) (t : EnrollmentToken)
| OpMarkEnrollmentTokenUsed (token : string) (hostID : Z)
(* releases, plugins, secrets, backups *)
| OpCreateArtifactRelease (r : ArtifactRelease)
| OpCreatePluginCatalogEntry (e : PluginCatalogEntry)
| OpUpdatePluginCatalogEntry (e : PluginCatalogEntry)
| OpDeletePluginCatalogEntry (id : string)
| OpEnableMachinePlugin (machineID id : string) (overrides : option json)
| OpDisableMachinePlugin (machineID id : string)
| OpUpdateMachinePluginOverrides (machineID id : string) (overrides : option json)
| OpUpdateMachinePluginStatus (machineID id status version : string)
| OpSetSecret (machineID key value : string)
| OpEnableBackups (machineID key : string)
| OpDisableBackups (machineID : string).

Definition exec (op : store_op) : Q unit :=
  match op with
  | OpCreateMachine m => ignore (CreateMachine m)
  | OpUpdateMachine m => ignore (UpdateMachine m)
  | OpSetMachineTokens id g p => ignore (SetMachineTokens id g p)
  | OpDeleteMachine id => ignore (DeleteMachine id)
  | OpUpdateMachineStatus id s msg => ignore (UpdateMachineStatus id s msg)
  | OpUpdateMachineStatusCAS id e s msg => ignore (UpdateMachineStatusCAS id e s msg)
  | OpUnassignMachineFromHost id => ignore (UnassignMachineFromHost id)
  | OpUpdateMachineVersion id s v => ignore (UpdateMachineVersion id s v)
  | OpUpdateMachineActualVersions h id r o => ignore (UpdateMachineActualVersions h id r o)
  | OpUpdateMachineTunnel id t k => ignore (UpdateMachineTunnel id t k)
  | OpClearMachineTunnel id => ignore (ClearMachineTunnel id)
  | OpMarkMachinesOnHostError h msg => ignore (MarkMachinesOnHostError h msg)
  | OpUpdateMachineHomeHost id h => ignore (UpdateMachineHomeHost id h)
  | OpCreateHost h => ignore (CreateHost h)
  | OpCreateRegisteredHost h => ignore (CreateRegisteredHost h)
  | OpDeleteHost id => ignore (DeleteHost id)
  | OpUpdateHostStatus id s => ignore (UpdateHostStatus id s)
  | OpUpdateHostStatusMessage id s msg => ignore (UpdateHostStatusMessage id s msg)
  | OpSetHostMaintenanceMode id b => ignore (SetHostMaintenanceMode id b)
  | OpUpdateHostDetails h => ignore (UpdateHostDetails h)
  | OpUpdateHostSourceImage id i => ignore (UpdateHostSourceImage id i)
  | OpUpdateHostVersions id a o => ignore (UpdateHostVersions id a o)
  | OpUpdateHostHeartbeat id ip a r b o c => ignore (UpdateHostHeartbeat id ip a r b o c)
  | OpUpdateHostAgentEndpoint id e k => ignore (UpdateHostAgentEndpoint id e k)
  | OpUpdateHostProviderMetadata id m => ignore (UpdateHostProviderMetadata id m)
  | OpReconcileHostCapacityVCPUs r => ignore (ReconcileHostCapacityVCPUs r)
  | OpReleaseHostCapacity id v m => ignore (ReleaseHostCapacity id v m)
  | OpReleaseHostCapacityWithDisk id v m d => ignore (ReleaseHostCapacityWithDisk id v m d)
  | OpPlaceOnHost h id v m d => ignore (PlaceOnHost h id v m d)
  | OpSoftStopMachine id h v m d => ignore (SoftStopMachine id h v m d)
  | OpReAllocateHostCapacity id h v m d => ignore (ReAllocateHostCapacity id h v m d)
  | OpReservePlacement id h ip op => ignore (ReservePlacement id h ip op)
  | OpActivatePlacement id => ignore (ActivatePlacement id)
  | OpReleasePlacement id => ignore (ReleasePlacement id)
  | OpReleaseMigrationSource id h v m b => ignore (ReleaseMigrationSource id h v m b)
  | OpCreateBrowserVM b => ignore (CreateBrowserVM b)
  | OpUpdateBrowserVMStatus id s msg => ignore (UpdateBrowserVMStatus id s msg)
  | OpAssignBrowserVMToHost id h ip => ignore (AssignBrowserVMToHost id h ip)
  | OpUnassignBrowserVMFromHost id => ignore (UnassignBrowserVMFromHost id)
  | OpDeleteBrowserVM id => ignore (DeleteBrowserVM id)
  | OpPairBrowserVM m id => ignore (PairBrowserVM m id)
  | OpUnpairBrowserVM m => ignore (UnpairBrowserVM m)
  | OpPlaceBrowserVMOnHost h id v m => ignore (PlaceBrowserVMOnHost h id v m)
  | OpActivateBrowserVMPlacement id => ignore (ActivateBrowserVMPlacement id)
  | OpReleaseBrowserVMPlacement id => ignore (ReleaseBrowserVMPlacement id)
  | OpCreateMachineOperation o => ignore (CreateMachineOperation o)
  | OpCompleteMachineOperation id s msg => ignore (CompleteMachineOperation id s msg)
  | OpExpireStaleOperations d => ignore (ExpireStaleOperations d)
  | OpCreateWorkflowRun r => ignore (CreateWorkflowRun r)
  | OpUpdateWorkflowRunStatus id s p j c msg => ignore (UpdateWorkflowRunStatus id s p j c msg)
  | OpCompleteWorkflowRun id s j c msg => ignore (CompleteWorkflowRun id s j c msg)
  | OpCreateWorkflowEvent e => ignore (CreateWorkflowEvent e)
  | OpAcquireWorkflowLock l => ignore (AcquireWorkflowLock l)
  | OpRenewWorkflowLock w t r k u => ignore (RenewWorkflowLock w t r k u)
  | OpReleaseWorkflowLocks w => ignore (ReleaseWorkflowLocks w)
  | OpCreateAccountWithOwner a o => ignore (CreateAccountWithOwner a o)
  | OpUpdateAccountName id n => ignore (UpdateAccountName id n)
  | OpAddAccountMember m => ignore (AddAccountMember m)
  | OpRemoveAccountMember a u => ignore (RemoveAccountMember a u)
  | OpUpdateAccountMemberRole a u r => ignore (UpdateAccountMemberRole a u r)
  | OpCreateInvitation i => ignore (CreateInvitation i)
  | OpAcceptInvitation t u => ignore (AcceptInvitation t u)
  | OpDeclineInvitation t => ignore (DeclineInvitation t)
  | OpRevokeInvitation a id => ignore (RevokeInvitation a id)
  | OpExpireOldInvitations => ignore ExpireOldInvitations
  | OpCreateEnrollmentToken b t => ignore (CreateEnrollmentToken b t)
  | OpMarkEnrollmentTokenUsed t h => ignore (MarkEnrollmentTokenUsed t h)
  | OpCreateArtifactRelease r => ignore (CreateArtifactRelease r)
  | OpCreatePluginCatalogEntry e => ignore (CreatePluginCatalogEntry e)
  | OpUpdatePluginCatalogEntry e => ignore (UpdatePluginCatalogEntry e)
  | OpDeletePluginCatalogEntry id => ignore (DeletePluginCatalogEntry id)
  | OpEnableMachinePlugin m id o => ignore (EnableMachinePlugin m id o)
  | OpDisableMachinePlugin m id => ignore (DisableMachinePlugin m id)
  | OpUpdateMachinePluginOverrides m id o => ignore (UpdateMachinePluginOverrides m id o)
  | OpUpdateMachinePluginStatus m id s v => ignore (UpdateMachinePluginStatus m id s v)
  | OpSetSecret m k v => ignore (SetSecret m k v)
  | OpEnableBackups m k => ignore (EnableBackups m k)
  | OpDisableBackups m => ignore (DisableBackups m)
  end.

(** What the callers pass. *)
Definition allowed (op : store_op) (db : DB) : Prop :=
  match op with
  | OpCreateHost h | OpCreateRegisteredHost h =>
      0 ≤ Host_CapacityVCPUs h ∧ 0 ≤ Host_CapacityMemoryMB h ∧ 0 ≤ Host_CapacityDiskMB h
  | OpReconcileHostCapacityVCPUs r =>
      ∀ id h c, db_hosts db !! id = Some h → overcommit_capacity r h = Some c →
        0 ≤ c ∧ Host_UsedVCPUs h ≤ c
  | OpReleaseHostCapacity _ v m => 0 ≤ v ∧ 0 ≤ m
  | OpReleaseHostCapacityWithDisk _ v m d => 0 ≤ v ∧ 0 ≤ m ∧ 0 ≤ d
  | OpPlaceOnHost _ _ v m d => 0 ≤ v ∧ 0 ≤ m ∧ 0 ≤ d
  | OpSoftStopMachine _ _ v m _ => 0 ≤ v ∧ 0 ≤ m
  | OpReAllocateHostCapacity id hostID _ _ _ =>
      ∀ m ip, db_machines db !! id = Some m → Machine_VMIP m = Some ip → ip ≠ ""%string →
        Machine_HostID m = Some hostID
  | OpReleaseMigrationSource _ _ v m _ => 0 ≤ v ∧ 0 ≤ m
  | OpCreateBrowserVM b => 0 ≤ BrowserVM_VCPUs b ∧ 0 ≤ BrowserVM_MemoryMB b
  | _ => True
  end.

Inductive step : DB → DB → Prop :=
| step_op op db : allowed op db → step db (exec op db).2
| step_tick db t : db_now db ≤ t → step db (db <| db_now := t |>).

(** The databases reachable from an empty one; users are created by the
    identity code, which is not modelled. *)
Definition reachable (db : DB) : Prop :=
  ∃ t users, rtc step ((db_empty t) <| db_users := users |>) db.

Lemma reachable_exec op db : reachable db → allowed op db → reachable (exec op db).2.
Proof.
  intros (t & users & Hr) Ha. exists t, users. eapply rtc_r; [done|]. by constructor.
Qed.

(** An invariant holds of every reachable database. *)
Lemma reachable_inv (I : DB → Prop) :
  (∀ t users, I ((db_empty t) <| db_users := users |>)) →
  (∀ op db, allowed op db → I db → I (exec op db).2) →
  (∀ db t, I db → I (db <| db_now := t |>)) →
  ∀ db, reachable db → I db.
Proof.
  intros H0 Hop Htick db (t & users & Hr).
  remember ((db_empty t) <| db_users := users |>) as db0 eqn:E0.
  assert (I db0) as Hi by (subst; apply H0). clear E0.
  induction Hr as [|db0 db1 db2 Hs _ IH]; [done|].
  apply IH. destruct Hs; eauto.
Qed.

#[export] Hint Unfold
  CreateArtifactRelease CreatePluginCatalogEntry UpdatePluginCatalogEntry
  DeletePluginCatalogEntry EnableMachinePlugin upsert_plugin update_plugin
  DisableMachinePlugin UpdateMachinePluginOverrides UpdateMachinePluginStatus SetSecret
  EnableBackups DisableBackups GetArtifactRelease GetLatestArtifactRelease GetWorkspace
  CreateMachine UpdateMachine SetMachineTokens DeleteMachine UpdateMachineStatus
  UpdateMachineStatusCAS UnassignMachineFromHost UpdateMachineVersion
  UpdateMachineActualVersions UpdateMachineTunnel ClearMachineTunnel
  MarkMachinesOnHostError UpdateMachineHomeHost CreateHost CreateRegisteredHost
  DeleteHost UpdateHostStatus UpdateHostStatusMessage SetHostMaintenanceMode
  UpdateHostDetails UpdateHostSourceImage UpdateHostVersions UpdateHostHeartbeat
  UpdateHostAgentEndpoint UpdateHostProviderMetadata ReconcileHostCapacityVCPUs
  ReleaseHostCapacity ReleaseHostCapacityWithDisk PlaceOnHost PlaceMachineOnHost
  PlaceMachineOnSpecificHost SoftStopMachine ReAllocateHostCapacity
  ReservePlacement ActivatePlacement ReleasePlacement ReleaseMigrationSource
  CreateBrowserVM UpdateBrowserVMStatus AssignBrowserVMToHost
  UnassignBrowserVMFromHost DeleteBrowserVM PairBrowserVM UnpairBrowserVM
  PlaceBrowserVMOnHost ActivateBrowserVMPlacement ReleaseBrowserVMPlacement
  CreateMachineOperation CompleteMachineOperation ExpireStaleOperations
  CreateWorkflowRun UpdateWorkflowRunStatus CompleteWorkflowRun CreateWorkflowEvent
  AcquireWorkflowLock RenewWorkflowLock ReleaseWorkflowLocks
  CreateAccountWithOwner CreateAccount UpdateAccountName AddAccountMember
  RemoveAccountMember UpdateAccountMemberRole CreateInvitation AcceptInvitation
  DeclineInvitation RevokeInvitation ExpireOldInvitations CreateEnrollmentToken
  MarkEnrollmentTokenUsed insert_member not_null check_run_status
  update_machine update_host update_browser_vm now next_serial gen_random_uuid
  references unique query_row : store.

(** A frame condition: the operation does not write what the relation reads. *)
Ltac frame :=
  autounfold with store; go_steps; try (intros ?; reflexivity).
