(* ===== verification/CapacityInv.v ===== *)
(** * Capacity: a host's counters stay within its capacity

    The admission checks of the placement transactions, seen from every
    interleaving of the store's operations. *)

From S2P Require Import Prelude Schema HostStore PlacementStore OperationStore.
From S2P Require Import AccountStore StoreStep.

(** ** Capacity *)

(** The counters of a host are within its capacity; disk only where it is
    tracked. *)
Definition cap_ok (h : Host) : Prop :=
  0 ≤ Host_CapacityVCPUs h ∧ Host_UsedVCPUs h ≤ Host_CapacityVCPUs h ∧
  0 ≤ Host_CapacityMemoryMB h ∧ Host_UsedMemoryMB h ≤ Host_CapacityMemoryMB h ∧
  0 ≤ Host_CapacityDiskMB h ∧
  (Host_CapacityDiskMB h ≠ 0 → Host_UsedDiskMB h ≤ Host_CapacityDiskMB h).
Definition bvm_ok (b : BrowserVM) : Prop :=
  0 ≤ BrowserVM_VCPUs b ∧ 0 ≤ BrowserVM_MemoryMB b.

(** The part of a host row the capacity invariant reads. *)
Definition cap_fields (h : Host) : Z * Z * Z * Z * Z * Z :=
  (Host_CapacityVCPUs h, Host_UsedVCPUs h, Host_CapacityMemoryMB h,
   Host_UsedMemoryMB h, Host_CapacityDiskMB h, Host_UsedDiskMB h).
Lemma cap_ok_fields h h' : cap_fields h' = cap_fields h → cap_ok h → cap_ok h'.
Proof. unfold cap_fields, cap_ok. intros [= -> -> -> -> -> ->]. done. Qed.

Definition cap_inv (db : DB) : Prop :=
  map_Forall (λ _, cap_ok) (db_hosts db) ∧ map_Forall (λ _, bvm_ok) (db_browser_vms db).

(** Operations that write neither table. *)
Definition cap_frame : relation DB := λ db db',
  db_hosts db' = db_hosts db ∧ db_browser_vms db' = db_browser_vms db.
#[export] Instance cap_frame_preorder : PreOrder cap_frame.
Proof. split; unfold cap_frame; [done|]. intros ??? [] []. split; congruence. Qed.
Lemma cap_inv_frame db db' : cap_frame db db' → cap_inv db → cap_inv db'.
Proof. unfold cap_frame, cap_inv. intros [-> ->]. done. Qed.

(** A host update that leaves the counters alone, or keeps them in bounds. *)
Lemma cap_inv_alter (f : Host → Host) id :
  (∀ h, cap_ok h → cap_ok (f h)) → steps (keeps cap_inv) (update_host id f).
Proof.
  intros Hf db [Hh Hb]. split; [|done]. apply map_Forall_alter; [|done].
  intros h _. apply Hf.
Qed.
Lemma cap_inv_alter_fields (f : Host → Host) id :
  (∀ h, cap_fields (f h) = cap_fields h) → steps (keeps cap_inv) (update_host id f).
Proof. intros Hf. apply cap_inv_alter. intros h. by apply cap_ok_fields. Qed.
(** A browser VM update that leaves the sizes alone. *)
Lemma cap_inv_alter_bvm (f : BrowserVM → BrowserVM) id :
  (∀ b, bvm_ok b → bvm_ok (f b)) → steps (keeps cap_inv) (update_browser_vm id f).
Proof.
  intros Hf db [Hh Hb]. split; [done|]. apply map_Forall_alter; [|done].
  intros b _. apply Hf.
Qed.

Lemma cap_ok_free v m d h : 0 ≤ v → 0 ≤ m → 0 ≤ d → cap_ok h → cap_ok (host_free v m d h).
Proof. unfold cap_ok, host_free. cbn. lia. Qed.
Lemma cap_ok_free_cpu v m h : 0 ≤ v → 0 ≤ m → cap_ok h → cap_ok (host_free_cpu v m h).
Proof. unfold cap_ok, host_free_cpu. cbn. lia. Qed.
Lemma cap_ok_credit v m h : 0 ≤ v → 0 ≤ m → cap_ok h → cap_ok (host_credit v m h).
Proof. unfold cap_ok, host_credit. cbn. lia. Qed.
Lemma cap_ok_use_cpu v m h :
  room_vcpus v h = true → room_memory m h = true → cap_ok h → cap_ok (host_use_cpu v m h).
Proof.
  unfold cap_ok, host_use_cpu, room_vcpus, room_memory.
  rewrite !bool_decide_eq_true. cbn. lia.
Qed.
Lemma cap_ok_use now v m d h :
  placeable now v m d h = true → cap_ok h → cap_ok (host_use v m d h).
Proof.
  rewrite placeable_spec. unfold cap_ok, host_use. cbn. intuition lia.
Qed.
#[export] Hint Resolve cap_ok_free cap_ok_free_cpu cap_ok_credit cap_ok_use_cpu
  cap_ok_use cap_inv_alter cap_inv_alter_fields cap_inv_alter_bvm : cap.

(** A computation that writes neither table keeps the invariant. *)
Lemma cap_frame_keeps {A} (m : Q A) : steps cap_frame m → steps (keeps cap_inv) m.
Proof. intros Hm db. unfold keeps. apply cap_inv_frame, Hm. Qed.

Lemma cap_inv_insert_host h :
  cap_ok h → ∀ id, steps (keeps cap_inv) (modify (S:=DB) (set db_hosts <[id := h]>)).
Proof. intros Hh id db [Hi Hb]. split; [|done]. by apply map_Forall_insert_2. Qed.

Lemma CreateHost_cap h :
  0 ≤ Host_CapacityVCPUs h ∧ 0 ≤ Host_CapacityMemoryMB h ∧ 0 ≤ Host_CapacityDiskMB h →
  steps (keeps cap_inv) (CreateHost h).
Proof.
  intros Hc. unfold CreateHost.
  repeat (go_step || (apply cap_frame_keeps; by frame)
    || (apply cap_inv_insert_host; unfold cap_ok; cbn; lia)).
Qed.
Lemma CreateRegisteredHost_cap h :
  0 ≤ Host_CapacityVCPUs h ∧ 0 ≤ Host_CapacityMemoryMB h ∧ 0 ≤ Host_CapacityDiskMB h →
  steps (keeps cap_inv) (CreateRegisteredHost h).
Proof.
  intros Hc. unfold CreateRegisteredHost.
  repeat (go_step || (apply cap_frame_keeps; by frame)
    || (apply cap_inv_insert_host; unfold cap_ok; cbn; lia)).
Qed.

Lemma DeleteHost_cap id : steps (keeps cap_inv) (DeleteHost id).
Proof.
  unfold DeleteHost. go_step; [apply cap_frame_keeps; by frame|].
  go_step; [apply cap_frame_keeps; by frame|]. go_step. intros db [Hh Hb]. split.
  - by apply map_Forall_delete.
  - apply map_Forall_update_where; [|done]. done.
Qed.

Lemma ReconcileHostCapacityVCPUs_cap r db :
  allowed (OpReconcileHostCapacityVCPUs r) db →
  keeps cap_inv db (ReconcileHostCapacityVCPUs r db).2.
Proof.
  intros Hc [Hh Hb]. unfold ReconcileHostCapacityVCPUs, bind, get. cbn.
  destruct (bool_decide (select _ _ = [])); cbn; [|done]. split; [|done].
  apply map_Forall_update_where; [|done].
  intros id h Hid Hhit Hok. cbn in Hhit.
  destruct (overcommit_capacity r h) as [c|] eqn:E; [|done].
  destruct (Hc id h c Hid E). unfold cap_ok in *. cbn. lia.
Qed.

Lemma PlaceOnHost_cap hostID id v m d : steps (keeps cap_inv) (PlaceOnHost hostID id v m d).
Proof.
  intros db [Hh Hb]. rewrite PlaceOnHost_run.
  destruct (db_hosts db !! hostID) as [h|] eqn:E; cbn; [|done].
  destruct (placeable _ _ _ _ _) eqn:Ep; cbn; [|done].
  destruct (first_free_ip _ _ _); cbn; [|done].
  split; [|done]. apply map_Forall_alter; [|done].
  intros h' Hh' Hok. simplify_eq. eauto with cap.
Qed.

Lemma ReAllocate_cap id hostID v m d :
  steps (keeps cap_inv) (ReAllocateHostCapacity id hostID v m d).
Proof.
  intros db Hi. destruct (ReAllocateHostCapacity id hostID v m d db) as [[ip|e] db'] eqn:E.
  - apply ReAllocate_ok in E as (h & r & Hh & _ & Hr & _ & ->). destruct Hi as [Hi Hb].
    split; [|done]. apply map_Forall_alter; [|done]. intros h' Hh' Hok. simplify_eq.
    unfold restartable in Hr. rewrite !andb_true_iff in Hr. destruct Hr as [[_ Hv] Hm].
    eauto with cap.
  - unfold ReAllocateHostCapacity in E. by apply tx_err in E as ->.
Qed.

Lemma PlaceBrowserVMOnHost_cap hostID id v m :
  steps (keeps cap_inv) (PlaceBrowserVMOnHost hostID id v m).
Proof.
  intros db Hi. destruct (PlaceBrowserVMOnHost hostID id v m db) as [[ip|e] db'] eqn:E.
  - apply PlaceBrowserVMOnHost_ok in E as (h & Hh & _ & Hv & Hm & _ & _ & _ & _ & ->).
    destruct Hi as [Hi Hb]. split; [|done]. apply map_Forall_alter; [|done].
    intros h' Hh' Hok. cbn in Hh'. simplify_eq. eauto with cap.
  - unfold PlaceBrowserVMOnHost in E. by apply tx_err in E as ->.
Qed.

Lemma ReleaseBrowserVMPlacement_cap id :
  steps (keeps cap_inv) (ReleaseBrowserVMPlacement id).
Proof.
  intros db Hi. destruct (ReleaseBrowserVMPlacement_db id db) as [->|(p&b&Hb&_&_&_&Eh&Eb&_)];
    [done|].
  destruct Hi as [Hh Hbv]. unfold cap_inv. rewrite Eh, Eb. split; [|done].
  destruct (Hbv _ _ Hb) as [? ?]. apply map_Forall_alter; [|done].
  intros h _. by apply cap_ok_credit.
Qed.

Lemma ReleaseMigrationSource_cap id hostID v m b :
  0 ≤ v ∧ 0 ≤ m → steps (keeps cap_inv) (ReleaseMigrationSource id hostID v m b).
Proof.
  intros [Hv Hm]. unfold ReleaseMigrationSource.
  repeat (go_step || (apply cap_inv_alter; by auto using cap_ok_free_cpu)
    || (apply cap_frame_keeps; by frame)).
Qed.

(** Split a computation and close its updates. *)
Ltac cap_go :=
  repeat ((apply cap_frame_keeps; by frame) || go_step
    || (apply cap_inv_alter_fields; done)
    || (apply cap_inv_alter; by auto using cap_ok_free, cap_ok_free_cpu)
    || (apply cap_inv_alter_bvm; done)).

Lemma DeleteMachine_cap id : steps (keeps cap_inv) (DeleteMachine id).
Proof. unfold DeleteMachine. cap_go. Qed.
Lemma UpdateHostHeartbeat_cap id ip a r b o c :
  steps (keeps cap_inv) (UpdateHostHeartbeat id ip a r b o c).
Proof. unfold UpdateHostHeartbeat. cap_go. Qed.
Lemma UpdateHostProviderMetadata_cap id c :
  steps (keeps cap_inv) (UpdateHostProviderMetadata id c).
Proof. unfold UpdateHostProviderMetadata. cap_go. Qed.
Lemma SoftStopMachine_cap id hostID v m d :
  0 ≤ v ∧ 0 ≤ m → steps (keeps cap_inv) (SoftStopMachine id hostID v m d).
Proof. intros [Hv Hm]. unfold SoftStopMachine. cap_go. Qed.
Lemma Release_cap id v m d :
  0 ≤ v ∧ 0 ≤ m ∧ 0 ≤ d → steps (keeps cap_inv) (ReleaseHostCapacityWithDisk id v m d).
Proof. intros (Hv & Hm & Hd). unfold ReleaseHostCapacityWithDisk. cap_go. Qed.
Lemma Release_cpu_cap id v m :
  0 ≤ v ∧ 0 ≤ m → steps (keeps cap_inv) (ReleaseHostCapacity id v m).
Proof. intros [Hv Hm]. unfold ReleaseHostCapacity. cap_go. Qed.
Lemma UpdateBrowserVMStatus_cap id s msg :
  steps (keeps cap_inv) (UpdateBrowserVMStatus id s msg).
Proof. unfold UpdateBrowserVMStatus. cap_go. Qed.
Lemma AssignBrowserVMToHost_cap id h ip :
  steps (keeps cap_inv) (AssignBrowserVMToHost id h ip).
Proof. unfold AssignBrowserVMToHost. cap_go. Qed.
Lemma UnassignBrowserVMFromHost_cap id :
  steps (keeps cap_inv) (UnassignBrowserVMFromHost id).
Proof. unfold UnassignBrowserVMFromHost. cap_go. Qed.
Lemma DeleteBrowserVM_cap id : steps (keeps cap_inv) (DeleteBrowserVM id).
Proof.
  unfold DeleteBrowserVM. cap_go. intros db [Hh Hb].
  split; [done|]. by apply map_Forall_delete.
Qed.
Lemma CreateBrowserVM_cap b :
  0 ≤ BrowserVM_VCPUs b ∧ 0 ≤ BrowserVM_MemoryMB b →
  steps (keeps cap_inv) (CreateBrowserVM b).
Proof.
  intros Hb. unfold CreateBrowserVM. cap_go.
  intros db [Hh Hbv]. split; [done|]. by apply map_Forall_insert_2.
Qed.
#[export] Hint Resolve CreateHost_cap CreateRegisteredHost_cap DeleteHost_cap
  PlaceOnHost_cap ReAllocate_cap PlaceBrowserVMOnHost_cap ReleaseBrowserVMPlacement_cap
  ReleaseMigrationSource_cap DeleteMachine_cap UpdateHostHeartbeat_cap
  UpdateHostProviderMetadata_cap SoftStopMachine_cap Release_cap Release_cpu_cap
  UpdateBrowserVMStatus_cap AssignBrowserVMToHost_cap UnassignBrowserVMFromHost_cap
  DeleteBrowserVM_cap CreateBrowserVM_cap : cap.

Lemma exec_cap op db : allowed op db → cap_inv db → cap_inv (exec op db).2.
Proof.
  intros Ha. change (keeps cap_inv db (exec op db).2).
  assert (steps cap_frame (exec op) → keeps cap_inv db (exec op db).2) as Hframe
    by (intros Hs; by apply cap_frame_keeps).
  destruct op; try (apply Hframe; cbn [exec]; apply steps_ignore; by frame);
    clear Hframe; cbn [exec]; revert Ha; cbn [allowed]; intros Ha;
    try (by apply ReconcileHostCapacityVCPUs_cap);
    match goal with |- keeps _ db (ignore ?m db).2 =>
      enough (steps (keeps cap_inv) m) as Hm by exact (Hm db) end.
  all: try (by apply cap_inv_alter_fields).
  all: eauto with cap nocore.
Qed.

Lemma reachable_cap db : reachable db → cap_inv db.
Proof.
  apply (reachable_inv cap_inv); [|apply exec_cap|done].
  intros t users. split; apply map_Forall_empty.
Qed.
