(* ===== verification/TableInv.v ===== *)
(** * Keys and addresses: well-formedness of the tables *)

From S2P Require Import Prelude Schema HostStore PlacementStore OperationStore.
From S2P Require Import AccountStore StoreStep.

(** ** Keys *)

(** Every row is stored under the key its own columns give. *)
Definition keyed_inv (db : DB) : Prop :=
  keyed Host_ID (db_hosts db) ∧ keyed Machine_ID (db_machines db) ∧
  keyed Placement_ID (db_placements db) ∧ keyed BrowserVM_ID (db_browser_vms db) ∧
  keyed BrowserVMPlacement_ID (db_browser_vm_placements db) ∧
  keyed MachineOperation_ID (db_operations db) ∧
  keyed WorkflowRun_ID (db_workflow_runs db) ∧ keyed lock_key (db_workflow_locks db) ∧
  keyed Account_ID (db_accounts db) ∧
  keyed (λ m, (AccountMember_AccountID m, AccountMember_UserID m)) (db_members db) ∧
  keyed AccountInvitation_ID (db_invitations db) ∧
  keyed EnrollmentToken_ID (db_enrollment_tokens db).

Ltac keyed_table :=
  repeat first
    [ assumption
    | apply keyed_insert; [reflexivity|]
    | apply keyed_delete | apply keyed_delete_where
    | apply keyed_alter; [intros ?; reflexivity|]
    | apply keyed_update_where; [intros ?; reflexivity|] ].
Ltac keyed_go :=
  autounfold with store; go_steps;
  try (intros db' (?&?&?&?&?&?&?&?&?&?&?&?); unfold keyed_inv; cbn; repeat split;
       keyed_table).

(** The row an acquisition takes over is under the key it asks for. *)
Lemma AcquireWorkflowLock_keyed l : steps (keeps keyed_inv) (AcquireWorkflowLock l).
Proof.
  intros db Hi. destruct Hi as (?&?&?&?&?&?&?&Hl&?&?&?&?).
  unfold AcquireWorkflowLock, bind, now, gets, get, references, modify, ret, fail. cbn.
  destruct (is_some_b _); cbn; [|by repeat split].
  destruct (db_workflow_locks db !! lock_key l) as [held|] eqn:E; cbn.
  - destruct (_ || _); cbn; [|by repeat split].
    repeat split; try done. cbn. apply keyed_insert; [|done]. apply (Hl _ _ E).
  - repeat split; try done. cbn. by apply keyed_insert.
Qed.

Lemma exec_keyed op : steps (keeps keyed_inv) (exec op).
Proof.
  destruct op; cbn [exec]; apply steps_ignore;
    try apply AcquireWorkflowLock_keyed; keyed_go.
  apply keyed_alter; [|done]. intros v. by case_match.
Qed.

Lemma reachable_keyed db : reachable db → keyed_inv db.
Proof.
  apply (reachable_inv keyed_inv); [|intros ???; apply exec_keyed|done].
  intros t users. by repeat split; apply keyed_empty.
Qed.

(** ** Addresses *)

(** Two machines of a host have different addresses. *)
Definition vm_ip_inv (db : DB) : Prop :=
  ∀ id1 id2 m1 m2 h ip,
    db_machines db !! id1 = Some m1 → db_machines db !! id2 = Some m2 →
    Machine_HostID m1 = Some h → Machine_HostID m2 = Some h →
    Machine_VMIP m1 = Some ip → Machine_VMIP m2 = Some ip → id1 = id2.

(** The machine [m'] of the new state stands where [m] of the old one stood,
    or lost its place. *)
Definition place_le (m m' : Machine) : Prop :=
  Machine_HostID m' = None ∨ Machine_VMIP m' = None ∨
  (Machine_HostID m' = Machine_HostID m ∧ Machine_VMIP m' = Machine_VMIP m).

(** Steps that add no machine to a place. *)
Definition place_frame : relation DB := λ db db',
  ∀ id m', db_machines db' !! id = Some m' →
    Machine_HostID m' = None ∨ Machine_VMIP m' = None ∨
    ∃ m, db_machines db !! id = Some m ∧
      Machine_HostID m' = Machine_HostID m ∧ Machine_VMIP m' = Machine_VMIP m.
#[export] Instance place_frame_preorder : PreOrder place_frame.
Proof.
  split.
  - intros db id m Hm. right; right. by exists m.
  - intros db1 db2 db3 H12 H23 id m3 Hm3.
    destruct (H23 id m3 Hm3) as [?|[?|(m2&Hm2&Eh&Ei)]]; [auto..|].
    destruct (H12 id m2 Hm2) as [?|[?|(m1&Hm1&?&?)]];
      [left; congruence|right; left; congruence|].
    right; right. exists m1. split; [done|]. split; congruence.
Qed.

Lemma vm_ip_inv_frame db db' : place_frame db db' → vm_ip_inv db → vm_ip_inv db'.
Proof.
  intros Hf Hi id1 id2 m1 m2 h ip H1 H2 Hh1 Hh2 Hi1 Hi2.
  destruct (Hf _ _ H1) as [?|[?|(n1&?&?&?)]]; [congruence..|].
  destruct (Hf _ _ H2) as [?|[?|(n2&?&?&?)]]; [congruence..|].
  apply (Hi id1 id2 n1 n2 h ip); congruence.
Qed.

(** Assigning a machine an address no other machine of the host holds. *)
Lemma vm_ip_inv_assign db db' hostID ip id t :
  db_machines db' = alter (machine_assign t hostID ip) id (db_machines db) →
  (∀ id' m, id' ≠ id → db_machines db !! id' = Some m →
     Machine_HostID m = Some hostID → Machine_VMIP m ≠ Some ip) →
  vm_ip_inv db → vm_ip_inv db'.
Proof.
  intros Hm Hfree Hi id1 id2 m1 m2 h ip'. rewrite Hm.
  destruct (decide (id1 = id)) as [->|N1], (decide (id2 = id)) as [->|N2];
    rewrite ?lookup_alter_eq, ?lookup_alter_ne by done; [done|..].
  - intros (n1 & Hn1 & ->)%fmap_Some_1 H2 Hh1 Hh2 Hi1 Hi2. cbn in *. simplify_eq.
    destruct (Hfree id2 m2 N2 H2 Hh2 Hi2).
  - intros H1 (n2 & Hn2 & ->)%fmap_Some_1 Hh1 Hh2 Hi1 Hi2. cbn in *. simplify_eq.
    destruct (Hfree id1 m1 N1 H1 Hh1 Hi1).
  - apply Hi.
Qed.

Lemma place_frame_same db db' : db_machines db' = db_machines db → place_frame db db'.
Proof. intros E id m'. rewrite E. intros Hm. right; right. by exists m'. Qed.
Lemma place_frame_alter f id db db' :
  db_machines db' = alter f id (db_machines db) → (∀ m, place_le m (f m)) →
  place_frame db db'.
Proof.
  intros E Hf id' m'. rewrite E. destruct (decide (id' = id)) as [->|Hne].
  - rewrite lookup_alter_eq. intros (m & Hm & ->)%fmap_Some_1.
    destruct (Hf m) as [?|[?|[??]]]; eauto 6.
  - rewrite lookup_alter_ne by done. intros Hm. right; right. by exists m'.
Qed.
Lemma place_frame_update_where p f db db' :
  db_machines db' = update_where p f (db_machines db) → (∀ m, place_le m (f m)) →
  place_frame db db'.
Proof.
  intros E Hf id' m'. rewrite E, lookup_update_where.
  intros (m & Hm & ->)%fmap_Some_1. destruct (p m); [|right; right; by exists m].
  destruct (Hf m) as [?|[?|[??]]]; eauto 6.
Qed.
Lemma place_frame_delete id db db' :
  db_machines db' = delete id (db_machines db) → place_frame db db'.
Proof.
  intros E id' m'. rewrite E. intros [_ Hm]%lookup_delete_Some. right; right.
  by exists m'.
Qed.
Lemma place_frame_insert id m db db' :
  db_machines db' = <[id := m]> (db_machines db) → Machine_HostID m = None →
  place_frame db db'.
Proof.
  intros E Hm id' m'. rewrite E, lookup_insert_Some.
  intros [[_ <-]|[_ H]]; [by left|]. right; right. by exists m'.
Qed.

Ltac place_go :=
  autounfold with store; go_steps; intros ?;
  first [ apply place_frame_same; reflexivity
        | eapply place_frame_alter; [reflexivity|]
        | eapply place_frame_update_where; [reflexivity|]
        | eapply place_frame_delete; reflexivity
        | eapply place_frame_insert; reflexivity ];
  try (intros ?; unfold place_le, machine_unassign; cbn; tauto).

Lemma PlaceOnHost_place hostID id v m d :
  steps (keeps vm_ip_inv) (PlaceOnHost hostID id v m d).
Proof.
  intros db Hi. rewrite PlaceOnHost_run.
  destruct (db_hosts db !! hostID) as [h|]; cbn; [|done].
  destruct (placeable _ _ _ _ _); cbn; [|done].
  destruct (first_free_ip _ _ _) as [ip|] eqn:E; cbn; [|done].
  apply first_free_ip_some in E as [Hfree _].
  eapply vm_ip_inv_assign; [reflexivity| |done].
  intros id' r _ Hr Hh Hip. apply Hfree, elem_of_machine_ips. eauto.
Qed.

Lemma ReAllocate_place id hostID v m d db :
  allowed (OpReAllocateHostCapacity id hostID v m d) db →
  keeps vm_ip_inv db (ReAllocateHostCapacity id hostID v m d db).2.
Proof.
  intros Ha Hi. destruct (ReAllocateHostCapacity id hostID v m d db) as [[ip|e] db'] eqn:E.
  - apply ReAllocate_ok in E as (h & r & _ & Hr & _ & Hip & ->).
    unfold restart_ip in Hip. destruct (String.eqb_spec (default "" (Machine_VMIP r)) ""%string).
    + apply first_free_ip_some in Hip as [Hfree _].
      eapply vm_ip_inv_assign; [reflexivity| |done].
      intros id' r' _ Hr' Hh' Hip'. apply Hfree. unfold used_ips.
      rewrite !elem_of_app, elem_of_machine_ips. eauto 10.
    + apply vm_ip_inv_frame with db; [|done]. intros id' m'. cbn.
      destruct (decide (id' = id)) as [->|Hne].
      * rewrite lookup_alter_eq, Hr. cbn. intros [= <-]. right; right. exists r. cbn.
        rewrite Hip in *. cbn in *. split; [done|]. split; [|done].
        symmetry. by apply (Ha r ip Hr Hip).
      * rewrite lookup_alter_ne by done. intros Hm'. right; right. by exists m'.
  - unfold ReAllocateHostCapacity in E. by apply tx_err in E as ->.
Qed.

Lemma exec_place op db : allowed op db → vm_ip_inv db → vm_ip_inv (exec op db).2.
Proof.
  intros Ha. change (keeps vm_ip_inv db (exec op db).2).
  assert (steps place_frame (exec op) → keeps vm_ip_inv db (exec op db).2) as Hframe
    by (intros Hs; unfold keeps; apply vm_ip_inv_frame, Hs).
  destruct op; try (by apply PlaceOnHost_place); try (by apply ReAllocate_place);
    apply Hframe; clear; cbn [exec]; apply steps_ignore; place_go.
  intros r. cbn. case_match; unfold place_le; cbn; tauto.
Qed.
