(* ===== verification/RecordInv.v ===== *)
(** * Records: placements, operations, locks and tokens over time *)

From S2P Require Import Prelude Schema HostStore PlacementStore OperationStore.
From S2P Require Import AccountStore StoreStep TableInv.

(** ** Placement records *)

(** The columns that identify a placement. *)
Definition placement_place (p : Placement) : string * Z * string :=
  (Placement_MachineID p, Placement_HostID p, Placement_VMIP p).

(** A record is reserved, active or released, and says so consistently. *)
Definition placement_wf (p : Placement) : Prop :=
  (Placement_ReleasedAt p = None ∧
     (Placement_State p = "reserved"%string ∨ Placement_State p = "active"%string)) ∨
  (is_Some (Placement_ReleasedAt p) ∧ Placement_State p = "released"%string).

(** What a step may do to a record: nothing, activate a reserved one, or
    release one that is not released. *)
Definition placement_edge (p p' : Placement) : Prop :=
  placement_place p' = placement_place p ∧
  (p' = p ∨
   (Placement_State p = "reserved"%string ∧ Placement_State p' = "active"%string ∧
    Placement_ReleasedAt p' = None) ∨
   (Placement_ReleasedAt p = None ∧ Placement_State p' = "released"%string ∧
    is_Some (Placement_ReleasedAt p'))).

(** A step of the table: records follow an edge or are deleted; a new record is
    reserved, and only when its machine and its address have no other one. *)
Inductive placements_step (db db' : DB) : Prop :=
| placements_old :
    (∀ id p', db_placements db' !! id = Some p' →
       ∃ p, db_placements db !! id = Some p ∧ placement_edge p p') →
    placements_step db db'
| placements_new id p :
    db_placements db !! id = None → placement_wf p →
    placement_free db (Placement_MachineID p) (Placement_HostID p) (Placement_VMIP p) = true →
    db_placements db' = <[id := p]> (db_placements db) → placements_step db db'.

Definition placements_wf (db : DB) : Prop := map_Forall (λ _, placement_wf) (db_placements db).

Lemma placement_edge_refl p : placement_edge p p.
Proof. split; auto. Qed.
Lemma placements_same db db' :
  db_placements db' = db_placements db → placements_step db db'.
Proof.
  intros E. apply placements_old. intros id p'. rewrite E. eauto using placement_edge_refl.
Qed.
Lemma placements_release p' t db db' :
  db_placements db' = update_where (λ p, p' p && placement_active p)
                        (placement_release t) (db_placements db) →
  placements_step db db'.
Proof.
  intros E. apply placements_old. intros id p''. rewrite E, lookup_update_where.
  intros (p & Hp & ->)%fmap_Some_1. exists p. split; [done|].
  destruct (p' p && placement_active p) eqn:Ea; [|apply placement_edge_refl].
  apply andb_true_iff in Ea as [_ Ha]. apply bool_decide_eq_true in Ha.
  split; [done|]. right; right. by repeat split.
Qed.

Ltac same_table :=
  cbn [exec]; apply steps_ignore; autounfold with store; go_steps; intros ?; reflexivity.

Lemma exec_placements op db :
  placements_wf db → placements_step db (exec op db).2.
Proof.
  intros Hw.
  assert (steps (same db_placements) (exec op) → placements_step db (exec op db).2) as Hsame
    by (intros Hs; apply placements_same, Hs).
  destruct op; try (by apply Hsame; clear; same_table); clear Hsame.
  - (* DeleteMachine *)
    cbn. unfold DeleteMachine, bind, get. cbn.
    destruct (db_machines db !! id); cbn; [|by apply placements_same].
    apply placements_old. intros id' p'. cbn. intros [Hp _]%lookup_delete_where.
    eauto using placement_edge_refl.
  - (* ReservePlacement *)
    cbn. destruct (ReservePlacement id hostID vmIP op db) as [[p|e] db'] eqn:E; cbn.
    + apply ReservePlacement_ok in E as (_ & _ & _ & Hf & Hn & -> & ->).
      eapply placements_new; [exact Hn| | |reflexivity]; [left; cbn; auto|exact Hf].
    + apply ReservePlacement_err in E as ->. by apply placements_same.
  - (* ActivatePlacement *)
    cbn. unfold ActivatePlacement, bind, now, gets, get, modify, ret. cbn.
    destruct (db_placements db !! id) as [p|] eqn:Ep; cbn; [|by apply placements_same].
    destruct (String.eqb_spec (Placement_State p) "reserved"%string) as [Es|]; cbn;
      [|by apply placements_same].
    apply placements_old. intros id' p'. cbn. destruct (decide (id' = id)) as [->|Hne].
    + rewrite lookup_alter_eq, Ep. cbn. intros [= <-]. exists p. split; [done|].
      split; [done|]. right; left. split; [done|]. split; [done|].
      destruct (Hw _ _ Ep) as [[? _]|[_ Hs]]; [done|congruence].
    + rewrite lookup_alter_ne by done. eauto using placement_edge_refl.
  - (* ReleasePlacement *)
    eapply placements_release. reflexivity.
  - (* ReleaseMigrationSource *)
    cbn. unfold ReleaseMigrationSource, tx, bind, now, gets, get, wrap, query_row, of_res.
    cbn. destruct (db_machines db !! id) as [m|]; cbn; [|by apply placements_same].
    destruct (bool_decide _); [destruct release|destruct (bool_decide _)];
      eapply placements_release; reflexivity.
Qed.

Lemma placements_step_wf db db' :
  placements_step db db' → placements_wf db → placements_wf db'.
Proof.
  intros [Hold|id p _ Hp _ E] Hw id' p' Hp'.
  - destruct (Hold id' p' Hp') as (p & Hp & _ & [->|[(_ & Hs & Hr)|(_ & Hs & Hr)]]).
    + by apply (Hw id').
    + left. auto.
    + right. auto.
  - rewrite E in Hp'. apply lookup_insert_Some in Hp' as [[_ <-]|[_ ?]]; [done|].
    by apply (Hw id').
Qed.

Lemma reachable_placements_wf db : reachable db → placements_wf db.
Proof.
  apply (reachable_inv placements_wf); [by intros ?? ?|..|done].
  intros op db' _ Hw. eapply placements_step_wf; [|done]. by apply exec_placements.
Qed.

(** At most one record of a machine, and one of an address, is not released. *)
Definition placements_unique (db : DB) : Prop :=
  ∀ id1 id2 p1 p2,
    db_placements db !! id1 = Some p1 → db_placements db !! id2 = Some p2 →
    Placement_ReleasedAt p1 = None → Placement_ReleasedAt p2 = None →
    Placement_MachineID p1 = Placement_MachineID p2 ∨
    (Placement_HostID p1 = Placement_HostID p2 ∧ Placement_VMIP p1 = Placement_VMIP p2) →
    id1 = id2.

Lemma placement_free_spec db machineID hostID ip id p :
  placement_free db machineID hostID ip = true →
  db_placements db !! id = Some p → Placement_ReleasedAt p = None →
  Placement_MachineID p ≠ machineID ∧
  ¬ (Placement_HostID p = hostID ∧ Placement_VMIP p = ip).
Proof.
  unfold placement_free, placement_active. rewrite bool_decide_eq_true, select_nil.
  intros Hf Hp Hr. specialize (Hf id p Hp). rewrite bool_decide_true in Hf by done.
  cbn in Hf. apply orb_false_iff in Hf as [Hm Hi]. apply String.eqb_neq in Hm.
  split; [done|]. intros [E1 E2].
  rewrite E1, E2, bool_decide_true, String.eqb_refl in Hi by done. done.
Qed.

(** A record that is not released after a step was not released before. *)
Lemma edge_unreleased p p' :
  placement_wf p → placement_edge p p' → Placement_ReleasedAt p' = None →
  Placement_ReleasedAt p = None.
Proof.
  intros Hw [_ [->|[(Hs & _ & _)|(_ & _ & [t Ht])]]] Hr; [done| |congruence].
  destruct Hw as [[? _]|[_ ?]]; [done|congruence].
Qed.

Lemma placements_step_unique db db' :
  placements_wf db → placements_step db db' → placements_unique db → placements_unique db'.
Proof.
  intros Hw Hs Hu id1 id2 p1 p2 H1 H2 R1 R2 Heq. destruct Hs as [Hold|id p Hn _ Hf E].
  - destruct (Hold _ _ H1) as (q1 & Hq1 & E1), (Hold _ _ H2) as (q2 & Hq2 & E2).
    pose proof (edge_unreleased _ _ (Hw _ _ Hq1) E1 R1) as U1.
    pose proof (edge_unreleased _ _ (Hw _ _ Hq2) E2 R2) as U2.
    destruct E1 as [P1 _], E2 as [P2 _]. injection P1 as A1 B1 C1. injection P2 as A2 B2 C2.
    apply (Hu id1 id2 q1 q2); try done.
    by rewrite <-A1, <-A2, <-B1, <-B2, <-C1, <-C2.
  - rewrite E in H1, H2.
    apply lookup_insert_Some in H1 as [[<- <-]|[N1 H1]];
    apply lookup_insert_Some in H2 as [[<- <-]|[N2 H2]]; [done|..].
    + destruct (placement_free_spec _ _ _ _ _ _ Hf H2 R2) as [Nm Ni].
      destruct Heq as [?|[? ?]]; [congruence|destruct Ni; split; congruence].
    + destruct (placement_free_spec _ _ _ _ _ _ Hf H1 R1) as [Nm Ni].
      destruct Heq as [?|[? ?]]; [congruence|destruct Ni; split; congruence].
    + eauto.
Qed.

Lemma reachable_placements_unique db : reachable db → placements_unique db.
Proof.
  intros Hr. enough (placements_wf db ∧ placements_unique db) as [_ ?] by done.
  revert db Hr. apply reachable_inv.
  - intros t users. split; [by intros ?? ?|]. by intros ????? ?.
  - intros op db _ [Hw Hu]. pose proof (exec_placements op db Hw) as Hs.
    split; [by eapply placements_step_wf|by eapply placements_step_unique].
  - done.
Qed.

(** ** Machine operations *)

(** At most one operation of a machine is pending or in progress. *)
Definition operations_unique (db : DB) : Prop :=
  ∀ id1 id2 o1 o2,
    db_operations db !! id1 = Some o1 → db_operations db !! id2 = Some o2 →
    operation_active o1 = true → operation_active o2 = true →
    MachineOperation_MachineID o1 = MachineOperation_MachineID o2 → id1 = id2.

(** Steps that make no operation active. *)
Definition ops_frame : relation DB := λ db db',
  ∀ id o', db_operations db' !! id = Some o' → operation_active o' = true →
    ∃ o, db_operations db !! id = Some o ∧ operation_active o = true ∧
      MachineOperation_MachineID o = MachineOperation_MachineID o'.

Lemma ops_frame_unique db db' :
  ops_frame db db' → operations_unique db → operations_unique db'.
Proof.
  intros Hf Hu id1 id2 o1 o2 H1 H2 A1 A2 E.
  destruct (Hf _ _ H1 A1) as (p1 & ? & ? & ?), (Hf _ _ H2 A2) as (p2 & ? & ? & ?).
  apply (Hu id1 id2 p1 p2); congruence.
Qed.
Lemma ops_frame_same db db' : db_operations db' = db_operations db → ops_frame db db'.
Proof. intros E id o'. rewrite E. eauto. Qed.

Lemma active_operations_nil db machineID :
  active_operations db machineID = [] ↔
  ∀ id o, db_operations db !! id = Some o → MachineOperation_MachineID o = machineID →
    operation_active o = false.
Proof.
  unfold active_operations. rewrite select_nil. split; intros H id o Ho.
  - intros <-. specialize (H id o Ho). by rewrite String.eqb_refl in H.
  - destruct (String.eqb_spec (MachineOperation_MachineID o) machineID); cbn; eauto.
Qed.

(** What a recorded operation is, and when recording one succeeds. *)
Lemma CreateMachineOperation_ok op db op' db' :
  CreateMachineOperation op db = (Ok op', db') ↔
  let id := uuid_of (db_next db) in
  is_Some (db_machines db !! MachineOperation_MachineID op) ∧
  active_operations db (MachineOperation_MachineID op) = [] ∧
  db_operations db !! id = None ∧
  op' = op <| MachineOperation_ID := id |> <| MachineOperation_CreatedAt := db_now db |> ∧
  db' = db <| db_next ::= N.succ |>
           <| db_operations ::= <[id := mkMachineOperation id
                (MachineOperation_MachineID op) (MachineOperation_Kind op) "in_progress"
                (MachineOperation_IdempotencyKey op) None None (db_now db) None]> |>.
Proof.
  unfold CreateMachineOperation, bind, try, tx, now, gets, get, references, unique,
    gen_random_uuid, modify, ret, fail, is_some_b. cbn.
  destruct (db_machines db !! _); cbn; [|naive_solver].
  destruct (bool_decide_reflect (active_operations db (MachineOperation_MachineID op) = []));
    cbn; [|naive_solver].
  destruct (db_operations db !! uuid_of (db_next db)); cbn; [naive_solver|].
  split; [intros [= <- <-]|intros (_&_&_&->&->)]; naive_solver.
Qed.

(** A refused operation leaves the database alone. *)
Lemma CreateMachineOperation_err op db e db' :
  CreateMachineOperation op db = (Err e, db') → db' = db.
Proof.
  unfold CreateMachineOperation, bind, try, ret, fail. cbn.
  destruct (tx _ db) as [[o|e'] db1] eqn:E; [done|].
  apply tx_err in E as ->. destruct (errors_is _ _); naive_solver.
Qed.

(** What the check of CompleteMachineOperation establishes. *)
Lemma complete_guard db id o :
  keyed MachineOperation_ID (db_operations db) →
  List.filter (λ o', negb (String.eqb (MachineOperation_ID o') id))
    (active_operations db (MachineOperation_MachineID o)) = [] →
  ∀ id' o', id' ≠ id → db_operations db !! id' = Some o' → operation_active o' = true →
    MachineOperation_MachineID o' ≠ MachineOperation_MachineID o.
Proof.
  intros Hk Hn id' o' Hne Ho' Ha' Em.
  assert (o' ∈ List.filter (λ o, negb (String.eqb (MachineOperation_ID o) id))
    (active_operations db (MachineOperation_MachineID o))) as Hin.
  { rewrite list_elem_of_In, filter_In, <-list_elem_of_In. split.
    - apply elem_of_select. rewrite Em, String.eqb_refl, Ha'. eauto.
    - rewrite (Hk _ _ Ho'). by destruct (String.eqb_spec id' id). }
  rewrite Hn in Hin. by apply elem_of_nil in Hin.
Qed.

(** Completing changes one row, and makes it active only under that check. *)
Lemma CompleteMachineOperation_db id state msg db :
  keyed MachineOperation_ID (db_operations db) →
  let db' := (CompleteMachineOperation id state msg db).2 in
  db_operations db' = db_operations db ∨
  ∃ o o', db_operations db !! id = Some o ∧
    db_operations db' = <[id := o']> (db_operations db) ∧
    MachineOperation_MachineID o' = MachineOperation_MachineID o ∧
    (operation_active o' = true → ∀ id' o'', id' ≠ id →
       db_operations db !! id' = Some o'' → operation_active o'' = true →
       MachineOperation_MachineID o'' ≠ MachineOperation_MachineID o).
Proof.
  intros Hk. unfold CompleteMachineOperation, bind, now, gets, get, unique, modify, ret, fail.
  cbn. destruct (db_operations db !! id) as [o|] eqn:Eo; cbn.
  2:{ left. apply map_eq. intros id'. destruct (decide (id' = id)) as [->|];
      by rewrite ?lookup_alter_eq, ?lookup_alter_ne, ?Eo. }
  destruct (negb _ || _) eqn:Eg; cbn; [|by left].
  right. eexists o, _. split; [done|]. split; [|split; [|]].
  - by apply alter_known.
  - done.
  - intros Ha. unfold operation_active in Ha. cbn in Ha. rewrite Ha in Eg. cbn in Eg.
    apply complete_guard; [done|]. by apply bool_decide_eq_true in Eg.
Qed.

Lemma CompleteMachineOperation_unique id state msg db :
  keyed MachineOperation_ID (db_operations db) → operations_unique db →
  operations_unique (CompleteMachineOperation id state msg db).2.
Proof.
  intros Hk Hu. destruct (CompleteMachineOperation_db id state msg db Hk)
    as [E|(o & o' & Ho & E & Em & Ha)].
  { eapply ops_frame_unique; [by apply ops_frame_same|done]. }
  intros id1 id2 o1 o2. rewrite E, !lookup_insert_Some.
  intros [[<- <-]|[N1 H1]] [[<- <-]|[N2 H2]] A1 A2 Eq; [done|..].
  - destruct (Ha A1 id2 o2); congruence.
  - destruct (Ha A2 id1 o1); congruence.
  - eauto.
Qed.

Lemma CreateMachineOperation_unique op db :
  operations_unique db → operations_unique (CreateMachineOperation op db).2.
Proof.
  intros Hu. destruct (CreateMachineOperation op db) as [[op'|e] db'] eqn:E; cbn.
  2:{ by apply CreateMachineOperation_err in E as ->. }
  apply CreateMachineOperation_ok in E as (_ & Hn & _ & _ & ->).
  rewrite active_operations_nil in Hn.
  intros id1 id2 o1 o2. cbn. rewrite !lookup_insert_Some.
  intros [[<- <-]|[N1 H1]] [[<- <-]|[N2 H2]] A1 A2 Em; [done|..]; cbn in *.
  - specialize (Hn _ _ H2). rewrite Hn in A2; congruence.
  - specialize (Hn _ _ H1). rewrite Hn in A1; congruence.
  - eauto.
Qed.

(** Only the recording and the completion of an operation can make one active. *)
Lemma exec_ops_frame op db :
  match op with
  | OpCreateMachineOperation _ | OpCompleteMachineOperation _ _ _ => True
  | _ => ops_frame db (exec op db).2
  end.
Proof.
  assert (steps (same db_operations) (exec op) → ops_frame db (exec op db).2) as Hsame
    by (intros Hs; apply ops_frame_same, Hs).
  destruct op; try done; try (by apply Hsame; clear; same_table); clear Hsame.
  - cbn. unfold DeleteMachine, bind, get. cbn.
    destruct (db_machines db !! id); cbn; [|by apply ops_frame_same].
    intros id' o'. cbn. intros [Ho _]%lookup_delete_where. eauto.
  - intros id' o'. cbn. rewrite lookup_update_where.
    intros (o & Ho & ->)%fmap_Some_1 Ha. exists o. split; [done|].
    by destruct (_ && _) eqn:Eh.
Qed.

Lemma exec_operations op db :
  keyed MachineOperation_ID (db_operations db) → operations_unique db →
  operations_unique (exec op db).2.
Proof.
  intros Hk Hu. pose proof (exec_ops_frame op db) as Hf.
  destruct op; try (by apply (ops_frame_unique db)).
  - by apply CreateMachineOperation_unique.
  - by apply CompleteMachineOperation_unique.
Qed.

Lemma reachable_operations_unique db :
  reachable db → keyed MachineOperation_ID (db_operations db) ∧ operations_unique db.
Proof.
  intros Hr. split; [apply (reachable_keyed db Hr)|].
  enough (keyed_inv db ∧ operations_unique db) as [_ ?] by done.
  revert db Hr. apply reachable_inv.
  - intros t users. split; [by repeat split; apply keyed_empty|by intros ????].
  - intros op db _ [Hk Hu]. split; [by apply exec_keyed|].
    apply exec_operations; [|done]. apply Hk.
  - done.
Qed.

(** ** Workflow locks *)

(** A lock row changes hands only when its lease has expired or its workflow
    gives it up. *)
Lemma AcquireWorkflowLock_spec lock db :
  let '(r, db') := AcquireWorkflowLock lock db in
  match r with
  | Ok l =>
      is_Some (db_workflow_runs db !! WorkflowLock_WorkflowID lock) ∧
      (∀ held, db_workflow_locks db !! lock_key lock = Some held →
         WorkflowLock_WorkflowID held = WorkflowLock_WorkflowID lock ∨
         WorkflowLock_LeaseExpiresAt held < db_now db) ∧
      ∃ row, db' = db <| db_workflow_locks ::= <[lock_key lock := row]> |> ∧
        WorkflowLock_WorkflowID row = WorkflowLock_WorkflowID lock ∧
        WorkflowLock_LeaseExpiresAt row = WorkflowLock_LeaseExpiresAt lock
  | Err e => db' = db
  end.
Proof.
  unfold AcquireWorkflowLock, bind, now, gets, get, references, modify, ret, fail, is_some_b.
  cbn. destruct (db_workflow_runs db !! _); cbn; [|done].
  destruct (db_workflow_locks db !! lock_key lock) as [held|] eqn:E; cbn.
  - destruct (String.eqb_spec (WorkflowLock_WorkflowID held) (WorkflowLock_WorkflowID lock));
      cbn.
    + split; [done|]. split; [naive_solver|]. by eexists.
    + destruct (bool_decide_reflect (WorkflowLock_LeaseExpiresAt held < db_now db)); cbn; [|done].
      split; [done|]. split; [naive_solver|]. by eexists.
  - split; [done|]. split; [done|]. by eexists.
Qed.

(** ** Operations as a lock per machine *)

(** The lock of each machine: the operation that holds it. *)
Definition active_lock (ops : gmap string MachineOperation) : gmap string string :=
  map_fold (λ id o l, if operation_active o
                      then <[MachineOperation_MachineID o := id]> l else l) ∅ ops.

(** The abstract lock manager: a free lock is taken, held locks are given up. *)
Inductive lock_step : relation (gmap string string) :=
| lock_release l l' : l' ⊆ l → lock_step l l'
| lock_acquire l m id : l !! m = None → lock_step l (<[m := id]> l).

(** [holds ops m id]: the operation [id] is active on the machine [m]. *)
Definition holds (ops : gmap string MachineOperation) (m id : string) : Prop :=
  ∃ o, ops !! id = Some o ∧ operation_active o = true ∧ MachineOperation_MachineID o = m.

Lemma holds_insert ops id o m id' :
  ops !! id = None →
  holds (<[id := o]> ops) m id' ↔
  (id' = id ∧ operation_active o = true ∧ MachineOperation_MachineID o = m) ∨
  holds ops m id'.
Proof.
  intros Hn. unfold holds. setoid_rewrite lookup_insert_Some. naive_solver.
Qed.

Lemma active_lock_spec ops m id :
  (∀ m id1 id2, holds ops m id1 → holds ops m id2 → id1 = id2) →
  active_lock ops !! m = Some id ↔ holds ops m id.
Proof.
  revert m id. unfold active_lock. apply (map_fold_weak_ind (λ l ops, ∀ m id,
    (∀ m id1 id2, holds ops m id1 → holds ops m id2 → id1 = id2) →
    l !! m = Some id ↔ holds ops m id)).
  - intros m id _. rewrite lookup_empty. split; [done|]. intros (o & Ho & _). done.
  - intros i o ops' l Hi IH m id Hu.
    assert (∀ m id, l !! m = Some id ↔ holds ops' m id) as IH'.
    { intros m' id'. apply IH. intros m'' id1 id2 H1 H2. apply (Hu m'');
        apply holds_insert; auto. }
    rewrite holds_insert by done. destruct (operation_active o) eqn:Ea; cbn.
    + rewrite lookup_insert_Some, IH'. split.
      * intros [[<- <-]|[_ ?]]; auto.
      * intros [(->&_&<-)|Hh]; [auto|].
        destruct (decide (MachineOperation_MachineID o = m)) as [<-|]; [left|auto].
        split; [done|]. apply (Hu (MachineOperation_MachineID o)); apply holds_insert; auto.
    + rewrite IH'. naive_solver.
Qed.

Lemma operations_unique_holds db :
  operations_unique db →
  ∀ m id1 id2, holds (db_operations db) m id1 → holds (db_operations db) m id2 → id1 = id2.
Proof. intros Hu m id1 id2 (o1&?&?&<-) (o2&?&?&?). by apply (Hu id1 id2 o1 o2). Qed.

Lemma db_lock_spec db m id :
  operations_unique db →
  active_lock (db_operations db) !! m = Some id ↔ holds (db_operations db) m id.
Proof. intros Hu. by apply active_lock_spec, operations_unique_holds. Qed.

(** Steps that make no operation active give locks up. *)
Lemma ops_frame_lock db db' :
  operations_unique db → ops_frame db db' →
  lock_step (active_lock (db_operations db)) (active_lock (db_operations db')).
Proof.
  intros Hu Hf. apply lock_release, map_subseteq_spec. intros m id.
  rewrite !db_lock_spec by eauto using ops_frame_unique.
  intros (o & Ho & Ha & <-). destruct (Hf _ _ Ho Ha) as (p & ? & ? & ?).
  exists p. done.
Qed.

(** A step that makes one operation active takes a free lock. *)
Lemma acquire_lock db db' m id :
  operations_unique db → operations_unique db' →
  (∀ id', ¬ holds (db_operations db) m id') →
  (∀ m' id', holds (db_operations db') m' id' ↔
     (m' = m ∧ id' = id) ∨ holds (db_operations db) m' id') →
  lock_step (active_lock (db_operations db)) (active_lock (db_operations db')).
Proof.
  intros Hu Hu' Hfree Hh.
  assert (active_lock (db_operations db') = <[m := id]> (active_lock (db_operations db))) as ->.
  { apply map_eq. intros m'. apply option_eq. intros id'.
    rewrite db_lock_spec, Hh, lookup_insert_Some, db_lock_spec by done.
    destruct (decide (m = m')) as [<-|]; [|naive_solver]. naive_solver. }
  apply lock_acquire. destruct (_ !! m) as [id'|] eqn:E; [|done].
  apply db_lock_spec in E; [|done]. by destruct (Hfree id').
Qed.

Lemma CreateMachineOperation_lock op db :
  operations_unique db →
  lock_step (active_lock (db_operations db))
    (active_lock (db_operations (CreateMachineOperation op db).2)).
Proof.
  intros Hu. pose proof (CreateMachineOperation_unique op db Hu) as Hu'.
  destruct (CreateMachineOperation op db) as [[op'|e] db'] eqn:E; cbn in *.
  2:{ apply CreateMachineOperation_err in E as ->. by apply lock_release. }
  apply CreateMachineOperation_ok in E as (_ & Hn & Hid & _ & ->).
  rewrite active_operations_nil in Hn.
  apply acquire_lock with (MachineOperation_MachineID op) (uuid_of (db_next db)); [done..| |].
  - intros id' (o & Ho & Ha & Em). rewrite (Hn _ _ Ho Em) in Ha. done.
  - intros m' id'. cbn. rewrite holds_insert by done. cbn. naive_solver.
Qed.

Lemma CompleteMachineOperation_lock id state msg db :
  keyed MachineOperation_ID (db_operations db) → operations_unique db →
  lock_step (active_lock (db_operations db))
    (active_lock (db_operations (CompleteMachineOperation id state msg db).2)).
Proof.
  intros Hk Hu. pose proof (CompleteMachineOperation_unique id state msg db Hk Hu) as Hu'.
  destruct (CompleteMachineOperation_db id state msg db Hk) as [E|(o & o' & Ho & E & Em & Ha)].
  { rewrite E. by apply lock_release. }
  destruct (operation_active o') eqn:Ea'; [destruct (operation_active o) eqn:Ea|].
  - apply ops_frame_lock; [done|]. intros id' o''. rewrite E, lookup_insert_Some.
    intros [[<- <-]|[_ ?]] ?; eauto.
  - apply acquire_lock with (MachineOperation_MachineID o) id; [done..| |].
    + intros id' (o'' & Ho'' & Ha'' & Em''). destruct (decide (id' = id)) as [->|Hne].
      * congruence.
      * by destruct (Ha eq_refl id' o'').
    + intros m' id'. unfold holds. rewrite E. setoid_rewrite lookup_insert_Some.
      split.
      * intros (o'' & [[<- <-]|[? ?]] & ? & <-); [left; by rewrite Em|right; eauto].
      * intros [[-> ->]|(o'' & ? & ? & <-)]; [exists o'; auto|].
        exists o''. split; [right|done]. split; [congruence|done].
  - apply ops_frame_lock; [done|]. intros id' o''. rewrite E, lookup_insert_Some.
    intros [[<- <-]|[_ ?]] ?; [congruence|eauto].
Qed.

Lemma exec_lock op db :
  keyed MachineOperation_ID (db_operations db) → operations_unique db →
  lock_step (active_lock (db_operations db)) (active_lock (db_operations (exec op db).2)).
Proof.
  intros Hk Hu. pose proof (exec_ops_frame op db) as Hf.
  destruct op; try (by apply ops_frame_lock).
  - by apply CreateMachineOperation_lock.
  - by apply CompleteMachineOperation_lock.
Qed.

(** ** Workflow locks over time *)

(** A lock whose lease has not expired stays with its workflow, whatever the
    store executes, except the workflow's own release. *)
Lemma exec_workflow_lock op db key held :
  keyed lock_key (db_workflow_locks db) →
  db_workflow_locks db !! key = Some held →
  db_now db ≤ WorkflowLock_LeaseExpiresAt held →
  (∀ w, op = OpReleaseWorkflowLocks w → w ≠ WorkflowLock_WorkflowID held) →
  ∃ held', db_workflow_locks (exec op db).2 !! key = Some held' ∧
    WorkflowLock_WorkflowID held' = WorkflowLock_WorkflowID held.
Proof.
  intros Hk Hh Hl Hop.
  assert (steps (same db_workflow_locks) (exec op) →
    ∃ held', db_workflow_locks (exec op db).2 !! key = Some held' ∧
      WorkflowLock_WorkflowID held' = WorkflowLock_WorkflowID held) as Hsame
    by (intros Hs; exists held; by rewrite (Hs db)).
  destruct op; try (by apply Hsame; clear; same_table); clear Hsame.
  - change (exec (OpAcquireWorkflowLock l) db).2 with (AcquireWorkflowLock l db).2.
    pose proof (AcquireWorkflowLock_spec l db) as Hs.
    destruct (AcquireWorkflowLock l db) as [[l'|e] db']; cbn in *; [|subst; eauto].
    destruct Hs as (_ & Hheld & row & -> & Hw & _). cbn.
    destruct (decide (lock_key l = key)) as [<-|Hne].
    + rewrite lookup_insert_eq. exists row. split; [done|].
      destruct (Hheld held Hh); [congruence|lia].
    + rewrite lookup_insert_ne by done. eauto.
  - cbn. unfold RenewWorkflowLock, bind, now, gets, get, modify, fail. cbn.
    destruct (db_workflow_locks db !! (rtype, rid, kind)) as [row|] eqn:E; cbn; [|eauto].
    destruct (String.eqb (WorkflowLock_WorkflowID row) workflow); cbn; [|eauto].
    destruct (decide ((rtype, rid, kind) = key)) as [<-|Hne].
    + rewrite lookup_alter_eq, E. cbn. eexists. split; [done|]. cbn. congruence.
    + rewrite lookup_alter_ne by done. eauto.
  - cbn. exists held. split; [|done]. apply lookup_delete_where. split; [done|].
    apply String.eqb_neq. intros E. by destruct (Hop workflow).
Qed.
