(* ===== verification/AccountInv.v ===== *)
(** * Tokens and invitations over time

    An enrollment token registers one host and an invitation makes one member,
    whatever runs in between. *)

From S2P Require Import Prelude Schema HostStore PlacementStore OperationStore.
From S2P Require Import AccountStore StoreStep TableInv RecordInv.

(** ** Enrollment tokens *)

(** The token was issued, and no row of it can be used any more. *)
Definition token_spent (token : string) (db : DB) : Prop :=
  (∃ id k, db_enrollment_tokens db !! id = Some k ∧ EnrollmentToken_Token k = token) ∧
  ∀ id k, db_enrollment_tokens db !! id = Some k → EnrollmentToken_Token k = token →
    EnrollmentToken_UsedByHostID k ≠ None ∨ EnrollmentToken_ExpiresAt k ≤ db_now db.

Lemma token_usable_spec t token k :
  token_usable t token k = true ↔
  EnrollmentToken_Token k = token ∧ EnrollmentToken_UsedByHostID k = None ∧
  t < EnrollmentToken_ExpiresAt k.
Proof.
  unfold token_usable. rewrite !andb_true_iff, !bool_decide_eq_true, String.eqb_eq. tauto.
Qed.

Lemma token_spent_unusable token db :
  token_spent token db →
  select (token_usable (db_now db) token) (db_enrollment_tokens db) = [].
Proof.
  intros [_ Hs]. apply select_nil. intros id k Hk. apply not_true_is_false.
  rewrite token_usable_spec. intros (Ht & Hu & He). destruct (Hs id k Hk Ht); [done|lia].
Qed.

(** Using a token: it was usable, and is spent. *)
Lemma MarkEnrollmentTokenUsed_ok token hostID db u db' :
  MarkEnrollmentTokenUsed token hostID db = (Ok u, db') →
  select (token_usable (db_now db) token) (db_enrollment_tokens db) ≠ [] ∧
  is_Some (db_hosts db !! hostID) ∧
  db' = db <| db_enrollment_tokens ::= update_where (token_usable (db_now db) token)
         (λ k, k <| EnrollmentToken_UsedByHostID := Some hostID |>) |>.
Proof.
  unfold MarkEnrollmentTokenUsed, bind, now, gets, get, references, modify, ret, fail, is_some_b.
  cbn. destruct (bool_decide_reflect
    (select (token_usable (db_now db) token) (db_enrollment_tokens db) = [])) as [E|Hne]; cbn.
  - unfold count_where. rewrite E. cbn. by destruct (db_hosts db !! hostID).
  - destruct (db_hosts db !! hostID); cbn; [|done].
    destruct (bool_decide (count_where _ _ = 0)); cbn; [done|]. intros [= <- <-]. done.
Qed.

Lemma MarkEnrollmentTokenUsed_db token hostID db :
  let db' := (MarkEnrollmentTokenUsed token hostID db).2 in
  db' = db ∨
  db' = db <| db_enrollment_tokens ::= update_where (token_usable (db_now db) token)
         (λ k, k <| EnrollmentToken_UsedByHostID := Some hostID |>) |>.
Proof.
  unfold MarkEnrollmentTokenUsed, bind, now, gets, get, references, modify, ret, fail. cbn.
  destruct (_ || _); cbn; [right|by left]. by destruct (bool_decide _).
Qed.

Lemma MarkEnrollmentTokenUsed_spent token hostID db u db' :
  MarkEnrollmentTokenUsed token hostID db = (Ok u, db') → token_spent token db'.
Proof.
  intros (Hne & _ & ->)%MarkEnrollmentTokenUsed_ok. split.
  - destruct (select _ _) as [|k l] eqn:E; [done|].
    assert (k ∈ select (token_usable (db_now db) token) (db_enrollment_tokens db)) as Hin
      by (rewrite E; apply list_elem_of_here).
    apply elem_of_select in Hin as [Hu [id Hid]]. apply token_usable_spec in Hu as (Ht&_&_).
    eexists id, _. cbn. rewrite lookup_update_where, Hid. cbn. split; [done|].
    by destruct (token_usable _ _ _).
  - intros id k. cbn. rewrite lookup_update_where. intros (k0 & Hk & ->)%fmap_Some_1 Ht.
    destruct (token_usable (db_now db) token k0) eqn:E; [by left|].
    destruct (EnrollmentToken_UsedByHostID k0) eqn:Eu; [by left|right].
    apply not_true_iff_false in E. rewrite token_usable_spec in E.
    destruct (Z.le_gt_cases (EnrollmentToken_ExpiresAt k0) (db_now db)); [done|].
    destruct E. repeat split; [done..|lia].
Qed.

(** A spent token fails and changes nothing. *)
Lemma MarkEnrollmentTokenUsed_refused token hostID db :
  token_spent token db →
  MarkEnrollmentTokenUsed token hostID db =
    (Err (ErrText "enrollment token not found, already used, or expired"), db).
Proof.
  intros Hs%token_spent_unusable.
  unfold MarkEnrollmentTokenUsed, bind, now, gets, get, references, modify, ret, fail. cbn.
  unfold count_where. rewrite Hs. cbn. rewrite orb_true_r. cbn. f_equal.
  assert (update_where (token_usable (db_now db) token)
    (λ k, k <| EnrollmentToken_UsedByHostID := Some hostID |>) (db_enrollment_tokens db)
    = db_enrollment_tokens db) as E.
  { apply map_eq. intros id. rewrite lookup_update_where.
    destruct (db_enrollment_tokens db !! id) as [k|] eqn:Ek; cbn; [|done].
    by rewrite (proj1 (select_nil _ _) Hs id k Ek). }
  change (db <| db_enrollment_tokens := update_where (token_usable (db_now db) token)
    (λ k, k <| EnrollmentToken_UsedByHostID := Some hostID |>) (db_enrollment_tokens db) |> = db).
  rewrite E. by destruct db.
Qed.

(** A token is issued once. *)
Lemma CreateEnrollmentToken_db bytes tok db :
  let db' := (CreateEnrollmentToken bytes tok db).2 in
  db' = db ∨
  ∃ k, db' = db <| db_next ::= N.succ |>
           <| db_enrollment_tokens ::= <[uuid_of (db_next db) := k]> |> ∧
    db_enrollment_tokens db !! uuid_of (db_next db) = None ∧
    ∀ id k', db_enrollment_tokens db !! id = Some k' →
      EnrollmentToken_Token k' ≠ EnrollmentToken_Token k.
Proof.
  unfold CreateEnrollmentToken, tx, bind, now, gets, get, not_null, references, unique,
    gen_random_uuid, modify, ret, fail, is_some_b. cbn.
  destruct (EnrollmentToken_Labels tok); cbn; [|by left].
  destruct (bool_decide_reflect (select (λ k, String.eqb (EnrollmentToken_Token k)
    (String.append "ocm_enroll_" bytes)) (db_enrollment_tokens db) = [])) as [E|]; cbn; [|by left].
  destruct (db_enrollment_tokens db !! uuid_of (db_next db)) eqn:Eid; cbn; [by left|].
  right. eexists. split; [reflexivity|]. split; [done|]. intros id k' Hk'. cbn.
  rewrite select_nil in E. apply String.eqb_neq, (E id k' Hk').
Qed.

Lemma exec_token_spent token op db :
  token_spent token db → token_spent token (exec op db).2.
Proof.
  intros Hs.
  assert (steps (λ db db', db_enrollment_tokens db' = db_enrollment_tokens db ∧
                           db_now db' = db_now db) (exec op) →
    token_spent token (exec op db).2) as Hsame.
  { intros Hst. destruct (Hst db) as [E1 E2]. unfold token_spent. by rewrite E1, E2. }
  destruct op; try (apply Hsame; clear; cbn [exec]; apply steps_ignore; autounfold with store;
    assert (PreOrder (λ db db', db_enrollment_tokens db' = db_enrollment_tokens db ∧
       db_now db' = db_now db)) by (split; [done|intros ??? [] []; split; congruence]);
    go_steps; intros ?; split; reflexivity); clear Hsame; destruct Hs as [(id & k & Hk & Ht) Hs].
  - change (exec (OpCreateEnrollmentToken bytes t) db).2 with (CreateEnrollmentToken bytes t db).2.
    destruct (CreateEnrollmentToken_db bytes t db) as [->|(k' & -> & Hn & Hf)]; [by split; eauto|].
    split; cbn.
    + exists id, k. rewrite lookup_insert_Some. split; [right; split; [congruence|done]|done].
    + intros id' k''. rewrite lookup_insert_Some. intros [[<- <-]|[_ ?]] Ht'; [|eauto].
      destruct (Hf id k Hk). congruence.
  - change (exec (OpMarkEnrollmentTokenUsed token0 hostID) db).2
      with (MarkEnrollmentTokenUsed token0 hostID db).2.
    destruct (MarkEnrollmentTokenUsed_db token0 hostID db) as [->| ->]; [by split; eauto|].
    split; cbn.
    + eexists id, _. rewrite lookup_update_where, Hk. cbn. split; [done|]. by case_match.
    + intros id' k'. rewrite lookup_update_where. intros (k0 & Hk0 & ->)%fmap_Some_1.
      case_match; cbn; [by left|eauto].
Qed.

Lemma token_spent_tick token db t :
  db_now db ≤ t → token_spent token db → token_spent token (db <| db_now := t |>).
Proof.
  intros Ht [He Hs]. split; [done|]. intros id k Hk Hq. cbn in *.
  destruct (Hs id k Hk Hq); [by left|right; lia].
Qed.
Lemma steps_token_spent token db db' :
  rtc step db db' → token_spent token db → token_spent token db'.
Proof.
  induction 1 as [|db db1 db2 Hs _ IH]; [done|]. intros H. apply IH.
  destruct Hs; [by apply exec_token_spent|by apply token_spent_tick].
Qed.

(** ** Invitations *)

Definition pending (i : AccountInvitation) : Prop :=
  AccountInvitation_Status i = "pending"%string.

(** What a step does to the invitations: rows keep their token, none becomes
    pending again, only pending ones are deleted; a new one has a new token. *)
Inductive invitations_step (db db' : DB) : Prop :=
| invitations_old :
    (∀ id i', db_invitations db' !! id = Some i' → ∃ i, db_invitations db !! id = Some i ∧
       AccountInvitation_Token i' = AccountInvitation_Token i ∧ (pending i' → pending i)) →
    (∀ id i, db_invitations db !! id = Some i → ¬ pending i →
       is_Some (db_invitations db' !! id)) →
    invitations_step db db'
| invitations_new id i :
    db_invitations db !! id = None →
    (∀ id' i', db_invitations db !! id' = Some i' →
       AccountInvitation_Token i' ≠ AccountInvitation_Token i) →
    db_invitations db' = <[id := i]> (db_invitations db) → invitations_step db db'.

Lemma invitations_same db db' :
  db_invitations db' = db_invitations db → invitations_step db db'.
Proof. intros E. apply invitations_old; rewrite E; [|by eauto]. intros id i ?. by exists i. Qed.
Lemma invitations_update p f db db' :
  db_invitations db' = update_where p f (db_invitations db) →
  (∀ i, AccountInvitation_Token (f i) = AccountInvitation_Token i ∧ ¬ pending (f i)) →
  invitations_step db db'.
Proof.
  intros E Hf. apply invitations_old; rewrite E.
  - intros id i'. rewrite lookup_update_where. intros (i & Hi & ->)%fmap_Some_1.
    exists i. split; [done|]. destruct (Hf i). by destruct (p i).
  - intros id i Hi _. rewrite lookup_update_where, Hi. eauto.
Qed.

(** Accepting: the invitation was pending and its row alone changes; the user
    becomes a member with the invitation's role. *)
Lemma AcceptInvitation_ok token userID db n db' :
  AcceptInvitation token userID db = (Ok n, db') →
  (n = 0 ∧ db' = db) ∨
  ∃ i, n = 1 ∧ invitation_by_token db token = Some i ∧ pending i ∧
    db_members db !! (AccountInvitation_AccountID i, userID) = None ∧
    db' = db <| db_invitations ::= alter (λ i,
              i <| AccountInvitation_Status := "accepted"%string |>
                <| AccountInvitation_AcceptedBy := Some userID |>
                <| AccountInvitation_RespondedAt := Some (db_now db) |>)
              (AccountInvitation_ID i) |>
           <| db_members ::= <[(AccountInvitation_AccountID i, userID) :=
                mkAccountMember (AccountInvitation_AccountID i) userID
                  (AccountInvitation_Role i) "" "" (db_now db)]> |>.
Proof.
  unfold AcceptInvitation. rewrite tx_ok.
  unfold bind, now, gets, get, wrap, try, insert_member, references, unique, modify, ret,
    fail, is_some_b. cbn.
  destruct (invitation_by_token db token) as [i|] eqn:Ei; cbn; [|naive_solver].
  destruct (String.eqb_spec (AccountInvitation_Status i) "pending"); cbn; [|naive_solver].
  destruct (db_members db !! _) eqn:Em; cbn; [done|].
  destruct (db_users db !! userID) eqn:Eu; cbn; [|done].
  destruct (db_accounts db !! AccountInvitation_AccountID i) eqn:Ea; cbn; [|done].
  rewrite Eu. cbn. rewrite Em. cbn. intros [= <- <-]. right. exists i. by repeat split.
Qed.

Lemma CreateInvitation_db inv db :
  let db' := (CreateInvitation inv db).2 in
  db' = db ∨
  ∃ id i, db_invitations db !! id = None ∧
    (∀ id' i', db_invitations db !! id' = Some i' →
       AccountInvitation_Token i' ≠ AccountInvitation_Token i) ∧
    db_invitations db' = <[id := i]> (db_invitations db).
Proof.
  unfold CreateInvitation, tx, bind, now, gets, get, references, unique, next_serial,
    gen_random_uuid, modify, ret, fail, is_some_b. cbn.
  destruct (db_accounts db !! _); cbn; [|by left].
  destruct (db_users db !! _); cbn; [|by left].
  destruct (db_invitations db !! _) eqn:Eid; cbn; [by left|].
  destruct (bool_decide_reflect (select (λ i, String.eqb (AccountInvitation_Token i)
    (uuid_of (N.succ (db_next db)))) (db_invitations db) = [])) as [E|]; cbn; [|by left].
  right. eexists _, _. split; [exact Eid|]. split; [|reflexivity].
  intros id' i' Hi'. rewrite select_nil in E. apply String.eqb_neq, (E id' i' Hi').
Qed.

Lemma exec_invitations op db : invitations_step db (exec op db).2.
Proof.
  assert (steps (same db_invitations) (exec op) → invitations_step db (exec op db).2) as Hsame
    by (intros Hs; apply invitations_same, Hs).
  destruct op; try (by apply Hsame; clear; same_table); clear Hsame.
  - change (exec (OpCreateInvitation i) db).2 with (CreateInvitation i db).2.
    destruct (CreateInvitation_db i db) as [->|(id & i' & Hn & Hf & E)];
      [by apply invitations_same|by eapply invitations_new].
  - change (exec (OpAcceptInvitation token user) db).2 with (AcceptInvitation token user db).2.
    destruct (AcceptInvitation token user db) as [[n|e] db'] eqn:E.
    2:{ apply tx_err in E as ->. by apply invitations_same. }
    apply AcceptInvitation_ok in E as [[_ ->]|(i & _ & _ & _ & _ & ->)];
      [by apply invitations_same|]. apply invitations_old; cbn.
    + intros id i'. rewrite lookup_alter_Some. intros [(<-&i0&?&->)|[_ ?]]; [|by eauto].
      exists i0. by repeat split.
    + intros id i0 Hi _. rewrite lookup_alter. case_decide; subst; rewrite Hi; eauto.
  - by eapply invitations_update.
  - apply invitations_old; cbn.
    + intros id' i [Hi _]%lookup_delete_where. by exists i.
    + intros id' i Hi Hp. exists i. apply lookup_delete_where. split; [done|].
      apply andb_false_iff. right. by apply String.eqb_neq.
  - by eapply invitations_update.
Qed.

(** Distinct rows have distinct tokens, and a settled token stays settled. *)
Definition invitations_unique (db : DB) : Prop :=
  ∀ id1 id2 i1 i2, db_invitations db !! id1 = Some i1 → db_invitations db !! id2 = Some i2 →
    AccountInvitation_Token i1 = AccountInvitation_Token i2 → id1 = id2.
Definition invitation_settled (token : string) (db : DB) : Prop :=
  (∃ id i, db_invitations db !! id = Some i ∧ AccountInvitation_Token i = token) ∧
  ∀ id i, db_invitations db !! id = Some i → AccountInvitation_Token i = token → ¬ pending i.

Lemma invitations_step_unique db db' :
  invitations_step db db' → invitations_unique db → invitations_unique db'.
Proof.
  intros [Hold _|id i Hn Hf E] Hu id1 id2 i1 i2.
  - intros H1 H2 Et. destruct (Hold _ _ H1) as (j1&?&?&_), (Hold _ _ H2) as (j2&?&?&_).
    apply (Hu id1 id2 j1 j2); congruence.
  - rewrite E, !lookup_insert_Some. intros [[<- <-]|[_ H1]] [[<- <-]|[_ H2]] Et; [done|..].
    + by destruct (Hf _ _ H2).
    + by destruct (Hf _ _ H1).
    + eauto.
Qed.
Lemma invitations_step_settled token db db' :
  invitations_step db db' → invitation_settled token db → invitation_settled token db'.
Proof.
  intros Hs [(id0 & i0 & H0 & Ht0) Hp]. destruct Hs as [Hold Hkeep|id i Hn Hf E].
  - split.
    + destruct (Hkeep id0 i0 H0 (Hp _ _ H0 Ht0)) as [i' Hi']. exists id0, i'.
      split; [done|]. destruct (Hold _ _ Hi') as (i&?&?&_). congruence.
    + intros id i' Hi' Ht Hpi. destruct (Hold _ _ Hi') as (i&Hi&?&Hpp).
      apply (Hp id i); [done|congruence|auto].
  - split; rewrite E.
    + exists id0, i0. rewrite lookup_insert_Some. split; [right; split; congruence|done].
    + intros id' i'. rewrite lookup_insert_Some. intros [[<- <-]|[_ ?]] Ht; [|eauto].
      destruct (Hf _ _ H0). congruence.
Qed.
Lemma steps_invitation_settled token db db' :
  rtc step db db' → invitation_settled token db → invitation_settled token db'.
Proof.
  induction 1 as [|db db1 db2 Hs _ IH]; [done|]. intros H. apply IH.
  destruct Hs; [|done]. eapply invitations_step_settled; [apply exec_invitations|done].
Qed.

Lemma reachable_invitations db :
  reachable db → keyed AccountInvitation_ID (db_invitations db) ∧ invitations_unique db.
Proof.
  intros Hr. split; [by destruct (reachable_keyed db Hr) as (?&?&?&?&?&?&?&?&?&?&?&?)|].
  revert db Hr. apply (reachable_inv invitations_unique); [by intros ??????| |done].
  intros op db _. apply invitations_step_unique, exec_invitations.
Qed.

Lemma invitation_by_token_some db token i :
  invitation_by_token db token = Some i →
  AccountInvitation_Token i = token ∧ ∃ id, db_invitations db !! id = Some i.
Proof.
  unfold invitation_by_token. intros Hh.
  assert (i ∈ select (λ i, String.eqb (AccountInvitation_Token i) token)
    (db_invitations db)) as Hin
    by (destruct (select _ _); simplify_eq/=; apply list_elem_of_here).
  apply elem_of_select in Hin as [->%String.eqb_eq ?]. done.
Qed.

(** Accepting settles the token, and a settled token admits nobody. *)
Lemma AcceptInvitation_settles token userID db db' :
  keyed AccountInvitation_ID (db_invitations db) → invitations_unique db →
  AcceptInvitation token userID db = (Ok 1, db') → invitation_settled token db'.
Proof.
  intros Hk Hu [[? _]|(i & _ & Hi & _ & _ & ->)]%AcceptInvitation_ok; [done|].
  apply invitation_by_token_some in Hi as [Ht [id Hid]]. pose proof (Hk _ _ Hid) as Eid.
  cbn in Eid. split; cbn.
  - exists (AccountInvitation_ID i). rewrite Eid, lookup_alter_eq, Hid. cbn. eauto.
  - intros id' i'. rewrite Eid, lookup_alter_Some. intros [(<-&i0&?&->)|[Hne Hi']] Ht' Hp.
    + by unfold pending in Hp.
    + apply Hne. apply (Hu id id' i i'); congruence.
Qed.
Lemma invitation_settled_refused token userID db n db' :
  invitation_settled token db → AcceptInvitation token userID db = (Ok n, db') →
  n = 0 ∧ db' = db.
Proof.
  intros [_ Hs] [?|(i & _ & Hi & Hp & _)]%AcceptInvitation_ok; [done|].
  apply invitation_by_token_some in Hi as [Ht [id Hid]]. by destruct (Hs id i).
Qed.
