(* ===== verification/CatalogInv.v ===== *)
(** * The plugins of a machine: at most one enabled in a slot *)

From S2P Require Import Prelude Schema HostStore PlacementStore OperationStore.
From S2P Require Import AccountStore CatalogStore StoreStep TableInv RecordInv.

Abbreviation plugin_table := (gmap string MachinePlugin).

(** The rows are under their keys, a machine has a plugin once, and of the plugins
    that share a slot one at most is enabled. *)
Record plugins_ok (t : plugin_table) : Prop := {
  plugins_keyed : keyed MachinePlugin_ID t;
  plugins_once : ∀ i j p q, t !! i = Some p → t !! j = Some q →
    MachinePlugin_MachineID p = MachinePlugin_MachineID q →
    MachinePlugin_PluginID p = MachinePlugin_PluginID q → i = j;
  plugins_slot : ∀ i j p q, t !! i = Some p → t !! j = Some q →
    MachinePlugin_Enabled p = true → MachinePlugin_Enabled q = true →
    MachinePlugin_MachineID p = MachinePlugin_MachineID q →
    MachinePlugin_Slot p = MachinePlugin_Slot q → i = j
}.

Definition plugin_key (p : MachinePlugin) : string * string * string * string :=
  (MachinePlugin_ID p, MachinePlugin_MachineID p, MachinePlugin_PluginID p, MachinePlugin_Slot p).

(** Rows that stay where they are and are not newly enabled. *)
Lemma plugins_ok_shrink (t t' : plugin_table) :
  (∀ i p', t' !! i = Some p' → ∃ p, t !! i = Some p ∧ plugin_key p' = plugin_key p ∧
     (MachinePlugin_Enabled p' = true → MachinePlugin_Enabled p = true)) →
  plugins_ok t → plugins_ok t'.
Proof.
  intros H [Hk Ho Hs]. split.
  - intros i p' (p & Hp & E & _)%H. injection E as -> _ _ _. by apply Hk.
  - intros i j p' q' (p & Hp & E & _)%H (q & Hq & E' & _)%H. injection E as _ -> -> _.
    injection E' as _ -> -> _. by apply Ho.
  - intros i j p' q' (p & Hp & E & Ep)%H (q & Hq & E' & Eq)%H ??. injection E as _ -> _ ->.
    injection E' as _ -> _ ->. by apply Hs; auto.
Qed.
Lemma plugins_ok_update (t : plugin_table) P f :
  (∀ p, plugin_key (f p) = plugin_key p) →
  (∀ p, P p = true → MachinePlugin_Enabled (f p) = true → MachinePlugin_Enabled p = true) →
  plugins_ok t → plugins_ok (update_where P f t).
Proof.
  intros Hf He. apply plugins_ok_shrink. intros i p'. rewrite lookup_update_where.
  intros (p & Hp & ->)%fmap_Some. exists p. split; [done|]. destruct (P p) eqn:E; auto.
Qed.

(** The row of an upsert. *)
Lemma plugins_ok_insert (t : plugin_table) row :
  (∀ i p, t !! i = Some p →
     plugin_row (MachinePlugin_MachineID row) (MachinePlugin_PluginID row) p = true →
     i = MachinePlugin_ID row) →
  (∀ i p, t !! i = Some p →
     enabled_in (MachinePlugin_MachineID row) (MachinePlugin_Slot row) p = true →
     MachinePlugin_PluginID p = MachinePlugin_PluginID row) →
  plugins_ok t → plugins_ok (<[MachinePlugin_ID row := row]> t).
Proof.
  intros Hrow Hslot [Hk Ho Hs].
  assert (∀ i p, t !! i = Some p → MachinePlugin_MachineID p = MachinePlugin_MachineID row →
    MachinePlugin_PluginID p = MachinePlugin_PluginID row → i = MachinePlugin_ID row) as Hr.
  { intros i p Hp Em El. apply (Hrow _ _ Hp). unfold plugin_row. by rewrite Em, El, !String.eqb_refl. }
  assert (∀ i p, t !! i = Some p → MachinePlugin_MachineID p = MachinePlugin_MachineID row →
    MachinePlugin_Slot p = MachinePlugin_Slot row → MachinePlugin_Enabled p = true →
    i = MachinePlugin_ID row) as He.
  { intros i p Hp Em Es Ee. apply (Hr _ _ Hp); [done|]. apply (Hslot _ _ Hp).
    unfold enabled_in. by rewrite Em, Es, Ee, !String.eqb_refl. }
  split.
  - by apply keyed_insert.
  - intros i j p q [[<- <-]|[? Hp]]%lookup_insert_Some [[<- <-]|[? Hq]]%lookup_insert_Some; [done|..].
    + intros. symmetry. by eapply Hr.
    + intros. by eapply Hr.
    + by eapply Ho.
  - intros i j p q [[<- <-]|[? Hp]]%lookup_insert_Some [[<- <-]|[? Hq]]%lookup_insert_Some; [done|..].
    + intros. symmetry. by eapply He.
    + intros. by eapply He.
    + by eapply Hs.
Qed.

(** The end of the upsert, where the index on enabled slots is checked. *)
Lemma upsert_end_ok (m : Q MachinePlugin) machineID pluginID db :
  let t := db_machine_plugins db in
  plugins_ok t →
  (let '(r, db') := m db in db_machine_plugins db' = t ∧ ∀ row, r = Ok row →
     MachinePlugin_MachineID row = machineID ∧ MachinePlugin_PluginID row = pluginID ∧
     (∀ i p, t !! i = Some p → plugin_row machineID pluginID p = true → i = MachinePlugin_ID row)) →
  plugins_ok (db_machine_plugins ((
    let! row := m in
    unique (bool_decide (select (λ p, enabled_in machineID (MachinePlugin_Slot row) p &&
              negb (String.eqb (MachinePlugin_PluginID p) pluginID)) t = [])) ;;
    modify (set db_machine_plugins <[MachinePlugin_ID row := row]>)) db).2).
Proof.
  cbv zeta. intros Hok Hm. unfold bind at 1. destruct (m db) as [[row|e] db'];
    destruct Hm as [Et Hm]; [|by cbn; rewrite Et].
  destruct (Hm row eq_refl) as (<- & <- & Hrow). unfold unique, bind.
  case_bool_decide as Es; cbn; rewrite Et; [|done].
  apply plugins_ok_insert; [done| |done]. intros i p Hp He.
  rewrite select_nil in Es. specialize (Es _ _ Hp). rewrite He in Es. cbn in Es.
  by apply negb_false_iff, String.eqb_eq in Es.
Qed.
Lemma upsert_plugin_ok machineID pluginID slot overrides st v db :
  plugins_ok (db_machine_plugins db) →
  plugins_ok (db_machine_plugins (upsert_plugin machineID pluginID slot overrides st v db).2).
Proof.
  intros Hok. pose proof Hok as [Hk Ho _]. unfold upsert_plugin, now, gets, get. cbv zeta.
  unfold bind at 1 2. cbv beta iota. apply upsert_end_ok; [done|].
  destruct (head (select (plugin_row machineID pluginID) (db_machine_plugins db))) as [old|] eqn:Eo.
  - assert (old ∈ select (plugin_row machineID pluginID) (db_machine_plugins db)) as Hin.
    { destruct (select _ _); [done|]. injection Eo as ->. apply list_elem_of_here. }
    apply elem_of_select in Hin as [Hold [i Hi]]. pose proof (Hk _ _ Hi) as Ei. cbn in Ei.
    apply andb_true_iff in Hold as [Em El]. apply String.eqb_eq in Em, El.
    split; [done|]. intros row [= <-]. split; [done|]. split; [done|].
    intros j p Hp [E1%String.eqb_eq E2%String.eqb_eq]%andb_true_iff. cbn. rewrite Ei.
    eapply Ho; [done..|congruence|congruence].
  - assert (select (plugin_row machineID pluginID) (db_machine_plugins db) = []) as En
      by (by destruct (select _ _)).
    rewrite select_nil in En. unfold references, gen_random_uuid, unique, bind.
    destruct (is_some_b _); cbn; [|done]. destruct (negb _); cbn; [|done].
    split; [done|]. intros row [= <-]. split; [done|]. split; [done|].
    intros j p Hp Hr. by rewrite (En _ _ Hp) in Hr.
Qed.

Lemma update_plugin_ok P f db :
  (∀ p, plugin_key (f p) = plugin_key p) →
  (∀ p, P p = true → MachinePlugin_Enabled (f p) = true → MachinePlugin_Enabled p = true) →
  plugins_ok (db_machine_plugins db) →
  plugins_ok (db_machine_plugins (update_plugin P f db).2).
Proof.
  intros Hf He Hok. unfold update_plugin, bind, get. case_bool_decide; [done|].
  by apply plugins_ok_update.
Qed.
Lemma plugins_ok_delete P (t : plugin_table) : plugins_ok t → plugins_ok (delete_where P t).
Proof.
  apply plugins_ok_shrink. intros i p [Hp _]%lookup_delete_where. by exists p.
Qed.

Lemma exec_plugins op db :
  plugins_ok (db_machine_plugins db) → plugins_ok (db_machine_plugins (exec op db).2).
Proof.
  intros Hok.
  assert (steps (same db_machine_plugins) (exec op) →
    plugins_ok (db_machine_plugins (exec op db).2)) as Hsame by (intros Hs; by rewrite (Hs db)).
  destruct op; try (by apply Hsame; clear; same_table); clear Hsame; cbn [exec].
  - unfold ignore, DeleteMachine, bind, get. destruct (db_machines db !! id); cbn; [|done].
    by apply plugins_ok_delete.
  - unfold ignore, DeletePluginCatalogEntry, tx, bind, get. case_bool_decide; cbn; [|done].
    destruct (is_some_b _); cbn; [|done]. by apply plugins_ok_delete.
  - unfold ignore, EnableMachinePlugin, tx, bind, now, gets, get. cbn [snd].
    destruct (db_plugin_catalog db !! id) as [c|]; [|done].
    destruct (negb _); [done|]. cbn [modify snd].
    match goal with |- context [upsert_plugin ?a ?b ?c ?d ?e ?f ?db1] =>
      pose proof (upsert_plugin_ok a b c d e f db1) as H;
      destruct (upsert_plugin a b c d e f db1) as [[u|e'] db'] end; [|done].
    apply H. by apply plugins_ok_update.
  - unfold ignore, DisableMachinePlugin, now, bind at 1, gets. cbn [snd].
    by apply update_plugin_ok.
  - unfold ignore, UpdateMachinePluginOverrides, now, bind at 1, gets. cbn [snd].
    by apply update_plugin_ok.
  - unfold ignore, UpdateMachinePluginStatus, now, bind at 1, gets. cbn [snd].
    by apply update_plugin_ok.
Qed.

Lemma reachable_plugins_ok db : reachable db → plugins_ok (db_machine_plugins db).
Proof.
  apply (reachable_inv (λ db, plugins_ok (db_machine_plugins db))).
  - intros t users. by split; intros ? *.
  - intros op db' _. apply exec_plugins.
  - done.
Qed.
