(* ===== verification/Scenario.v ===== *)
(** * A concrete deployment

    One account with a host and two machines, reached from an empty database by
    store operations.  The concrete instances of the theorems are evaluated on
    it. *)

From S2P Require Import Prelude Schema HostStore PlacementStore OperationStore.
From S2P Require Import AccountStore StoreStep.

(** ** Runs of operations *)

Fixpoint exec_all (ops : list store_op) (db : DB) : DB :=
  match ops with
  | [] => db
  | op :: ops' => exec_all ops' (exec op db).2
  end.
Fixpoint allowed_all (ops : list store_op) (db : DB) : Prop :=
  match ops with
  | [] => True
  | op :: ops' => allowed op db ∧ allowed_all ops' (exec op db).2
  end.

Lemma exec_all_reachable ops db :
  reachable db → allowed_all ops db → reachable (exec_all ops db).
Proof.
  revert db. induction ops as [|op ops IH]; intros db Hr; cbn; [done|].
  intros [Ha Hs]. apply IH; [|done]. by apply reachable_exec.
Qed.

(** The vCPUs of the machines that are placed on the host, and those counted. *)
Definition placed_vcpus (hostID : Z) (db : DB) : Z :=
  foldr Z.add 0 (Machine_VCPUs <$>
    select (λ m, bool_decide (Machine_HostID m = Some hostID)) (db_machines db)).
Definition used_vcpus (hostID : Z) (db : DB) : option Z :=
  Host_UsedVCPUs <$> db_hosts db !! hostID.

(** ** The deployment *)

Definition alice : User :=
  mkUser 1 "alice@example.com" "Alice" None "" "" "" None None "active" 0.
Definition blank_machine : Machine :=
  mkMachine "" 1 None "" "" "" None "stopped" None 2 4096 None None None None None
    None None None None None None 0 None None 0 None None None None None None None
    None (Some "artifact"%string) None None None None None "" None "" false None None.
Definition blank_host : Host :=
  mkHost 0 "host-a" None "us-central1-a" "us-central1" "n2-standard-16" None None None
    "provisioning" None None 16 32768 100000 0 0 0 0 None None "" "" None 0 "" "" "" None
    "" None None None None None false.

Definition db_start : DB :=
  (db_empty (seconds 1000)) <| db_users := {[ 1 := alice ]} |>.

(** Host 2 is ready; machines id-4 and id-5 are stopped and have no host. *)
Definition ops_setup : list store_op :=
  [ OpCreateAccountWithOwner (mkAccount 0 "Acme" "acme" 1 0) 1;
    OpCreateHost (blank_host <| Host_TunnelURL := Some "host-a.example.com"%string |>);
    OpUpdateHostHeartbeat 2 "203.0.113.9" "1.0" "r1" "b1" "o1" None;
    OpUpdateHostStatus 2 "ready";
    OpCreateMachine (blank_machine <| Machine_Slug := "blue"%string |>);
    OpCreateMachine (blank_machine <| Machine_Slug := "green"%string |>) ].
Definition db_setup : DB := exec_all ops_setup db_start.

(** Machine id-4 is placed on host 2, its placement and its start recorded. *)
Definition ops_placed : list store_op :=
  [ OpCreateMachineOperation (mkMachineOperation "" "id-4" "start" "" None None None 0 None);
    OpPlaceOnHost 2 "id-4" 2 4096 8192;
    OpReservePlacement "id-4" 2 "192.168.100.10" "id-6" ].
Definition db_placed : DB := exec_all ops_placed db_setup.

Lemma db_start_reachable : reachable db_start.
Proof. exists (seconds 1000), {[ 1 := alice ]}. apply rtc_refl. Qed.
Lemma db_setup_reachable : reachable db_setup.
Proof. apply exec_all_reachable; [apply db_start_reachable|]. cbn -[exec]. repeat split; lia. Qed.
Lemma db_placed_reachable : reachable db_placed.
Proof. apply exec_all_reachable; [apply db_setup_reachable|]. cbn -[exec]. repeat split; lia. Qed.

(** Machine id-5 joins machine id-4 on host 2. *)
Definition db_both : DB := exec_all [OpPlaceOnHost 2 "id-5" 2 4096 8192] db_placed.
Lemma db_both_reachable : reachable db_both.
Proof.
  apply exec_all_reachable; [apply db_placed_reachable|]. cbn -[exec]. repeat split; lia.
Qed.

(** Machine id-4 runs. *)
Definition ops_running : list store_op :=
  [ OpSetMachineTokens "id-4" "gw" "px"; OpUpdateMachineStatus "id-4" "running" None;
    OpActivatePlacement "id-7"; OpCompleteMachineOperation "id-6" "completed" None ].
Definition db_running : DB := exec_all ops_running db_placed.
Lemma db_running_reachable : reachable db_running.
Proof. apply exec_all_reachable; [apply db_placed_reachable|by repeat split]. Qed.

(** ** Tokens, invitations and locks *)

Definition db_token : DB :=
  exec_all [OpCreateEnrollmentToken "00ff"
    (mkEnrollmentToken "" "" "byo" "managed" (Some (JObj [])) None (seconds 5000) 0)] db_setup.

Definition bob : User :=
  mkUser 2 "bob@example.com" "Bob" None "" "" "" None None "active" 0.
Definition db_invited : DB :=
  exec_all [OpCreateAccountWithOwner (mkAccount 0 "Acme" "acme" 1 0) 1;
    OpCreateInvitation (mkAccountInvitation 0 1 "" "bob@example.com" "admin" "" "" 1 None
      (seconds 5000) 0 None)]
    ((db_empty (seconds 1000)) <| db_users := {[ 1 := alice; 2 := bob ]} |>).
Lemma db_invited_reachable : reachable db_invited.
Proof.
  apply exec_all_reachable; [|by repeat split].
  exists (seconds 1000), {[ 1 := alice; 2 := bob ]}. apply rtc_refl.
Qed.

Definition workflow_run (id : string) : WorkflowRun :=
  mkWorkflowRun id "rollout" "host" "2" "running" None None None "" None None None None None
    None None 0 0.
Definition lock_of (id : string) : WorkflowLock :=
  mkWorkflowLock "host" "2" "rollout" id (seconds 1060) 0 0.
Definition ops_locked : list store_op :=
  [OpCreateWorkflowRun (workflow_run "w1"); OpCreateWorkflowRun (workflow_run "w2");
   OpAcquireWorkflowLock (lock_of "w1")].
Definition db_locked : DB := exec_all ops_locked db_start.
Lemma db_locked_reachable : reachable db_locked.
Proof. apply exec_all_reachable; [apply db_start_reachable|by repeat split]. Qed.

(** ** Browser VMs *)

Definition blank_browser_vm (slug : string) (v m : Z) : BrowserVM :=
  mkBrowserVM "" 1 slug slug None None "stopped" v m 9222 None None None None 0 0 None.

(** Nine browser VMs, id-6 to id-14, take the addresses .2 to .10 of host 2. *)
Definition ops_browsers : list store_op :=
  ((λ n, OpCreateBrowserVM (blank_browser_vm (pretty n) 1 1024)) <$>
     [1; 2; 3; 4; 5; 6; 7; 8; 9]%N) ++
  ((λ n, OpPlaceBrowserVMOnHost 2 (uuid_of n) 1 1024) <$>
     [6; 7; 8; 9; 10; 11; 12; 13; 14]%N).
Definition db_browsers : DB := exec_all ops_browsers db_setup.

(** A browser VM shares host 2 with machine id-4, which is stopped and then
    deleted; the browser VM is released last. *)
Definition ops_shared : list store_op :=
  [ OpCreateBrowserVM (blank_browser_vm "web" 2 2048);
    OpPlaceBrowserVMOnHost 2 "id-8" 2 2048;
    OpSoftStopMachine "id-4" 2 2 4096 8192;
    OpReleaseHostCapacityWithDisk 2 2 4096 8192;
    OpReleaseBrowserVMPlacement "id-8" ].
Definition db_shared : DB := exec_all ops_shared db_placed.

Lemma db_browsers_reachable : reachable db_browsers.
Proof.
  apply exec_all_reachable; [apply db_setup_reachable|].
  cbn -[exec]. repeat split; lia.
Qed.
Lemma db_shared_reachable : reachable db_shared.
Proof.
  apply exec_all_reachable; [apply db_placed_reachable|].
  cbn -[exec]. repeat split; lia.
Qed.
