(* ===== verification/StoreSpec.v ===== *)
(** * What the store guarantees

    The theorems on store/postgres.go: invariants of every interleaving of its
    operations, the contracts of the placement transactions, and the
    executions that show where the accounting of the code goes wrong. *)

From S2P Require Import Prelude Schema HostStore PlacementStore OperationStore.
From S2P Require Import AccountStore CatalogStore StoreStep CapacityInv TableInv.
From S2P Require Import RecordInv.
From S2P Require Import AccountInv CatalogInv Scenario.

(** ** Invariants of every interleaving *)





(** Placement records follow their life cycle: in every reachable database
    at most one unreleased record holds a machine, and at most one an address of
    a host; and every step leaves a record as it is, activates a reserved one,
    releases one that is not released, or removes it, and creates records only
    as reserved or active ones for a machine and an address that are free. *)
Lemma placement_lifecycle (db db' : DB) :
  reachable db → step db db' →
  placements_unique db ∧ placements_wf db ∧ placements_step db db'.
Proof.
  intros Hr Hs. pose proof (reachable_placements_wf db Hr) as Hw.
  split; [by apply reachable_placements_unique|]. split; [done|].
  destruct Hs; [by apply exec_placements|by apply placements_same].
Qed.

Lemma placement_lifecycle_witness :
  let db' := (exec (OpActivatePlacement "id-7") db_placed).2 in
  (Placement_State <$> db_placements db' !! "id-7"%string) = Some "active"%string ∧
  placements_step db_placed db'.
Proof.
  split; [vm_compute; reflexivity|].
  eapply (placement_lifecycle db_placed); [apply db_placed_reachable|by constructor].
Defined.

(** C3: the operations table refines a lock per machine: under the abstraction
    [active_lock] every step of the store takes one lock that was free, or gives
    locks up, so that a machine never has two operations in flight. *)
Theorem operations_refine_lock (db db' : DB) :
  reachable db → step db db' →
  lock_step (active_lock (db_operations db)) (active_lock (db_operations db')) ∧
  ∀ m id, active_lock (db_operations db) !! m = Some id ↔ holds (db_operations db) m id.
Proof.
  intros Hr Hs. destruct (reachable_operations_unique db Hr) as [Hk Hu].
  split; [|intros; by apply db_lock_spec].
  destruct Hs; [by apply exec_lock|by apply lock_release].
Qed.

Lemma operations_refine_lock_witness :
  active_lock (db_operations db_placed) = {[ "id-4" := "id-6" ]}%string ∧
  lock_step {[ "id-4" := "id-6" ]}%string
    (active_lock (db_operations
       (exec (OpCompleteMachineOperation "id-6" "completed" None) db_placed).2)).
Proof.
  assert (active_lock (db_operations db_placed) = {[ "id-4" := "id-6" ]}%string) as E
    by (vm_compute; reflexivity).
  split; [exact E|]. rewrite <-E.
  eapply (operations_refine_lock db_placed); [apply db_placed_reachable|by constructor].
Defined.



(** An invitation admits one user, who becomes a member with the invited
    role: accepting succeeds once, for a pending invitation, and after it and
    any later steps nobody else is admitted with the same token. *)
Lemma invitation_admits_once (token : string) (user1 user2 : Z) (db db1 db2 : DB) :
  reachable db → AcceptInvitation token user1 db = (Ok 1, db1) → rtc step db1 db2 →
  (∃ inv, invitation_by_token db token = Some inv ∧
    AccountInvitation_Status inv = "pending"%string ∧
    AccountMember_Role <$> db_members db1 !! (AccountInvitation_AccountID inv, user1) =
      Some (AccountInvitation_Role inv)) ∧
  ∀ n db3, AcceptInvitation token user2 db2 = (Ok n, db3) → n = 0 ∧ db3 = db2.
Proof.
  intros Hr Ha Hs. destruct (reachable_invitations db Hr) as [Hk Hu]. split.
  - apply AcceptInvitation_ok in Ha as [[? _]|(inv & _ & Hi & Hp & _ & ->)]; [done|].
    exists inv. split; [done|]. split; [done|]. cbn. by rewrite lookup_insert_eq.
  - intros n db3. apply invitation_settled_refused. eapply steps_invitation_settled; [done|].
    by eapply AcceptInvitation_settles.
Qed.

Lemma invitation_admits_once_witness :
  let db1 := (AcceptInvitation "id-3" 2 db_invited).2 in
  AcceptInvitation "id-3" 2 db_invited = (Ok 1, db1) ∧
  ∀ n db3, AcceptInvitation "id-3" 1 db1 = (Ok n, db3) → n = 0 ∧ db3 = db1.
Proof.
  assert (AcceptInvitation "id-3" 2 db_invited =
    (Ok 1, (AcceptInvitation "id-3" 2 db_invited).2)) as E by (vm_compute; reflexivity).
  split; [exact E|]. intros n db3.
  eapply invitation_admits_once; [apply db_invited_reachable|exact E|apply rtc_refl].
Defined.

(** A workflow lock is exclusive while its lease runs: whatever operation
    the store executes, except its own release, the lock stays with the
    workflow that holds it, and another workflow's acquisition is refused. *)
Lemma workflow_lock_exclusive (op : store_op) (db : DB)
    (key : string * string * string) (held lock : WorkflowLock) :
  reachable db → db_workflow_locks db !! key = Some held →
  db_now db ≤ WorkflowLock_LeaseExpiresAt held →
  op ≠ OpReleaseWorkflowLocks (WorkflowLock_WorkflowID held) →
  (∃ held', db_workflow_locks (exec op db).2 !! key = Some held' ∧
     WorkflowLock_WorkflowID held' = WorkflowLock_WorkflowID held) ∧
  (lock_key lock = key → WorkflowLock_WorkflowID lock ≠ WorkflowLock_WorkflowID held →
   is_Some (db_workflow_runs db !! WorkflowLock_WorkflowID lock) →
   AcquireWorkflowLock lock db = (Err ErrWorkflowLockHeld, db)).
Proof.
  intros Hr Hh Hl Hop. split.
  - destruct (reachable_keyed db Hr) as (?&?&?&?&?&?&?&Hk&_).
    apply exec_workflow_lock; [done..|]. intros w -> ->. done.
  - intros <- Hw [run Hrun].
    unfold AcquireWorkflowLock, bind, now, gets, get, references, is_some_b, ret, fail. cbn.
    rewrite Hrun. cbn. rewrite Hh. cbn.
    rewrite (proj2 (String.eqb_neq _ _)) by (intros E; by destruct Hw).
    rewrite bool_decide_false by lia. done.
Qed.

Lemma workflow_lock_exclusive_witness :
  AcquireWorkflowLock (lock_of "w2") db_locked = (Err ErrWorkflowLockHeld, db_locked).
Proof.
  eapply (workflow_lock_exclusive (OpReleaseWorkflowLocks "w2") db_locked
    ("host", "2", "rollout")%string); [apply db_locked_reachable|vm_compute; reflexivity
    |vm_compute; discriminate|vm_compute; discriminate|reflexivity|vm_compute; discriminate
    |vm_compute; eauto].
Defined.

(** ** The placement transactions *)

(** C4: PlaceOnHost succeeds exactly when the host is ready, not in
    maintenance, heard from in the last 180 seconds, has room for the request
    and has an address no machine of it holds; it then takes the lowest such
    address, adds the request to the host's counters, assigns the machine and
    changes nothing else.  Any failure leaves the database as it was. *)
Theorem PlaceOnHost_correct (hostID : Z) (id : string) (v m d : Z) (db : DB) :
  match PlaceOnHost hostID id v m d db with
  | (Ok ip, db') =>
      ∃ h n, db_hosts db !! hostID = Some h ∧ placeable (db_now db) v m d h = true ∧
        (10 ≤ n ≤ 250)%nat ∧ ip = vm_ip_of n ∧ (ip ∉ machine_ips db hostID) ∧
        (∀ k, (10 ≤ k < n)%nat → vm_ip_of k ∈ machine_ips db hostID) ∧
        db' = db <| db_hosts := <[hostID := host_use v m d h]> (db_hosts db) |>
                 <| db_machines := alter (machine_assign (db_now db) hostID ip) id
                                     (db_machines db) |>
  | (Err e, db') =>
      db' = db ∧ ∀ h, db_hosts db !! hostID = Some h →
        placeable (db_now db) v m d h = true →
        ∀ n, (10 ≤ n ≤ 250)%nat → vm_ip_of n ∈ machine_ips db hostID
  end.
Proof.
  rewrite PlaceOnHost_run.
  destruct (db_hosts db !! hostID) as [h|] eqn:Eh; [|done].
  destruct (placeable (db_now db) v m d h) eqn:Ep; [|split; [done|]; intros h'; congruence].
  destruct (first_free_ip 10 250 (machine_ips db hostID)) as [ip|] eqn:Ei.
  - pose proof (first_free_ip_some _ _ _ _ Ei) as [Hfree (n & Hn & ->)].
    exists h, n. split; [done|]. split; [done|]. split; [done|]. split; [done|].
    split; [done|]. split; [intros k; by apply first_free_ip_least with 250%nat|].
    by rewrite <-(alter_known _ _ _ _ Eh).
  - split; [done|]. intros h' _ _ n. by apply first_free_ip_none.
Qed.

(** A stop keeps the machine's place and a restart gives it back: if
    nothing else runs in between and the host is healthy, the restart on the
    home host succeeds with the machine's old address and the host's counters
    are what they were before the stop. *)
Lemma stop_restart_restores (id ip : string) (hostID v m d d' : Z) (db : DB)
    (h : Host) (r : Machine) :
  db_hosts db !! hostID = Some h → db_machines db !! id = Some r →
  Machine_HostID r = Some hostID → Machine_VMIP r = Some ip → ip ≠ ""%string →
  Host_Status h = "ready"%string → Host_MaintenanceMode h = false →
  fresh_heartbeat (db_now db) h = true →
  v ≤ Host_UsedVCPUs h ≤ Host_CapacityVCPUs h →
  m ≤ Host_UsedMemoryMB h ≤ Host_CapacityMemoryMB h →
  let stopped := (SoftStopMachine id hostID v m d db).2 in
  let '(res, db') := ReAllocateHostCapacity id hostID v m d' stopped in
  res = Ok ip ∧ db_hosts db' = db_hosts db ∧
  ∃ r', db_machines db' !! id = Some r' ∧ Machine_HostID r' = Some hostID ∧
    Machine_VMIP r' = Some ip ∧ Machine_Status r' = "provisioning"%string.
Proof.
  intros Hh Hr Hrh Hri Hip Hst Hmm Hhb Hv Hm stopped.
  assert (ReAllocateHostCapacity id hostID v m d' stopped = (Ok ip,
    stopped <| db_hosts ::= alter (host_use_cpu v m) hostID |>
            <| db_machines ::= alter (machine_assign (db_now db) hostID ip) id |>)) as ->.
  { apply ReAllocate_ok. unfold stopped. rewrite SoftStopMachine_run. cbn.
    rewrite !lookup_alter_eq, Hh, Hr. cbn. eexists _, _. do 2 (split; [reflexivity|]).
    split; [|split; [|done]].
    - unfold restartable, room_vcpus, room_memory, fresh_heartbeat in *. cbn.
      rewrite Hst, Hmm, Hhb, !bool_decide_true by lia. done.
    - unfold restart_ip. cbn. rewrite Hri. cbn.
      by rewrite (proj2 (String.eqb_neq _ _)) by done. }
  split; [done|]. unfold stopped. rewrite SoftStopMachine_run. cbn. split.
  - rewrite (alter_known _ _ _ _ Hh), alter_insert_eq, host_use_free by lia.
    by apply insert_id.
  - rewrite !lookup_alter_eq, Hr. cbn. eexists. split; [reflexivity|]. done.
Qed.

Lemma stop_restart_restores_witness :
  let stopped := (SoftStopMachine "id-4" 2 2 4096 8192 db_placed).2 in
  Host_UsedVCPUs <$> db_hosts stopped !! 2 = Some 0 ∧
  (ReAllocateHostCapacity "id-4" 2 2 4096 0 stopped).1 = Ok "192.168.100.10"%string ∧
  Host_UsedVCPUs <$> db_hosts (ReAllocateHostCapacity "id-4" 2 2 4096 0 stopped).2 !! 2 =
    Some 2.
Proof.
  destruct (db_hosts db_placed !! 2) as [h|] eqn:Eh; [|vm_compute in Eh; discriminate].
  destruct (db_machines db_placed !! "id-4"%string) as [r|] eqn:Er;
    [|vm_compute in Er; discriminate].
  pose proof (stop_restart_restores "id-4" "192.168.100.10" 2 2 4096 8192 0 db_placed h r
    Eh Er) as H.
  vm_compute in Eh, Er. injection Eh as <-. injection Er as <-.
  specialize (H eq_refl eq_refl ltac:(discriminate) eq_refl eq_refl eq_refl
    ltac:(cbn; lia) ltac:(cbn; lia)).
  cbv zeta in *. split; [vm_compute; reflexivity|].
  destruct (ReAllocateHostCapacity _ _ _ _ _ _) as [res db']. cbn.
  destruct H as (-> & -> & _). split; [reflexivity|vm_compute; reflexivity].
Defined.

(** ** Plugins *)

(** The row of a plugin that was just enabled. *)
Lemma upsert_plugin_row machineID pluginID slot overrides st v db u db' :
  upsert_plugin machineID pluginID slot overrides st v db = (Ok u, db') →
  ∃ p, p ∈ select (plugin_row machineID pluginID) (db_machine_plugins db') ∧
    MachinePlugin_Enabled p = true ∧ MachinePlugin_ConfigOverrides p = overrides.
Proof.
  unfold upsert_plugin, now, gets, get. cbv zeta. unfold bind at 1 2. cbv beta iota.
  rewrite bind_ok. intros (row & db1 & Erow & E).
  assert (plugin_row machineID pluginID row = true ∧ MachinePlugin_Enabled row = true ∧
    MachinePlugin_ConfigOverrides row = overrides) as (Hp & He & Ho).
  { destruct (head _) as [old|] eqn:Eold.
    - injection Erow as <- _. split; [|done].
      assert (old ∈ select (plugin_row machineID pluginID) (db_machine_plugins db)) as Hin
        by (destruct (select _ _); [done|]; injection Eold as ->; by constructor).
      apply elem_of_select in Hin as [Hr _]. exact Hr.
    - rewrite bind_ok in Erow. destruct Erow as (u1 & db2 & _ & Erow).
      rewrite bind_ok in Erow. destruct Erow as (id & db3 & _ & Erow).
      rewrite bind_ok in Erow. destruct Erow as (u2 & db4 & _ & Erow).
      injection Erow as <- _. split; [|done]. unfold plugin_row. cbn. by rewrite !String.eqb_refl. }
  rewrite bind_ok in E. destruct E as (u1 & db2 & _ & E). injection E as _ <-.
  exists row. split; [|done]. apply elem_of_select. split; [done|].
  exists (MachinePlugin_ID row). cbn. by rewrite lookup_insert_eq.
Qed.


(** Two plugins of one slot, enabled one after the other. *)
Definition memory_plugin (id : string) : PluginCatalogEntry :=
  mkPluginCatalogEntry id id None "memory" "1.0" "bundled" None None None "active" 0 0 0.
Definition ops_plugins : list store_op :=
  [OpCreatePluginCatalogEntry (memory_plugin "mem-a");
   OpCreatePluginCatalogEntry (memory_plugin "mem-b");
   OpEnableMachinePlugin "id-4" "mem-a" None; OpEnableMachinePlugin "id-4" "mem-b" None].
Definition db_plugins : DB := exec_all ops_plugins db_running.
Lemma db_plugins_reachable : reachable db_plugins.
Proof. apply exec_all_reachable; [apply db_running_reachable|by repeat split]. Qed.

(** ** Executions where the accounting goes wrong *)

(** Addresses are not unique across the two kinds of VM: PlaceOnHost looks
    only at machines, so that in a reachable database a machine is given the
    address of a browser VM whose placement on the same host is not released. *)
Lemma machine_takes_browser_address :
  ∃ db ip db' p, reachable db ∧ PlaceOnHost 2 "id-4" 2 4096 8192 db = (Ok ip, db') ∧
    reachable db' ∧ p ∈ (map_to_list (db_browser_vm_placements db')).*2 ∧
    BrowserVMPlacement_HostID p = 2 ∧ BrowserVMPlacement_ReleasedAt p = None ∧
    BrowserVMPlacement_VMIP p = ip.
Proof.
  exists db_browsers, "192.168.100.10"%string.
  exists (exec (OpPlaceOnHost 2 "id-4" 2 4096 8192) db_browsers).2,
    (mkBrowserVMPlacement "id-23" "id-14" 2 "192.168.100.10" "reserved" (seconds 1000) None None).
  split; [apply db_browsers_reachable|]. split; [vm_compute; reflexivity|].
  split; [apply reachable_exec; [apply db_browsers_reachable|repeat split; lia]|].
  split; [|done].
  apply list_elem_of_fmap. eexists ("id-23"%string, _). split; [reflexivity|].
  apply elem_of_map_to_list. vm_compute. reflexivity.
Qed.

(** The counters of a host can become negative: a machine that is stopped
    and then deleted frees its vCPUs twice (the second time at the expense of
    the browser VM beside it, clamped at zero), and the release of the browser VM
    has no such clamp. *)
Lemma counters_can_go_negative :
  ∃ db h, reachable db ∧ db_hosts db !! 2 = Some h ∧
    Host_UsedVCPUs h < 0 ∧ Host_UsedMemoryMB h < 0.
Proof.
  exists db_shared. eexists. split; [apply db_shared_reachable|].
  split; [vm_compute; reflexivity|]. vm_compute. done.
Qed.
