(* ===== verification/World.v ===== *)
(** * The world the services run in

    The services of the control plane call the database, the host agents, the
    Cloudflare APIs and the random source.  [World] is the state of all of them
    and [M] the monad of a service: a database call runs a store operation of
    the previous files, any other call is recorded in a trace.  Every call can
    fail: [w_faults] holds one flag per call, in order, and a set flag makes the
    call return an error without an effect (a lost connection, a contended row
    under SKIP LOCKED, an HTTP error).  An empty list is a run without faults.
    A request whose effect happens and whose answer is lost is not modelled. *)

From S2P Require Import Prelude Schema.

(** ** KV entries (kvstore/cloudflare.go, routing/service.go) *)

Record KVRouteEntry : Type := mkKVRouteEntry {
  KVRouteEntry_MachineID : string;
  KVRouteEntry_HostHostname : string;
  KVRouteEntry_ProxyToken : string
}.
Record KVAccountEntry : Type := mkKVAccountEntry {
  KVAccountEntry_AccountID : Z;
  KVAccountEntry_UserIDs : list Z
}.
Inductive KVValue : Type :=
| KVRoute (e : KVRouteEntry)
| KVAccount (e : KVAccountEntry)
| KVRevoked (at_ : time).

(** ** Calls to other processes *)

Inductive event : Type :=
| AgentStopVM (host : Z) (machine : string)
| AgentDestroyVM (host : Z) (machine : string)
| AgentCreateVM (host : Z) (machine vmIP : string)
| AgentUpgradeVM (host : Z) (machine vmIP : string)
| AgentGetVM (host : Z) (machine : string)
| AgentUnpairBrowserVM (host : Z) (browserVM machineIP : string)
| AgentResetCDPTarget (host : Z) (machine : string)
| AgentDeleteBackups (host : Z) (machine : string)
| AgentBackupVM (host : Z) (machine : string)
| AgentRestoreVM (host : Z) (machine gcsPath : string)
| WorkflowEnqueue (workflowID queue partitionKey : string)
| TunnelCreate (slug : string)
| TunnelConfigure (tunnelID httpHost sshHost : string)
| TunnelDNS (tunnelID hostname : string)
| TunnelDelete (tunnelID httpHost sshHost : string)
| CloudInstanceGet (zone vmName : string)
| ActivityLog (action : string) (hostID : option Z) (machineID : option string)
| AccountLog (action : string) (actor : Z) (account : Z)
| AgentLog (category action status : string) (hostID : Z) (machineID : option string)
| AgentPairBrowserVM (host : Z) (browserVM machineIP : string) (absent : bool)
| AgentCreateBrowserVM (host : Z) (browserVM vmIP : string) (kept : bool)
| AgentDestroyBrowserVM (host : Z) (browserVM : string) (gone : bool)
| AgentBrowserVMHealth (host : Z) (browserVM : string) (absent : bool)
| PushBrowserConfig (machine : string) (paired : bool)
| AgentConfigBatch (host : Z) (machine : string) (paired : bool)
| AgentRestartGateway (host : Z) (machine : string)
| AgentSetCDPTarget (host : Z) (machine target : string)
| AgentRollbackVM (host : Z) (machine : string)
| AgentGatewayHealth (host : Z) (machine : string)
| AgentTriggerUpdate (host : Z)
| AgentConfigureBrowserStorage (host : Z) (device mountPoint : string) (format : bool)
| AgentRefreshRootfs (host : Z)
| AgentListVMs (host : Z)
| AgentGetLogs (host : Z) (lines : Z)
| AgentHealth (host : Z)
| CloudFirewall (project name : string)
| CloudInstanceInsert (zone vmName : string)
| CloudInstanceDelete (zone vmName : string)
| CloudDiskDelete (zone disk : string)
| HostDNSDelete (hostname : string)
| HostTunnelFind (name : string)
| ComposioDelete (machine : string)
| MachineLog (action : string) (actor : option Z) (account : Z) (machine : string) (host : option Z)
| HostTunnelCreate (name : string)
| HostTunnelConfigure (tunnelID hostname : string)
| HostTunnelDNS (tunnelID hostname : string)
| HostTunnelDelete (tunnelID : string)
| HostTunnelDeleteDNS (tunnelID : string) (hostnames : list string)
| EmailSend (from to_ subject : string)
| OnRunning (machineID : string) (isRestart : bool).

#[export] Instance event_eq_dec : EqDecision event.
Proof. solve_decision. Defined.

Record World : Type := mkWorld {
  w_db : DB;
  w_faults : list bool;
  w_kv : gmap string KVValue;
  w_trace : list event;          (* newest first *)
  w_rand : list string;          (* answers of the random source and of APIs *)
  w_ints : list nat              (* answers of math/rand *)
}.
#[export] Instance eta_World : Eta World := λ r,
  mkWorld (w_db r) (w_faults r) (w_kv r) (w_trace r) (w_rand r) (w_ints r).

Definition M := ST World.

(** The next fault flag. *)
Definition pop_fault : M bool := λ w,
  match w_faults w with
  | [] => (Ok false, w)
  | b :: fs => (Ok b, w <| w_faults := fs |>)
  end.

(** A database call. *)
Definition call {A} (q : Q A) : M A :=
  let! b := pop_fault in
  if b then fail ErrTransient
  else λ w, let '(r, db) := q (w_db w) in (r, w <| w_db := db |>).

(** A database call under an expired context. *)
Definition call_expired {A} (q : Q A) : M A := fail (ErrText "context deadline exceeded").

Definition emit (e : event) : M unit := modify (set w_trace (cons e)).

(** A call to an agent or to a Cloudflare API. *)
Definition remote (e : event) : M unit :=
  emit e ;;
  let! b := pop_fault in
  if b then fail ErrTransient else ret tt.

(** A read of data the model does not hold (secrets, credentials, releases):
    it can only fail. *)
Definition load : M unit :=
  let! b := pop_fault in
  if b then fail ErrTransient else ret tt.

(** [rand.Read] followed by [hex.EncodeToString]. *)
Definition rand_hex : M string := λ w,
  match w_rand w with
  | [] => (Err (ErrText "rand"), w)
  | s :: l => (Ok s, w <| w_rand := l |>)
  end.

(** [math/rand]: a number, taken below the bound by its use. *)
Definition rand_int : M nat := λ w,
  match w_ints w with
  | [] => (Ok 0%nat, w)
  | n :: l => (Ok n, w <| w_ints := l |>)
  end.

(** ** Runs without faults *)

Definition fault_free (w : World) : Prop := w_faults w = [].

Lemma pop_fault_free w : fault_free w → pop_fault w = (Ok false, w).
Proof. unfold fault_free, pop_fault. by intros ->. Qed.

(** Without faults a database call is the store operation. *)
Lemma call_free {A} (q : Q A) w :
  fault_free w →
  call q w = ((q (w_db w)).1, w <| w_db := (q (w_db w)).2 |>).
Proof.
  intros H. unfold call, bind. rewrite pop_fault_free by done.
  by destruct (q (w_db w)).
Qed.

(** In any run a database call either runs the operation or does nothing to
    the database. *)
Lemma call_db {A} (q : Q A) w :
  let '(r, w') := call q w in
  (r = (q (w_db w)).1 ∧ w_db w' = (q (w_db w)).2) ∨
  (r = Err ErrTransient ∧ w_db w' = w_db w).
Proof.
  unfold call, bind, pop_fault. destruct (w_faults w) as [|b fs]; simpl.
  - destruct (q (w_db w)); simpl; auto.
  - destruct b; simpl; auto. destruct (q (w_db w)); simpl; auto.
Qed.

(** ** Runs with any faults

    A relation between databases, seen by the services: a service run relates
    its databases when all the store operations it may call do. *)
Definition on_db (R : relation DB) : relation World := λ w w', R (w_db w) (w_db w').
#[export] Instance on_db_preorder R `{!PreOrder R} : PreOrder (on_db R).
Proof.
  split; unfold on_db; [intros ?; reflexivity|]. intros ???. apply transitivity.
Qed.

Section OnDB.
Context (R : relation DB) `{!PreOrder R}.

Lemma steps_quiet {A} (m : M A) : (∀ w, w_db (m w).2 = w_db w) → steps (on_db R) m.
Proof. intros H w. unfold on_db. by rewrite H. Qed.
Lemma steps_pop_fault : steps (on_db R) pop_fault.
Proof. apply steps_quiet. intros w. unfold pop_fault. by destruct (w_faults w). Qed.
Lemma steps_emit e : steps (on_db R) (emit e).
Proof. by apply steps_quiet. Qed.
Lemma steps_rand_hex : steps (on_db R) rand_hex.
Proof. apply steps_quiet. intros w. unfold rand_hex. by destruct (w_rand w). Qed.
Lemma steps_rand_int : steps (on_db R) rand_int.
Proof. apply steps_quiet. intros w. unfold rand_int. by destruct (w_ints w). Qed.
Lemma steps_load : steps (on_db R) load.
Proof. apply steps_quiet. intros w. unfold load, bind, pop_fault. by destruct (w_faults w) as [|[]]. Qed.
Lemma steps_remote e : steps (on_db R) (remote e).
Proof.
  apply steps_bind; [apply _|apply steps_emit|intros _]. apply steps_load.
Qed.
Lemma steps_call_expired {A} (q : Q A) : steps (on_db R) (call_expired q).
Proof. by apply steps_quiet. Qed.
Lemma steps_call {A} (q : Q A) : steps R q → steps (on_db R) (call q).
Proof.
  intros Hq w. unfold on_db. pose proof (call_db q w) as H.
  destruct (call q w) as [r w']. cbn. destruct H as [[_ ->]|[_ ->]]; [apply Hq|reflexivity].
Qed.
Lemma steps_fail_M {A} e : steps (on_db R) (@fail World A e).
Proof. apply steps_fail, _. Qed.
End OnDB.

(** [go_step] for service code. *)
Ltac run_step :=
  match goal with
  | |- steps _ (pop_fault) => apply steps_pop_fault; typeclasses eauto
  | |- steps _ (emit _) => apply steps_emit; typeclasses eauto
  | |- steps _ rand_hex => apply steps_rand_hex; typeclasses eauto
  | |- steps _ rand_int => apply steps_rand_int; typeclasses eauto
  | |- steps _ load => apply steps_load; typeclasses eauto
  | |- steps _ (remote _) => apply steps_remote; typeclasses eauto
  | |- steps _ (call_expired _) => apply steps_call_expired; typeclasses eauto
  | |- steps _ (call _) => apply steps_call; [typeclasses eauto|]
  | _ => go_step
  end.
Ltac run_steps := repeat run_step.

(** Outcomes of a call on a given world. *)
Lemma call_trace {A} (q : Q A) w : w_trace (call q w).2 = w_trace w.
Proof.
  unfold call, bind, pop_fault. destruct (w_faults w) as [|[] fs]; cbn; [|done|];
    by destruct (q (w_db w)).
Qed.
Lemma call_ok {A} (q : Q A) w a w' :
  call q w = (Ok a, w') → q (w_db w) = (Ok a, w_db w').
Proof.
  intros E. pose proof (call_db q w) as H. rewrite E in H.
  destruct H as [[Ha Hd]|[? _]]; [|done]. rewrite Hd, Ha. by destruct (q (w_db w)).
Qed.
Lemma call_err {A} (q : Q A) w e w' :
  call q w = (Err e, w') →
  q (w_db w) = (Err e, w_db w') ∨ (e = ErrTransient ∧ w_db w' = w_db w).
Proof.
  intros E. pose proof (call_db q w) as H. rewrite E in H.
  destruct H as [[Ha Hd]|[[= ->] ?]]; [left|by right].
  rewrite Hd, Ha. by destruct (q (w_db w)).
Qed.
Lemma call_free_faults {A} (q : Q A) w : fault_free w → fault_free (call q w).2.
Proof. intros H. rewrite call_free by done. exact H. Qed.
Lemma remote_free e w :
  fault_free w → remote e w = (Ok tt, w <| w_trace ::= cons e |>).
Proof. unfold fault_free. intros H. unfold remote, bind, emit, modify, pop_fault. cbn. by rewrite H. Qed.
Lemma load_free w : fault_free w → load w = (Ok tt, w).
Proof. unfold fault_free. intros H. unfold load, bind, pop_fault. by rewrite H. Qed.

(** *** Runs without faults stay without faults *)

Lemma ff_quiet {A} (m : M A) : (∀ w, w_faults (m w).2 = w_faults w) → steps (keeps fault_free) m.
Proof. intros H w. unfold keeps, fault_free. by rewrite H. Qed.
Lemma ff_call {A} (q : Q A) : steps (keeps fault_free) (call q).
Proof. intros w. unfold keeps. apply call_free_faults. Qed.
Lemma ff_call_expired {A} (q : Q A) : steps (keeps fault_free) (call_expired q).
Proof. by apply ff_quiet. Qed.
Lemma ff_emit e : steps (keeps fault_free) (emit e).
Proof. by apply ff_quiet. Qed.
Lemma ff_remote e : steps (keeps fault_free) (remote e).
Proof. intros w Hf. by rewrite remote_free. Qed.
Lemma ff_load : steps (keeps fault_free) load.
Proof. intros w Hf. by rewrite load_free. Qed.
Lemma ff_rand_hex : steps (keeps fault_free) rand_hex.
Proof. apply ff_quiet. intros w. unfold rand_hex. by destruct (w_rand w). Qed.
Lemma ff_rand_int : steps (keeps fault_free) rand_int.
Proof. apply ff_quiet. intros w. unfold rand_int. by destruct (w_ints w). Qed.
Create HintDb ff.
#[export] Hint Resolve ff_call ff_call_expired ff_emit ff_remote ff_load ff_rand_hex
  ff_rand_int : ff.

Ltac ff_step :=
  match goal with
  | |- steps _ (call _) => apply ff_call
  | |- steps _ (call_expired _) => apply ff_call_expired
  | |- steps _ (remote _) => apply ff_remote
  | |- steps _ (emit _) => apply ff_emit
  | |- steps _ load => apply ff_load
  | |- steps _ rand_hex => apply ff_rand_hex
  | |- steps _ rand_int => apply ff_rand_int
  | |- steps _ _ => solve [auto with ff nocore]
  | _ => go_step
  end.
Ltac ff_steps := repeat ff_step.

(** *** Runs without an error *)

(** Runs that return a value, whatever calls fail. *)
Definition returns {A} (m : M A) : Prop := ∀ w, is_ok (m w).1 = true.
Lemma returns_ret {A} (a : A) : returns (ret a).
Proof. done. Qed.
Lemma returns_ignore {A} (m : M A) : returns (ignore m).
Proof. done. Qed.
Lemma returns_bind {A B} (m : M A) (k : A → M B) :
  returns m → (∀ a, returns (k a)) → returns (bind m k).
Proof.
  intros Hm Hk w. unfold bind. specialize (Hm w). destruct (m w) as [[a|e] w1]; [apply Hk|done].
Qed.
Lemma returns_try {A B} (m : M A) (k : res A → M B) :
  (∀ r, returns (k r)) → returns (bind (try m) k).
Proof. intros Hk w. rewrite bind_try. apply Hk. Qed.
Lemma returns_for_each {A} (xs : list A) (body : A → M unit) :
  (∀ x, returns (body x)) → returns (for_each xs body).
Proof. intros H. induction xs; [done|]. by apply returns_bind. Qed.
Lemma returns_emit e : returns (emit e).
Proof. done. Qed.
Lemma returns_gets {A} (f : World → A) : returns (gets f).
Proof. done. Qed.
Lemma returns_when b m : returns m → returns (when b m).
Proof. by destruct b. Qed.
Create HintDb returns.
#[export] Hint Resolve returns_ret returns_ignore returns_emit returns_gets : returns.

Ltac returns_step :=
  match goal with
  | |- returns (let _ := _ in _) => cbv zeta
  | |- returns (bind (try _) _) => apply returns_try; intros ?
  | |- returns (when _ _) => apply returns_when
  | |- returns (for_each _ _) => apply returns_for_each; intros ?
  | |- returns _ => solve [auto with returns nocore]
  | |- returns (bind _ _) => apply returns_bind; [|intros ?]
  | |- returns (match ?x with _ => _ end) => destruct x
  end.
