(* ===== verification/Fleet.v ===== *)
(** * Placement of machines on hosts: fleet/placement.go *)

From S2P Require Import Prelude Schema HostStore PlacementStore World.

(** ** Requests and configuration *)

Record PlacementRequest : Type := mkPlacementRequest {
  PlacementRequest_VCPUs : Z;
  PlacementRequest_MemoryMB : Z;
  PlacementRequest_DiskMB : Z;
  PlacementRequest_Region : string;
  PlacementRequest_ExpectedImage : string;
  PlacementRequest_OperationID : string;
  PlacementRequest_TargetHostID : Z;  (* non-zero: this host (admin migration) *)
  PlacementRequest_RequireBrowserReflink : bool
}.
#[export] Instance eta_PlacementRequest : Eta PlacementRequest := λ r,
  mkPlacementRequest (PlacementRequest_VCPUs r) (PlacementRequest_MemoryMB r)
    (PlacementRequest_DiskMB r) (PlacementRequest_Region r)
    (PlacementRequest_ExpectedImage r) (PlacementRequest_OperationID r)
    (PlacementRequest_TargetHostID r) (PlacementRequest_RequireBrowserReflink r).

(** ReleaseSoft frees vCPU and memory and keeps the home host; ReleaseHard
    frees everything. *)
Inductive ReleaseMode : Type := ReleaseSoft | ReleaseHard.

(** How eligible hosts are ranked: shuffled, least loaded first, most loaded
    first. *)
Inductive Strategy : Type := Random | Spread | BinPack.

Definition DefaultDiskPerVM : Z := 8192.
Definition hostPlacementHeartbeatMaxAge : Z := seconds 180.

Record PlacementConfig : Type := mkPlacementConfig {
  PlacementConfig_DefaultRegion : string;
  PlacementConfig_ExpectedImage : string;
  PlacementConfig_Strategy : Strategy;
  PlacementConfig_DefaultDiskPerVM : Z
}.
#[export] Instance eta_PlacementConfig : Eta PlacementConfig := λ r,
  mkPlacementConfig (PlacementConfig_DefaultRegion r)
    (PlacementConfig_ExpectedImage r) (PlacementConfig_Strategy r)
    (PlacementConfig_DefaultDiskPerVM r).

Definition NewPlacementService (config : PlacementConfig) : PlacementConfig :=
  if bool_decide (PlacementConfig_DefaultDiskPerVM config = 0)
  then config <| PlacementConfig_DefaultDiskPerVM := DefaultDiskPerVM |> else config.

(** ** sort.Slice and rand.Shuffle *)

(** [sort.Slice] orders by a key and promises nothing on equal keys: an
    implementation is any function with these two laws. *)
Class GoSort : Type := {
  sort_slice : ∀ {A}, (A → Z) → list A → list A;
  sort_slice_perm : ∀ {A} (key : A → Z) l, sort_slice key l ≡ₚ l;
  sort_slice_sorted : ∀ {A} (key : A → Z) l, Sorted (key_le key) (sort_slice key l)
}.

#[export] Instance key_le_total {A} (key : A → Z) : Total (key_le key).
Proof. intros a b. unfold key_le. lia. Qed.
#[export] Instance key_le_trans {A} (key : A → Z) : Transitive (key_le key).
Proof. intros a b c. unfold key_le. lia. Qed.

(** One implementation, to run the model with. *)
Definition go_sort_merge : GoSort := {|
  sort_slice := λ A key l, merge_sort (key_le key) l;
  sort_slice_perm := λ A key l, merge_sort_Permutation (key_le key) l;
  sort_slice_sorted := λ A key l, Sorted_merge_sort (key_le key) l
|}.

(** [out[i], out[j] = out[j], out[i]]. *)
Definition swap {A} (i j : nat) (l : list A) : list A :=
  match l !! i, l !! j with
  | Some a, Some b => <[j := a]> (<[i := b]> l)
  | _, _ => l
  end.
(** [rand.Shuffle]: i from n-1 down to 1, swapped with a random j ≤ i. *)
Fixpoint shuffle_from {A} (i : nat) (l : list A) : M (list A) :=
  match i with
  | O => ret l
  | S i' =>
      let! r := rand_int in
      shuffle_from i' (swap i (r mod (S i)) l)
  end.
Definition rand_Shuffle {A} (l : list A) : M (list A) :=
  shuffle_from (length l - 1) l.

(** ** Host capabilities *)

(** encoding/json matches an object key with a field name exactly or under
    case folding (ASCII here); a later key overwrites an earlier one. *)
Fixpoint fold_ascii (s : string) : string :=
  match s with
  | EmptyString => EmptyString
  | String c s' =>
      let n := Ascii.nat_of_ascii c in
      String (if (Nat.leb 65 n && Nat.leb n 90)%bool
              then Ascii.ascii_of_nat (n + 32) else c) (fold_ascii s')
  end.
Definition key_matches (field key : string) : bool :=
  String.eqb (fold_ascii key) field.

(** Decoding into [struct { ReflinkSupported bool }]; [null] leaves the field. *)
Fixpoint decode_reflink (cur : bool) (fs : list (string * json)) : res bool :=
  match fs with
  | [] => Ok cur
  | (k, v) :: fs' =>
      if key_matches "reflink_supported" k then
        match v with
        | JBool b => decode_reflink b fs'
        | JNull => decode_reflink cur fs'
        | _ => Err (ErrText "json: cannot unmarshal into bool")
        end
      else decode_reflink cur fs'
  end.
(** Decoding into a pointer to that struct; [null] sets it to nil. *)
Definition decode_storage (cur : option bool) (v : json) : res (option bool) :=
  match v with
  | JNull => Ok None
  | JObj fs =>
      match decode_reflink (default false cur) fs with
      | Ok b => Ok (Some b) | Err e => Err e
      end
  | _ => Err (ErrText "json: cannot unmarshal into struct")
  end.
(** Decoding the capabilities: (BrowserStorage, Storage). *)
Fixpoint decode_caps (cur : option bool * option bool) (fs : list (string * json))
    : res (option bool * option bool) :=
  match fs with
  | [] => Ok cur
  | (k, v) :: fs' =>
      if key_matches "browser_storage" k then
        match decode_storage cur.1 v with
        | Ok b => decode_caps (b, cur.2) fs' | Err e => Err e
        end
      else if key_matches "storage" k then
        match decode_storage cur.2 v with
        | Ok b => decode_caps (cur.1, b) fs' | Err e => Err e
        end
      else decode_caps cur fs'
  end.

Definition hostBrowserReflinkSupported (host : Host) : bool :=
  match Host_Capabilities host with
  | None => false
  | Some (JObj fs) =>
      match decode_caps (None, None) fs with
      | Err _ => false
      | Ok (Some b, _) => b
      | Ok (None, Some b) => b
      | Ok (None, None) => false
      end
  | Some _ => false
  end.

Definition validateHostPlacementEligibility (host : Host) (now : time) : res unit :=
  if negb (String.eqb (Host_Status host) "ready")
  then Err (ErrText "host is not ready")
  else if Host_MaintenanceMode host then Err (ErrText "host is in maintenance mode")
  else match Host_LastHeartbeat host with
       | None => Err (ErrText "host has no heartbeat")
       | Some hb =>
           if bool_decide (hb < now - hostPlacementHeartbeatMaxAge)
           then Err (ErrText "host heartbeat is stale") else Ok tt
       end.

(** ** The placement service *)

Section PlacementService.
  Context {go_sort : GoSort}.
  Variable config : PlacementConfig.

(** [diskMB := req.DiskMB; if diskMB == 0 { diskMB = ...DefaultDiskPerVM }]. *)
Definition request_disk (req : PlacementRequest) : Z :=
  if bool_decide (PlacementRequest_DiskMB req = 0)
  then PlacementConfig_DefaultDiskPerVM config else PlacementRequest_DiskMB req.
Definition request_region (req : PlacementRequest) : string :=
  if String.eqb (PlacementRequest_Region req) ""
  then PlacementConfig_DefaultRegion config else PlacementRequest_Region req.

Definition rank (hosts : list Host) : M (list Host) :=
  match PlacementConfig_Strategy config with
  | Random => rand_Shuffle hosts
  | Spread => ret (sort_slice Host_UsedMemoryMB hosts)
  | BinPack => ret (sort_slice (λ h, - Host_UsedMemoryMB h) hosts)
  end.

(** The loop of placeAutoSelect over the ranked hosts. *)
Fixpoint try_hosts (machineID : string) (req : PlacementRequest) (diskMB : Z)
    (ranked : list Host) : M (option Placement * Host * string) :=
  match ranked with
  | [] => fail (ErrWrap "all eligible hosts at capacity or contended" ErrNoEligibleHost)
  | host :: rest =>
      let! r := try (call (PlaceOnHost (Host_ID host) machineID
                  (PlacementRequest_VCPUs req) (PlacementRequest_MemoryMB req) diskMB)) in
      match r with
      | Err _ => try_hosts machineID req diskMB rest
      | Ok vmIP =>
          let! p := try (call (ReservePlacement machineID (Host_ID host) vmIP
                      (PlacementRequest_OperationID req))) in
          match p with
          | Err _ => ret (None, host, vmIP)
          | Ok placement => ret (Some placement, host, vmIP)
          end
      end
  end.

Definition placeAutoSelect (machineID : string) (req : PlacementRequest)
    : M (option Placement * Host * string) :=
  let diskMB := request_disk req in
  let region := request_region req in
  let! hosts := wrap "list eligible hosts" (call (ListEligibleHosts
    (mkHostFilter (PlacementRequest_VCPUs req) (PlacementRequest_MemoryMB req)
       diskMB region "" false))) in
  match hosts with
  | [] => fail (ErrWrap "in region" ErrNoEligibleHost)
  | _ =>
      let! ranked := rank hosts in
      try_hosts machineID req diskMB ranked
  end.

Definition placeOnSpecificHost (machineID : string) (req : PlacementRequest)
    : M (option Placement * Host * string) :=
  let diskMB := request_disk req in
  let hostID := PlacementRequest_TargetHostID req in
  let! vmIP := wrap "target host" (call (PlaceOnHost hostID machineID
    (PlacementRequest_VCPUs req) (PlacementRequest_MemoryMB req) diskMB)) in
  let! r := try (call (GetHost hostID)) in
  match r with
  | Err e =>
      (* Roll back capacity allocated by PlaceOnHost since we can't proceed. *)
      ignore (call (ReleaseHostCapacityWithDisk hostID
        (PlacementRequest_VCPUs req) (PlacementRequest_MemoryMB req) diskMB)) ;;
      fail (ErrWrap "get target host after placement" e)
  | Ok host =>
      let! p := try (call (ReservePlacement machineID hostID vmIP
                  (PlacementRequest_OperationID req))) in
      match p with
      | Err _ => ret (None, host, vmIP)
      | Ok placement => ret (Some placement, host, vmIP)
      end
  end.

Definition Reserve (machineID : string) (req : PlacementRequest)
    : M (option Placement * Host * string) :=
  if bool_decide (PlacementRequest_TargetHostID req = 0)
  then placeAutoSelect machineID req
  else placeOnSpecificHost machineID req.

(** The loop of ReserveBrowserVM over the ranked hosts. *)
Fixpoint try_browser_hosts (browserVMID : string) (req : PlacementRequest)
    (ranked : list Host) : M (Host * string) :=
  match ranked with
  | [] => fail (ErrText "all eligible hosts exhausted for browser VM")
  | host :: rest =>
      if PlacementRequest_RequireBrowserReflink req &&
         negb (hostBrowserReflinkSupported host)
      then try_browser_hosts browserVMID req rest
      else
        let! r := try (call (PlaceBrowserVMOnHost (Host_ID host) browserVMID
                    (PlacementRequest_VCPUs req) (PlacementRequest_MemoryMB req))) in
        match r with
        | Err _ => try_browser_hosts browserVMID req rest
        | Ok vmIP => ret (host, vmIP)
        end
  end.

Definition ReserveBrowserVM (browserVMID : string) (req : PlacementRequest)
    : M (Host * string) :=
  let hostID := PlacementRequest_TargetHostID req in
  if negb (bool_decide (hostID = 0)) then
    let! host := wrap "get target host before browser placement" (call (GetHost hostID)) in
    (if PlacementRequest_RequireBrowserReflink req &&
        negb (hostBrowserReflinkSupported host)
     then fail (ErrText "target host does not report reflink-capable browser storage")
     else ret tt) ;;
    let! vmIP := wrap "target host" (call (PlaceBrowserVMOnHost hostID browserVMID
      (PlacementRequest_VCPUs req) (PlacementRequest_MemoryMB req))) in
    let! r := try (call (GetHost hostID)) in
    match r with
    | Err e =>
        ignore (call (ReleaseBrowserVMPlacement browserVMID)) ;;
        fail (ErrWrap "get target host after browser placement" e)
    | Ok host => ret (host, vmIP)
    end
  else
    let! hosts := wrap "list eligible hosts" (call (ListEligibleHosts
      (mkHostFilter (PlacementRequest_VCPUs req) (PlacementRequest_MemoryMB req) 0
         (request_region req) "" (PlacementRequest_RequireBrowserReflink req)))) in
    match hosts with
    | [] => fail (ErrText "no eligible hosts for browser VM")
    | _ =>
        let! ranked := rank hosts in
        try_browser_hosts browserVMID req ranked
    end.

Definition Activate (placementID : string) : M unit :=
  let! ok := wrap "activate placement" (call (ActivatePlacement placementID)) in
  if ok then ret tt else fail (ErrText "placement not in reserved state").

(** Disk usage of a machine: its data volume and about 3 GB of rootfs. *)
Definition machine_disk (m : Machine) : Z :=
  if bool_decide (0 < Machine_DataVolumeGB m)
  then (Machine_DataVolumeGB m + 3) * 1024
  else PlacementConfig_DefaultDiskPerVM config.

Definition Release (machineID : string) (mode : ReleaseMode) : M unit :=
  let! machine := wrap "get machine" (call (GetMachine machineID)) in
  (* Release placement record *)
  ignore (call (ReleasePlacement machineID)) ;;
  match Machine_HostID machine with
  | None => ret tt
  | Some hostID =>
      let diskMB := machine_disk machine in
      match mode with
      | ReleaseSoft =>
          wrap "soft stop" (call (SoftStopMachine machineID hostID
            (Machine_VCPUs machine) (Machine_MemoryMB machine) diskMB)) ;;
          ignore (call (UpdateMachineHomeHost machineID (Machine_HostID machine)))
      | ReleaseHard =>
          wrap "release capacity" (call (ReleaseHostCapacityWithDisk hostID
            (Machine_VCPUs machine) (Machine_MemoryMB machine) diskMB)) ;;
          wrap "unassign" (call (UnassignMachineFromHost machineID)) ;;
          ignore (call (UpdateMachineHomeHost machineID None))
      end
  end.

Definition RecoverAffinity (machineID : string) (req : PlacementRequest)
    : M (option Placement * Host * string) :=
  let! machine := wrap "get machine" (call (GetMachine machineID)) in
  let homeHostID :=
    match Machine_HomeHostID machine with
    | Some h => Some h
    | None => Machine_HostID machine
    end in
  match homeHostID with
  | None => fail (ErrText "machine has no home host — cannot recover affinity")
  | Some home =>
      let! host := wrap "home host lookup failed" (call (GetHost home)) in
      let! t := gets (λ w, db_now (w_db w)) in
      wrap "home host is not eligible — migration required"
        (of_res (validateHostPlacementEligibility host t)) ;;
      let diskMB := request_disk req in
      let! vmIP := wrap "home host has insufficient capacity — migration required"
        (call (ReAllocateHostCapacity machineID (Host_ID host)
          (PlacementRequest_VCPUs req) (PlacementRequest_MemoryMB req) diskMB)) in
      let! p := try (call (ReservePlacement machineID (Host_ID host) vmIP
                  (PlacementRequest_OperationID req))) in
      match p with
      | Err _ => ret (None, host, vmIP)
      | Ok placement => ret (Some placement, host, vmIP)
      end
  end.

End PlacementService.
