(* ===== verification/FleetLemmas.v ===== *)
(** * Lemmas on the placement service *)

From S2P Require Import Prelude Schema HostStore PlacementStore OperationStore.
From S2P Require Import AccountStore StoreStep Scenario World Fleet.

(** ** Ranking *)

Lemma swap_perm {A} (i j : nat) (l : list A) : swap i j l ≡ₚ l.
Proof.
  unfold swap. destruct (l !! i) as [a|] eqn:Ei, (l !! j) as [b|] eqn:Ej; try done.
  by apply Permutation_insert_swap.
Qed.

(** A shuffle only consumes random numbers. *)
Lemma shuffle_from_run {A} i (l : list A) w :
  ∃ l' ints, shuffle_from i l w = (Ok l', w <| w_ints := ints |>) ∧ l' ≡ₚ l.
Proof.
  revert l w. induction i as [|i IH]; intros l w; cbn [shuffle_from].
  - exists l, (w_ints w). split; [by destruct w|done].
  - unfold bind, rand_int. destruct (w_ints w) as [|n ns] eqn:En.
    + destruct (IH (swap (S i) (0 mod S (S i)) l) w) as (l' & ints & -> & Hp).
      exists l', ints. split; [done|]. by rewrite Hp, swap_perm.
    + destruct (IH (swap (S i) (n mod S (S i)) l) (w <| w_ints := ns |>))
        as (l' & ints & -> & Hp).
      exists l', ints. split; [done|]. by rewrite Hp, swap_perm.
Qed.

Lemma Sorted_mono {A} (R1 R2 : relation A) l :
  (∀ a b, R1 a b → R2 a b) → Sorted R1 l → Sorted R2 l.
Proof.
  intros HR. induction 1 as [|a l _ IH Hd]; constructor; [done|].
  destruct Hd; constructor; auto.
Qed.

Lemma rank_run {go_sort : GoSort} config hosts w :
  ∃ ranked ints, rank config hosts w = (Ok ranked, w <| w_ints := ints |>) ∧
    ranked ≡ₚ hosts ∧
    match PlacementConfig_Strategy config with
    | Random => True
    | Spread => Sorted (key_le Host_UsedMemoryMB) ranked
    | BinPack => Sorted (key_ge Host_UsedMemoryMB) ranked
    end.
Proof.
  unfold rank. destruct (PlacementConfig_Strategy config).
  - destruct (shuffle_from_run (length hosts - 1) hosts w) as (l & ints & E & Hp).
    exists l, ints. done.
  - exists (sort_slice Host_UsedMemoryMB hosts), (w_ints w).
    split; [by destruct w|]. split; [apply sort_slice_perm|apply sort_slice_sorted].
  - exists (sort_slice (λ h, - Host_UsedMemoryMB h) hosts), (w_ints w).
    split; [by destruct w|]. split; [apply sort_slice_perm|].
    eapply Sorted_mono; [|apply sort_slice_sorted].
    unfold key_le, key_ge. lia.
Qed.

(** ** The placement loop *)

(** The effect of a placement: the placement transaction on the host, and the
    record of it unless recording failed. *)
Definition placed (id : string) (req : PlacementRequest) (d : Z)
    (out : option Placement * Host * string) (db db' : DB) : Prop :=
  let '(p, host, ip) := out in
  ∃ db1, PlaceOnHost (Host_ID host) id (PlacementRequest_VCPUs req)
           (PlacementRequest_MemoryMB req) d db = (Ok ip, db1) ∧
    match p with
    | None => db' = db1
    | Some pl => ReservePlacement id (Host_ID host) ip (PlacementRequest_OperationID req)
                   db1 = (Ok pl, db')
    end.

Lemma call_err_same {A} (q : Q A) w e w' :
  (∀ db e db', q db = (Err e, db') → db' = db) →
  call q w = (Err e, w') → w_db w' = w_db w.
Proof. intros Hq H. destruct (call_err _ _ _ _ H) as [?|[_ ?]]; [by eapply Hq|done]. Qed.

Lemma try_hosts_run id req d ranked w :
  let '(r, w') := try_hosts id req d ranked w in
  match r with
  | Err _ => w_db w' = w_db w
  | Ok (p, host, ip) => host ∈ ranked ∧ placed id req d (p, host, ip) (w_db w) (w_db w')
  end.
Proof.
  revert w. induction ranked as [|host rest IH]; intros w; cbn [try_hosts]; [done|].
  rewrite bind_try. destruct (call (PlaceOnHost _ _ _ _ _) w) as [[ip|e] w1] eqn:E1; cbn.
  - apply call_ok in E1. rewrite bind_try.
    destruct (call (ReservePlacement _ _ _ _) w1) as [[p|e] w2] eqn:E2; cbn.
    + split; [apply list_elem_of_here|]. exists (w_db w1). split; [done|].
      by apply call_ok in E2.
    + split; [apply list_elem_of_here|]. exists (w_db w1). split; [done|].
      eapply call_err_same; [|exact E2]. apply ReservePlacement_err.
  - assert (w_db w1 = w_db w) as Ed by (eapply call_err_same; [|exact E1]; apply PlaceOnHost_err).
    specialize (IH w1). rewrite Ed in IH.
    destruct (try_hosts id req d rest w1) as [[[[p h] ip]|e'] w2]; [|done].
    destruct IH as [? ?]. split; [by apply list_elem_of_further|done].
Qed.

(** Without faults the loop fails only when every host refuses. *)
Lemma try_hosts_none id req d ranked w e w' :
  fault_free w → try_hosts id req d ranked w = (Err e, w') →
  errors_is e ErrNoEligibleHost = true ∧
  ∀ host, host ∈ ranked → ∃ e', PlaceOnHost (Host_ID host) id (PlacementRequest_VCPUs req)
    (PlacementRequest_MemoryMB req) d (w_db w) = (Err e', w_db w).
Proof.
  revert w. induction ranked as [|host rest IH]; intros w Hf; cbn [try_hosts].
  - intros [= <- _]. split; [done|]. intros host. by rewrite elem_of_nil.
  - rewrite bind_try, call_free by done.
    destruct (PlaceOnHost _ _ _ _ _ (w_db w)) as [[ip|e1] db1] eqn:E1; cbn.
    + rewrite bind_try. by destruct (call _ _) as [[] ?].
    + pose proof (PlaceOnHost_err _ _ _ _ _ _ _ _ E1) as ->.
      intros H. apply IH in H as [He Hr]; [|done]. cbn in Hr.
      split; [done|]. intros h. rewrite elem_of_cons. intros [->|?]; eauto.
Qed.

(** ** Automatic selection *)

(** The hosts the query returns. *)
Definition eligible_hosts (f : HostFilter) (db : DB) : list Host :=
  host_row db <$> select (eligible (db_now db) f) (db_hosts db).

Lemma ListEligibleHosts_run f db : ListEligibleHosts f db = (Ok (eligible_hosts f db), db).
Proof. done. Qed.

Lemma elem_of_eligible_hosts f db host :
  host ∈ eligible_hosts f db ↔
  ∃ id h, db_hosts db !! id = Some h ∧ eligible (db_now db) f h = true ∧ host = host_row db h.
Proof.
  unfold eligible_hosts. rewrite list_elem_of_fmap. setoid_rewrite elem_of_select.
  naive_solver.
Qed.

(** The query's filter without image and reflink is the placement's admission
    check and the region. *)
Lemma eligible_placeable t v m d region h :
  eligible t (mkHostFilter v m d region "" false) h =
  placeable t v m d h && (String.eqb region "" || String.eqb (Host_Region h) region).
Proof. unfold eligible, placeable. cbn. by rewrite andb_true_r. Qed.

(** The hosts automatic selection chooses from. *)
Definition candidate_hosts (config : PlacementConfig) (req : PlacementRequest) (db : DB)
    : list Host :=
  eligible_hosts (mkHostFilter (PlacementRequest_VCPUs req) (PlacementRequest_MemoryMB req)
    (request_disk config req) (request_region config req) "" false) db.

Section AutoSelect.
Context {go_sort : GoSort} (config : PlacementConfig) (id : string) (req : PlacementRequest).

Lemma placeAutoSelect_unfold w :
  placeAutoSelect config id req w =
  match call (ListEligibleHosts (mkHostFilter (PlacementRequest_VCPUs req)
          (PlacementRequest_MemoryMB req) (request_disk config req)
          (request_region config req) "" false)) w with
  | (Ok hosts, w1) =>
      match hosts with
      | [] => (Err (ErrWrap "in region" ErrNoEligibleHost), w1)
      | _ => match rank config hosts w1 with
             | (Ok ranked, w2) => try_hosts id req (request_disk config req) ranked w2
             | (Err e, w2) => (Err e, w2)
             end
      end
  | (Err e, w1) => (Err (ErrWrap "list eligible hosts" e), w1)
  end.
Proof.
  unfold placeAutoSelect, bind, wrap. destruct (call _ w) as [[[|h hs]|e] w1]; try done.
Qed.

Lemma placeAutoSelect_run w :
  let '(r, w') := placeAutoSelect config id req w in
  match r with
  | Err _ => w_db w' = w_db w
  | Ok (p, host, ip) => host ∈ candidate_hosts config req (w_db w) ∧
      placed id req (request_disk config req) (p, host, ip) (w_db w) (w_db w')
  end.
Proof.
  rewrite placeAutoSelect_unfold. unfold candidate_hosts.
  destruct (call (ListEligibleHosts _) w) as [[hs|e] w1] eqn:E1.
  - apply call_ok in E1. rewrite ListEligibleHosts_run in E1. injection E1 as -> Ed.
    destruct (rank_run config hs w1) as (ranked & ints & -> & Hp & _).
    destruct hs as [|h hs]; [done|].
    pose proof (try_hosts_run id req (request_disk config req) ranked
      (w1 <| w_ints := ints |>)) as Ht.
    destruct (try_hosts _ _ _ _ _) as [[[[p h'] ip]|e] w2]; cbn [w_db set] in Ht;
      [|by rewrite Ht].
    destruct Ht as [Hin Ht]. rewrite Hp in Hin. split; [done|]. by rewrite Ed.
  - eapply call_err_same; [|exact E1]. intros db e' db'. by rewrite ListEligibleHosts_run.
Qed.

(** Without faults, selection fails only when every eligible host refuses. *)
Lemma placeAutoSelect_none w e w' :
  fault_free w → placeAutoSelect config id req w = (Err e, w') →
  errors_is e ErrNoEligibleHost = true ∧
  ∀ host, host ∈ candidate_hosts config req (w_db w) →
    ∃ e', PlaceOnHost (Host_ID host) id (PlacementRequest_VCPUs req)
            (PlacementRequest_MemoryMB req) (request_disk config req) (w_db w) =
          (Err e', w_db w).
Proof.
  intros Hf. rewrite placeAutoSelect_unfold, call_free, ListEligibleHosts_run by done.
  unfold candidate_hosts. cbn [fst snd].
  destruct (eligible_hosts _ _) as [|h hs].
  { intros [= <- _]. split; [done|]. intros host. by rewrite elem_of_nil. }
  destruct (rank_run config (h :: hs) (w <| w_db := w_db w |>))
    as (ranked & ints & -> & Hp & _).
  intros [He Hr]%try_hosts_none; [|done]. split; [done|].
  intros host Hin. apply (Hr host). by rewrite Hp.
Qed.
End AutoSelect.

(** ** Reserve *)

Lemma GetHost_ok id db h db' :
  GetHost id db = (Ok h, db') ↔
  ∃ h0, db_hosts db !! id = Some h0 ∧ h = host_row db h0 ∧ db' = db.
Proof.
  unfold GetHost, bind, get, query_row, of_res. cbn.
  destruct (db_hosts db !! id); cbn; naive_solver.
Qed.
Lemma GetHost_db id db : (GetHost id db).2 = db.
Proof. unfold GetHost, bind, get, query_row, of_res. by destruct (db_hosts db !! id). Qed.
Lemma GetMachine_run id db :
  GetMachine id db = (match db_machines db !! id with Some m => Ok m | None => Err ErrNoRows end, db).
Proof. unfold GetMachine, bind, get, query_row, of_res. by destruct (db_machines db !! id). Qed.
Lemma GetMachine_db id db : (GetMachine id db).2 = db.
Proof. by rewrite GetMachine_run. Qed.

Lemma Reserve_placed {go_sort : GoSort} config id req w p host ip w' :
  keyed Host_ID (db_hosts (w_db w)) →
  Reserve config id req w = (Ok (p, host, ip), w') →
  placed id req (request_disk config req) (p, host, ip) (w_db w) (w_db w').
Proof.
  intros Hk. unfold Reserve. case_bool_decide.
  { intros E. pose proof (placeAutoSelect_run config id req w) as H'. rewrite E in H'.
    apply H'. }
  unfold placeOnSpecificHost. rewrite bind_ok. intros (ip' & w1 & E1 & E).
  rewrite wrap_ok in E1. apply call_ok in E1. rewrite bind_try in E.
  destruct (call (GetHost _) w1) as [[h|e] w2] eqn:E2; cbn in E.
  2:{ discriminate E. }
  apply call_ok, GetHost_ok in E2 as (h0 & Hh0 & -> & Ed). rewrite bind_try in E.
  assert (Host_ID (host_row (w_db w1) h0) = PlacementRequest_TargetHostID req) as Eid.
  { cbn. rewrite PlaceOnHost_run in E1.
    destruct (db_hosts (w_db w) !! _) as [h|] eqn:Eh; [|done].
    destruct (placeable _ _ _ _ _); [|done]. destruct (first_free_ip _ _ _); [|done].
    injection E1 as _ Ew. rewrite <-Ew in Hh0. cbn in Hh0.
    rewrite lookup_alter_eq, Eh in Hh0. injection Hh0 as <-. apply (Hk _ _ Eh). }
  destruct (call (ReservePlacement _ _ _ _) w2) as [[pl|e] w3] eqn:E3;
    unfold ret in E; injection E as <- <- <- <-.
  - exists (w_db w1). cbn in Eid |- *. rewrite Eid. split; [done|]. apply call_ok in E3. by rewrite <-Ed.
  - exists (w_db w1). cbn in Eid |- *. rewrite Eid. split; [done|].
    transitivity (w_db w2); [|done]. eapply call_err_same; [|exact E3]. apply ReservePlacement_err.
Qed.

(** What is left after a hard release: the counters freed, the machine without
    a place and its placement records released. *)
Lemma Release_hard_run config id w r hid :
  fault_free w → db_machines (w_db w) !! id = Some r → Machine_HostID r = Some hid →
  let db := w_db w in
  let t := db_now db in
  Release config id ReleaseHard w = (Ok tt, w <| w_db :=
    db <| db_placements ::= update_where
            (λ p, String.eqb (Placement_MachineID p) id && placement_active p)
            (placement_release t) |>
       <| db_hosts ::= alter (host_free (Machine_VCPUs r) (Machine_MemoryMB r)
            (machine_disk config r)) hid |>
       <| db_machines ::= alter (machine_unassign t) id |>
       <| db_machines ::= alter (λ m, m <| Machine_HomeHostID := None |>) id |> |>).
Proof.
  destruct w as [db0 fs kv tr rnd ints]. cbn. intros -> Hr Hh.
  unfold Release, GetMachine, query_row, of_res, get, wrap, ignore, call, pop_fault, ret, bind. cbn.
  rewrite Hr. cbn. rewrite Hh. done.
Qed.
(** What is left after a soft release: the machine keeps its place, which becomes
    its home. *)
Lemma Release_soft_run config id w r hid :
  fault_free w → db_machines (w_db w) !! id = Some r → Machine_HostID r = Some hid →
  let db := w_db w in
  let t := db_now db in
  Release config id ReleaseSoft w = (Ok tt, w <| w_db := (UpdateMachineHomeHost id (Some hid)
    (db <| db_placements ::= update_where
             (λ p, String.eqb (Placement_MachineID p) id && placement_active p)
             (placement_release t) |>
        <| db_hosts ::= alter (host_free_cpu (Machine_VCPUs r) (Machine_MemoryMB r)) hid |>
        <| db_machines ::= alter (λ m, m <| Machine_Status := "stopped"%string |>
             <| Machine_StoppedAt := Some t |>) id |>)).2 |>).
Proof.
  destruct w as [db0 fs kv tr rnd ints]. cbn -[UpdateMachineHomeHost]. intros -> Hr Hh.
  unfold Release, GetMachine, query_row, of_res, get, wrap, ignore, call, pop_fault, ret, bind.
  cbn -[UpdateMachineHomeHost]. rewrite Hr. cbn -[UpdateMachineHomeHost].
  rewrite Hh. cbn -[UpdateMachineHomeHost]. by destruct (UpdateMachineHomeHost _ _ _).
Qed.

(** Setting the home host writes nothing else. *)
Lemma UpdateMachineHomeHost_frame id home db :
  let db' := (UpdateMachineHomeHost id home db).2 in
  db_hosts db' = db_hosts db ∧ db_operations db' = db_operations db ∧
  db_placements db' = db_placements db ∧
  ∀ id', (λ m, (Machine_Status m, Machine_HostID m, Machine_VMIP m)) <$> db_machines db' !! id' =
         (λ m, (Machine_Status m, Machine_HostID m, Machine_VMIP m)) <$> db_machines db !! id'.
Proof.
  unfold UpdateMachineHomeHost, bind, get, references, update_machine, modify, ret, fail.
  cbn. destruct (match home with Some h => _ | None => true end); cbn; [|done].
  repeat split; try done. intros id'. rewrite lookup_alter. case_decide; [subst|done].
  by destruct (db_machines db !! id').
Qed.

Lemma released_none id t (ps : gmap string Placement) pid p :
  update_where (λ p, String.eqb (Placement_MachineID p) id && placement_active p)
    (placement_release t) ps !! pid = Some p →
  Placement_MachineID p = id → Placement_ReleasedAt p ≠ None.
Proof.
  rewrite lookup_update_where. intros (p0 & _ & ->)%fmap_Some_1.
  destruct (_ && _) eqn:Ea; [done|]. intros Hid. rewrite Hid, String.eqb_refl in Ea.
  cbn in Ea. unfold placement_active in Ea. by apply bool_decide_eq_false in Ea.
Qed.

(** Both releases, for a machine that has a host. *)
Definition release_frees (config : PlacementConfig) (mode : ReleaseMode) (m : Machine)
    : Host → Host :=
  match mode with
  | ReleaseSoft => host_free_cpu (Machine_VCPUs m) (Machine_MemoryMB m)
  | ReleaseHard => host_free (Machine_VCPUs m) (Machine_MemoryMB m) (machine_disk config m)
  end.
Lemma Release_frees config id mode w m hid :
  fault_free w → db_machines (w_db w) !! id = Some m → Machine_HostID m = Some hid →
  let '(r, w') := Release config id mode w in
  r = Ok tt ∧ fault_free w' ∧
  db_operations (w_db w') = db_operations (w_db w) ∧
  db_hosts (w_db w') = alter (release_frees config mode m) hid (db_hosts (w_db w)) ∧
  (∃ m', db_machines (w_db w') !! id = Some m' ∧ Machine_Status m' = "stopped"%string ∧
     match mode with
     | ReleaseSoft => Machine_HostID m' = Some hid ∧ Machine_VMIP m' = Machine_VMIP m
     | ReleaseHard => Machine_HostID m' = None ∧ Machine_VMIP m' = None
     end) ∧
  ∀ pid p, db_placements (w_db w') !! pid = Some p → Placement_MachineID p = id →
    Placement_ReleasedAt p ≠ None.
Proof.
  intros Hf Hm Hh. destruct mode.
  - rewrite (Release_soft_run config id w m hid Hf Hm Hh).
    match goal with |- context [UpdateMachineHomeHost id (Some hid) ?d] =>
      pose proof (UpdateMachineHomeHost_frame id (Some hid) d) as (Eh & Eo & Ep & Em) end.
    cbn -[UpdateMachineHomeHost] in *. rewrite Eh, Eo, Ep. specialize (Em id).
    rewrite lookup_alter_eq, Hm in Em. cbn -[UpdateMachineHomeHost] in Em.
    split; [done|]. split; [done|]. split; [done|]. split; [done|].
    split; [|intros pid p; apply released_none].
    apply fmap_Some in Em as (m' & Hm' & [= Es Ehh Ei]). exists m'. by rewrite <-Es, <-Ehh, <-Ei.
  - rewrite (Release_hard_run config id w m hid Hf Hm Hh). cbn.
    split; [done|]. split; [done|]. split; [done|]. split; [done|].
    split; [|intros pid p; apply released_none].
    rewrite !lookup_alter_eq, Hm. cbn. eexists. split; [reflexivity|]. done.
Qed.

(** ** Affinity recovery *)

Lemma RecoverAffinity_run (config : PlacementConfig) (id : string)
    (req : PlacementRequest) (w : World) :
  keyed Host_ID (db_hosts (w_db w)) →
  let '(r, w') := RecoverAffinity config id req w in
  match r with
  | Err _ => w_db w' = w_db w
  | Ok (p, host, ip) =>
      ∃ r home h, db_machines (w_db w) !! id = Some r ∧
        (Machine_HomeHostID r = Some home ∨
         Machine_HomeHostID r = None ∧ Machine_HostID r = Some home) ∧
        db_hosts (w_db w) !! home = Some h ∧ host = host_row (w_db w) h ∧
        restartable (db_now (w_db w)) (PlacementRequest_VCPUs req)
          (PlacementRequest_MemoryMB req) h = true ∧
        (∀ old, Machine_VMIP r = Some old → old ≠ ""%string → ip = old) ∧
        ∃ r', db_machines (w_db w') !! id = Some r' ∧
          Machine_HostID r' = Some (Host_ID host) ∧ Machine_VMIP r' = Some ip
  end.
Proof.
  intros Hk. unfold RecoverAffinity, bind at 1, wrap at 1.
  destruct (call (GetMachine id) w) as [[r|e] w1] eqn:E1.
  2:{ eapply call_err_same; [|exact E1]. intros ? ? ?. rewrite GetMachine_run. by intros [= _ <-]. }
  apply call_ok in E1. rewrite GetMachine_run in E1.
  destruct (db_machines (w_db w) !! id) as [r0|] eqn:Er; [|done]. injection E1 as -> Ed1.
  destruct (match Machine_HomeHostID r with Some h => Some h | None => Machine_HostID r end)
    as [home|] eqn:Ehome; [|done].
  unfold bind at 1, wrap at 1.
  destruct (call (GetHost home) w1) as [[host|e] w2] eqn:E2.
  2:{ rewrite Ed1. eapply call_err_same; [|exact E2]. intros db ? ? Hg.
      by rewrite <-(GetHost_db home db), Hg. }
  apply call_ok, GetHost_ok in E2 as (h & Hh & -> & Ed2).
  rewrite bind_gets. unfold bind at 1, wrap at 1, of_res.
  destruct (validateHostPlacementEligibility _ _) as [u|e]; [|congruence].
  unfold bind at 1, wrap at 1.
  destruct (call (ReAllocateHostCapacity _ _ _ _ _) w2) as [[ip|e] w3] eqn:E3.
  2:{ rewrite Ed1, <-Ed2. eapply call_err_same; [|exact E3]. intros ? ? ?. apply tx_err. }
  apply call_ok, ReAllocate_ok in E3 as (h' & r' & Hh' & Hr' & Hok & Hip & Ew3).
  rewrite bind_try.
  assert (db_machines (w_db (call (ReservePlacement id (Host_ID (host_row (w_db w1) h)) ip
    (PlacementRequest_OperationID req)) w3).2) = db_machines (w_db w3)) as Em.
  { destruct (call _ w3) as [[p|e] w4] eqn:E4; cbn [snd].
    - by apply call_ok, ReservePlacement_ok in E4 as (_&_&_&_&_&_&->).
    - by rewrite (call_err_same _ _ _ _ (ReservePlacement_err _ _ _ _) E4). }
  destruct (call (ReservePlacement _ _ _ _) w3) as [[p|e] w4]; cbn [fst snd] in *.
  all: exists r, home, h.
  all: rewrite Ed2, <-Ed1 in *; cbn in Hh'; rewrite (Hk _ _ Hh) in *.
  all: assert (h' = h) as -> by congruence.
  all: assert (r' = r) as -> by congruence.
  all: split; [done|]; split; [destruct (Machine_HomeHostID r); naive_solver|].
  all: split; [done|]; split; [done|]; split; [done|].
  all: split; [intros old Ho Hne; unfold restart_ip in Hip; rewrite Ho in Hip; cbn in Hip;
    rewrite (proj2 (String.eqb_neq _ _) Hne) in Hip; congruence|].
  all: rewrite Em, Ew3; cbn; rewrite lookup_alter_eq, Er; eexists; split; [reflexivity|].
  all: cbn; by rewrite (Hk _ _ Hh).
Qed.

(** ** A service to run *)

Definition world (db : DB) : World := mkWorld db [] ∅ [] [] [].
Definition config0 : PlacementConfig := mkPlacementConfig "us-central1" "" Spread 8192.
Definition request0 : PlacementRequest := mkPlacementRequest 2 4096 0 "" "" "" 0 false.
