(* ===== verification/FleetSpec.v ===== *)
(** * What the placement service guarantees

    Theorems on fleet/placement.go, under any faults of its calls where nothing
    else is said. *)

From S2P Require Import Prelude Schema HostStore PlacementStore OperationStore.
From S2P Require Import AccountStore StoreStep TableInv RecordInv Scenario World Fleet.
From S2P Require Import FleetLemmas.

(** C6: automatic selection is all or nothing: whatever calls fail, an error
    leaves the database as it was, and a success is one placement transaction on
    a host the eligibility query returned, followed by the record of it (or by
    nothing, when recording it failed). *)
Theorem auto_select_atomic {go_sort : GoSort} (config : PlacementConfig) (id : string)
    (req : PlacementRequest) (w : World) :
  let '(r, w') := placeAutoSelect config id req w in
  match r with
  | Err _ => w_db w' = w_db w
  | Ok (p, host, ip) =>
      (∃ hid h, db_hosts (w_db w) !! hid = Some h ∧ host = host_row (w_db w) h ∧
         placeable (db_now (w_db w)) (PlacementRequest_VCPUs req)
           (PlacementRequest_MemoryMB req) (request_disk config req) h = true ∧
         (request_region config req = "" ∨ Host_Region h = request_region config req)%string) ∧
      ∃ db1, PlaceOnHost (Host_ID host) id (PlacementRequest_VCPUs req)
               (PlacementRequest_MemoryMB req) (request_disk config req) (w_db w) = (Ok ip, db1) ∧
        match p with
        | None => w_db w' = db1
        | Some pl => ReservePlacement id (Host_ID host) ip (PlacementRequest_OperationID req)
                       db1 = (Ok pl, w_db w')
        end
  end.
Proof.
  pose proof (placeAutoSelect_run config id req w) as H.
  destruct (placeAutoSelect config id req w) as [[[[p host] ip]|e] w']; [|done].
  destruct H as [(hid & h & Hh & He & ->)%elem_of_eligible_hosts Hp]. split; [|done].
  exists hid, h. rewrite eligible_placeable, andb_true_iff, orb_true_iff, !String.eqb_eq in He.
  tauto.
Qed.

(** C5: automatic selection is complete: without faults it succeeds exactly when
    some host in the region passes the admission check and has a free address;
    ranking, shuffling and the order of the attempts never lose a placement. *)
Theorem auto_select_complete {go_sort : GoSort} (config : PlacementConfig) (id : string)
    (req : PlacementRequest) (w : World) :
  fault_free w → keyed Host_ID (db_hosts (w_db w)) →
  is_ok (placeAutoSelect config id req w).1 = true ↔
  ∃ hid h, db_hosts (w_db w) !! hid = Some h ∧
    placeable (db_now (w_db w)) (PlacementRequest_VCPUs req)
      (PlacementRequest_MemoryMB req) (request_disk config req) h = true ∧
    (request_region config req = "" ∨ Host_Region h = request_region config req)%string ∧
    ∃ n, (10 ≤ n ≤ 250)%nat ∧ vm_ip_of n ∉ machine_ips (w_db w) hid.
Proof.
  intros Hf Hk. split.
  - pose proof (placeAutoSelect_run config id req w) as H.
    destruct (placeAutoSelect config id req w) as [[[[p host] ip]|e] w']; [intros _|done].
    destruct H as [(hid & h & Hh & He & ->)%elem_of_eligible_hosts (db1 & Hp & _)].
    exists hid, h. rewrite eligible_placeable, andb_true_iff, orb_true_iff, !String.eqb_eq in He.
    destruct He. split; [done|]. split; [done|]. split; [tauto|].
    rewrite PlaceOnHost_run in Hp. cbn in Hp. rewrite (Hk _ _ Hh), Hh in Hp.
    destruct (placeable _ _ _ _ _); [|done].
    destruct (first_free_ip _ _ _) as [ip'|] eqn:Ei; [|done].
    apply first_free_ip_some in Ei as [Hfree (n & Hn & ->)]. eauto.
  - intros (hid & h & Hh & Hp & Hr & n & Hn & Hfree).
    destruct (placeAutoSelect config id req w) as [[?|e] w'] eqn:E; [done|].
    apply placeAutoSelect_none in E as [_ Hall]; [|done].
    destruct (Hall (host_row (w_db w) h)) as [e' He'].
    { apply elem_of_eligible_hosts. exists hid, h.
      split; [done|]. split; [|done]. rewrite eligible_placeable, Hp. apply orb_true_iff.
      by rewrite !String.eqb_eq. }
    rewrite PlaceOnHost_run in He'. cbn in He'. rewrite (Hk _ _ Hh), Hh, Hp in He'.
    destruct (first_free_ip _ _ _) eqn:Ei; [done|].
    by destruct Hfree; apply first_free_ip_none with 10%nat 250%nat.
Qed.

Lemma auto_select_complete_witness :
  is_ok (placeAutoSelect (go_sort:=go_sort_merge) config0 "id-5" request0 (world db_placed)).1 = true.
Proof.
  eapply (proj2 (auto_select_complete (go_sort:=go_sort_merge) config0 "id-5" request0
    (world db_placed) eq_refl (proj1 (reachable_keyed _ db_placed_reachable)))).
  eexists 2, _. split; [vm_compute; reflexivity|]. split; [vm_compute; reflexivity|].
  split; [right; vm_compute; reflexivity|].
  exists 11%nat. split; [lia|]. apply (bool_decide_unpack _). vm_compute. exact I.
Defined.

(** Ranking loses no host and invents none, and orders as the strategy
    says: least loaded first for Spread, most loaded first for BinPack, a
    permutation drawn from the random source for Random. *)
Lemma rank_permutes {go_sort : GoSort} (config : PlacementConfig) (hosts : list Host) (w : World) :
  ∃ ranked ints, rank config hosts w = (Ok ranked, w <| w_ints := ints |>) ∧
    ranked ≡ₚ hosts ∧
    match PlacementConfig_Strategy config with
    | Random => True
    | Spread => Sorted (key_le Host_UsedMemoryMB) ranked
    | BinPack => Sorted (key_ge Host_UsedMemoryMB) ranked
    end.
Proof. apply rank_run. Qed.



(** Affinity recovery keeps the machine where it was: whatever calls fail, an
    error leaves the database as it was; a success is on the machine's recorded
    home host (or its current one), which was eligible, and keeps the machine's
    address when it has one. *)
Lemma recover_affinity_keeps_home (config : PlacementConfig) (id : string)
    (req : PlacementRequest) (w : World) :
  keyed Host_ID (db_hosts (w_db w)) →
  let '(r, w') := RecoverAffinity config id req w in
  match r with
  | Err _ => w_db w' = w_db w
  | Ok (p, host, ip) =>
      ∃ r home h, db_machines (w_db w) !! id = Some r ∧
        (Machine_HomeHostID r = Some home ∨
         Machine_HomeHostID r = None ∧ Machine_HostID r = Some home) ∧
        db_hosts (w_db w) !! home = Some h ∧ host = host_row (w_db w) h ∧
        restartable (db_now (w_db w)) (PlacementRequest_VCPUs req)
          (PlacementRequest_MemoryMB req) h = true ∧
        (∀ old, Machine_VMIP r = Some old → old ≠ ""%string → ip = old) ∧
        ∃ r', db_machines (w_db w') !! id = Some r' ∧
          Machine_HostID r' = Some (Host_ID host) ∧ Machine_VMIP r' = Some ip
  end.
Proof. apply RecoverAffinity_run. Qed.

Lemma recover_affinity_keeps_home_witness :
  let w := world (exec (OpSoftStopMachine "id-4" 2 2 4096 8192) db_placed).2 in
  ∃ p host ip w', RecoverAffinity config0 "id-4" request0 w = (Ok (p, host, ip), w') ∧
    ∃ r', db_machines (w_db w') !! "id-4"%string = Some r' ∧
      Machine_HostID r' = Some (Host_ID host) ∧ Machine_VMIP r' = Some ip.
Proof.
  intros w.
  pose proof (recover_affinity_keeps_home config0 "id-4" request0 w
    (proj1 (reachable_keyed _ (reachable_exec
      (OpSoftStopMachine "id-4" 2 2 4096 8192) _ db_placed_reachable ltac:(cbn; lia))))) as H.
  assert (is_ok (RecoverAffinity config0 "id-4" request0 w).1 = true) as Hok
    by (vm_compute; reflexivity).
  destruct (RecoverAffinity config0 "id-4" request0 w) as [[[[p host] ip]|e] w'];
    [|discriminate Hok].
  exists p, host, ip, w'. split; [reflexivity|].
  destruct H as (r & home & h & _ & _ & _ & _ & _ & _ & H). exact H.
Defined.

(** The roll-back of a placement on a requested host is incomplete: when the
    host cannot be read back, the counters are freed but the machine keeps the
    host, the address and the status provisioning, with no placement record. *)
Lemma specific_host_rollback_leaves_machine :
  ∃ w, reachable (w_db w) ∧
    let '(r, w') := placeOnSpecificHost config0 "id-5"
      (request0 <| PlacementRequest_TargetHostID := 2 |>) w in
    is_ok r = false ∧ db_hosts (w_db w') = db_hosts (w_db w) ∧
    db_placements (w_db w') = db_placements (w_db w) ∧
    (Machine_HostID <$> db_machines (w_db w) !! "id-5"%string) = Some None ∧
    (Machine_HostID <$> db_machines (w_db w') !! "id-5"%string) = Some (Some 2) ∧
    (Machine_Status <$> db_machines (w_db w') !! "id-5"%string) = Some "provisioning"%string.
Proof.
  exists ((world db_setup) <| w_faults := [false; true] |>).
  split; [apply db_setup_reachable|].
  vm_compute. repeat split.
Qed.

(** The Go check RecoverAffinity makes on the home host and the WHERE clause
    that locks it for the re-allocation agree on every host with room but in one
    case: a last heartbeat exactly 180 seconds old, which Go accepts and SQL
    refuses. *)
Lemma affinity_checks_agree (h : Host) (t : time) (v m : Z) :
  room_vcpus v h = true → room_memory m h = true →
  restartable t v m h = true ↔
  validateHostPlacementEligibility h t = Ok tt ∧
  Host_LastHeartbeat h ≠ Some (t - hostPlacementHeartbeatMaxAge).
Proof.
  intros Hv Hm. unfold restartable, validateHostPlacementEligibility, fresh_heartbeat,
    hostPlacementHeartbeatMaxAge. rewrite Hv, Hm.
  destruct (String.eqb (Host_Status h) "ready"), (Host_MaintenanceMode h); cbn;
    try (split; [done|by intros [? _]]).
  destruct (Host_LastHeartbeat h) as [hb|]; cbn; [|split; [done|by intros [? _]]].
  destruct (bool_decide_reflect (t - seconds 180 < hb)),
    (bool_decide_reflect (hb < t - seconds 180)); cbn; try lia.
  - split; [|done]. intros _. split; [done|]. intros [=]. lia.
  - split; [done|by intros [? _]].
  - split; [done|]. intros [_ Hne]. destruct Hne. f_equal. lia.
Qed.

Lemma affinity_checks_agree_witness :
  let h := blank_host <| Host_Status := "ready"%string |>
                      <| Host_LastHeartbeat := Some (seconds 820) |> in
  validateHostPlacementEligibility h (seconds 1000) = Ok tt ∧
  restartable (seconds 1000) 2 4096 h = false.
Proof.
  intros h. split; [vm_compute; reflexivity|].
  apply not_true_is_false. intros H.
  apply (affinity_checks_agree h (seconds 1000) 2 4096 eq_refl eq_refl) in H as [_ H].
  apply H. vm_compute. reflexivity.
Defined.
