(* ===== verification/Versions.v ===== *)
(** * Version selection

    machines/version_resolver.go (which rootfs and runtime version a start
    uses), openclawver/openclawver.go (the version strings), store/compat.go
    (the rootfs a release needs) and the machine kinds of store/store.go. *)

From S2P Require Import Prelude Schema GoStrings.

(** ** Machine kinds *)

Definition MachineKindOpenClaw : string := "openclaw".
Definition MachineKindHermes : string := "hermes".

Definition NormalizeMachineKind (kind : string) : string :=
  if String.eqb kind "" then MachineKindOpenClaw else kind.
Definition ValidMachineKind (kind : string) : bool :=
  one_of [MachineKindOpenClaw; MachineKindHermes] (NormalizeMachineKind kind).

Definition rootfsArtifactKind (machineKind : string) : string :=
  if String.eqb (NormalizeMachineKind machineKind) MachineKindHermes
  then "hermes-rootfs" else "rootfs".
Definition runtimeArtifactKind (machineKind : string) : string :=
  if String.eqb (NormalizeMachineKind machineKind) MachineKindHermes
  then "hermes" else "openclaw".

(** ** Version strings *)

(** [Parse]: the (year, month) of "2026.6.5", "v2026.6.5-r1", ...; [None] is
    ok = false. *)
Definition Parse (version : string) : option (Z * Z) :=
  let v := TrimPrefix (TrimSpace version) "v" in
  let v := cut_any (λ c, Ascii.eqb c "-" || Ascii.eqb c "+") v in
  match Split "." v with
  | y :: m :: _ =>
      match Atoi y with
      | Some year =>
          if bool_decide (year < 2000) then None
          else match Atoi m with
               | Some month =>
                   if bool_decide (month < 1) || bool_decide (12 < month) then None
                   else Some (year, month)
               | None => None
               end
      | None => None
      end
  | _ => None
  end.

(** [AtLeast]: (atLeast, ok). *)
Definition AtLeast (version : string) (wantYear wantMonth : Z) : bool * bool :=
  match Parse version with
  | None => (false, false)
  | Some (year, month) =>
      if negb (bool_decide (year = wantYear)) then (bool_decide (wantYear < year), true)
      else (bool_decide (wantMonth ≤ month), true)
  end.

(** ** The rootfs a release needs *)

Record IncompatibleRootfsError : Type := mkIncompatibleRootfsError {
  IncompatibleRootfsError_OpenclawVersion : string;
  IncompatibleRootfsError_MinRootfsVersion : string;
  IncompatibleRootfsError_CurrentRootfsVersion : string
}.

Definition CheckOpenClawRootfsCompat (release : option ArtifactRelease)
    (currentRootfsVersion : string) (minRootfsCreatedAt currentRootfsCreatedAt : time)
    : option IncompatibleRootfsError :=
  match release with
  | None => None
  | Some r =>
      match ArtifactRelease_MinRootfsVersion r with
      | None => None
      | Some min =>
          if String.eqb currentRootfsVersion "" || String.eqb currentRootfsVersion min
          then None
          else if bool_decide (currentRootfsCreatedAt < minRootfsCreatedAt) then
            Some (mkIncompatibleRootfsError (ArtifactRelease_Version r) min
                    currentRootfsVersion)
          else None
      end
  end.

(** ** The start-time runtime selection *)

Record RuntimeDefaults : Type := mkRuntimeDefaults {
  RuntimeDefaults_DefaultRootfsVersion : string;
  RuntimeDefaults_DefaultOpenClawVersion : string;
  RuntimeDefaults_MachineKind : string
}.

Record RuntimeResolution : Type := mkRuntimeResolution {
  RuntimeResolution_ResolvedRootfsVersion : string;
  RuntimeResolution_ResolvedOpenClawVersion : string;
  RuntimeResolution_MachineKind : string;
  RuntimeResolution_VersionSource : string;
  RuntimeResolution_RuntimeSource : string
}.

(** metadata.RuntimeSelection, less the in-guest paths the control plane
    leaves empty. *)
Record RuntimeSelection : Type := mkRuntimeSelection {
  RuntimeSelection_Kind : string;
  RuntimeSelection_ResolvedRootfsVersion : string;
  RuntimeSelection_ResolvedOpenClawVersion : string;
  RuntimeSelection_ResolvedHermesVersion : string;
  RuntimeSelection_VersionSource : string;
  RuntimeSelection_RuntimeSource : string;
  RuntimeSelection_RootfsManifestURI : string;
  RuntimeSelection_OpenClawManifestURI : string;
  RuntimeSelection_HermesManifestURI : string
}.
#[export] Instance eta_RuntimeSelection : Eta RuntimeSelection := λ r,
  mkRuntimeSelection (RuntimeSelection_Kind r)
    (RuntimeSelection_ResolvedRootfsVersion r)
    (RuntimeSelection_ResolvedOpenClawVersion r)
    (RuntimeSelection_ResolvedHermesVersion r) (RuntimeSelection_VersionSource r)
    (RuntimeSelection_RuntimeSource r) (RuntimeSelection_RootfsManifestURI r)
    (RuntimeSelection_OpenClawManifestURI r) (RuntimeSelection_HermesManifestURI r).

Fixpoint firstNonEmptyPtr (values : list (option string)) : string :=
  match values with
  | [] => ""
  | None :: rest => firstNonEmptyPtr rest
  | Some v :: rest =>
      let trimmed := TrimSpace v in
      if String.eqb trimmed "" then firstNonEmptyPtr rest else trimmed
  end.

Definition deriveRuntimeVersionSource (rootfsVersion openclawVersion channel : option string)
    : string :=
  if negb (String.eqb (TrimSpace (firstNonEmptyPtr [rootfsVersion; openclawVersion])) "")
  then "pinned"
  else match channel with
       | Some c => if String.eqb (TrimSpace c) "" then "default" else "channel"
       | None => "default"
       end.

Definition ResolveMachineRuntime (machine : Machine) (defaults : RuntimeDefaults)
    : RuntimeResolution :=
  let hasChannel :=
    negb (String.eqb (TrimSpace (firstNonEmptyPtr [Machine_DesiredChannel machine])) "") in
  let hasDefaultVersionSource :=
    match Machine_VersionSource machine with
    | Some s => String.eqb (TrimSpace s) "default" | None => false
    end in
  let rootfs := firstNonEmptyPtr [Machine_DesiredRootfsVersion machine] in
  let rootfs := if String.eqb rootfs "" && hasChannel
    then firstNonEmptyPtr [Machine_ResolvedRootfsVersion machine] else rootfs in
  let rootfs := if String.eqb rootfs ""
    then firstNonEmptyPtr [Machine_ActualRootfsVersion machine] else rootfs in
  let rootfs := if String.eqb rootfs "" && negb hasDefaultVersionSource
    then firstNonEmptyPtr [Machine_ResolvedRootfsVersion machine;
                           Machine_RootfsSnapshot machine] else rootfs in
  let rootfs := if String.eqb rootfs ""
    then TrimSpace (RuntimeDefaults_DefaultRootfsVersion defaults) else rootfs in
  let openclaw := firstNonEmptyPtr [Machine_DesiredOpenclawVersion machine] in
  let openclaw := if String.eqb openclaw "" && hasChannel
    then firstNonEmptyPtr [Machine_ResolvedOpenclawVersion machine] else openclaw in
  let openclaw := if String.eqb openclaw ""
    then firstNonEmptyPtr [Machine_ActualOpenclawVersion machine] else openclaw in
  let openclaw := if String.eqb openclaw "" && negb hasDefaultVersionSource
    then firstNonEmptyPtr [Machine_ResolvedOpenclawVersion machine;
                           Machine_OpenclawVersion machine] else openclaw in
  let openclaw := if String.eqb openclaw ""
    then TrimSpace (RuntimeDefaults_DefaultOpenClawVersion defaults) else openclaw in
  let versionSource := deriveRuntimeVersionSource
    (Machine_DesiredRootfsVersion machine) (Machine_DesiredOpenclawVersion machine)
    (Machine_DesiredChannel machine) in
  let versionSource :=
    match Machine_VersionSource machine with
    | Some s =>
        if String.eqb versionSource "default" && negb (String.eqb (TrimSpace s) "")
        then TrimSpace s else versionSource
    | None => versionSource
    end in
  mkRuntimeResolution rootfs openclaw
    (NormalizeMachineKind (RuntimeDefaults_MachineKind defaults)) versionSource
    "artifact".

Definition MetadataSelection (r : RuntimeResolution) : RuntimeSelection :=
  let selection := mkRuntimeSelection "" (RuntimeResolution_ResolvedRootfsVersion r)
    (RuntimeResolution_ResolvedOpenClawVersion r) ""
    (RuntimeResolution_VersionSource r) (RuntimeResolution_RuntimeSource r) "" "" "" in
  if String.eqb (NormalizeMachineKind (RuntimeResolution_MachineKind r)) MachineKindHermes
  then selection
    <| RuntimeSelection_Kind := MachineKindHermes |>
    <| RuntimeSelection_ResolvedHermesVersion := RuntimeResolution_ResolvedOpenClawVersion r |>
    <| RuntimeSelection_ResolvedOpenClawVersion := EmptyString |>
  else selection.
