(* ===== verification/VersionSpec.v ===== *)
(** * What version selection guarantees

    Theorems on machines/version_resolver.go and openclawver/openclawver.go. *)

From S2P Require Import Prelude Schema GoStrings Versions.

(** ** The first non-empty candidate *)

Lemma firstNonEmptyPtr_app l1 l2 :
  firstNonEmptyPtr (l1 ++ l2) =
  if String.eqb (firstNonEmptyPtr l1) "" then firstNonEmptyPtr l2 else firstNonEmptyPtr l1.
Proof.
  induction l1 as [|[v|] l1 IH]; simpl; [done| |done].
  destruct (String.eqb (TrimSpace v) "") eqn:E; [done|]. by rewrite E.
Qed.
Lemma firstNonEmptyPtr_one v : firstNonEmptyPtr [Some v] = TrimSpace v.
Proof. simpl. destruct (String.eqb_spec (TrimSpace v) ""); done. Qed.

(** Decide which source is the first. *)
Ltac pick_first :=
  change (firstNonEmptyPtr []) with EmptyString;
  cbn [RuntimeResolution_ResolvedRootfsVersion RuntimeResolution_ResolvedOpenClawVersion
    andb negb];
  repeat match goal with
  | |- context [firstNonEmptyPtr ?l] => generalize (firstNonEmptyPtr l); intros ?
  end;
  repeat match goal with
  | |- context [String.eqb ?x ""] => is_var x; destruct (String.eqb_spec x ""); subst; cbn
  end; try done.

(** The sources of a version, in the order of their precedence: what the user
    pinned; what the channel last resolved to; what the machine last reported;
    unless the machine follows the defaults, what an earlier start recorded; the
    default. *)
Definition candidates (desired channel_resolved actual : option string)
    (recorded : list (option string)) (machine : Machine) (fallback : string)
    : list (option string) :=
  let hasChannel :=
    negb (String.eqb (TrimSpace (firstNonEmptyPtr [Machine_DesiredChannel machine])) "") in
  let follows :=
    match Machine_VersionSource machine with
    | Some s => String.eqb (TrimSpace s) "default" | None => false end in
  [desired] ++ (if hasChannel then [channel_resolved] else []) ++ [actual] ++
  (if follows then [] else recorded) ++ [Some fallback].

(** The runtime a start uses is the first non-empty source in the documented
    order, for the rootfs and for the runtime version alike; the result is
    empty only if every source is. *)
Lemma resolve_runtime_precedence (machine : Machine) (defaults : RuntimeDefaults) :
  let r := ResolveMachineRuntime machine defaults in
  RuntimeResolution_ResolvedRootfsVersion r =
    firstNonEmptyPtr (candidates (Machine_DesiredRootfsVersion machine)
      (Machine_ResolvedRootfsVersion machine) (Machine_ActualRootfsVersion machine)
      [Machine_ResolvedRootfsVersion machine; Machine_RootfsSnapshot machine]
      machine (RuntimeDefaults_DefaultRootfsVersion defaults)) ∧
  RuntimeResolution_ResolvedOpenClawVersion r =
    firstNonEmptyPtr (candidates (Machine_DesiredOpenclawVersion machine)
      (Machine_ResolvedOpenclawVersion machine) (Machine_ActualOpenclawVersion machine)
      [Machine_ResolvedOpenclawVersion machine; Machine_OpenclawVersion machine]
      machine (RuntimeDefaults_DefaultOpenClawVersion defaults)).
Proof.
  unfold candidates, ResolveMachineRuntime.
  destruct (negb (String.eqb (TrimSpace _) "")),
    (match Machine_VersionSource machine with
     | Some s => String.eqb (TrimSpace s) "default" | None => false end);
    split; rewrite !firstNonEmptyPtr_app, !firstNonEmptyPtr_one; pick_first.
Qed.

(** ** Version strings *)

Definition sep_char (c : ascii) : bool := Ascii.eqb c "-" || Ascii.eqb c "+".

(** The front of a version, cut out of the string and split. *)
Lemma version_chars (year month : N) (p : ascii → bool) :
  (∀ c, is_digit c = true → p c = true) → p "."%char = true →
  all_chars p (pretty year +:+ "." +:+ pretty month)%string = true.
Proof.
  intros Hd Hp. rewrite !all_chars_app. cbn. rewrite Hp.
  by rewrite !(all_chars_impl _ _ _ Hd (pretty_digits _)).
Qed.

Lemma pretty_cons (n : N) :
  ∃ c s, pretty n = String c s ∧ is_digit c = true.
Proof.
  pose proof (pretty_digits n) as D. pose proof (pretty_nonempty n).
  destruct (pretty n) as [|c s]; [done|]. exists c, s.
  cbn in D. by apply andb_true_iff in D as [? _].
Qed.

Lemma sep_not_space c : (c = "." ∨ sep_char c = true)%char → not_space c = true.
Proof.
  unfold sep_char. rewrite orb_true_iff. intros [->|[->%Ascii.eqb_eq| ->%Ascii.eqb_eq]]; done.
Qed.

(** Trimming keeps the front and how the rest begins. *)
Lemma trim_front (v : bool) (year month : N) (rest : string) :
  let front := (pretty year +:+ "." +:+ pretty month)%string in
  TrimPrefix (TrimSpace ((if v then "v" else "") +:+ (front +:+ rest))%string) "v" =
  (front +:+ TrimRight rest)%string.
Proof.
  intros front.
  assert (all_chars not_space front = true) as Hns
    by (apply version_chars; [apply digit_not_space|done]).
  destruct v.
  - change ("v" +:+ (front +:+ rest))%string with (String "v" front +:+ rest)%string.
    rewrite TrimSpace_app by (cbn; by rewrite Hns).
    change (String "v" front +:+ TrimRight rest)%string
      with (String "v" (front +:+ TrimRight rest)).
    unfold TrimPrefix. cbn. by destruct (front +:+ TrimRight rest)%string.
  - change ("" +:+ (front +:+ rest))%string with (front +:+ rest)%string.
    destruct (pretty_cons year) as (y & ys & Ey & Dy).
    assert (front = String y (ys +:+ "." +:+ pretty month)%string) as Ef
      by (unfold front; by rewrite Ey).
    rewrite Ef in *. rewrite TrimSpace_app by done.
    change (String y (ys +:+ "." +:+ pretty month) +:+ TrimRight rest)%string
      with (String y ((ys +:+ "." +:+ pretty month) +:+ TrimRight rest))%string.
    apply TrimPrefix_other. by rewrite Ascii.eqb_sym, (digit_neq y "v" Dy).
Qed.

(** What is left of the rest after cutting begins with a dot. *)
Lemma cut_rest rest :
  (rest = "" ∨ ∃ c r, rest = String c r ∧ (c = "." ∨ sep_char c = true)%char)%string →
  (cut_any sep_char (TrimRight rest) = "" ∨
   ∃ r, cut_any sep_char (TrimRight rest) = String "." r)%string.
Proof.
  intros [->|(c & r & -> & Hc)]; [by left|].
  change (String c r) with (String c "" +:+ r)%string.
  rewrite TrimRight_app by (cbn; by rewrite sep_not_space).
  change (String c "" +:+ TrimRight r)%string with (String c (TrimRight r)). cbn [cut_any].
  destruct (sep_char c) eqn:E; [by left|]. destruct Hc as [->|]; [|done]. right. eauto.
Qed.

(** Parse reads back every version string the releases use: an optional v,
    the year from 2000 on, the month, and any further part introduced by a dot, a
    dash or a plus sign. *)
Lemma Parse_roundtrip (v : bool) (year month : N) (rest : string) :
  2000 ≤ Z.of_N year < 2 ^ 63 → 1 ≤ Z.of_N month ≤ 12 →
  (rest = "" ∨ ∃ c r, rest = String c r ∧ (c = "." ∨ sep_char c = true)%char)%string →
  Parse ((if v then "v" else "") +:+
         ((pretty year +:+ "." +:+ pretty month) +:+ rest))%string =
  Some (Z.of_N year, Z.of_N month).
Proof.
  intros Hy Hm Hrest. unfold Parse. rewrite trim_front.
  change (λ c, Ascii.eqb c "-" || Ascii.eqb c "+") with sep_char.
  assert (∀ (sep : ascii) (n : N), is_digit sep = false →
    all_chars (λ c, negb (Ascii.eqb c sep)) (pretty n) = true) as Hsep.
  { intros sep n Hs. apply (all_chars_impl is_digit); [|apply pretty_digits].
    intros c Hc. by rewrite (digit_neq c sep). }
  rewrite cut_any_app.
  2:{ apply version_chars; [|done]. intros c Hc. unfold sep_char.
      by rewrite !(digit_neq c _ Hc). }
  assert (∀ tail, (tail = "" ∨ ∃ r, tail = String "." r)%string → ∃ l,
    Split "." ((pretty year +:+ "." +:+ pretty month) +:+ tail)%string =
    pretty year :: pretty month :: l) as Hsplit.
  { intros tail Ht.
    replace ((pretty year +:+ "." +:+ pretty month) +:+ tail)%string
      with (pretty year +:+ String "." (pretty month +:+ tail))%string
      by (by rewrite !append_assoc).
    rewrite Split_app by auto. destruct Ht as [->|[r ->]].
    - exists []. rewrite append_nil_r. by rewrite Split_single by auto.
    - rewrite Split_app by auto. eauto. }
  destruct (Hsplit _ (cut_rest rest Hrest)) as [l ->].
  rewrite !Atoi_pretty by lia.
  rewrite !bool_decide_false by lia. done.
Qed.

Lemma Parse_roundtrip_witness : Parse "v2026.6.5-r1" = Some (2026, 6).
Proof.
  apply (Parse_roundtrip true 2026 6 ".5-r1"); [lia|lia|right].
  eexists _, _. split; [reflexivity|by left].
Defined.

Lemma Parse_bounds s y m : Parse s = Some (y, m) → 2000 ≤ y < 2 ^ 63 ∧ 1 ≤ m ≤ 12.
Proof.
  unfold Parse. destruct (Split _ _) as [|a [|b l]]; [done..|].
  destruct (Atoi a) as [y'|] eqn:Ey; [|done]. apply Atoi_range in Ey.
  destruct (bool_decide_reflect (y' < 2000)); [done|].
  destruct (Atoi b) as [m'|]; [|done].
  destruct (bool_decide_reflect (m' < 1)), (bool_decide_reflect (12 < m')); cbn; try done.
  intros [= <- <-]. lia.
Qed.

(** AtLeast compares releases chronologically: a parsed version is at least
    the wanted year and month exactly when its month count since year 0 is, so
    that the comparison is a total order; only an unparsable version is
    undecided. *)
Lemma AtLeast_chronological (s : string) (wantYear wantMonth : Z) :
  1 ≤ wantMonth ≤ 12 →
  AtLeast s wantYear wantMonth =
  match Parse s with
  | Some (y, m) => (bool_decide (12 * wantYear + wantMonth ≤ 12 * y + m), true)
  | None => (false, false)
  end.
Proof.
  intros Hw. unfold AtLeast. destruct (Parse s) as [[y m]|] eqn:E; [|done].
  apply Parse_bounds in E as [_ Hm].
  destruct (bool_decide_reflect (y = wantYear)) as [->|Hne]; cbn;
    f_equal; apply bool_decide_ext; lia.
Qed.

Lemma AtLeast_chronological_witness :
  AtLeast "v2026.6.5-r1" 2026 7 = (false, true).
Proof. rewrite (AtLeast_chronological "v2026.6.5-r1" 2026 7) by lia. vm_compute. reflexivity. Defined.
