(* ===== verification/Routing.v ===== *)
(** * Routes: routing/*.go and kvstore/cloudflare.go

    A machine's public route is a Cloudflare tunnel with two DNS names, a
    signing key in the database and an entry of the KV store that the edge
    worker reads. *)

From S2P Require Import Prelude Schema HostStore GoStrings World.

(** ** The KV store (kvstore/cloudflare.go) *)

Definition route_key (accountSlug machineSlug : string) : string :=
  ("route:" +:+ accountSlug +:+ ":" +:+ machineSlug)%string.
Definition account_key (accountSlug : string) : string :=
  ("account:" +:+ accountSlug)%string.

(** One HTTP request to the KV API. *)
Definition kv_put (key : string) (value : KVValue) : M unit :=
  let! b := pop_fault in
  if b then fail ErrTransient else modify (set w_kv <[key := value]>).
(** A 404 is a success. *)
Definition kv_del (key : string) : M unit :=
  let! b := pop_fault in
  if b then fail ErrTransient else modify (set w_kv (delete key)).

(** [for i := 0; i < 3; i++ { ...; if err := f(); err == nil { return nil } }]. *)
Fixpoint with_retry (attempts : nat) (f : M unit) (lastErr : error) : M unit :=
  match attempts with
  | O => fail lastErr
  | S n =>
      let! r := try f in
      match r with
      | Ok _ => ret tt
      | Err e => with_retry n f e
      end
  end.
Definition putWithRetry (key : string) (value : KVValue) : M unit :=
  with_retry 3 (kv_put key value) (ErrText "").
Definition delWithRetry (key : string) : M unit :=
  with_retry 3 (kv_del key) (ErrText "").

Definition PutRouteSync (accountSlug machineSlug : string) (entry : KVRouteEntry)
    : M unit :=
  putWithRetry (route_key accountSlug machineSlug) (KVRoute entry).
Definition DeleteRouteSync (accountSlug machineSlug : string) : M unit :=
  delWithRetry (route_key accountSlug machineSlug).
Definition PutAccount (accountSlug : string) (entry : KVAccountEntry) : M unit :=
  putWithRetry (account_key accountSlug) (KVAccount entry).

(** ** The routing service (routing/service.go) *)

Record SetupRequest : Type := mkSetupRequest {
  SetupRequest_MachineID : string;
  SetupRequest_MachineSlug : string
}.
Record SetupResult : Type := mkSetupResult {
  SetupResult_TunnelID : string;
  SetupResult_TunnelToken : string;
  SetupResult_SigningKey : string;
  SetupResult_VMHostname : string;
  SetupResult_SSHHostname : string
}.
Record TeardownRequest : Type := mkTeardownRequest {
  TeardownRequest_MachineID : string;
  TeardownRequest_MachineSlug : string;
  TeardownRequest_AccountSlug : string;
  TeardownRequest_TunnelID : string
}.
Record SyncKVRequest : Type := mkSyncKVRequest {
  SyncKVRequest_AccountSlug : string;
  SyncKVRequest_MachineSlug : string;
  SyncKVRequest_MachineID : string;
  SyncKVRequest_HostHostname : string;
  SyncKVRequest_ProxyToken : string
}.

(** Service: whether the tunnel manager, the KV writer and the store are
    configured (non-nil), and the data-plane domain. *)
Record RoutingService : Type := mkRoutingService {
  RoutingService_tunnel : bool;
  RoutingService_kv : bool;
  RoutingService_store : bool;
  RoutingService_dataPlaneDomain : string
}.

Definition defaultDataPlaneDomain : string := "localhost".

(** [strings.Trim(s, ".")]. *)
Fixpoint trim_dots_left (s : string) : string :=
  match s with
  | String c s' => if Ascii.eqb c "." then trim_dots_left s' else s
  | EmptyString => EmptyString
  end.
Fixpoint trim_dots_right (s : string) : string :=
  match s with
  | EmptyString => EmptyString
  | String c s' =>
      match trim_dots_right s' with
      | EmptyString => if Ascii.eqb c "." then EmptyString else String c EmptyString
      | t => String c t
      end
  end.
Definition NewWithDomain (tunnel kv store : bool) (dataPlaneDomain : string)
    : RoutingService :=
  let domain := trim_dots_right (trim_dots_left (TrimSpace dataPlaneDomain)) in
  mkRoutingService tunnel kv store
    (if String.eqb domain "" then defaultDataPlaneDomain else domain).

Section Service.
  Variable s : RoutingService.

Definition hostnames (machineSlug : string) : string * string :=
  (("m-" +:+ machineSlug +:+ "." +:+ RoutingService_dataPlaneDomain s)%string,
   ("ssh-" +:+ machineSlug +:+ "." +:+ RoutingService_dataPlaneDomain s)%string).

(** CreateVMTunnel answers with a tunnel ID and a connector token. *)
Definition CreateVMTunnel (slug : string) : M (string * string) :=
  remote (TunnelCreate slug) ;;
  let! tunnelID := rand_hex in
  let! token := rand_hex in
  ret (tunnelID, token).

Definition persistRouteState (req : SetupRequest) (tunnelID signingKey : string)
    : M unit :=
  if RoutingService_store s then
    wrap "persist route signing key"
      (call (UpdateMachineTunnel (SetupRequest_MachineID req) tunnelID signingKey))
  else ret tt.

Definition SetupRoute (req : SetupRequest) : M SetupResult :=
  let '(vmHostname, sshHostname) := hostnames (SetupRequest_MachineSlug req) in
  let! signingKey := wrap "generate signing key" rand_hex in
  let partial := mkSetupResult "" "" signingKey vmHostname sshHostname in
  if negb (RoutingService_tunnel s) then
    persistRouteState req "" signingKey ;; ret partial
  else
    let! r := try (CreateVMTunnel (SetupRequest_MachineSlug req)) in
    match r with
    | Err _ =>
        (* Non-fatal: return partial result with VMHostname set. *)
        persistRouteState req "" signingKey ;; ret partial
    | Ok (tunnelID, tunnelToken) =>
        ignore (remote (TunnelConfigure tunnelID vmHostname sshHostname)) ;;
        ignore (remote (TunnelDNS tunnelID vmHostname)) ;;
        ignore (remote (TunnelDNS tunnelID sshHostname)) ;;
        persistRouteState req tunnelID signingKey ;;
        ret (mkSetupResult tunnelID tunnelToken signingKey vmHostname sshHostname)
    end.

(** Every step is best effort: errors are logged and the next step runs. *)
Definition TeardownRoute (req : TeardownRequest) : M unit :=
  when (RoutingService_kv s && negb (String.eqb (TeardownRequest_AccountSlug req) "") &&
        negb (String.eqb (TeardownRequest_MachineSlug req) ""))
    (ignore (DeleteRouteSync (TeardownRequest_AccountSlug req)
               (TeardownRequest_MachineSlug req))) ;;
  when (RoutingService_tunnel s && negb (String.eqb (TeardownRequest_TunnelID req) ""))
    (let '(vmHostname, sshHostname) := hostnames (TeardownRequest_MachineSlug req) in
     ignore (remote (TunnelDelete (TeardownRequest_TunnelID req) vmHostname sshHostname))) ;;
  when (RoutingService_store s)
    (ignore (call (ClearMachineTunnel (TeardownRequest_MachineID req)))).

Definition SyncRouteToKV (req : SyncKVRequest) : M unit :=
  if negb (RoutingService_kv s) then ret tt
  else PutRouteSync (SyncKVRequest_AccountSlug req) (SyncKVRequest_MachineSlug req)
         (mkKVRouteEntry (SyncKVRequest_MachineID req) (SyncKVRequest_HostHostname req)
            (SyncKVRequest_ProxyToken req)).

Definition SyncAccountToKV (slug : string) (accountID : Z) (userIDs : list Z) : M unit :=
  if negb (RoutingService_kv s) then ret tt
  else PutAccount slug (mkKVAccountEntry accountID userIDs).

End Service.

(** ** The projector and the KV reconciler *)

(** RouteSnapshot is RouteData under another name (routing/storeadapter.go). *)
Definition ListRunningRoutes_snapshot : M (list RouteData) := call ListRunningRoutes.

Fixpoint sync_routes (routes : list RouteData) (synced : Z) : M Z :=
  match routes with
  | [] => ret synced
  | r :: rest =>
      let! res := try (PutRouteSync (RouteData_AccountSlug r) (RouteData_MachineSlug r)
        (mkKVRouteEntry (RouteData_MachineID r) (RouteData_HostHostname r)
           (RouteData_ProxyToken r))) in
      match res with
      | Err _ => sync_routes rest synced
      | Ok _ => sync_routes rest (synced + 1)
      end
  end.
(** [Projector.SyncOnce]. *)
Definition SyncOnce : M Z :=
  let! routes := ListRunningRoutes_snapshot in
  sync_routes routes 0.

(** [route.AccountSlug+":"+route.MachineSlug]. *)
Definition slug_key (r : RouteData) : string :=
  (RouteData_AccountSlug r +:+ ":" +:+ RouteData_MachineSlug r)%string.

(** The loop over the keys of the KV snapshot (Go iterates over the map in an
    unspecified order: here any list of its keys). *)
Fixpoint delete_stale (valid : list string) (keys : list string) (stale : Z) : M Z :=
  match keys with
  | [] => ret stale
  | key :: rest =>
      if bool_decide (key ∈ valid) then delete_stale valid rest stale
      else
        match split_first ":" key with
        | None => delete_stale valid rest stale
        | Some (accountSlug, machineSlug) =>
            let! res := try (DeleteRouteSync accountSlug machineSlug) in
            match res with
            | Err _ => delete_stale valid rest stale
            | Ok _ => delete_stale valid rest (stale + 1)
            end
        end
  end.
(** [Reconciler.ReconcileOnce]. *)
Definition ReconcileOnce (kvRoutes : list string) : M Z :=
  let! dbRoutes := ListRunningRoutes_snapshot in
  delete_stale (slug_key <$> dbRoutes) kvRoutes 0.
