(* ===== verification/RoutingSpec.v ===== *)
(** * What the routing code guarantees

    Theorems on routing/*.go and kvstore/cloudflare.go. *)

From S2P Require Import Prelude Schema HostStore GoStrings Scenario World FleetLemmas.
From S2P Require Import Routing.

(** ** Retries *)

(** One request to the KV API, writing or deleting. *)
Definition kv_request (g : gmap string KVValue → gmap string KVValue) : M unit :=
  let! b := pop_fault in
  if b then fail ErrTransient else modify (set w_kv g).

Lemma with_retry_run n g e w :
  ∃ fs, with_retry n (kv_request g) e w =
    if bool_decide (take n (w_faults w) = replicate n true)
    then (Err (if decide (n = 0%nat) then e else ErrTransient), w <| w_faults := fs |>)
    else (Ok tt, w <| w_faults := fs |> <| w_kv ::= g |>).
Proof.
  revert e w. induction n as [|n IH]; intros e w; cbn [with_retry].
  { exists (w_faults w). rewrite bool_decide_true by done. by destruct w. }
  rewrite bind_try. unfold kv_request at 1 3, bind, pop_fault.
  destruct (w_faults w) as [|[] fs] eqn:Ef; cbn.
  - exists []. rewrite bool_decide_false by done. destruct w. cbn in Ef. by subst.
  - destruct (IH ErrTransient (w <| w_faults := fs |>)) as [fs' ->]. exists fs'. cbn.
    destruct (bool_decide_reflect (take n fs = replicate n true)) as [Ht|Ht].
    + rewrite bool_decide_true by (by rewrite Ht). by destruct (decide (n = 0%nat)).
    + rewrite bool_decide_false by congruence. done.
  - exists fs. rewrite bool_decide_false by done. done.
Qed.

Lemma kv_put_request key v : kv_put key v = kv_request <[key := v]>.
Proof. done. Qed.
Lemma kv_del_request key : kv_del key = kv_request (delete key).
Proof. done. Qed.

(** A KV write or delete is tried three times: it fails, without effect, only
    when the first three requests fail, and otherwise it takes effect once. *)
Lemma kv_retry_three_attempts (key : string) (value : KVValue) (w : World) :
  let lost := bool_decide (take 3 (w_faults w) = [true; true; true]) in
  (let '(r, w') := putWithRetry key value w in
   r = (if lost then Err ErrTransient else Ok tt) ∧
   w_kv w' = (if lost then w_kv w else <[key := value]> (w_kv w)) ∧
   w_db w' = w_db w ∧ w_trace w' = w_trace w) ∧
  (let '(r, w') := delWithRetry key w in
   r = (if lost then Err ErrTransient else Ok tt) ∧
   w_kv w' = (if lost then w_kv w else delete key (w_kv w)) ∧
   w_db w' = w_db w ∧ w_trace w' = w_trace w).
Proof.
  intros lost. unfold putWithRetry, delWithRetry.
  rewrite kv_put_request, kv_del_request.
  destruct (with_retry_run 3 <[key := value]> (ErrText "") w) as [fs ->].
  destruct (with_retry_run 3 (delete key) (ErrText "") w) as [fs' ->].
  unfold lost. cbn [replicate]. by destruct (bool_decide _).
Qed.

(** Without faults. *)
Lemma putWithRetry_free key v w :
  fault_free w → putWithRetry key v w = (Ok tt, w <| w_kv ::= <[key := v]> |>).
Proof. destruct w. cbn. intros ->. done. Qed.
Lemma delWithRetry_free key w :
  fault_free w → delWithRetry key w = (Ok tt, w <| w_kv ::= delete key |>).
Proof. destruct w. cbn. intros ->. done. Qed.

(** ** Setting up and tearing down a route *)

Lemma remote_quiet e w : w_db (remote e w).2 = w_db w.
Proof. symmetry. apply (steps_remote eq e w). Qed.

(** Creating a tunnel leaves the database alone and cannot fail a set-up. *)
Lemma CreateVMTunnel_quiet slug w : w_db (CreateVMTunnel slug w).2 = w_db w.
Proof.
  assert (steps (on_db eq) (CreateVMTunnel slug)) as H
    by (unfold CreateVMTunnel; run_steps).
  symmetry. apply (H w).
Qed.

(** The row after a route's state is persisted. *)
Definition route_recorded (s : RoutingService) (req : SetupRequest) (tunnelID key : string)
    (db : DB) : DB :=
  if RoutingService_store s
  then db <| db_machines ::= alter (λ m,
         m <| Machine_TunnelID := NULLIF tunnelID |>
           <| Machine_SigningKey := NULLIF key |>) (SetupRequest_MachineID req) |>
  else db.

Lemma persist_run s req tid key (out : SetupResult) w :
  let '(r, w') := (persistRouteState s req tid key ;; ret out) w in
  match r with
  | Ok o => o = out ∧ w_db w' = route_recorded s req tid key (w_db w)
  | Err _ => w_db w' = w_db w
  end.
Proof.
  unfold persistRouteState, route_recorded, bind, wrap, ret.
  destruct (RoutingService_store s); [|done].
  destruct (call _ w) as [[u|e] w'] eqn:E.
  - apply call_ok in E. injection E as _ E. by rewrite <-E.
  - eapply call_err_same; [|exact E]. done.
Qed.

(** Setting up a route records the signing key in use: whatever Cloudflare
    calls fail, a success returns the generated key and the hostnames, and the
    machine's row holds that key and the tunnel it goes with (none when the
    tunnel could not be created); an error leaves the database as it was. *)
Lemma setup_route_records_key (s : RoutingService) (req : SetupRequest) (w : World) :
  let '(r, w') := SetupRoute s req w in
  match r with
  | Ok res =>
      head (w_rand w) = Some (SetupResult_SigningKey res) ∧
      (SetupResult_VMHostname res, SetupResult_SSHHostname res) =
        hostnames s (SetupRequest_MachineSlug req) ∧
      (RoutingService_tunnel s = false → SetupResult_TunnelID res = ""%string) ∧
      w_db w' = route_recorded s req (SetupResult_TunnelID res) (SetupResult_SigningKey res)
                  (w_db w)
  | Err _ => w_db w' = w_db w
  end.
Proof.
  unfold SetupRoute. destruct (hostnames s _) as [vmh sshh].
  unfold bind at 1, wrap, rand_hex at 1. destruct (w_rand w) as [|key rs]; [done|].
  set (w1 := w <| w_rand := rs |>). change (w_db w) with (w_db w1). clearbody w1.
  destruct (RoutingService_tunnel s); cbn [negb].
  2:{ pose proof (persist_run s req "" key (mkSetupResult "" "" key vmh sshh) w1) as H.
      destruct (bind _ _ w1) as [[o|e] w']; [|done]. by destruct H as [-> ?]. }
  rewrite bind_try. pose proof (CreateVMTunnel_quiet (SetupRequest_MachineSlug req) w1) as Eq.
  destruct (CreateVMTunnel _ w1) as [[[tid tok]|e] w2]; cbn [fst snd] in Eq |- *; rewrite <-Eq.
  - rewrite !bind_ignore. set (w3 := (remote (TunnelDNS tid sshh) _).2).
    assert (w_db w2 = w_db w3) as -> by (unfold w3; by rewrite !remote_quiet).
    pose proof (persist_run s req tid key (mkSetupResult tid tok key vmh sshh) w3) as H.
    destruct (bind _ _ w3) as [[o|e] w']; [|done]. by destruct H as [-> ?].
  - pose proof (persist_run s req "" key (mkSetupResult "" "" key vmh sshh) w2) as H.
    destruct (bind _ _ w2) as [[o|e'] w']; [|done]. by destruct H as [-> ?].
Qed.

(** Tearing down a route never fails, touches no other route, and without
    faults removes the route's KV entry, its tunnel and the tunnel and signing key
    of the machine's row. *)
Lemma teardown_clears_route (s : RoutingService) (req : TeardownRequest) (w : World) :
  fault_free w → RoutingService_kv s = true → RoutingService_store s = true →
  TeardownRequest_AccountSlug req ≠ ""%string → TeardownRequest_MachineSlug req ≠ ""%string →
  let key := route_key (TeardownRequest_AccountSlug req) (TeardownRequest_MachineSlug req) in
  let '(vmHost, sshHost) := hostnames s (TeardownRequest_MachineSlug req) in
  TeardownRoute s req w =
    (Ok tt, w <| w_kv := delete key (w_kv w) |>
              <| w_trace := (if RoutingService_tunnel s &&
                                negb (String.eqb (TeardownRequest_TunnelID req) "")
                             then [TunnelDelete (TeardownRequest_TunnelID req) vmHost sshHost]
                             else []) ++ w_trace w |>
              <| w_db ::= λ db, db <| db_machines := alter (λ m,
                   m <| Machine_TunnelID := None |> <| Machine_SigningKey := None |>)
                   (TeardownRequest_MachineID req) (db_machines db) |> |>).
Proof.
  destruct w as [db fs kv tr rnd ints]. cbn. intros -> Hkv Hst Ha%String.eqb_neq Hm%String.eqb_neq.
  unfold TeardownRoute. rewrite Hkv, Hst, Ha, Hm. cbn.
  by destruct (RoutingService_tunnel s), (String.eqb (TeardownRequest_TunnelID req) "").
Qed.

Lemma teardown_clears_route_witness :
  let s := NewWithDomain true true true "example.com" in
  let w := (world db_placed) <| w_kv := {[ "route:acme:blue"%string :=
             KVRoute (mkKVRouteEntry "id-4" "host-a.example.com" "tok") ]} |> in
  let w' := (TeardownRoute s (mkTeardownRequest "id-4" "blue" "acme" "t1") w).2 in
  w_kv w' = ∅ ∧
  w_trace w' = [TunnelDelete "t1" "m-blue.example.com" "ssh-blue.example.com"].
Proof.
  intros s w w'. unfold w'.
  rewrite (teardown_clears_route s (mkTeardownRequest "id-4" "blue" "acme" "t1") w eq_refl
    eq_refl eq_refl) by discriminate.
  split; vm_compute; reflexivity.
Defined.

(** ** The projector and the KV reconciler *)

Definition route_entry (r : RouteData) : KVRouteEntry :=
  mkKVRouteEntry (RouteData_MachineID r) (RouteData_HostHostname r) (RouteData_ProxyToken r).
Definition put_route (r : RouteData) : gmap string KVValue → gmap string KVValue :=
  <[route_key (RouteData_AccountSlug r) (RouteData_MachineSlug r) := KVRoute (route_entry r)]>.

Lemma sync_routes_free routes n w :
  fault_free w →
  sync_routes routes n w =
    (Ok (n + Z.of_nat (length routes)), w <| w_kv := foldr put_route (w_kv w) (rev routes) |>).
Proof.
  revert n w. induction routes as [|r routes IH]; intros n w Hf; cbn [sync_routes].
  { cbn. rewrite Z.add_0_r. by destruct w. }
  rewrite bind_try. unfold PutRouteSync. rewrite putWithRetry_free by done. cbn [fst snd].
  rewrite IH by done. cbn. rewrite foldr_app. cbn. f_equal. f_equal. lia.
Qed.

Definition stale_key (valid : list string) (key : string) : option (string * string) :=
  if bool_decide (key ∈ valid) then None else split_first ":" key.
Definition drop_key (p : string * string) : gmap string KVValue → gmap string KVValue :=
  delete (route_key p.1 p.2).

Lemma delete_stale_free valid keys n w :
  fault_free w →
  delete_stale valid keys n w =
    (Ok (n + Z.of_nat (length (omap (stale_key valid) keys))),
     w <| w_kv := foldr drop_key (w_kv w) (rev (omap (stale_key valid) keys)) |>).
Proof.
  revert n w. induction keys as [|key keys IH]; intros n w Hf; cbn [delete_stale].
  { cbn. rewrite Z.add_0_r. by destruct w. }
  cbn [omap list_omap]. destruct (stale_key valid key) as [[a m]|] eqn:E;
    unfold stale_key in E; destruct (bool_decide (key ∈ valid)); simplify_eq; [| |].
  - rewrite E, bind_try. unfold DeleteRouteSync. rewrite delWithRetry_free by done.
    cbn [fst snd]. rewrite IH by done. cbn. rewrite foldr_app. cbn. f_equal. f_equal. lia.
  - by apply IH.
  - rewrite E. by apply IH.
Qed.

(** The slug keys of an account and a machine. *)
Definition no_colon (s : string) : Prop :=
  all_chars (λ c, negb (Ascii.eqb c ":")) s = true.

Lemma slug_split a m :
  no_colon a → split_first ":" (a +:+ ":" +:+ m)%string = Some (a, m).
Proof. apply split_first_app. Qed.
Lemma slug_inj a m a' m' :
  no_colon a → no_colon a' → (a +:+ ":" +:+ m = a' +:+ ":" +:+ m')%string → a = a' ∧ m = m'.
Proof.
  intros Ha Ha' E. pose proof (slug_split a m Ha) as H. rewrite E, slug_split in H by done.
  by injection H.
Qed.
Lemma route_key_inj a m a' m' :
  no_colon a → no_colon a' → route_key a m = route_key a' m' → a = a' ∧ m = m'.
Proof. intros Ha Ha' [= E]. by apply slug_inj. Qed.

Lemma lookup_put_routes kv routes key :
  foldr put_route kv routes !! key =
  match list_find (λ r, route_key (RouteData_AccountSlug r) (RouteData_MachineSlug r) = key)
          routes with
  | Some (_, r) => Some (KVRoute (route_entry r))
  | None => kv !! key
  end.
Proof.
  induction routes as [|r routes IH]; [done|]. cbn. case_decide as E.
  - unfold put_route at 1. by rewrite E, lookup_insert_eq.
  - unfold put_route at 1. rewrite lookup_insert_ne, IH by done.
    by destruct (list_find _ routes) as [[]|].
Qed.
Lemma lookup_drop_keys kv ps key :
  foldr drop_key kv ps !! key =
  if bool_decide (key ∈ (λ p, route_key p.1 p.2) <$> ps) then None else kv !! key.
Proof.
  induction ps as [|p ps IH]; [done|]. cbn. unfold drop_key at 1.
  destruct (decide (route_key p.1 p.2 = key)) as [->|Hne].
  - rewrite lookup_delete_eq, bool_decide_true; [done|]. apply list_elem_of_here.
  - rewrite lookup_delete_ne, IH by done. case_bool_decide as H1; case_bool_decide as H2; try done.
    + destruct H2. by apply list_elem_of_further.
    + apply elem_of_cons in H2 as [->|?]; done.
Qed.

Lemma elem_of_rev {A} (x : A) l : x ∈ rev l ↔ x ∈ l.
Proof. by rewrite !list_elem_of_In, <-in_rev. Qed.
Lemma NoDup_fmap_inj_on {A B} (f : A → B) (l : list A) :
  NoDup (f <$> l) → ∀ x y, x ∈ l → y ∈ l → f x = f y → x = y.
Proof.
  induction l as [|z l IH]; cbn; [by intros _ ?? ?%elem_of_nil|].
  rewrite NoDup_cons. intros [Hz Hnd] x y. rewrite !elem_of_cons.
  intros [->|Hx] [->|Hy] E; [done|..].
  - destruct Hz. rewrite E. by apply list_elem_of_fmap_2.
  - destruct Hz. rewrite <-E. by apply list_elem_of_fmap_2.
  - by apply IH.
Qed.

(** What the KV holds for a list of routes. *)
Lemma put_routes_some kv routes a m :
  no_colon a → (∀ r, r ∈ routes → no_colon (RouteData_AccountSlug r)) →
  (∃ r, r ∈ routes ∧ RouteData_AccountSlug r = a ∧ RouteData_MachineSlug r = m) →
  ∃ r, r ∈ routes ∧ RouteData_AccountSlug r = a ∧ RouteData_MachineSlug r = m ∧
    foldr put_route kv routes !! route_key a m = Some (KVRoute (route_entry r)).
Proof.
  intros Ha Hc (r & Hr & <- & <-). rewrite lookup_put_routes.
  destruct (list_find _ routes) as [[i r']|] eqn:E.
  - apply list_find_Some in E as (Hi & Hk & _). apply list_elem_of_lookup_2 in Hi.
    exists r'. split; [done|]. by apply route_key_inj in Hk as [-> ->]; auto.
  - apply list_find_None in E. rewrite Forall_forall in E. by destruct (E r Hr).
Qed.

(** The keys the reconciler deletes. *)
Lemma elem_of_dropped valid keys a m :
  no_colon a →
  route_key a m ∈ (λ p, route_key p.1 p.2) <$> rev (omap (stale_key valid) keys) ↔
  (a +:+ ":" +:+ m)%string ∈ keys ∧ (a +:+ ":" +:+ m)%string ∉ valid.
Proof.
  intros Ha. rewrite list_elem_of_fmap. setoid_rewrite elem_of_rev.
  setoid_rewrite list_elem_of_omap. split.
  - intros ([a' m'] & Hk & key & Hin & Hs). unfold stale_key in Hs.
    case_bool_decide; [done|]. apply split_first_inv in Hs as [-> Ha'].
    apply route_key_inj in Hk as [-> ->]; done.
  - intros [Hin Hv]. exists (a, m). split; [done|]. exists (a +:+ ":" +:+ m)%string.
    split; [done|]. unfold stale_key. by rewrite bool_decide_false, slug_split.
Qed.

Lemma SyncOnce_free w :
  fault_free w →
  let routes := omap (route_of (w_db w)) (select (λ _, true) (db_machines (w_db w))) in
  SyncOnce w = (Ok (Z.of_nat (length routes)),
                w <| w_kv := foldr put_route (w_kv w) (rev routes) |>).
Proof.
  intros Hf routes. unfold SyncOnce, ListRunningRoutes_snapshot, bind.
  rewrite call_free by done. cbn [fst snd ListRunningRoutes gets]. fold routes.
  rewrite sync_routes_free by done. by destruct w.
Qed.
Lemma ReconcileOnce_free keys w :
  fault_free w →
  let routes := omap (route_of (w_db w)) (select (λ _, true) (db_machines (w_db w))) in
  let stale := omap (stale_key (slug_key <$> routes)) keys in
  ReconcileOnce keys w = (Ok (Z.of_nat (length stale)),
                          w <| w_kv := foldr drop_key (w_kv w) (rev stale) |>).
Proof.
  intros Hf routes stale. unfold ReconcileOnce, ListRunningRoutes_snapshot, bind.
  rewrite call_free by done. cbn [fst snd ListRunningRoutes gets]. fold routes.
  rewrite delete_stale_free by done. by destruct w.
Qed.

(** C8: the projector and the reconciler make the KV store equal to the database:
    after a synchronisation and a reconciliation over a complete listing of the
    KV's route keys, without faults, the KV holds a route for an account and a
    machine slug exactly when the database has a running machine with a tunnel
    host and a proxy token there, and the entry is that machine's. *)
Theorem kv_converges_to_database (keys : list string) (w : World) :
  fault_free w →
  let routes := omap (route_of (w_db w)) (select (λ _, true) (db_machines (w_db w))) in
  let w1 := (SyncOnce w).2 in
  let w2 := (ReconcileOnce keys w1).2 in
  (∀ r, r ∈ routes → no_colon (RouteData_AccountSlug r)) → NoDup (slug_key <$> routes) →
  (∀ a m v, no_colon a → w_kv w1 !! route_key a m = Some v →
     (a +:+ ":" +:+ m)%string ∈ keys) →
  ∀ a m v, no_colon a →
    w_kv w2 !! route_key a m = Some v ↔
    ∃ r, r ∈ routes ∧ RouteData_AccountSlug r = a ∧ RouteData_MachineSlug r = m ∧
      v = KVRoute (route_entry r).
Proof.
  intros Hf routes w1 w2 Hc Hnd Hlist a m v Ha.
  assert (w1 = w <| w_kv := foldr put_route (w_kv w) (rev routes) |>) as Ew1
    by (unfold w1; by rewrite SyncOnce_free).
  assert (w2 = w1 <| w_kv := foldr drop_key (w_kv w1)
    (rev (omap (stale_key (slug_key <$> routes)) keys)) |>) as Ew2.
  { unfold w2. rewrite ReconcileOnce_free by (by rewrite Ew1). rewrite Ew1. done. }
  assert (w_kv w2 !! route_key a m = if bool_decide (route_key a m ∈ (λ p, route_key p.1 p.2) <$>
    rev (omap (stale_key (slug_key <$> routes)) keys)) then None
    else w_kv w1 !! route_key a m) as -> by (rewrite Ew2; apply lookup_drop_keys).
  assert ((∃ r, r ∈ routes ∧ RouteData_AccountSlug r = a ∧ RouteData_MachineSlug r = m) →
    ∃ r, r ∈ routes ∧ RouteData_AccountSlug r = a ∧ RouteData_MachineSlug r = m ∧
      w_kv w1 !! route_key a m = Some (KVRoute (route_entry r))) as Hput.
  { intros (r & Hr & Hs). rewrite Ew1. cbn.
    destruct (put_routes_some (w_kv w) (rev routes) a m Ha) as (r' & Hr' & H').
    - intros r'. rewrite elem_of_rev. auto.
    - exists r. by rewrite elem_of_rev.
    - exists r'. by rewrite elem_of_rev in Hr'. }
  assert ((a +:+ ":" +:+ m)%string ∈ slug_key <$> routes ↔ ∃ r, r ∈ routes ∧
    RouteData_AccountSlug r = a ∧ RouteData_MachineSlug r = m) as Hvalid.
  { rewrite list_elem_of_fmap. split.
    - intros (r & E & Hr). exists r. split; [done|].
      apply slug_inj in E as [-> ->]; auto.
    - intros (r & Hr & <- & <-). by exists r. }
  pose proof (elem_of_dropped (slug_key <$> routes) keys a m Ha) as Hdrop.
  case_bool_decide as Hd; apply Hdrop in Hd || rewrite Hdrop in Hd.
  - split; [done|]. intros (r & Hr & <- & <- & _). destruct Hd as [_ Hd].
    destruct Hd. apply Hvalid. eauto.
  - split.
    + intros Hv. assert ((a +:+ ":" +:+ m)%string ∈ slug_key <$> routes) as Hin.
      { destruct (decide ((a +:+ ":" +:+ m)%string ∈ slug_key <$> routes)); [done|].
        destruct Hd. split; [|done]. by eapply Hlist. }
      destruct (Hput (proj1 Hvalid Hin)) as (r & ? & ? & ? & Hr). exists r.
      split; [done|]. split; [done|]. split; [done|]. congruence.
    + intros (r & Hr & <- & <- & ->).
      destruct (Hput ltac:(eauto)) as (r' & Hr' & Ea & Em & ->).
      assert (r' = r) as ->; [|done].
      apply (NoDup_fmap_inj_on slug_key routes Hnd); [done..|].
      unfold slug_key. by rewrite Ea, Em.
Qed.

(** A listing that holds every key of the KV, prefix dropped, is complete. *)
Lemma complete_listing (kv : gmap string KVValue) (keys : list string) :
  bool_decide (map_Forall (λ k _, TrimPrefix k "route:" ∈ keys) kv) = true →
  ∀ a m v, kv !! route_key a m = Some v → (a +:+ ":" +:+ m)%string ∈ keys.
Proof.
  intros H a m v Hk. apply bool_decide_eq_true in H. specialize (H _ _ Hk). cbn in H.
  unfold route_key in H. by rewrite TrimPrefix_app in H.
Qed.

Lemma kv_converges_to_database_witness :
  let w := (world db_running) <| w_kv := {[ "route:acme:old"%string :=
             KVRoute (mkKVRouteEntry "id-1" "host-z.example.com" "t") ]} |> in
  let w2 := (ReconcileOnce ["acme:old"; "acme:blue"] (SyncOnce w).2).2 in
  w_kv w2 !! "route:acme:blue"%string =
    Some (KVRoute (mkKVRouteEntry "id-4" "host-a.example.com" "px")) ∧
  w_kv w2 !! "route:acme:old"%string = None.
Proof.
  intros w w2.
  pose proof (kv_converges_to_database ["acme:old"; "acme:blue"] w eq_refl) as H.
  specialize (H ltac:(apply Forall_forall, (bool_decide_unpack _); vm_compute; exact I)
    ltac:(apply (bool_decide_unpack _); vm_compute; exact I)
    ltac:(intros a m v _; apply complete_listing; vm_compute; reflexivity)).
  assert (omap (route_of (w_db w)) (select (λ _, true) (db_machines (w_db w))) =
    [mkRouteData "acme" "id-4" "blue" "host-a.example.com" "px"]) as E
    by (vm_compute; reflexivity).
  rewrite E in H. split.
  - apply (H "acme" "blue" _ eq_refl)%string. eexists.
    split; [apply list_elem_of_here|]. split; [reflexivity|]. split; reflexivity.
  - destruct (w_kv w2 !! "route:acme:old"%string) as [v|] eqn:Ek; [|done].
    apply (H "acme" "old" v eq_refl)%string in Ek as (r & Hr%list_elem_of_singleton & _ & Em & _).
    subst r. discriminate Em.
Defined.
