(* ===== verification/Runtime.v ===== *)
(** * The machine lifecycle: machines/runtime.go

    RuntimeService's Start, Stop, StopForUpdate, UpgradeWithOperation, Delete,
    the poller that follows a start, and the route cleanup the reconciler
    calls.  The boot data Start assembles for the agent (secrets, credentials,
    seed configuration) is not held by the model: its loaders are calls that
    can only fail, where the code returns their error. *)

From S2P Require Import Prelude Schema HostStore PlacementStore OperationStore.
From S2P Require Import CatalogStore.
From S2P Require Import AccountStore World Fleet GoStrings Versions Routing.

(** [err.Error()], without the interpolated arguments. *)
Fixpoint Error (e : error) : string :=
  match e with
  | ErrText m => m
  | ErrWrap m e' => (m +:+ ": " +:+ Error e')%string
  | ErrNoEligibleHost => "no host available with sufficient capacity"
  | ErrNoRows => "no rows in result set"
  | ErrAlreadyMember => "account member already exists"
  | ErrWorkflowLockHeld => "workflow lock already held"
  | ErrWorkflowLockNotFound => "workflow lock not found"
  | ErrPluginNotFound => "plugin catalog entry not found"
  | ErrPluginStillEnabled => "plugin still enabled on machines"
  | ErrMachinePluginNotFound => "machine plugin not found"
  | ErrUpgradeRestoredPreviousVM => "orchestrator: upgrade failed and previous VM was restored"
  | ErrConflict | ErrForeignKey | ErrCheckViolation | ErrTransient => "database error"
  end%string.

Record StartOptions : Type := mkStartOptions {
  StartOptions_TargetHostID : Z;
  StartOptions_SkipPoll : bool;
  StartOptions_SkipVersionPersist : bool
}.
Definition no_options : StartOptions := mkStartOptions 0 false false.

(** RuntimeService: the dependencies that may be nil are flags or options;
    [rs_version] is the control plane's own pkg/version.Version. *)
Record RuntimeService : Type := mkRuntimeService {
  rs_placement : PlacementConfig;
  rs_agentClient : bool;
  rs_tunnelMgr : bool;
  rs_routing : option RoutingService;
  rs_enableRuntimeVersionResolver : bool;
  rs_openClawManifestURI : string;
  rs_hermesManifestURI : string;
  rs_hermesRootfsManifestURI : string;
  rs_version : string;
  rs_OnRunning : bool
}.

(** The arguments of [go rs.pollVMStatus(...)]. *)
Record PollJob : Type := mkPollJob {
  PollJob_host : Host;
  PollJob_machineID : string;
  PollJob_operationID : string;
  PollJob_placementID : string;
  PollJob_isRestart : bool
}.

Section RuntimeService.
  Context {go_sort : GoSort}.
  Variable rs : RuntimeService.

Definition latestArtifactVersion (kind channel : string) : M string :=
  let! latest := try (call (GetLatestArtifactRelease kind channel)) in
  match latest with
  | Ok r => ret (TrimSpace (ArtifactRelease_Version r))
  | Err _ => ret EmptyString
  end.

Definition resolveRuntimeSelection (machine : Machine) (rootfsDefault : string)
    : M RuntimeSelection :=
  let machineKind := NormalizeMachineKind (Machine_Kind machine) in
  let! latest := try (call (GetLatestArtifactRelease (runtimeArtifactKind machineKind) "stable")) in
  let defaultRuntimeVersion :=
    match latest with Ok r => ArtifactRelease_Version r | Err _ => EmptyString end in
  let selection := MetadataSelection (ResolveMachineRuntime machine
    (mkRuntimeDefaults rootfsDefault defaultRuntimeVersion machineKind)) in
  let selection := selection <| RuntimeSelection_Kind := machineKind |> in
  ret (if String.eqb machineKind MachineKindHermes then
         selection
           <| RuntimeSelection_RootfsManifestURI := rs_hermesRootfsManifestURI rs |>
           <| RuntimeSelection_HermesManifestURI := rs_hermesManifestURI rs |>
       else selection
           <| RuntimeSelection_OpenClawManifestURI := rs_openClawManifestURI rs |>).

Definition requireActiveOperation (machineID operationID : string)
    : M MachineOperation :=
  let! op := wrap "failed to get active operation"
    (call (GetActiveMachineOperation machineID)) in
  if String.eqb (MachineOperation_ID op) operationID then ret op
  else fail (ErrText "another active operation").

Definition new_operation (machineID kind : string) : MachineOperation :=
  mkMachineOperation "" machineID kind "" None None None 0 None.

(** The tokens a machine is started with, generated when missing. *)
Definition ensure_tokens (machine : Machine) : M Machine :=
  match Machine_GatewayToken machine, Machine_ProxyToken machine with
  | Some _, Some _ => ret machine
  | g, p =>
      let! gatewayToken :=
        match g with
        | Some t => ret t
        | None => wrap "failed to generate gateway token" rand_hex
        end in
      let! proxyToken :=
        match p with
        | Some t => ret t
        | None => wrap "failed to generate proxy token" rand_hex
        end in
      wrap "failed to store tokens"
        (call (SetMachineTokens (Machine_ID machine) gatewayToken proxyToken)) ;;
      ret (machine <| Machine_GatewayToken := Some gatewayToken |>
                   <| Machine_ProxyToken := Some proxyToken |>)
  end.

(** [SetupRoute] and the fields of the machine it fills in. *)
Definition setup_route (machine : Machine) : M Machine :=
  match rs_routing rs with
  | None => ret machine
  | Some routing =>
      let! result := wrap "failed to setup route"
        (SetupRoute routing (mkSetupRequest (Machine_ID machine) (Machine_Slug machine))) in
      let set_nonempty v (old : option string) :=
        if String.eqb v "" then old else Some v in
      ret (machine
        <| Machine_TunnelToken := SetupResult_TunnelToken result |>
        <| Machine_SigningKey ::= set_nonempty (SetupResult_SigningKey result) |>
        <| Machine_TunnelID ::= set_nonempty (SetupResult_TunnelID result) |>
        <| Machine_TunnelHostname ::= set_nonempty (SetupResult_VMHostname result) |>)
  end.

(** [account slug ...; rs.routing.TeardownRoute(...)], as Stop, Delete, the
    poller and CleanupMachineRouteAndTunnel do it. *)
Definition teardown_route (machine : Machine) : M unit :=
  match rs_routing rs with
  | None => ret tt
  | Some routing =>
      let! acct := try (call (GetAccount (Machine_AccountID machine))) in
      let accountSlug :=
        match acct with Ok a => Account_Slug a | Err _ => EmptyString end in
      TeardownRoute routing (mkTeardownRequest (Machine_ID machine)
        (Machine_Slug machine) accountSlug (default EmptyString (Machine_TunnelID machine)))
  end.

Definition requireMigration {A} (machine : Machine) (reason : string) : M A :=
  let msg := ("migration required: " +:+ reason)%string in
  ignore (call (UpdateMachineStatus (Machine_ID machine) "error" (Some msg))) ;;
  fail (ErrText msg).

(** Where Start places the machine: on the requested host, on its home host,
    or on a fresh one. *)
Definition choose_host (machine : Machine) (opts : StartOptions)
    (req : PlacementRequest) : M (option Placement * Host * string) :=
  if negb (bool_decide (StartOptions_TargetHostID opts = 0)) then
    wrap "failed to place on target host"
      (Reserve (rs_placement rs) (Machine_ID machine) req)
  else
    match Machine_HostID machine with
    | Some hid =>
        let! prevHost := wrap "failed to look up home host" (call (GetHost hid)) in
        if String.eqb (Host_Status prevHost) "terminated" then
          requireMigration machine "home host terminated"
        else if one_of ["unreachable"; "error"; "draining"]%string (Host_Status prevHost) then
          requireMigration machine ("home host is " +:+ Host_Status prevHost)%string
        else RecoverAffinity (rs_placement rs) (Machine_ID machine) req
    | None =>
        if is_some_b (Machine_ProvisioningCompletedAt machine) then
          requireMigration machine "no host assigned to provisioned machine"
        else Reserve (rs_placement rs) (Machine_ID machine) req
    end.

(** Auto-unpair of a browser VM that is not on the machine's host. *)
Definition auto_unpair (machine : Machine) (host : Host) : M unit :=
  match Machine_BrowserVMID machine with
  | None => ret tt
  | Some bid =>
      let! r := try (call (GetBrowserVM bid)) in
      let! bvm :=
        match r with
        | Ok b => ret (Some b)
        | Err e => if errors_is e ErrNoRows then ret None
                   else fail (ErrWrap "machine.start: look up paired browser VM" e)
        end in
      let bvmHost := b ← bvm; BrowserVM_HostID b in
      if bool_decide (bvmHost = Some (Host_ID host)) then ret tt
      else
        (match bvm, bvmHost with
         | Some b, Some bh =>
             when (rs_agentClient rs) (
               let! oh := try (call (GetHost bh)) in
               match oh with
               | Err _ => ret tt
               | Ok oldHost =>
                   (match Machine_VMIP machine, BrowserVM_VMIP b with
                    | Some mip, Some _ =>
                        ignore (remote (AgentUnpairBrowserVM (Host_ID oldHost)
                          (BrowserVM_ID b) mip))
                    | _, _ => ret tt
                    end) ;;
                   ignore (remote (AgentResetCDPTarget (Host_ID oldHost)
                     (Machine_ID machine)))
               end)
         | _, _ => ret tt
         end) ;;
        wrap "machine.start: auto-unpair browser VM"
          (call (UnpairBrowserVM (Machine_ID machine)))
  end.

(** The agent part of Start: create the VM, record the versions, complete the
    operation or hand it to the poller. *)
Definition create_vm (machine : Machine) (op : MachineOperation)
    (managesOperation : bool) (opts : StartOptions) (isRestart : bool)
    (selection : option RuntimeSelection) (placement : option Placement)
    (host : Host) (vmIP : string) : M (option PollJob) :=
  ignore (remote (AgentDestroyVM (Host_ID host) (Machine_ID machine))) ;;
  let! r := try (remote (AgentCreateVM (Host_ID host) (Machine_ID machine) vmIP)) in
  match r with
  | Err e =>
      ignore (Release (rs_placement rs) (Machine_ID machine)
        (if isRestart then ReleaseSoft else ReleaseHard)) ;;
      (match Machine_TunnelID machine, rs_routing rs with
       | Some tid, Some routing =>
           when (negb isRestart && rs_tunnelMgr rs) (
             let '(vmHostname, sshHostname) := hostnames routing (Machine_Slug machine) in
             ignore (remote (TunnelDelete tid vmHostname sshHostname)) ;;
             ignore (call (ClearMachineTunnel (Machine_ID machine))))
       | _, _ => ret tt
       end) ;;
      fail (ErrWrap "failed to create VM" e)
  | Ok _ =>
      let snapshot :=
        match selection with
        | Some s =>
            if String.eqb (RuntimeSelection_ResolvedRootfsVersion s) ""
            then default EmptyString (Host_SourceImage host)
            else RuntimeSelection_ResolvedRootfsVersion s
        | None => default EmptyString (Host_SourceImage host)
        end in
      let resolvedRuntimeVersion :=
        match selection with
        | Some s =>
            if String.eqb (RuntimeSelection_Kind s) MachineKindHermes &&
               negb (String.eqb (RuntimeSelection_ResolvedHermesVersion s) "")
            then RuntimeSelection_ResolvedHermesVersion s
            else if negb (String.eqb (RuntimeSelection_ResolvedOpenClawVersion s) "")
            then RuntimeSelection_ResolvedOpenClawVersion s
            else rs_version rs
        | None => rs_version rs
        end in
      when (negb (StartOptions_SkipVersionPersist opts))
        (ignore (call (UpdateMachineVersion (Machine_ID machine) snapshot
                         resolvedRuntimeVersion))) ;;
      if StartOptions_SkipPoll opts then
        when managesOperation
          (ignore (call (CompleteMachineOperation (MachineOperation_ID op)
                           "completed" None))) ;;
        ret None
      else
        ret (Some (mkPollJob host (Machine_ID machine)
          (if managesOperation then MachineOperation_ID op else EmptyString)
          (match placement with Some p => Placement_ID p | None => EmptyString end)
          isRestart))
  end.

(** [start] after the operation has been recorded, up to its return. *)
Definition start_body (machine : Machine) (op : MachineOperation)
    (managesOperation : bool) (opts : StartOptions)
    : M (Host * string * option PollJob) :=
  wrap "listing secrets" load ;;
  wrap "listing machine credentials" load ;;
  let! machine := ensure_tokens machine in
  let! machine := setup_route machine in
  let diskMB := if bool_decide (0 < Machine_DataVolumeGB machine)
                then (Machine_DataVolumeGB machine + 3) * 1024 else 0 in
  let req := mkPlacementRequest (Machine_VCPUs machine) (Machine_MemoryMB machine)
    diskMB (default EmptyString (Machine_PreferredRegion machine)) ""
    (MachineOperation_ID op) (StartOptions_TargetHostID opts) false in
  let machineKind := NormalizeMachineKind (Machine_Kind machine) in
  let! selection :=
    if rs_enableRuntimeVersionResolver rs || String.eqb machineKind MachineKindHermes
    then
      let! rootfsDefault := latestArtifactVersion (rootfsArtifactKind machineKind) "stable" in
      let! s := resolveRuntimeSelection machine rootfsDefault in
      ret (Some s)
    else ret None in
  let req := match selection with
    | Some s => req <| PlacementRequest_ExpectedImage :=
                         RuntimeSelection_ResolvedRootfsVersion s |>
    | None => req
    end in
  let! placed := choose_host machine opts req in
  let '(placement, host, vmIP) := placed in
  auto_unpair machine host ;;
  let isRestart := is_some_b (Machine_HostID machine) in
  (if isRestart
   then ignore (call (UpdateMachineStatus (Machine_ID machine) "starting" None))
   else wrap "assemble seed config" load) ;;
  if rs_agentClient rs then
    let! job := create_vm machine op managesOperation opts isRestart selection
                  placement host vmIP in
    ret (host, vmIP, job)
  else ret (host, vmIP, None).

Definition start (machine : Machine) (callerOperationID : string)
    (opts : StartOptions) : M (Host * string * option PollJob) :=
  let managesOperation := String.eqb callerOperationID "" in
  let! op :=
    if managesOperation then
      let! existing := try (call (GetActiveMachineOperation (Machine_ID machine))) in
      match existing with
      | Ok _ => fail (ErrText "machine has in-flight operation")
      | Err _ =>
          wrap "failed to create start operation"
            (call (CreateMachineOperation (new_operation (Machine_ID machine) "start")))
      end
    else requireActiveOperation (Machine_ID machine) callerOperationID in
  let! r := try (start_body machine op managesOperation opts) in
  match r with
  | Ok v => ret v
  | Err e =>
      (* deferred: an error means that no poller was started *)
      when managesOperation
        (ignore (call (CompleteMachineOperation (MachineOperation_ID op) "failed"
                         (Some (Error e))))) ;;
      fail e
  end.

Definition Start (machine : Machine) (opts : StartOptions) :=
  start machine EmptyString opts.
Definition StartWithOperation (machine : Machine) (operationID : string)
    (opts : StartOptions) := start machine operationID opts.

(** Stop the VM on its host: an error only when the host is reachable. *)
Definition stop_vm (machine : Machine) (lookup_required : bool) : M unit :=
  match Machine_HostID machine with
  | Some hid =>
      when (rs_agentClient rs) (
        let! h := try (call (GetHost hid)) in
        match h with
        | Err e =>
            if lookup_required
            then fail (ErrWrap "failed to look up host for VM stop" e) else ret tt
        | Ok host =>
            let! r := try (remote (AgentStopVM (Host_ID host) (Machine_ID machine))) in
            match r with
            | Ok _ => ret tt
            | Err e =>
                if one_of ["unreachable"; "terminated"]%string (Host_Status host)
                then ret tt
                else fail (ErrWrap "failed to stop VM (host reachable)" e)
            end
        end)
  | None => ret tt
  end.

Definition stop_body (machine : Machine) : M unit :=
  stop_vm machine false ;;
  (* Soft release: free capacity but keep host_id and vm_ip *)
  wrap "failed to release machine"
    (Release (rs_placement rs) (Machine_ID machine) ReleaseSoft) ;;
  ignore (teardown_route machine) ;;
  wrap "failed to set machine status to stopped"
    (call (UpdateMachineStatus (Machine_ID machine) "stopped" None)).

(** The deferred completion of Stop and Delete. *)
Definition finish_operation (op : MachineOperation) (body : M unit) : M unit :=
  let! r := try body in
  match r with
  | Ok _ =>
      ignore (call (CompleteMachineOperation (MachineOperation_ID op) "completed" None))
  | Err e =>
      ignore (call (CompleteMachineOperation (MachineOperation_ID op) "failed"
                      (Some (Error e)))) ;;
      fail e
  end.

Definition stop (machine : Machine) (callerOperationID : string) : M unit :=
  if String.eqb callerOperationID "" then
    let! existing := try (call (GetActiveMachineOperation (Machine_ID machine))) in
    match existing with
    | Ok existingOp =>
        if String.eqb (MachineOperation_Kind existingOp) "stop" then
          when (negb (String.eqb (Machine_Status machine) "stopped"))
            (ignore (call (UpdateMachineStatus (Machine_ID machine) "stopped" None)))
        else fail (ErrText "machine has in-flight operation")
    | Err _ =>
        let! op := wrap "failed to create stop operation"
          (call (CreateMachineOperation (new_operation (Machine_ID machine) "stop"))) in
        finish_operation op (stop_body machine)
    end
  else
    requireActiveOperation (Machine_ID machine) callerOperationID ;;
    stop_body machine.

Definition Stop (machine : Machine) : M unit := stop machine EmptyString.
Definition StopWithOperation (machine : Machine) (operationID : string) : M unit :=
  stop machine operationID.

Definition StopForUpdate (machine : Machine) : M unit :=
  stop_vm machine true ;;
  wrap "failed to release machine"
    (Release (rs_placement rs) (Machine_ID machine) ReleaseSoft) ;;
  wrap "failed to set machine status to stopped"
    (call (UpdateMachineStatus (Machine_ID machine) "stopped" None)).

Definition UpgradeWithOperation (machine : Machine) (operationID : string)
    : M (Host * string) :=
  match Machine_HostID machine, Machine_VMIP machine with
  | None, _ => fail (ErrText "machine has no host assignment")
  | Some hid, vmip =>
      if String.eqb (default EmptyString vmip) "" then
        fail (ErrText "machine has no VM IP assignment")
      else
        let vmIP := default EmptyString vmip in
        requireActiveOperation (Machine_ID machine) operationID ;;
        let! host := wrap "look up host" (call (GetHost hid)) in
        if one_of ["terminated"; "unreachable"; "error"; "draining"]%string (Host_Status host)
        then fail (ErrText ("host is " +:+ Host_Status host))
        else
          wrap "listing secrets" load ;;
          wrap "listing machine credentials" load ;;
          let! machine := ensure_tokens machine in
          let! machine :=
            if String.eqb (Machine_TunnelToken machine) ""
            then setup_route machine else ret machine in
          let machineKind := NormalizeMachineKind (Machine_Kind machine) in
          let! _ :=
            if rs_enableRuntimeVersionResolver rs ||
               String.eqb machineKind MachineKindHermes
            then
              let rootfsDefault := firstNonEmptyPtr
                [Machine_ActualRootfsVersion machine;
                 Machine_ResolvedRootfsVersion machine; Machine_RootfsSnapshot machine] in
              let! rootfsDefault :=
                if String.eqb rootfsDefault ""
                then latestArtifactVersion (rootfsArtifactKind machineKind) "stable"
                else ret rootfsDefault in
              let! s := resolveRuntimeSelection machine rootfsDefault in
              ret (Some s)
            else ret None in
          let previousStatus := Machine_Status machine in
          ignore (call (UpdateMachineStatus (Machine_ID machine) "starting" None)) ;;
          if rs_agentClient rs then
            let! r := try (remote (AgentUpgradeVM (Host_ID host) (Machine_ID machine) vmIP)) in
            match r with
            | Err e =>
                ignore (call (UpdateMachineStatus (Machine_ID machine) previousStatus None)) ;;
                fail (ErrWrap "failed to upgrade VM" e)
            | Ok _ => ret (host, vmIP)
            end
          else ret (host, vmIP)
  end.

(** The clean-up part of Delete, up to the deletion of the row. *)
Definition delete_body (machine : Machine) : M unit :=
  (match Machine_HostID machine with
   | Some hid =>
       when (rs_agentClient rs) (
         let! h := try (call (GetHost hid)) in
         match h with
         | Err _ => ret tt
         | Ok host =>
             let! r := try (remote (AgentDestroyVM (Host_ID host) (Machine_ID machine))) in
             match r with
             | Ok _ => ret tt
             | Err e =>
                 if one_of ["unreachable"; "terminated"]%string (Host_Status host)
                 then ret tt
                 else fail (ErrWrap "failed to destroy VM (host reachable)" e)
             end
         end) ;;
       ignore (Release (rs_placement rs) (Machine_ID machine) ReleaseHard)
   | None => ret tt
   end) ;;
  ignore (teardown_route machine) ;;
  (* Clean up GCS backup objects *)
  (match Machine_HostID machine with
   | Some hid =>
       when (rs_agentClient rs) (
         let! h := try (call (GetHost hid)) in
         match h with
         | Err _ => ret tt
         | Ok host =>
             let! listed := try load in
             match listed with
             | Ok _ => ignore (remote (AgentDeleteBackups (Host_ID host) (Machine_ID machine)))
             | Err _ => ret tt
             end
         end)
   | None => ret tt
   end) ;;
  call (DeleteMachine (Machine_ID machine)).

Definition Delete (machine : Machine) : M unit :=
  let! existing := try (call (GetActiveMachineOperation (Machine_ID machine))) in
  (match existing with
   | Ok existingOp =>
       if String.eqb (MachineOperation_Kind existingOp) "stop" &&
          String.eqb (Machine_Status machine) "stopped"
       then ignore (call (CompleteMachineOperation (MachineOperation_ID existingOp)
                            "completed" None))
       else fail (ErrText "machine has in-flight operation")
   | Err _ => ret tt
   end) ;;
  let! op := wrap "failed to create delete operation"
    (call (CreateMachineOperation (new_operation (Machine_ID machine) "delete"))) in
  finish_operation op (delete_body machine).

(** ** The poller *)

(** What the poller sees in a round: the agent's answer (a VM status and its
    error message) or an error. *)
Inductive PollAnswer : Type :=
| PollStatus (status errorMessage : string)
| PollError (msg : string).

Section Poller.
  Variable job : PollJob.

Definition completeOperation (state : string) (errMsg : option string) : M unit :=
  if String.eqb (PollJob_operationID job) "" then ret tt
  else ignore (call (CompleteMachineOperation (PollJob_operationID job) state errMsg)).

Definition releaseMachine : M unit :=
  ignore (Release (rs_placement rs) (PollJob_machineID job)
    (if PollJob_isRestart job then ReleaseSoft else ReleaseHard)).

Definition cleanupTunnel : M unit :=
  if PollJob_isRestart job then ret tt
  else match rs_routing rs with
       | None => ret tt
       | Some _ =>
           let! m := try (call (GetMachine (PollJob_machineID job))) in
           match m with
           | Err _ => ret tt
           | Ok machine => ignore (teardown_route machine)
           end
       end.

(** The end every failing round shares. *)
Definition poll_fail (status msg : string) : M unit :=
  ignore (call (UpdateMachineStatus (PollJob_machineID job) status (Some msg))) ;;
  completeOperation "failed" (Some msg) ;;
  releaseMachine ;;
  cleanupTunnel.

(** [case <-ctx.Done()]: the status update runs under the expired context. *)
Definition poll_timeout (lastErr : option string) : M unit :=
  let msg := match lastErr with
    | Some e => ("timeout: last error was: " +:+ e)%string
    | None => "timeout waiting for VM to become running"%string
    end in
  ignore (call_expired (UpdateMachineStatus (PollJob_machineID job) "error" (Some msg))) ;;
  completeOperation "failed" (Some msg) ;;
  releaseMachine ;;
  cleanupTunnel.

(** The KV route of a machine found running: [Some err] when the write failed. *)
Definition sync_route : M (option error) :=
  match rs_routing rs with
  | None => ret None
  | Some routing =>
      let! m := try (call (GetMachine (PollJob_machineID job))) in
      match m, Host_TunnelURL (PollJob_host job) with
      | Ok machine, Some url =>
          let! a := try (call (GetAccount (Machine_AccountID machine))) in
          match a with
          | Err _ => ret None
          | Ok account =>
              let! r := try (SyncRouteToKV routing (mkSyncKVRequest
                (Account_Slug account) (Machine_Slug machine) (Machine_ID machine) url
                (default EmptyString (Machine_ProxyToken machine)))) in
              match r with Ok _ => ret None | Err e => ret (Some e) end
          end
      | _, _ => ret None
      end
  end.

Definition poll_running : M unit :=
  let! syncErr := sync_route in
  match syncErr with
  | Some e =>
      let msg := ("KV sync failed: " +:+ Error e)%string in
      ignore (call (UpdateMachineStatus (PollJob_machineID job) "error" (Some msg))) ;;
      completeOperation "failed" (Some msg) ;;
      when (rs_agentClient rs)
        (ignore (remote (AgentStopVM (Host_ID (PollJob_host job))
                           (PollJob_machineID job)))) ;;
      releaseMachine ;;
      cleanupTunnel
  | None =>
      when (negb (String.eqb (PollJob_placementID job) ""))
        (ignore (Activate (PollJob_placementID job))) ;;
      ignore (call (UpdateMachineStatus (PollJob_machineID job) "running" None)) ;;
      completeOperation "completed" None ;;
      when (rs_OnRunning rs)
        (emit (OnRunning (PollJob_machineID job) (PollJob_isRestart job)))
  end.

(** The loop: the answers of the rounds that start before the three-minute
    context expires; when they run out the context is done. *)
Fixpoint poll_loop (answers : list PollAnswer) (lastErr : option string)
    (consecutiveErrors : nat) : M unit :=
  match answers with
  | [] => poll_timeout lastErr
  | answer :: rest =>
      emit (AgentGetVM (Host_ID (PollJob_host job)) (PollJob_machineID job)) ;;
      match answer with
      | PollError e =>
          if Nat.leb 30 (S consecutiveErrors) then
            poll_fail "error" ("failed to poll VM status: " +:+ e)%string
          else poll_loop rest (Some e) (S consecutiveErrors)
      | PollStatus status errorMessage =>
          if String.eqb status "running" then poll_running
          else if String.eqb status "error" then
            poll_fail "error" (if String.eqb errorMessage "" then "VM creation failed"%string
                               else errorMessage)
          else if String.eqb status "stopped" then
            poll_fail "stopped" "VM stopped unexpectedly during creation"
          else poll_loop rest lastErr 0
      end
  end.

Definition pollVMStatus (answers : list PollAnswer) : M unit :=
  poll_loop answers None 0.

End Poller.

Definition CleanupMachineRouteAndTunnel (machineID : string) : M unit :=
  let! machine := wrap "get machine" (call (GetMachine machineID)) in
  ignore (teardown_route machine).

End RuntimeService.
