(* ===== verification/RuntimeLemmas.v ===== *)
(** * Lemmas on the machine lifecycle

    What the parts of Start, Stop and Delete leave alone: frame conditions under
    any faults, and that runs without faults stay without faults. *)

From S2P Require Import Prelude Schema HostStore PlacementStore OperationStore.
From S2P Require Import AccountStore StoreStep RecordInv World Fleet FleetLemmas.
From S2P Require Import GoStrings.
From S2P Require Import Versions Routing Runtime.

(** ** Frame conditions

    [quiet R m]: whatever calls fail, the service run [m] relates the databases
    before and after it by [R], and meets no fault of its own making. *)
Definition quiet {A} (R : relation DB) (m : M A) : Prop :=
  steps (on_db R) m ∧ steps (keeps fault_free) m.

Section Quiet.
Context (R : relation DB) `{!PreOrder R}.

Lemma quiet_ret {A} (a : A) : quiet R (ret a).
Proof. split; apply steps_ret, _. Qed.
Lemma quiet_fail {A} e : quiet R (@fail World A e).
Proof. split; apply steps_fail, _. Qed.
Lemma quiet_of_res {A} (r : res A) : quiet R (of_res r).
Proof. split; apply steps_of_res, _. Qed.
Lemma quiet_gets {A} (f : World → A) : quiet R (gets f).
Proof. split; apply steps_gets, _. Qed.
Lemma quiet_bind {A B} (m : M A) (k : A → M B) :
  quiet R m → (∀ a, quiet R (k a)) → quiet R (bind m k).
Proof. intros [H1 H2] Hk. split; apply steps_bind; auto; try apply _; intros a; apply Hk. Qed.
Lemma quiet_try {A} (m : M A) : quiet R m → quiet R (try m).
Proof. intros [H1 H2]. split; by apply steps_try. Qed.
Lemma quiet_wrap {A} msg (m : M A) : quiet R m → quiet R (wrap msg m).
Proof. intros [H1 H2]. split; by apply steps_wrap. Qed.
Lemma quiet_ignore {A} (m : M A) : quiet R m → quiet R (ignore m).
Proof. intros [H1 H2]. split; by apply steps_ignore. Qed.
Lemma quiet_when b m : quiet R m → quiet R (when b m).
Proof. intros [H1 H2]. split; by apply steps_when; [apply _|]. Qed.
Lemma quiet_for_each {A} (xs : list A) body :
  (∀ x, quiet R (body x)) → quiet R (for_each xs body).
Proof. intros H. split; (apply steps_for_each; [apply _|]); intros x; apply H. Qed.
Lemma quiet_call {A} (q : Q A) : steps R q → quiet R (call q).
Proof. intros H. split; [by apply steps_call|apply ff_call]. Qed.
Lemma quiet_call_expired {A} (q : Q A) : quiet R (call_expired q).
Proof. split; [by apply steps_call_expired|apply ff_call_expired]. Qed.
Lemma quiet_remote e : quiet R (remote e).
Proof. split; [by apply steps_remote|apply ff_remote]. Qed.
Lemma quiet_emit e : quiet R (emit e).
Proof. split; [by apply steps_emit|apply ff_emit]. Qed.
Lemma quiet_pop_fault : quiet R pop_fault.
Proof.
  split; [by apply steps_pop_fault|]. intros w Hf. by rewrite pop_fault_free.
Qed.
Lemma quiet_same_db f :
  (∀ w, w_db (f w) = w_db w) → (∀ w, w_faults (f w) = w_faults w) → quiet R (modify f).
Proof.
  intros Hd Hf. split; apply steps_modify; intros w; unfold on_db, keeps, fault_free;
    [by rewrite Hd|by rewrite Hf].
Qed.
Lemma quiet_load : quiet R load.
Proof. split; [by apply steps_load|apply ff_load]. Qed.
Lemma quiet_rand_hex : quiet R rand_hex.
Proof. split; [by apply steps_rand_hex|apply ff_rand_hex]. Qed.
Lemma quiet_rand_int : quiet R rand_int.
Proof. split; [by apply steps_rand_int|apply ff_rand_int]. Qed.
End Quiet.

(** [quiet] along the structure of a service, down to its database calls. *)
Ltac quiet_step :=
  match goal with
  | |- quiet _ (let _ := _ in _) => cbv zeta
  | |- quiet _ (ret _) => apply quiet_ret; typeclasses eauto
  | |- quiet _ (fail _) => apply quiet_fail; typeclasses eauto
  | |- quiet _ (of_res _) => apply quiet_of_res; typeclasses eauto
  | |- quiet _ (gets _) => apply quiet_gets; typeclasses eauto
  | |- quiet _ (bind _ _) => apply quiet_bind; [typeclasses eauto| |intros ?]
  | |- quiet _ (try _) => apply quiet_try
  | |- quiet _ (wrap _ _) => apply quiet_wrap
  | |- quiet _ (ignore _) => apply quiet_ignore
  | |- quiet _ (when _ _) => apply quiet_when; [typeclasses eauto|]
  | |- quiet _ (for_each _ _) => apply quiet_for_each; [typeclasses eauto|intros ?]
  | |- quiet _ (call_expired _) => apply quiet_call_expired; typeclasses eauto
  | |- quiet _ (call _) => apply quiet_call; [typeclasses eauto|]
  | |- quiet _ (remote _) => apply quiet_remote; typeclasses eauto
  | |- quiet _ (emit _) => apply quiet_emit; typeclasses eauto
  | |- quiet _ load => apply quiet_load; typeclasses eauto
  | |- quiet _ rand_hex => apply quiet_rand_hex; typeclasses eauto
  | |- quiet _ rand_int => apply quiet_rand_int; typeclasses eauto
  | |- quiet _ _ => solve [eauto with quiet typeclass_instances nocore]
  | |- quiet _ (match ?x with _ => _ end) => destruct x eqn:?
  end.
Create HintDb quiet.
Ltac quiet_go := repeat quiet_step; try (by frame).

(** Services that do not reach the database. *)
Section NoDatabase.
Context (R : relation DB) `{!PreOrder R}.

Lemma quiet_kv_put key v : quiet R (kv_put key v).
Proof.
  apply quiet_bind; [apply _|by apply quiet_pop_fault|]. intros []; [by apply quiet_fail|].
  by apply quiet_same_db.
Qed.
Lemma quiet_kv_del key : quiet R (kv_del key).
Proof.
  apply quiet_bind; [apply _|by apply quiet_pop_fault|]. intros []; [by apply quiet_fail|].
  by apply quiet_same_db.
Qed.
Lemma quiet_with_retry attempts (f : M unit) e :
  quiet R f → quiet R (with_retry attempts f e).
Proof.
  intros Hf. revert e. induction attempts; intros e; cbn; repeat quiet_step; auto.
Qed.
Lemma quiet_PutRouteSync a m e : quiet R (PutRouteSync a m e).
Proof. apply quiet_with_retry, quiet_kv_put. Qed.
Lemma quiet_DeleteRouteSync a m : quiet R (DeleteRouteSync a m).
Proof. apply quiet_with_retry, quiet_kv_del. Qed.
Lemma quiet_CreateVMTunnel slug : quiet R (CreateVMTunnel slug).
Proof. unfold CreateVMTunnel. repeat quiet_step. Qed.
Lemma quiet_shuffle {A} i (l : list A) : quiet R (shuffle_from i l).
Proof. revert l. induction i; intros l; cbn [shuffle_from]; repeat quiet_step; auto. Qed.
Lemma quiet_rank {go_sort : GoSort} config hosts : quiet R (rank config hosts).
Proof. unfold rank. repeat quiet_step; try apply quiet_shuffle. Qed.
Lemma quiet_SyncRouteToKV s req : quiet R (SyncRouteToKV s req).
Proof. unfold SyncRouteToKV. repeat quiet_step. apply quiet_PutRouteSync. Qed.
End NoDatabase.
#[export] Hint Resolve quiet_kv_put quiet_kv_del quiet_PutRouteSync quiet_DeleteRouteSync
  quiet_CreateVMTunnel quiet_rank quiet_SyncRouteToKV : quiet.


(** ** The operations table

    Of the lifecycle code, only the recording and the completion of an operation
    write it. *)
Section Operations.
Context {go_sort : GoSort} (rs : RuntimeService).

Lemma ops_SetupRoute s req : quiet (same db_operations) (SetupRoute s req).
Proof. unfold SetupRoute, persistRouteState. destruct (hostnames _ _). quiet_go. Qed.
Lemma ops_TeardownRoute s req : quiet (same db_operations) (TeardownRoute s req).
Proof. unfold TeardownRoute. destruct (hostnames _ _). quiet_go. Qed.
Lemma ops_teardown_route machine : quiet (same db_operations) (teardown_route rs machine).
Proof. unfold teardown_route. quiet_go. apply ops_TeardownRoute. Qed.
Lemma ops_Release config id mode : quiet (same db_operations) (Release config id mode).
Proof. unfold Release. quiet_go. Qed.
Lemma ops_try_hosts id req d hosts : quiet (same db_operations) (try_hosts id req d hosts).
Proof. induction hosts; cbn [try_hosts]; quiet_go. Qed.
Lemma ops_Reserve config id req : quiet (same db_operations) (Reserve config id req).
Proof.
  unfold Reserve, placeAutoSelect, placeOnSpecificHost. quiet_go; apply ops_try_hosts.
Qed.
Lemma ops_RecoverAffinity config id req : quiet (same db_operations) (RecoverAffinity config id req).
Proof. unfold RecoverAffinity. quiet_go. Qed.
End Operations.
#[export] Hint Resolve ops_SetupRoute ops_TeardownRoute ops_teardown_route ops_Release
  ops_Reserve ops_RecoverAffinity : quiet.

Section OperationsBodies.
Context {go_sort : GoSort} (rs : RuntimeService).

Lemma ops_ensure_tokens machine : quiet (same db_operations) (ensure_tokens machine).
Proof. unfold ensure_tokens. quiet_go. Qed.
Lemma ops_setup_route machine : quiet (same db_operations) (setup_route rs machine).
Proof. unfold setup_route. quiet_go. Qed.
Lemma ops_latest kind channel : quiet (same db_operations) (latestArtifactVersion kind channel).
Proof. unfold latestArtifactVersion. quiet_go. Qed.
Lemma ops_selection machine d : quiet (same db_operations) (resolveRuntimeSelection rs machine d).
Proof. unfold resolveRuntimeSelection. quiet_go. Qed.
Lemma ops_requireMigration {A} machine reason :
  quiet (same db_operations) (@requireMigration A machine reason).
Proof. unfold requireMigration. quiet_go. Qed.
Lemma ops_choose_host machine opts req :
  quiet (same db_operations) (choose_host rs machine opts req).
Proof. unfold choose_host. quiet_go; apply ops_requireMigration. Qed.
Lemma ops_auto_unpair machine host : quiet (same db_operations) (auto_unpair rs machine host).
Proof. unfold auto_unpair. quiet_go. Qed.
Lemma ops_stop_vm machine b : quiet (same db_operations) (stop_vm rs machine b).
Proof. unfold stop_vm. quiet_go. Qed.
Lemma ops_stop_body machine : quiet (same db_operations) (stop_body rs machine).
Proof. unfold stop_body. quiet_go; apply ops_stop_vm. Qed.
End OperationsBodies.

(** ** Operations in flight *)

(** No operation of the machine but [opid] is active. *)
Definition only_active (machineID opid : string) (db : DB) : Prop :=
  keyed MachineOperation_ID (db_operations db) ∧
  ∀ id o, db_operations db !! id = Some o → MachineOperation_MachineID o = machineID →
    operation_active o = true → id = opid.

Lemma only_active_same machineID opid db db' :
  db_operations db' = db_operations db → only_active machineID opid db →
  only_active machineID opid db'.
Proof. unfold only_active. by intros ->. Qed.
Lemma only_active_nil machineID opid db :
  keyed MachineOperation_ID (db_operations db) → active_operations db machineID = [] →
  only_active machineID opid db.
Proof.
  rewrite active_operations_nil. intros Hk H. split; [done|].
  intros id o Ho Hm Ha. by rewrite (H id o Ho Hm) in Ha.
Qed.

Lemma only_active_sole machineID opid db :
  keyed MachineOperation_ID (db_operations db) →
  MachineOperation_ID <$> active_operations db machineID = [opid] →
  only_active machineID opid db.
Proof.
  intros Hk E. split; [done|]. intros id o Ho Hm Ha.
  assert (o ∈ active_operations db machineID) as Hin.
  { apply elem_of_select. split; [by rewrite Hm, String.eqb_refl, Ha|by exists id]. }
  apply (list_elem_of_fmap_2 MachineOperation_ID) in Hin.
  rewrite E, list_elem_of_singleton in Hin. by rewrite <-Hin, (Hk id o Ho).
Qed.

(** Completing with a final state always takes effect. *)
Lemma CompleteMachineOperation_final id state msg db :
  one_of ["pending"; "in_progress"]%string state = false →
  CompleteMachineOperation id state msg db =
    (Ok tt, db <| db_operations ::= alter (λ o,
       o <| MachineOperation_State := state |> <| MachineOperation_ErrorMessage := msg |>
         <| MachineOperation_CompletedAt := Some (db_now db) |>) id |>).
Proof.
  intros Hs. unfold CompleteMachineOperation, bind, now, gets, get, unique, modify, ret.
  rewrite Hs. cbn. by destruct (db_operations db !! id).
Qed.

Lemma complete_clears machineID opid state msg db :
  one_of ["pending"; "in_progress"]%string state = false →
  only_active machineID opid db →
  active_operations (CompleteMachineOperation opid state msg db).2 machineID = [].
Proof.
  intros Hs [_ Ho]. rewrite CompleteMachineOperation_final by done.
  apply active_operations_nil. cbn. intros id o. rewrite lookup_alter_Some.
  intros [(<-&o'&_&->)|[Hne Hid]] Hm; [exact Hs|].
  destruct (operation_active o) eqn:Ea; [|done]. destruct Hne. symmetry. eauto.
Qed.

(** Recording an operation when none is in flight. *)
Lemma create_only_active op db op' db' :
  keyed MachineOperation_ID (db_operations db) →
  CreateMachineOperation op db = (Ok op', db') →
  only_active (MachineOperation_MachineID op) (MachineOperation_ID op') db'.
Proof.
  intros Hk (_ & Hn & _ & -> & ->)%CreateMachineOperation_ok.
  rewrite active_operations_nil in Hn. split; [by apply keyed_insert|].
  intros id o. cbn. rewrite lookup_insert_Some. intros [[<- _]|[_ Ho]] Hm Ha; [done|].
  by rewrite (Hn id o Ho Hm) in Ha.
Qed.

(** Looking for an operation in flight changes nothing. *)
Lemma GetActive_run machineID db :
  GetActiveMachineOperation machineID db =
  (match head (order_by_desc MachineOperation_CreatedAt (active_operations db machineID)) with
   | Some o => Ok o | None => Err ErrNoRows end, db).
Proof.
  unfold GetActiveMachineOperation, bind, get, query_row, of_res. by destruct (head _).
Qed.
Lemma GetActive_nil machineID db :
  active_operations db machineID = [] →
  GetActiveMachineOperation machineID db = (Err ErrNoRows, db).
Proof. intros H. by rewrite GetActive_run, H. Qed.
Lemma GetActive_some machineID db o :
  (GetActiveMachineOperation machineID db).1 = Ok o → o ∈ active_operations db machineID.
Proof.
  rewrite GetActive_run. cbn. destruct (head _) as [o'|] eqn:E; [|done]. intros [= <-].
  unfold order_by_desc in E.
  rewrite <-(merge_sort_Permutation (key_ge MachineOperation_CreatedAt)).
  destruct (merge_sort _ _); simplify_eq/=. apply list_elem_of_here.
Qed.

(** ** Stop, Delete and a failed Start leave no operation in flight *)

(** What [m] does to the operations when it fails, and in any case. *)
Definition quiet_on_error {A} (m : M A) : Prop :=
  ∀ w e w', m w = (Err e, w') →
    db_operations (w_db w') = db_operations (w_db w) ∧ (fault_free w → fault_free w').

Lemma quiet_error {A} (m : M A) : quiet (same db_operations) m → quiet_on_error m.
Proof.
  intros [H1 H2] w e w' E. specialize (H1 w). specialize (H2 w). rewrite E in H1, H2.
  split; [apply H1|apply H2].
Qed.
Lemma quiet_error_bind {A B} (m : M A) (k : A → M B) :
  quiet (same db_operations) m → (∀ a, quiet_on_error (k a)) → quiet_on_error (bind m k).
Proof.
  intros Hm Hk w e w' [E|(a & w1 & E1 & E)]%bind_err; [by eapply quiet_error|].
  destruct Hm as [H1 H2]. specialize (H1 w). specialize (H2 w). rewrite E1 in H1, H2.
  destruct (Hk a w1 e w' E) as [Eo Hf]. unfold on_db, same, keeps in *. cbn in *.
  split; [congruence|auto].
Qed.
Lemma quiet_error_ok {A} (m : M A) : (∀ w, is_ok (m w).1 = true) → quiet_on_error m.
Proof. intros H w e w' E. specialize (H w). by rewrite E in H. Qed.

Section Releases.
Context {go_sort : GoSort} (rs : RuntimeService).

Lemma create_vm_error machine op managed opts isRestart selection placement host vmIP :
  quiet_on_error (create_vm rs machine op managed opts isRestart selection placement host vmIP).
Proof.
  unfold create_vm. apply quiet_error_bind; [quiet_go|intros _].
  apply quiet_error_bind; [quiet_go|intros [u|e]].
  - apply quiet_error_bind; [quiet_go|intros _]. apply quiet_error_ok. intros w.
    destruct (StartOptions_SkipPoll opts); [|done]. by destruct managed.
  - apply quiet_error. quiet_go.
Qed.

Lemma start_body_error machine op managed opts :
  quiet_on_error (start_body rs machine op managed opts).
Proof.
  assert (∀ (b : bool) (m : M unit), quiet (same db_operations) m →
    quiet (same db_operations) (if b then m else wrap "assemble seed config" load))
    as Hif by (intros [] m Hm; quiet_go).
  unfold start_body.
  do 4 (apply quiet_error_bind;
    [quiet_go; first [apply ops_ensure_tokens|apply ops_setup_route]|intros ?]).
  cbv zeta. apply quiet_error_bind.
  { quiet_go; first [apply ops_latest|apply ops_selection]. }
  intros sel. apply quiet_error_bind; [apply ops_choose_host|].
  intros [[placement host] vmIP]. apply quiet_error_bind; [apply ops_auto_unpair|intros _].
  apply quiet_error_bind; [quiet_go|intros _].
  destruct (rs_agentClient rs); [|by apply quiet_error_ok].
  intros w e w' [E|(job & w1 & _ & E)]%bind_err; [|discriminate E].
  by eapply create_vm_error.
Qed.

(** The operation of a body that runs between the recording and the completion
    of it: no other one of the machine is in flight, and no fault is met. *)
Definition in_flight (machineID opid : string) (w : World) : Prop :=
  fault_free w ∧ only_active machineID opid (w_db w).

Lemma finish_clears machineID op body w :
  steps (keeps (in_flight machineID (MachineOperation_ID op))) body →
  in_flight machineID (MachineOperation_ID op) w →
  active_operations (w_db (finish_operation op body w).2) machineID = [].
Proof.
  intros Hb Hw. apply Hb in Hw. unfold finish_operation. rewrite bind_try.
  destruct (body w) as [[u|e] w1]; cbn in *; destruct Hw as [Hf1 Ho1];
    rewrite ?bind_ignore; cbn; rewrite call_free by done; by apply complete_clears.
Qed.

Lemma quiet_in_flight {A} machineID opid (m : M A) :
  quiet (same db_operations) m → steps (keeps (in_flight machineID opid)) m.
Proof.
  intros [H1 H2] w [Hf Ho]. split; [by apply H2|]. eapply only_active_same; [apply H1|done].
Qed.

Lemma stop_clears machine w :
  fault_free w → keyed MachineOperation_ID (db_operations (w_db w)) →
  active_operations (w_db w) (Machine_ID machine) = [] →
  active_operations (w_db (Stop rs machine w).2) (Machine_ID machine) = [].
Proof.
  intros Hf Hk Hn. unfold Stop, stop. cbn. rewrite bind_try, call_free by done.
  rewrite GetActive_nil by done. cbn. unfold bind, wrap. rewrite call_free by done.
  destruct (CreateMachineOperation _ _) as [[op|e] db1] eqn:E; cbn.
  - apply create_only_active in E; [|done]. apply finish_clears; [|done].
    apply quiet_in_flight, ops_stop_body.
  - by apply CreateMachineOperation_err in E as ->.
Qed.

Lemma start_failure_clears machine opts w e w' :
  fault_free w → keyed MachineOperation_ID (db_operations (w_db w)) →
  active_operations (w_db w) (Machine_ID machine) = [] →
  Start rs machine opts w = (Err e, w') →
  active_operations (w_db w') (Machine_ID machine) = [].
Proof.
  intros Hf Hk Hn. unfold Start, start. cbn. unfold bind at 1. rewrite bind_try, call_free by done.
  rewrite GetActive_nil by done. cbn. unfold wrap. rewrite call_free by done.
  destruct (CreateMachineOperation _ _) as [[op|e1] db1] eqn:E; cbn.
  2:{ intros [= _ <-]. by apply CreateMachineOperation_err in E as ->. }
  apply create_only_active in E; [|done]. rewrite bind_try.
  destruct (start_body _ _ _ _ _ _) as [[v|e1] w1] eqn:Eb; cbn; [done|].
  apply start_body_error in Eb as [Eo Hf1]. unfold when, bind, ignore. cbn. intros [= _ <-].
  rewrite call_free by auto. apply complete_clears; [done|].
  eapply only_active_same; [exact Eo|done].
Qed.
(** Deleting a machine leaves at most the operations there were. *)
Lemma DeleteMachine_in_flight machineID opid id :
  steps (keeps (in_flight machineID opid)) (call (DeleteMachine id)).
Proof.
  intros w [Hf [Hk Ho]]. rewrite call_free by done. split; [done|].
  unfold DeleteMachine, bind, get. cbn. destruct (db_machines (w_db w) !! id); cbn; [|done].
  split; cbn; [by apply keyed_delete_where|].
  intros id' o [Hid _]%lookup_delete_where. by apply Ho.
Qed.

Lemma delete_body_in_flight machineID opid machine :
  steps (keeps (in_flight machineID opid)) (delete_body rs machine).
Proof.
  unfold delete_body.
  do 3 (apply steps_bind; [apply _|apply quiet_in_flight; quiet_go|intros _]).
  apply DeleteMachine_in_flight.
Qed.

Lemma delete_clears machine w :
  fault_free w → keyed MachineOperation_ID (db_operations (w_db w)) →
  active_operations (w_db w) (Machine_ID machine) = [] →
  active_operations (w_db (Delete rs machine w).2) (Machine_ID machine) = [].
Proof.
  intros Hf Hk Hn. unfold Delete. rewrite bind_try, call_free, GetActive_nil by done.
  cbn. unfold bind, wrap. cbn. rewrite call_free by done.
  destruct (CreateMachineOperation _ _) as [[op|e] db1] eqn:E; cbn.
  - apply create_only_active in E; [|done]. apply finish_clears; [|done].
    apply delete_body_in_flight.
  - by apply CreateMachineOperation_err in E as ->.
Qed.
End Releases.
