(* ===== verification/PollerLemmas.v ===== *)
(** * Lemmas on the poller

    What the end of a poll does, in a run without faults. *)

From S2P Require Import Prelude Schema HostStore PlacementStore OperationStore.
From S2P Require Import AccountStore StoreStep RecordInv World Fleet FleetLemmas.
From S2P Require Import GoStrings Versions Routing Runtime RuntimeLemmas.

(** The columns that say where a machine is and what it does. *)
Definition place_columns (m : Machine) : string * option Z * option string :=
  (Machine_Status m, Machine_HostID m, Machine_VMIP m).

(** Route clean-up writes neither the operations, the hosts and the placements
    nor the place of a machine. *)
Definition route_frame : relation DB := λ db db',
  db_operations db' = db_operations db ∧ db_hosts db' = db_hosts db ∧
  db_placements db' = db_placements db ∧
  ∀ id, place_columns <$> db_machines db' !! id = place_columns <$> db_machines db !! id.
#[export] Instance route_frame_preorder : PreOrder route_frame.
Proof.
  split; unfold route_frame; [done|]. intros db1 db2 db3 (E1&E2&E3&E4) (F1&F2&F3&F4).
  repeat split; [congruence..|]. intros id. by rewrite F4.
Qed.

Lemma route_frame_alter f id :
  (∀ m, place_columns (f m) = place_columns m) → steps route_frame (update_machine id f).
Proof.
  intros Hf db. repeat split. intros id'. cbn. rewrite lookup_alter. case_decide; [subst|done].
  destruct (db_machines db !! id'); cbn; [|done]. by rewrite Hf.
Qed.

Lemma route_frame_reads {A} (q : Q A) : (∀ db, (q db).2 = db) → steps route_frame q.
Proof. intros H db. by rewrite H. Qed.

Section Poller.
Context (rs : RuntimeService).

Lemma route_TeardownRoute s req : quiet route_frame (TeardownRoute s req).
Proof.
  unfold TeardownRoute. repeat quiet_step. by apply route_frame_alter.
Qed.
Lemma route_GetMachine id : steps route_frame (GetMachine id).
Proof. apply route_frame_reads. intros db. by rewrite GetMachine_run. Qed.
Lemma GetAccount_run id db :
  GetAccount id db = (match db_accounts db !! id with Some a => Ok a | None => Err ErrNoRows end, db).
Proof.
  unfold GetAccount, bind, get, query_row, of_res. by destruct (db_accounts db !! id).
Qed.
Lemma route_GetAccount id : steps route_frame (GetAccount id).
Proof. apply route_frame_reads. intros db. by rewrite GetAccount_run. Qed.
Lemma route_teardown machine : quiet route_frame (teardown_route rs machine).
Proof.
  unfold teardown_route. repeat quiet_step; [apply route_GetAccount|apply route_TeardownRoute..].
Qed.
Lemma route_cleanupTunnel job : quiet route_frame (cleanupTunnel rs job).
Proof.
  unfold cleanupTunnel. repeat quiet_step; [apply route_GetMachine|apply route_teardown].
Qed.

(** ** The end of a failing poll *)

Variable job : PollJob.
Let mid := PollJob_machineID job.
Let oid := PollJob_operationID job.

Definition poll_mode : ReleaseMode :=
  if PollJob_isRestart job then ReleaseSoft else ReleaseHard.

(** The database after a failing poll, in terms of the one before it. *)
Definition poll_failed (hid : Z) (m : Machine) (db db' : DB) : Prop :=
  db_hosts db' = alter (release_frees (rs_placement rs) poll_mode m) hid (db_hosts db) ∧
  (MachineOperation_State <$> db_operations db' !! oid) =
    (λ _, "failed"%string) <$> db_operations db !! oid ∧
  (∃ m', db_machines db' !! mid = Some m' ∧ Machine_Status m' = "stopped"%string ∧
     Machine_HostID m' = (if PollJob_isRestart job then Some hid else None)) ∧
  ∀ pid p, db_placements db' !! pid = Some p → Placement_MachineID p = mid →
    Placement_ReleasedAt p ≠ None.

Lemma poll_end msg w m hid :
  fault_free w → oid ≠ ""%string → db_machines (w_db w) !! mid = Some m →
  Machine_HostID m = Some hid →
  let '(r, w') := (completeOperation job "failed" (Some msg) ;;
                   releaseMachine rs job ;; cleanupTunnel rs job) w in
  r = Ok tt ∧ poll_failed hid m (w_db w) (w_db w').
Proof.
  intros Hf Ho Hm Hh. unfold completeOperation. fold oid.
  rewrite (proj2 (String.eqb_neq _ _)) by done. rewrite bind_ignore, call_free by done.
  rewrite CompleteMachineOperation_final by done. cbn [snd].
  match goal with |- context [bind _ _ ?x] => set (w1 := x) end.
  unfold releaseMachine. rewrite bind_ignore. fold mid poll_mode.
  pose proof (Release_frees (rs_placement rs) mid poll_mode w1 m hid Hf Hm Hh) as H.
  destruct (Release _ _ _ w1) as [r2 w2]. destruct H as (_ & Hf2 & Eo & Eh & (m' & Hm' & Hs & Hp) & Hr).
  cbn [snd]. destruct (route_cleanupTunnel job) as [Hq _]. specialize (Hq w2).
  assert ((cleanupTunnel rs job w2).1 = Ok tt) as Hok.
  { unfold cleanupTunnel. destruct (PollJob_isRestart job); [done|].
    destruct (rs_routing rs); [|done]. rewrite bind_try. by destruct (call _ w2).1. }
  destruct (cleanupTunnel rs job w2) as [r3 w3]. cbn in Hok. split; [done|].
  destruct Hq as (Qo & Qh & Qp & Qm). cbn in Qo, Qh, Qp, Qm.
  split; [rewrite Qh; exact Eh|]. split; [|split].
  - rewrite Qo, Eo. cbn. rewrite lookup_alter_eq. by destruct (db_operations (w_db w) !! oid).
  - specialize (Qm mid). rewrite Hm' in Qm. apply fmap_Some in Qm as (m3 & Hm3 & [= E1 E2 _]).
    exists m3. split; [done|]. rewrite <-E1, <-E2. split; [done|].
    revert Hp. unfold poll_mode. by destruct (PollJob_isRestart job); intros [? _].
  - intros pid p. rewrite Qp. apply Hr.
Qed.

(** ... and after the status update that precedes it, or a lost one. *)
Lemma poll_fail_run status msg w m hid :
  fault_free w → oid ≠ ""%string → db_machines (w_db w) !! mid = Some m →
  Machine_HostID m = Some hid →
  let '(r, w') := poll_fail rs job status msg w in
  r = Ok tt ∧ poll_failed hid m (w_db w) (w_db w').
Proof.
  intros Hf Ho Hm Hh. unfold poll_fail. rewrite bind_ignore, call_free by done.
  cbn [snd UpdateMachineStatus]. fold mid.
  match goal with |- context [bind _ _ ?x] => set (w1 := x) end.
  assert (∃ m1, db_machines (w_db w1) !! mid = Some m1 ∧ Machine_HostID m1 = Some hid ∧
    release_frees (rs_placement rs) poll_mode m1 = release_frees (rs_placement rs) poll_mode m)
    as (m1 & Hm1 & Hh1 & Ef).
  { unfold w1. cbn. rewrite lookup_alter_eq, Hm. eexists. split; [reflexivity|]. done. }
  pose proof (poll_end msg w1 m1 hid Hf Ho Hm1 Hh1) as H.
  destruct (bind _ _ w1) as [r w']. unfold poll_failed in *. rewrite Ef in H. exact H.
Qed.
Lemma poll_timeout_run lastErr w m hid :
  fault_free w → oid ≠ ""%string → db_machines (w_db w) !! mid = Some m →
  Machine_HostID m = Some hid →
  let '(r, w') := poll_timeout rs job lastErr w in
  r = Ok tt ∧ poll_failed hid m (w_db w) (w_db w').
Proof.
  intros Hf Ho Hm Hh. unfold poll_timeout. cbv zeta. rewrite bind_ignore.
  change ((call_expired _ w).2) with w. by apply poll_end.
Qed.
(** ** The end of a successful poll *)

Definition poll_succeeded (m : Machine) (db db' : DB) : Prop :=
  db_hosts db' = db_hosts db ∧
  (MachineOperation_State <$> db_operations db' !! oid) =
    (λ _, "completed"%string) <$> db_operations db !! oid ∧
  (∃ m', db_machines db' !! mid = Some m' ∧ Machine_Status m' = "running"%string ∧
     Machine_HostID m' = Machine_HostID m ∧ Machine_VMIP m' = Machine_VMIP m) ∧
  ∀ p, db_placements db !! PollJob_placementID job = Some p →
    Placement_State p = "reserved"%string → PollJob_placementID job ≠ ""%string →
    Placement_State <$> db_placements db' !! PollJob_placementID job = Some "active"%string.

(** Without faults the KV write of a running machine succeeds. *)
Lemma sync_route_free w :
  fault_free w →
  let '(r, w') := sync_route rs job w in
  r = Ok None ∧ fault_free w' ∧ w_db w' = w_db w.
Proof.
  intros Hf. unfold sync_route. destruct (rs_routing rs) as [routing|]; [|done].
  unfold bind, try. rewrite call_free, GetMachine_run by done.
  cbn -[call GetAccount SyncRouteToKV].
  destruct (db_machines (w_db w) !! PollJob_machineID job) as [machine|]; [|done].
  destruct (Host_TunnelURL (PollJob_host job)) as [url|]; [|done].
  rewrite call_free, GetAccount_run by done. cbn -[SyncRouteToKV].
  destruct (db_accounts (w_db w) !! Machine_AccountID machine) as [a|]; [|done].
  unfold SyncRouteToKV, PutRouteSync. destruct (negb (RoutingService_kv routing)).
  { cbn. by repeat split. }
  destruct w. unfold fault_free in Hf. cbn in Hf. subst. cbn. by repeat split.
Qed.

(** Activating the placement. *)
Lemma activate_step pid w :
  fault_free w →
  let '(r, w') := when (negb (String.eqb pid "")) (ignore (Activate pid)) w in
  r = Ok tt ∧ fault_free w' ∧ db_hosts (w_db w') = db_hosts (w_db w) ∧
  db_operations (w_db w') = db_operations (w_db w) ∧
  db_machines (w_db w') = db_machines (w_db w) ∧
  ∀ p, db_placements (w_db w) !! pid = Some p → Placement_State p = "reserved"%string →
    pid ≠ ""%string → Placement_State <$> db_placements (w_db w') !! pid = Some "active"%string.
Proof.
  intros Hf. destruct (String.eqb_spec pid "") as [->|Hne]; cbn [negb when]; [done|].
  destruct w as [db fs kv tr rnd ints]. unfold fault_free in Hf. cbn in Hf. subst fs.
  unfold ignore, Activate, ActivatePlacement, wrap, call, pop_fault, now, gets, get, modify,
    ret, fail, bind. cbn.
  destruct (db_placements db !! pid) as [p|] eqn:Ep; cbn; [|done].
  destruct (String.eqb_spec (Placement_State p) "reserved"); cbn.
  - repeat split. intros p' _ _ _. by rewrite lookup_alter_eq, Ep.
  - repeat split. congruence.
Qed.

Lemma poll_running_run w m :
  fault_free w → oid ≠ ""%string → db_machines (w_db w) !! mid = Some m →
  let '(r, w') := poll_running rs job w in
  r = Ok tt ∧ poll_succeeded m (w_db w) (w_db w').
Proof.
  intros Hf Ho Hm. unfold poll_running. pose proof (sync_route_free w Hf) as Hs.
  unfold bind at 1. destruct (sync_route rs job w) as [r1 w1].
  destruct Hs as (-> & Hf1 & Ed). rewrite <-Ed in *. clear Hf Ed w.
  pose proof (activate_step (PollJob_placementID job) w1 Hf1) as Ha.
  unfold bind at 1. destruct (when _ _ w1) as [r2 w2].
  destruct Ha as (-> & Hf2 & Eh & Eo & Em & Hp). rewrite <-Em in Hm.
  unfold completeOperation. fold oid. rewrite (proj2 (String.eqb_neq oid "") Ho).
  unfold poll_succeeded. rewrite <-Eh, <-Eo. clear Eh Eo Em Hf1.
  destruct w2 as [db fs kv tr rnd ints]. unfold fault_free in Hf2. cbn in Hf2. subst fs.
  rewrite !bind_ignore, !call_free by done.
  rewrite CompleteMachineOperation_final by done. cbn in *.
  destruct (rs_OnRunning rs); cbn; (split; [done|]; split; [done|]; split;
    [rewrite lookup_alter_eq; by destruct (db_operations db !! oid)|]; split; [|done]);
    fold mid; rewrite lookup_alter_eq, Hm; cbn; eexists; (split; [reflexivity|done]).
Qed.
Lemma poll_loop_run answers lastErr errs w m hid :
  fault_free w → oid ≠ ""%string → db_machines (w_db w) !! mid = Some m →
  Machine_HostID m = Some hid →
  let '(r, w') := poll_loop rs job answers lastErr errs w in
  r = Ok tt ∧
  ((∃ msg, PollStatus "running" msg ∈ answers) ∧ poll_succeeded m (w_db w) (w_db w') ∨
   poll_failed hid m (w_db w) (w_db w')).
Proof.
  intros Hf Ho Hm Hh. revert lastErr errs w Hf Hm.
  induction answers as [|a answers IH]; intros lastErr errs w Hf Hm; cbn [poll_loop].
  { pose proof (poll_timeout_run lastErr w m hid Hf Ho Hm Hh) as H.
    destruct (poll_timeout _ _ _ _) as [r w']. split; [apply H|right; apply H]. }
  unfold bind at 1, emit at 1, modify. set (w1 := set w_trace _ w).
  change (w_db w) with (w_db w1). change (db_machines (w_db w1) !! mid = Some m) in Hm.
  assert (fault_free w1) as Hf1 by exact Hf. clearbody w1.
  assert (∀ m0 : M unit, (let '(r, w') := m0 w1 in
      r = Ok tt ∧ poll_failed hid m (w_db w1) (w_db w')) →
    let '(r, w') := m0 w1 in r = Ok tt ∧
    ((∃ msg, PollStatus "running" msg ∈ a :: answers) ∧ poll_succeeded m (w_db w1) (w_db w') ∨
     poll_failed hid m (w_db w1) (w_db w'))) as Hfail
    by (intros m0; destruct (m0 w1) as [r w']; intros [? ?]; split; [done|by right]).
  assert (∀ le errs, let '(r, w') := poll_loop rs job answers le errs w1 in r = Ok tt ∧
    ((∃ msg, PollStatus "running" msg ∈ a :: answers) ∧ poll_succeeded m (w_db w1) (w_db w') ∨
     poll_failed hid m (w_db w1) (w_db w'))) as Hrec.
  { intros le n. specialize (IH le n w1 Hf1 Hm). destruct (poll_loop _ _ _ _ _ w1) as [r w'].
    destruct IH as [? [[[msg Hin] ?]|?]]; split; try done; [left|by right].
    split; [|done]. exists msg. by apply list_elem_of_further. }
  destruct a as [status errorMessage|e].
  - destruct (String.eqb_spec status "running") as [->|].
    + pose proof (poll_running_run w1 m Hf1 Ho Hm) as H.
      destruct (poll_running _ _ w1) as [r w']. split; [apply H|left].
      split; [|apply H]. exists errorMessage. apply list_elem_of_here.
    + destruct (String.eqb status "error"); [by apply Hfail, poll_fail_run|].
      destruct (String.eqb status "stopped"); [by apply Hfail, poll_fail_run|]. apply Hrec.
  - destruct (Nat.leb 30 (S errs)); [by apply Hfail, poll_fail_run|apply Hrec].
Qed.
End Poller.
