(* ===== verification/RuntimeSpec.v ===== *)
(** * What the machine lifecycle guarantees

    Theorems on machines/runtime.go: operations as a mutex, the outcomes of the
    poller, and the placements and clean-up of Start, Stop and Delete. *)

From S2P Require Import Prelude Schema HostStore PlacementStore OperationStore.
From S2P Require Import AccountStore StoreStep RecordInv Scenario World Fleet.
From S2P Require Import FleetLemmas.
From S2P Require Import GoStrings Versions Routing Runtime RuntimeLemmas PollerLemmas.

(** ** One operation at a time *)

(** A call that is refused: it fails, and neither the database nor the trace of
    remote calls changes. *)
Definition refused {A} (m : M A) (w : World) : Prop :=
  let '(r, w') := m w in
  is_ok r = false ∧ w_db w' = w_db w ∧ w_trace w' = w_trace w.

Lemma GetActive_same machineID w :
  w_db (call (GetActiveMachineOperation machineID) w).2 = w_db w ∧
  w_trace (call (GetActiveMachineOperation machineID) w).2 = w_trace w.
Proof.
  split; [|apply call_trace].
  pose proof (call_db (GetActiveMachineOperation machineID) w) as H.
  destruct (call _ w) as [r w']. cbn. destruct H as [[_ ->]|[_ ->]]; [|done].
  by rewrite GetActive_run.
Qed.

(** Recording an operation is refused while one is in flight. *)
Lemma create_refused machineID kind w :
  active_operations (w_db w) machineID ≠ [] →
  refused (call (CreateMachineOperation (new_operation machineID kind))) w.
Proof.
  intros Hn. unfold refused. pose proof (call_trace
    (CreateMachineOperation (new_operation machineID kind)) w) as Ht.
  destruct (call _ w) as [[op|e] w'] eqn:E.
  - apply call_ok, CreateMachineOperation_ok in E as (_ & H & _). by destruct Hn.
  - split; [done|]. split; [|exact Ht]. eapply call_err_same; [|exact E].
    intros ???. apply CreateMachineOperation_err.
Qed.

Lemma refused_bind {A B} (m : M A) (k : A → M B) w :
  refused m w → refused (bind m k) w.
Proof. unfold refused, bind. by destruct (m w) as [[a|e] w1]; [intros [? _]|]. Qed.
Lemma refused_wrap {A} msg (m : M A) w : refused m w → refused (wrap msg m) w.
Proof. unfold refused, wrap. by destruct (m w) as [[a|e] w1]. Qed.
(** ... also after a call that changes nothing. *)
Lemma refused_after {A B} (m : M A) (k : res A → M B) w :
  w_db (m w).2 = w_db w → w_trace (m w).2 = w_trace w →
  refused (k (m w).1) (m w).2 → refused (bind (try m) k) w.
Proof.
  intros Hd Ht. unfold refused. rewrite bind_try.
  destruct (k (m w).1 (m w).2) as [r w']. by rewrite Hd, Ht.
Qed.

(** C10: while an operation of a machine is in flight, no other one starts:
    whatever calls fail, Start is refused, and so are Stop and Delete unless the
    operation in flight is itself a stop; the database and the VMs are left
    alone. *)
Theorem busy_machine_refuses {go_sort : GoSort} (rs : RuntimeService) (machine : Machine)
    (opts : StartOptions) (w : World) :
  active_operations (w_db w) (Machine_ID machine) ≠ [] →
  refused (Start rs machine opts) w ∧
  (Forall (λ o, MachineOperation_Kind o ≠ "stop"%string)
     (active_operations (w_db w) (Machine_ID machine)) →
   refused (Stop rs machine) w ∧ refused (Delete rs machine) w).
Proof.
  intros Hn. destruct (GetActive_same (Machine_ID machine) w) as [Hd Ht].
  set (w1 := (call (GetActiveMachineOperation (Machine_ID machine)) w).2) in *.
  assert (∀ kind, refused (call (CreateMachineOperation
    (new_operation (Machine_ID machine) kind))) w1) as Hc
    by (intros kind; apply create_refused; by rewrite Hd).
  assert (∀ o, (call (GetActiveMachineOperation (Machine_ID machine)) w).1 = Ok o →
    o ∈ active_operations (w_db w) (Machine_ID machine)) as Ha.
  { intros o E. destruct (call _ w) as [r w'] eqn:Ec. cbn in E. subst r.
    apply call_ok in Ec. apply GetActive_some. by rewrite Ec. }
  split; [|intros Hk; rewrite Forall_forall in Hk; split].
  - unfold Start, start. cbn. apply refused_bind, refused_after; [done..|]. fold w1.
    destruct (call _ w).1; [done|]. by apply refused_wrap.
  - unfold Stop, stop. cbn. apply refused_after; [done..|]. fold w1.
    destruct ((call _ w).1) as [o|e] eqn:E.
    + by rewrite (proj2 (String.eqb_neq _ _) (Hk _ (Ha o eq_refl))).
    + by apply refused_bind, refused_wrap.
  - unfold Delete. apply refused_after; [done..|]. fold w1.
    destruct ((call _ w).1) as [o|e] eqn:E.
    + rewrite (proj2 (String.eqb_neq _ _) (Hk _ (Ha o eq_refl))). done.
    + change (refused (bind (wrap "failed to create delete operation" (call
        (CreateMachineOperation (new_operation (Machine_ID machine) "delete")))) (λ op,
          finish_operation op (delete_body rs machine))) w1).
      by apply refused_bind, refused_wrap.
Qed.

Definition routing0 : RoutingService := NewWithDomain true true true "example.com".
Definition runtime0 : RuntimeService :=
  mkRuntimeService config0 true true (Some routing0) false "" "" "" "v1" true.
Definition machine_of (db : DB) (id : string) : Machine :=
  default blank_machine (db_machines db !! id).

Lemma busy_machine_refuses_witness :
  refused (Stop runtime0 (machine_of db_placed "id-4")) (world db_placed) ∧
  refused (Delete runtime0 (machine_of db_placed "id-4"))
    (world db_placed).
Proof.
  eapply (busy_machine_refuses (go_sort:=go_sort_merge) runtime0 (machine_of db_placed "id-4")
    no_options (world db_placed)).
  - vm_compute. discriminate.
  - apply (bool_decide_unpack _). vm_compute. exact I.
Defined.

(** C39: Stop, Delete and a failing Start give the machine's lock back: without
    faults, and whatever the outcome, no operation of the machine is in flight
    when they return, so that the next call is not refused. *)
Theorem lifecycle_calls_settle {go_sort : GoSort} (rs : RuntimeService) (machine : Machine)
    (opts : StartOptions) (w : World) :
  fault_free w → keyed MachineOperation_ID (db_operations (w_db w)) →
  active_operations (w_db w) (Machine_ID machine) = [] →
  active_operations (w_db (Stop rs machine w).2) (Machine_ID machine) = [] ∧
  active_operations (w_db (Delete rs machine w).2) (Machine_ID machine) = [] ∧
  (is_ok (Start rs machine opts w).1 = false →
   active_operations (w_db (Start rs machine opts w).2) (Machine_ID machine) = []).
Proof.
  intros Hf Hk Hn. split; [by apply stop_clears|]. split; [by apply delete_clears|].
  destruct (Start rs machine opts w) as [[v|e] w'] eqn:E; [done|]. intros _.
  by eapply start_failure_clears.
Qed.

Lemma lifecycle_calls_settle_witness :
  let machine := machine_of db_running "id-4" in
  active_operations (w_db (Stop runtime0 machine (world db_running)).2) "id-4" = [] ∧
  active_operations (w_db (Delete runtime0 machine (world db_running)).2) "id-4" = [].
Proof.
  pose proof (lifecycle_calls_settle (go_sort:=go_sort_merge) runtime0
    (machine_of db_running "id-4") no_options (world db_running) eq_refl
    (proj1 (reachable_operations_unique _ db_running_reachable))) as H.
  destruct H as (H1 & H2 & _); [vm_compute; reflexivity|].
  split; [exact H1|exact H2].
Defined.

(** ** The poller *)

(** C9: the poller ends every start: without faults, whatever the agent answers,
    it returns, and either the agent reported the VM running, and the operation
    is completed, the machine running in its place and its reserved placement
    active; or the operation is failed, the placement records released, the
    machine's share of the host freed (less its disk on a restart) and the
    machine stopped, also when the poller had set its status to error. *)
Theorem poll_settles_start (rs : RuntimeService) (job : PollJob) (answers : list PollAnswer)
    (w : World) (m : Machine) (hid : Z) :
  fault_free w → PollJob_operationID job ≠ ""%string →
  db_machines (w_db w) !! PollJob_machineID job = Some m → Machine_HostID m = Some hid →
  let '(r, w') := pollVMStatus rs job answers w in
  r = Ok tt ∧
  ((∃ msg, PollStatus "running" msg ∈ answers) ∧
     poll_succeeded job m (w_db w) (w_db w') ∨
   poll_failed rs job hid m (w_db w) (w_db w')).
Proof. intros. by apply poll_loop_run. Qed.

(** The poller of the first start of machine id-4, placed on host 2. *)
Definition job0 : PollJob :=
  mkPollJob (default blank_host (db_hosts db_placed !! 2%Z)) "id-4" "id-6" "id-7" false.

Lemma poll_settles_start_witness :
  let '(r, w') := pollVMStatus runtime0 job0
    [PollStatus "starting" ""; PollError "timeout"; PollStatus "error" "no disk"]
    (world db_placed) in
  r = Ok tt ∧ poll_failed runtime0 job0 2 (machine_of db_placed "id-4")
    (w_db (world db_placed)) (w_db w').
Proof.
  pose proof (poll_settles_start runtime0 job0
    [PollStatus "starting" ""; PollError "timeout"; PollStatus "error" "no disk"]
    (world db_placed) (machine_of db_placed "id-4") 2 eq_refl) as H.
  specialize (H ltac:(intros E; discriminate E)).
  specialize (H ltac:(vm_compute; reflexivity) ltac:(vm_compute; reflexivity)).
  destruct (pollVMStatus _ _ _ _) as [r w']. destruct H as [Hr [[[msg Hin] _]|H]].
  - exfalso. rewrite !elem_of_cons, elem_of_nil in Hin.
    destruct Hin as [Hin|[Hin|[Hin|Hin]]]; [discriminate Hin..|exact Hin].
  - split; [exact Hr|exact H].
Defined.
