(* ===== verification/Reconciler.v ===== *)
(** * The host reconciler: reconciler/host.go

    One tick of the background loop that expires operations, resets stuck
    machines, marks hosts unreachable and terminates hosts whose cloud instance
    is gone. *)

From S2P Require Import Prelude Schema HostStore PlacementStore OperationStore World.
From S2P Require Import Fleet Runtime.

Definition minutes (n : Z) : Z := seconds (60 * n).

Section HostReconciler.
  Variable rs : RuntimeService.
  (** whether the cleanup dependency is configured (non-nil) *)
  Variable machineCleanup : bool.
  Variable staleThreshold : Z.
  (** the cloud provider's answer for an instance (zone, name) *)
  Variable instance_exists : string → string → bool.

(** reconciler/gcp.go: a 404 is "does not exist", any other error an error. *)
Definition GCP_InstanceExists (zone vmName : string) : M bool :=
  remote (CloudInstanceGet zone vmName) ;;
  ret (instance_exists zone vmName).
(** reconciler/heartbeat_checker.go. *)
Definition Heartbeat_InstanceExists (zone vmName : string) : M bool := ret true.

Definition cleanup_machine (machineID : string) : M unit :=
  when machineCleanup (ignore (CleanupMachineRouteAndTunnel rs machineID)).

Definition stuckMachineThreshold : Z := minutes 5.

Definition reset_stuck (m : Machine) : M unit :=
  (* Expire any stale operation *)
  let! op := try (call (GetActiveMachineOperation (Machine_ID m))) in
  (match op with
   | Ok op =>
       ignore (call (CompleteMachineOperation (MachineOperation_ID op) "failed"
         (Some ("auto-expired by reconciler (machine stuck in " +:+ Machine_Status m +:+ ")")%string)))
   | Err _ => ret tt
   end) ;;
  (* Release placement if assigned *)
  when (is_some_b (Machine_HostID m)) (ignore (call (ReleasePlacement (Machine_ID m)))) ;;
  (* Clean up routes/tunnels *)
  cleanup_machine (Machine_ID m) ;;
  (* Reset to error with a descriptive message *)
  let msg := ("auto-reset by reconciler: stuck in " +:+ Machine_Status m +:+ " for >5m0s")%string in
  let! r := try (call (UpdateMachineStatus (Machine_ID m) "error" (Some msg))) in
  match r with
  | Ok _ => emit (ActivityLog "machine.stall_detected" (Machine_HostID m) (Some (Machine_ID m)))
  | Err _ => ret tt
  end.

Definition reconcileStuckMachines : M unit :=
  let! r := try (call (FindStuckMachines stuckMachineThreshold)) in
  match r with
  | Err _ => ret tt
  | Ok stuck => for_each stuck reset_stuck
  end.

Definition cleanupMachinesOnHost (h : Host) : M unit :=
  let! r := try (call (MarkMachinesOnHostError (Host_ID h) "host terminated unexpectedly")) in
  let affectedIDs := match r with Ok ids => ids | Err _ => [] end in
  for_each affectedIDs (λ id,
    emit (ActivityLog "machine.error" (Some (Host_ID h)) (Some id))) ;;
  for_each affectedIDs (λ id,
    ignore (call (ReleasePlacement id)) ;; cleanup_machine id) ;;
  let! l := try (call (ListMachinesByHost (Host_ID h))) in
  match l with
  | Err _ => ret tt
  | Ok machines =>
      for_each machines (λ m,
        when (String.eqb (Machine_Status m) "stopped")
          (ignore (call (UpdateMachineStatus (Machine_ID m) "stopped"
             (Some "data volume lost (host terminated)"%string)))))
  end.

Definition mark_stale (h : Host) : M unit :=
  if Host_MaintenanceMode h then ret tt
  else
    let! r := try (call (UpdateHostStatus (Host_ID h) "unreachable")) in
    match r with
    | Err _ => ret tt
    | Ok _ => emit (ActivityLog "host.unreachable" (Some (Host_ID h)) None)
    end.

(** Non-GCP hosts have no provider API to ask: they stay unreachable. *)
Definition check_unreachable (h : Host) : M unit :=
  let checker :=
    if negb (String.eqb (Host_Provider h) "") && negb (String.eqb (Host_Provider h) "gcp")
    then Heartbeat_InstanceExists else GCP_InstanceExists in
  let! r := try (checker (Host_Zone h) (Host_VMName h)) in
  match r with
  | Err _ => ret tt
  | Ok true => ret tt
  | Ok false =>
      let! u := try (call (UpdateHostStatus (Host_ID h) "terminated")) in
      match u with
      | Err _ => ret tt
      | Ok _ =>
          emit (ActivityLog "host.terminated" (Some (Host_ID h)) None) ;;
          cleanupMachinesOnHost h
      end
  end.

Definition reconcileOnce : M unit :=
  ignore (call (ExpireStaleOperations (minutes 30))) ;;
  reconcileStuckMachines ;;
  (* Step 1: stale hosts are marked unreachable *)
  let! stale := try (call (ListStaleHosts staleThreshold)) in
  (match stale with
   | Err _ => ret tt
   | Ok hosts => for_each hosts mark_stale
   end) ;;
  (* Step 2: unreachable hosts whose instance is gone are terminated *)
  let! unreachable := try (call ListUnreachableHosts) in
  match unreachable with
  | Err _ => ret tt
  | Ok hosts => for_each hosts check_unreachable
  end.

End HostReconciler.
