(* ===== verification/ReconcilerLemmas.v ===== *)
(** * Lemmas on the host reconciler

    The relation between the databases before and after a tick, and that every
    write of the reconciler stays inside it. *)

From S2P Require Import Prelude Schema HostStore PlacementStore OperationStore.
From S2P Require Import AccountStore StoreStep RecordInv TableInv World Fleet.
From S2P Require Import FleetLemmas.
From S2P Require Import GoStrings Versions Routing Runtime RuntimeLemmas PollerLemmas.
From S2P Require Import Reconciler.

(** ** What a tick may change *)

Section Tick.
Context (staleThreshold : Z) (instance_exists : string → string → bool).

(** The host should have sent a heartbeat. *)
Definition overdue (t : time) (h : Host) : bool :=
  String.eqb (Host_Status h) "ready" && negb (Host_MaintenanceMode h) &&
  match Host_LastHeartbeat h with
  | None => true
  | Some hb => bool_decide (hb < t - staleThreshold)
  end.
(** The cloud provider says that the host's instance does not exist. *)
Definition gone (h : Host) : bool :=
  (String.eqb (Host_Provider h) "" || String.eqb (Host_Provider h) "gcp") &&
  negb (instance_exists (Host_Zone h) (Host_VMName h)).
(** The machine has been in transition for more than five minutes. *)
Definition stuck (t : time) (m : Machine) : bool :=
  one_of ["provisioning"; "starting"; "stopping"]%string (Machine_Status m) &&
  bool_decide (default (Machine_CreatedAt m) (Machine_ProvisioningStartedAt m)
               < t - seconds 300).
Definition should_run (m : Machine) : bool :=
  one_of ["running"; "provisioning"; "starting"]%string (Machine_Status m).

(** The columns a tick leaves alone, as the row with the others blanked. *)
Definition host_fixed (h : Host) : Host :=
  h <| Host_Status := EmptyString |> <| Host_StatusMessage := None |>.
Definition machine_fixed (m : Machine) : Machine :=
  m <| Machine_Status := EmptyString |> <| Machine_StatusMessage := None |>
    <| Machine_StoppedAt := None |> <| Machine_TunnelID := None |>
    <| Machine_SigningKey := None |>.
Definition operation_fixed (o : MachineOperation) : MachineOperation :=
  o <| MachineOperation_State := EmptyString |>
    <| MachineOperation_ErrorMessage := None |> <| MachineOperation_CompletedAt := None |>.

Definition host_tick (t : time) (h h' : Host) : Prop :=
  host_fixed h' = host_fixed h ∧
  (Host_Status h' = Host_Status h ∨
   Host_Status h' = "unreachable"%string ∧ overdue t h = true ∨
   Host_Status h' = "terminated"%string ∧ gone h = true ∧
     (Host_Status h = "unreachable"%string ∨ overdue t h = true)).

(** The machine's host is terminated in [db]. *)
Definition on_dead_host (db : DB) (m : Machine) : Prop :=
  ∃ hid h, Machine_HostID m = Some hid ∧ db_hosts db !! hid = Some h ∧
    Host_Status h = "terminated"%string.
(** The tick from [db] to [db'] gives the machine up. *)
Definition given_up (db db' : DB) (m : Machine) : Prop :=
  stuck (db_now db) m = true ∨ should_run m = true ∧ on_dead_host db' m.

Definition machine_tick (db db' : DB) (m m' : Machine) : Prop :=
  machine_fixed m' = machine_fixed m ∧
  (Machine_Status m' = Machine_Status m ∨
   Machine_Status m' = "error"%string ∧ given_up db db' m).
Definition placement_tick (db db' : DB) (p p' : Placement) : Prop :=
  p' = p ∨
  p' = placement_release (db_now db) p ∧ Placement_ReleasedAt p = None ∧
  ∃ m, db_machines db !! Placement_MachineID p = Some m ∧ given_up db db' m.
Definition operation_tick (db : DB) (o o' : MachineOperation) : Prop :=
  operation_fixed o' = operation_fixed o ∧
  (MachineOperation_State o' = MachineOperation_State o ∨
   MachineOperation_State o' = "failed"%string ∧ operation_active o = true ∧
   (MachineOperation_CreatedAt o < db_now db - minutes 30 ∨
    ∃ m, db_machines db !! MachineOperation_MachineID o = Some m ∧
      stuck (db_now db) m = true)).

(** From [db] to [db'] only these rows change, none comes or goes, and no table
    but these four is written. *)
Record tick (db db' : DB) : Prop := mkTick {
  tick_hosts id : option_Forall2 (host_tick (db_now db)) (db_hosts db !! id) (db_hosts db' !! id);
  tick_machines id :
    option_Forall2 (machine_tick db db') (db_machines db !! id) (db_machines db' !! id);
  tick_placements id :
    option_Forall2 (placement_tick db db') (db_placements db !! id) (db_placements db' !! id);
  tick_operations id :
    option_Forall2 (operation_tick db) (db_operations db !! id) (db_operations db' !! id);
  tick_rest : db' = db <| db_hosts := db_hosts db' |> <| db_machines := db_machines db' |>
    <| db_placements := db_placements db' |> <| db_operations := db_operations db' |>
}.

Lemma tick_now db db' : tick db db' → db_now db' = db_now db.
Proof. intros H. by rewrite (tick_rest _ _ H). Qed.

(** ** Ticks compose *)

Lemma host_tick_trans t h1 h2 h3 : host_tick t h1 h2 → host_tick t h2 h3 → host_tick t h1 h3.
Proof.
  intros [F12 S12] [F23 S23]. split; [congruence|].
  destruct h1, h2. cbn in F12. simplify_eq. unfold overdue, gone in *. cbn in *.
  destruct S23 as [->|[[-> O2]|(-> & G2 & U2)]]; [done|..].
  - destruct S12 as [->|[[-> _]|(-> & _)]]; [auto|cbn in O2; discriminate..].
  - destruct S12 as [->|[[-> O1]|(-> & G1 & U1)]]; tauto.
Qed.

Lemma on_dead_host_mono db1 db2 m :
  tick db1 db2 → on_dead_host db1 m → on_dead_host db2 m.
Proof.
  intros T (hid & h & Hm & Hh & Hs). exists hid. pose proof (tick_hosts _ _ T hid) as H.
  rewrite Hh in H. inversion H as [? h' [_ S] E1 E2|]; subst. exists h'. split; [done|].
  split; [done|]. unfold overdue in S. rewrite Hs in S.
  destruct S as [?|[[_ ?]|(_&_&[?|?])]]; done.
Qed.

Lemma given_up_live db db' m : given_up db db' m → Machine_Status m ≠ "error"%string.
Proof. unfold given_up, stuck, should_run. intros [H|[H _]] E; rewrite E in H; done. Qed.

Lemma given_up_mono db1 db2 db3 m :
  tick db2 db3 → given_up db1 db2 m → given_up db1 db3 m.
Proof. intros T [?|[? ?]]; [by left|right]. split; [done|by eapply on_dead_host_mono]. Qed.

(** What decides whether a machine is stuck or dead is in the fixed columns. *)
Lemma given_up_back db1 db2 db3 m m' :
  db_now db2 = db_now db1 → machine_tick db1 db2 m m' → given_up db2 db3 m' →
  given_up db1 db3 m.
Proof.
  intros Ht [F S] G. assert (Machine_Status m' = Machine_Status m) as E.
  { destruct S as [?|[E _]]; [done|]. by apply given_up_live in G. }
  revert G. unfold given_up, stuck, should_run, on_dead_host. rewrite Ht, E.
  destruct m, m'. cbn in F, E |- *. by simplify_eq.
Qed.
Lemma stuck_back db1 db2 m m' :
  db_now db2 = db_now db1 → machine_tick db1 db2 m m' → stuck (db_now db2) m' = true →
  stuck (db_now db1) m = true.
Proof.
  intros Ht [F S] G. assert (Machine_Status m' = Machine_Status m) as E.
  { destruct S as [?|[E _]]; [done|]. unfold stuck in G. rewrite E in G. done. }
  revert G. unfold stuck. rewrite Ht, E. destruct m, m'. cbn in F, E |- *. by simplify_eq.
Qed.

Lemma machine_tick_trans db1 db2 db3 m1 m2 m3 :
  tick db1 db2 → tick db2 db3 → machine_tick db1 db2 m1 m2 → machine_tick db2 db3 m2 m3 →
  machine_tick db1 db3 m1 m3.
Proof.
  intros T12 T23 M12 [F23 S23]. pose proof M12 as [F12 S12]. split; [congruence|].
  destruct S23 as [->|[-> G]].
  - destruct S12 as [->|[-> G]]; [by left|right]. split; [done|by eapply given_up_mono].
  - right. split; [done|]. eapply given_up_back; [by apply tick_now|done..].
Qed.

Lemma tick_machine db db' id m' :
  tick db db' → db_machines db' !! id = Some m' →
  ∃ m, db_machines db !! id = Some m ∧ machine_tick db db' m m'.
Proof.
  intros T Hm. pose proof (tick_machines _ _ T id) as H. rewrite Hm in H.
  inversion H; subst; eauto.
Qed.

Lemma placement_tick_trans db1 db2 db3 p1 p2 p3 :
  tick db1 db2 → tick db2 db3 → placement_tick db1 db2 p1 p2 → placement_tick db2 db3 p2 p3 →
  placement_tick db1 db3 p1 p3.
Proof.
  intros T12 T23 [->|(-> & N1 & m & Hm & G)].
  - intros [->|(-> & N & m' & Hm' & G)]; [by left|right].
    rewrite (tick_now _ _ T12). split; [done|]. split; [done|].
    destruct (tick_machine _ _ _ _ T12 Hm') as (m & Hm & M). exists m. split; [done|].
    eapply given_up_back; [by apply tick_now|done..].
  - intros [->|(_ & N & _)]; [right|done]. split; [done|]. split; [done|]. exists m.
    split; [done|by eapply given_up_mono].
Qed.

Lemma operation_tick_trans db1 db2 o1 o2 o3 :
  tick db1 db2 → operation_tick db1 o1 o2 → operation_tick db2 o2 o3 → operation_tick db1 o1 o3.
Proof.
  intros T [F12 S12] [F23 S23]. split; [congruence|].
  destruct S23 as [->|(-> & A & W)]; [done|right]. split; [done|].
  assert (MachineOperation_State o2 = MachineOperation_State o1) as E.
  { destruct S12 as [?|[E _]]; [done|]. unfold operation_active in A. by rewrite E in A. }
  unfold operation_active in *. rewrite E in A. split; [done|].
  rewrite (tick_now _ _ T) in W.
  assert (MachineOperation_CreatedAt o2 = MachineOperation_CreatedAt o1 ∧
    MachineOperation_MachineID o2 = MachineOperation_MachineID o1) as [E1 E2]
    by (destruct o1, o2; cbn in F12; by simplify_eq).
  rewrite E1, E2 in W. destruct W as [?|(m' & Hm' & S)]; [by left|right].
  destruct (tick_machine _ _ _ _ T Hm') as (m & Hm & M). exists m. split; [done|].
  rewrite <-(tick_now _ _ T) in S. by eapply stuck_back; [apply tick_now| |].
Qed.

#[export] Instance tick_preorder : PreOrder tick.
Proof.
  split.
  - intros db. split.
    + intros id. destruct (db_hosts db !! id); constructor. split; auto.
    + intros id. destruct (db_machines db !! id); constructor. split; auto.
    + intros id. destruct (db_placements db !! id); constructor. by left.
    + intros id. destruct (db_operations db !! id); constructor. split; auto.
    + by destruct db.
  - intros db1 db2 db3 T12 T23. split.
    + intros id. pose proof (tick_hosts _ _ T12 id) as H1.
      pose proof (tick_hosts _ _ T23 id) as H2. rewrite (tick_now _ _ T12) in H2.
      inversion H1 as [h1 h2 R1 E1 E2|E1 E2]; rewrite <-E2 in H2;
        inversion H2; constructor. by eapply host_tick_trans.
    + intros id. pose proof (tick_machines _ _ T12 id) as H1.
      pose proof (tick_machines _ _ T23 id) as H2.
      inversion H1 as [h1 h2 R1 E1 E2|E1 E2]; rewrite <-E2 in H2;
        inversion H2; constructor. by eapply machine_tick_trans.
    + intros id. pose proof (tick_placements _ _ T12 id) as H1.
      pose proof (tick_placements _ _ T23 id) as H2.
      inversion H1 as [h1 h2 R1 E1 E2|E1 E2]; rewrite <-E2 in H2;
        inversion H2; constructor. by eapply (placement_tick_trans db1 db2 db3).
    + intros id. pose proof (tick_operations _ _ T12 id) as H1.
      pose proof (tick_operations _ _ T23 id) as H2.
      inversion H1 as [h1 h2 R1 E1 E2|E1 E2]; rewrite <-E2 in H2;
        inversion H2; constructor. by eapply (operation_tick_trans db1 db2).
    + rewrite (tick_rest _ _ T23), (tick_rest _ _ T12). done.
Qed.

(** ** Writes inside a tick

    [db0] is the database a list of rows was read from, [db] the one it is
    written to. *)
Section Writes.
Context (db0 db : DB) (T : tick db0 db).

Ltac rest := rewrite (tick_rest _ _ T) at 1; reflexivity.

Lemma tick_set_host id f :
  (∀ h c, db_hosts db0 !! id = Some h → host_tick (db_now db0) h c →
     host_tick (db_now db0) h (f c) ∧
     (Host_Status c = "terminated"%string → Host_Status (f c) = "terminated"%string)) →
  tick db0 (db <| db_hosts ::= alter f id |>).
Proof.
  intros Hf. set (db' := db <| db_hosts ::= alter f id |>).
  assert (∀ m, given_up db0 db m → given_up db0 db' m) as Hg.
  { intros m [?|[? (hid & h & ? & Hh & ?)]]; [by left|right]. split; [done|]. exists hid.
    unfold db'. cbn. rewrite lookup_alter. case_decide as E; [subst hid|by exists h].
    exists (f h). rewrite Hh. split; [done|]. split; [done|].
    pose proof (tick_hosts _ _ T id) as Hrow. rewrite Hh in Hrow.
    inversion Hrow as [h0 ? R E1 E2|]; subst. by apply (Hf h0 h). }
  split; [| | |exact (tick_operations _ _ T)|unfold db'; rest].
  - intros id'. pose proof (tick_hosts _ _ T id') as Hrow. cbn. rewrite lookup_alter.
    case_decide as E; [subst id'|done].
    inversion Hrow as [h c R E1 E2|]; constructor. by apply Hf.
  - intros id'. cbn. pose proof (tick_machines _ _ T id') as Hrow.
    inversion Hrow as [m c [F [?|[? G]]] E1 E2|]; constructor; (split; [done|]); auto.
  - intros id'. cbn. pose proof (tick_placements _ _ T id') as Hrow.
    inversion Hrow as [p c [?|(? & ? & m & ? & ?)] E1 E2|]; constructor; [by left|right]. eauto 6.
Qed.

Lemma tick_set_machines ms :
  (∀ id, option_Forall2 (machine_tick db0 db) (db_machines db0 !! id) (ms !! id)) →
  tick db0 (db <| db_machines := ms |>).
Proof.
  intros Hms. split; [exact (tick_hosts _ _ T)|exact Hms|exact (tick_placements _ _ T)|
    exact (tick_operations _ _ T)|rest].
Qed.
Lemma tick_set_placements ps :
  (∀ id, option_Forall2 (placement_tick db0 db) (db_placements db0 !! id) (ps !! id)) →
  tick db0 (db <| db_placements := ps |>).
Proof.
  intros Hps. split; [exact (tick_hosts _ _ T)|exact (tick_machines _ _ T)|exact Hps|
    exact (tick_operations _ _ T)|rest].
Qed.
Lemma tick_set_operations os :
  (∀ id, option_Forall2 (operation_tick db0) (db_operations db0 !! id) (os !! id)) →
  tick db0 (db <| db_operations := os |>).
Proof.
  intros Hos. split; [exact (tick_hosts _ _ T)|exact (tick_machines _ _ T)|
    exact (tick_placements _ _ T)|exact Hos|rest].
Qed.
End Writes.

(** Row by row. *)
Section Rows.
Context {K V : Type} `{Countable K} (R : V → V → Prop) (t0 t : gmap K V).
Hypothesis HR : ∀ k, option_Forall2 R (t0 !! k) (t !! k).

Lemma rows_alter f id :
  (∀ a c, t0 !! id = Some a → R a c → R a (f c)) →
  ∀ k, option_Forall2 R (t0 !! k) (alter f id t !! k).
Proof.
  intros Hf k. rewrite lookup_alter. specialize (HR k). case_decide as E; [subst k|done].
  inversion HR; constructor. auto.
Qed.
Lemma rows_update_where P f :
  (∀ k a c, t0 !! k = Some a → P c = true → R a c → R a (f c)) →
  ∀ k, option_Forall2 R (t0 !! k) (update_where P f t !! k).
Proof.
  intros Hf k. rewrite lookup_update_where. specialize (HR k).
  inversion HR as [a c Ha E1 E2|]; constructor. destruct (P c) eqn:EP; [|done]. eauto.
Qed.
End Rows.
End Tick.

(** ** Runs that stay inside a tick *)

Section Runs.
Context (staleThreshold : Z) (instance_exists : string → string → bool).
Abbreviation tick := (tick staleThreshold instance_exists).

(** The keys the reconciler finds rows by. *)
Definition row_keys (db : DB) : Prop :=
  keyed Host_ID (db_hosts db) ∧ keyed Machine_ID (db_machines db) ∧
  keyed MachineOperation_ID (db_operations db).

Lemma keyed_rows {K V} `{Countable K} (key : V → K) (R : V → V → Prop) (t0 t : gmap K V) :
  (∀ a c, R a c → key c = key a) →
  (∀ k, option_Forall2 R (t0 !! k) (t !! k)) → keyed key t0 → keyed key t.
Proof.
  intros HR Ht Hk k c Hc. specialize (Ht k). rewrite Hc in Ht.
  inversion Ht as [a ? Ha E1 E2|]; subst. rewrite (HR _ _ Ha). by apply Hk.
Qed.
Lemma row_keys_tick db db' : tick db db' → row_keys db → row_keys db'.
Proof.
  intros T (H1 & H2 & H3). split; [|split].
  - eapply keyed_rows; [|exact (tick_hosts _ _ _ _ T)|done]. intros a c [F _].
    destruct a, c. cbn in F. by simplify_eq.
  - eapply keyed_rows; [|exact (tick_machines _ _ _ _ T)|done]. intros a c [F _].
    destruct a, c. cbn in F. by simplify_eq.
  - eapply keyed_rows; [|exact (tick_operations _ _ _ _ T)|done]. intros a c [F _].
    destruct a, c. cbn in F. by simplify_eq.
Qed.

(** The run so far stays inside a tick from [db0]. *)
Definition from (db0 : DB) (w : World) : Prop := tick db0 (w_db w).

Lemma from_tick {A} db0 (m : M A) : steps (on_db tick) m → steps (keeps (from db0)) m.
Proof. intros H w Hw. unfold from in *. etransitivity; [exact Hw|apply H]. Qed.
Lemma from_call {A} db0 (q : Q A) :
  (∀ db, tick db0 db → tick db0 (q db).2) → steps (keeps (from db0)) (call q).
Proof.
  intros H w Hw. unfold from. pose proof (call_db q w) as Hc. destruct (call q w) as [r w'].
  cbn. destruct Hc as [[_ ->]|[_ ->]]; [by apply H|done].
Qed.

(** Rows that have been listed: what the run does with them is judged from the
    database it started from, or from the one they were listed in. *)
Lemma from_listed {A B} db0 (q : Q A) (k : res A → M B) :
  (∀ db, (q db).2 = db) →
  (∀ db a, tick db0 db → (q db).1 = Ok a → steps (keeps (from db0)) (k (Ok a))) →
  (∀ e, steps (keeps (from db0)) (k (Err e))) →
  steps (keeps (from db0)) (bind (try (call q)) k).
Proof.
  intros Hq Ha He w Hw. rewrite bind_try. pose proof (call_db q w) as Hc.
  destruct (call q w) as [r w1]. cbn. destruct Hc as [[-> Ed]|[-> Ed]].
  - rewrite Hq in Ed. destruct (q (w_db w)).1 as [a|e] eqn:E.
    + eapply Ha; [exact Hw|exact E|]. unfold from. by rewrite Ed.
    + apply He. unfold from. by rewrite Ed.
  - apply He. unfold from. by rewrite Ed.
Qed.
Lemma from_relisted_at {A B} db0 (q : Q A) (k : res A → M B) :
  (∀ db, (q db).2 = db) →
  (∀ w a, tick db0 (w_db w) → (q (w_db w)).1 = Ok a →
     tick (w_db w) (w_db (k (Ok a) w).2)) →
  (∀ e, steps (keeps (from db0)) (k (Err e))) →
  steps (keeps (from db0)) (bind (try (call q)) k).
Proof.
  intros Hq Ha He w Hw. rewrite bind_try. pose proof (call_db q w) as Hc.
  destruct (call q w) as [r w1]. cbn. unfold from in *.
  destruct Hc as [[-> Ed]|[-> Ed]]; [rewrite Hq in Ed|apply He; unfold from; by rewrite Ed].
  rewrite <-Ed in *. destruct (q (w_db w1)).1 as [a|e] eqn:E; [|by apply He].
  etransitivity; [exact Hw|by apply Ha].
Qed.
Lemma from_relisted {A B} db0 (q : Q A) (k : res A → M B) :
  (∀ db, (q db).2 = db) →
  (∀ db a, tick db0 db → (q db).1 = Ok a → steps (keeps (from db)) (k (Ok a))) →
  (∀ e, steps (keeps (from db0)) (k (Err e))) →
  steps (keeps (from db0)) (bind (try (call q)) k).
Proof.
  intros Hq Ha He. apply from_relisted_at; [done| |done]. intros w a T E.
  eapply Ha; [exact T|exact E|]. unfold from. reflexivity.
Qed.
Lemma from_each {A} db0 (xs : list A) body :
  (∀ x, x ∈ xs → steps (keeps (from db0)) (body x)) →
  steps (keeps (from db0)) (for_each xs body).
Proof.
  induction xs as [|x xs IH]; intros Hb; cbn; [apply steps_ret, _|].
  apply steps_bind; [apply _|apply Hb; left|intros _]. apply IH. intros y Hy. apply Hb. by right.
Qed.

(** *** The writes *)

Lemma from_set_status db0 id status msg m :
  db_machines db0 !! id = Some m →
  (∀ db c, tick db0 db → machine_tick db0 db m c → String.eqb status "running" = false ∧
     (status = Machine_Status m ∨
      status = "error"%string ∧ given_up db0 db m)) →
  steps (keeps (from db0)) (call (UpdateMachineStatus id status msg)).
Proof.
  intros Hm Hs. apply from_call. intros db T. cbn. apply tick_set_machines; [done|].
  apply rows_alter; [exact (tick_machines _ _ _ _ T)|]. intros a c Ha Hc.
  rewrite Hm in Ha. injection Ha as <-. destruct (Hs db c T Hc) as [Er Hst].
  destruct Hc as [F _]. split; [|exact Hst].
  rewrite <-F. unfold machine_set_status. rewrite Er. by destruct c.
Qed.

Lemma from_release db0 id m :
  db_machines db0 !! id = Some m →
  (∀ db, tick db0 db → given_up db0 db m) →
  steps (keeps (from db0)) (call (ReleasePlacement id)).
Proof.
  intros Hm Hg. apply from_call. intros db T. cbn. apply tick_set_placements; [done|].
  apply rows_update_where; [exact (tick_placements _ _ _ _ T)|].
  intros pid a c Ha [Hid Hact]%andb_prop [->|(-> & _)]; [right|done].
  apply String.eqb_eq in Hid. rewrite (tick_now _ _ _ _ T). split; [done|]. split.
  - by apply bool_decide_eq_true_1 in Hact.
  - exists m. rewrite Hid. auto.
Qed.

Lemma from_expire db0 :
  steps (keeps (from db0)) (call (ExpireStaleOperations (minutes 30))).
Proof.
  apply from_tick, steps_call; [apply _|]. intros db. cbn.
  apply tick_set_operations; [reflexivity|].
  apply rows_update_where; [intros id; destruct (_ !! id); constructor; split; auto|].
  intros k a c _ [Ha Ho]%andb_prop [F S]. apply bool_decide_eq_true_1 in Ho.
  split; [by rewrite <-F|].
  destruct S as [E|(E & _)]; unfold operation_active in *; rewrite E in Ha; [right|done].
  split; [done|]. split; [exact Ha|]. left. destruct a, c. cbn in F, Ho. by simplify_eq.
Qed.

(** The stale operation of a stuck machine. *)
Lemma from_fail_operation db0 db o msg m :
  row_keys db0 → tick db0 db → db_machines db0 !! MachineOperation_MachineID o = Some m →
  stuck (db_now db0) m = true → o ∈ active_operations db (MachineOperation_MachineID o) →
  steps (keeps (from db0)) (call (CompleteMachineOperation (MachineOperation_ID o) "failed" msg)).
Proof.
  intros Hk T Hm Hs Ho. apply from_call. intros db' T'.
  rewrite CompleteMachineOperation_final by done. cbn. apply tick_set_operations; [done|].
  apply rows_alter; [exact (tick_operations _ _ _ _ T')|]. intros a c Ha [F _].
  split; [by rewrite <-F|]. right. split; [done|].
  apply elem_of_select in Ho as [[_ Hact]%andb_prop [k Hko]].
  destruct (row_keys_tick _ _ T Hk) as (_ & _ & Hk').
  pose proof (Hk' _ _ Hko) as E. cbn in E. subst k.
  pose proof (tick_operations _ _ _ _ T (MachineOperation_ID o)) as Hrow.
  rewrite Hko, Ha in Hrow. inversion Hrow as [a' ? [Fo So] E1 E2|]; subst.
  assert (operation_active a = true ∧
    MachineOperation_MachineID a = MachineOperation_MachineID o) as [? E].
  { unfold operation_active in *. destruct So as [E|[E _]]; rewrite E in Hact; [|done].
    split; [done|]. destruct o, a. cbn in Fo. by simplify_eq. }
  split; [done|]. right. exists m. by rewrite E.
Qed.

(** *** Route clean-up *)

Lemma tick_clear_tunnel id : steps tick (ClearMachineTunnel id).
Proof.
  intros db. cbn. apply tick_set_machines; [reflexivity|].
  apply rows_alter; [intros k; destruct (_ !! k); constructor; split; auto|].
  intros a c _ [F S]. split; [|exact S]. by rewrite <-F.
Qed.
Lemma tick_reads {A} (q : Q A) : (∀ db, (q db).2 = db) → steps tick q.
Proof. intros H db. by rewrite H. Qed.
Lemma tick_cleanup rs b id : steps (on_db tick) (cleanup_machine rs b id).
Proof.
  assert (∀ machine, quiet tick (teardown_route rs machine)) as Ht.
  { intros machine. unfold teardown_route, TeardownRoute. repeat quiet_step;
      first [apply tick_clear_tunnel | apply tick_reads; intros db; by rewrite GetAccount_run]. }
  refine (proj1 (_ : quiet tick _)). unfold cleanup_machine, CleanupMachineRouteAndTunnel.
  apply quiet_when; [apply _|]. apply quiet_ignore.
  apply quiet_bind; [apply _| |intros machine; by apply quiet_ignore].
  apply quiet_wrap, quiet_call; [apply _|]. apply tick_reads. intros db.
  by rewrite GetMachine_run.
Qed.
End Runs.
