(* ===== verification/ReconcilerSpec.v ===== *)
(** * What the host reconciler guarantees

    Theorems on reconciler/host.go: what one tick may change, whatever calls
    fail, and that it gives up the machines of a host that is gone. *)

From S2P Require Import Prelude Schema HostStore PlacementStore OperationStore.
From S2P Require Import AccountStore StoreStep RecordInv TableInv Scenario World Fleet.
From S2P Require Import FleetLemmas.
From S2P Require Import GoStrings Versions Routing Runtime RuntimeLemmas PollerLemmas.
From S2P Require Import RuntimeSpec.
From S2P Require Import Reconciler ReconcilerLemmas.

(** ** One tick, whatever calls fail *)

Section Tick.
Context (rs : RuntimeService) (machineCleanup : bool) (staleThreshold : Z).
Context (instance_exists : string → string → bool).
Abbreviation tick := (tick staleThreshold instance_exists).
Abbreviation from := (from staleThreshold instance_exists).

Lemma from_cleanup db0 id : steps (keeps (from db0)) (cleanup_machine rs machineCleanup id).
Proof. apply from_tick, tick_cleanup. Qed.
Lemma from_emit db0 e : steps (keeps (from db0)) (emit e).
Proof. apply from_tick, steps_emit, _. Qed.

Lemma from_reset_stuck db0 m :
  row_keys db0 → db_machines db0 !! Machine_ID m = Some m → stuck (db_now db0) m = true →
  steps (keeps (from db0)) (reset_stuck rs machineCleanup (stuck_row m)).
Proof.
  intros Hk Hm Hs. unfold reset_stuck.
  match goal with |- steps _ (bind (try _) ?k) =>
    assert (∀ op, (∀ o msg, op = Ok o → steps (keeps (from db0))
      (call (CompleteMachineOperation (MachineOperation_ID o) "failed" msg))) →
      steps (keeps (from db0)) (k op)) as Hrest end.
  { intros op Hop. apply steps_bind; [apply _| |intros _].
    { destruct op; [|apply steps_ret, _]. by apply steps_ignore, Hop. }
    apply steps_bind; [apply _| |intros _].
    { apply steps_when, steps_ignore; [apply _|].
      eapply from_release; [exact Hm|]. intros; by left. }
    apply steps_bind; [apply _|apply from_cleanup|intros _]. cbv zeta.
    apply steps_bind; [apply _| |intros [u|e]; [apply from_emit|apply steps_ret, _]].
    apply steps_try. eapply from_set_status; [exact Hm|]. intros db c T _.
    split; [done|]. right. split; [done|by left]. }
  apply from_listed.
  - intros db. by rewrite GetActive_run.
  - intros db o T Ho. apply GetActive_some in Ho. apply (Hrest (Ok o)). intros o' msg [= <-].
    assert (MachineOperation_MachineID o = Machine_ID m) as E.
    { apply elem_of_select in Ho as [[Ho _]%andb_prop _]. by apply String.eqb_eq in Ho. }
    eapply from_fail_operation; [done|exact T|by rewrite E|done|by rewrite E].
  - intros e. apply (Hrest (Err e)). by intros.
Qed.

(** A listed row is a row of the table, under its key. *)
Lemma listed_machine db P m :
  row_keys db → m ∈ select P (db_machines db) →
  P m = true ∧ db_machines db !! Machine_ID m = Some m.
Proof.
  intros (_ & Hk & _) [HP [k Hm]]%elem_of_select. split; [done|].
  pose proof (Hk _ _ Hm) as E. cbn in E. by rewrite E.
Qed.
Lemma listed_host db P h :
  row_keys db → h ∈ select P (db_hosts db) → P h = true ∧ db_hosts db !! Host_ID h = Some h.
Proof.
  intros (Hk & _) [HP [k Hh]]%elem_of_select. split; [done|].
  pose proof (Hk _ _ Hh) as E. cbn in E. by rewrite E.
Qed.

Lemma from_stuck_machines db0 :
  row_keys db0 → steps (keeps (from db0)) (reconcileStuckMachines rs machineCleanup).
Proof.
  intros Hk. apply from_relisted; [done| |intros e; apply steps_ret, _].
  intros db ms T [= <-]. apply from_each. intros r Hr.
  apply list_elem_of_fmap in Hr as (m & -> & Hm).
  assert (row_keys db) as Hk' by (by eapply row_keys_tick).
  apply listed_machine in Hm as [Hs Hm]; [|done]. by apply from_reset_stuck.
Qed.

(** *** Hosts that are gone *)

Lemma given_up_dead db0 db m hid h :
  tick db0 db → db_hosts db0 !! hid = Some h → Host_Status h = "terminated"%string →
  Machine_HostID m = Some hid → should_run m = true → given_up db0 db m.
Proof.
  intros T Hh Hs Hm Hr. right. split; [done|]. eapply on_dead_host_mono; [exact T|].
  by exists hid, h.
Qed.

Lemma from_mark_error db0 hid h msg :
  db_hosts db0 !! hid = Some h → Host_Status h = "terminated"%string →
  steps (keeps (from db0)) (call (MarkMachinesOnHostError hid msg)).
Proof.
  intros Hh Hs. apply from_call. intros db T. cbn. apply tick_set_machines; [done|].
  apply rows_update_where; [exact (tick_machines _ _ _ _ T)|].
  intros k a c Ha [Hhost Hrun]%andb_prop M. apply bool_decide_eq_true_1 in Hhost.
  destruct M as [F S]. split; [by rewrite <-F|right]. split; [done|].
  eapply given_up_dead; [exact T|exact Hh|done| |].
  - destruct a, c. cbn in F, Hhost |- *. by simplify_eq.
  - unfold should_run. destruct S as [<-|[E _]]; [exact Hrun|by rewrite E in Hrun].
Qed.

Lemma from_cleanup_machines db0 h h0 :
  row_keys db0 → db_hosts db0 !! Host_ID h = Some h0 → Host_Status h0 = "terminated"%string →
  ∀ w, w_db w = db0 →
  tick db0 (w_db (cleanupMachinesOnHost rs machineCleanup h w).2).
Proof.
  intros Hk Hh Hs w Hw. unfold cleanupMachinesOnHost. rewrite bind_try.
  pose proof (from_mark_error db0 _ _ "host terminated unexpectedly" Hh Hs w) as H1.
  pose proof (call_db (MarkMachinesOnHostError (Host_ID h) "host terminated unexpectedly") w)
    as Hc.
  destruct (call _ w) as [r w1]. cbn in H1. unfold keeps, from at 1 in H1.
  rewrite Hw in H1. specialize (H1 ltac:(reflexivity)).
  cbn [fst snd]. match goal with |- tick _ (w_db (?m w1).2) => enough (steps (keeps (from db0)) m) as Hm
    by exact (Hm w1 H1) end.
  set (ids := match r with Ok ids => ids | Err _ => [] end).
  assert (∀ id, id ∈ ids → ∃ m, db_machines db0 !! id = Some m ∧ should_run m = true ∧
    Machine_HostID m = Some (Host_ID h)) as Hids.
  { unfold ids. destruct Hc as [[-> _]|[-> _]]; [|by intros id ?%elem_of_nil].
    cbn. rewrite Hw. intros id (m & -> & Hm)%list_elem_of_fmap.
    apply listed_machine in Hm as [[Hhost Hrun]%andb_prop Hm]; [|done].
    apply bool_decide_eq_true_1 in Hhost. by exists m. }
  clearbody ids. clear Hc H1 r Hw w w1. cbv beta zeta.
  apply steps_bind; [apply _| |intros _].
  { apply steps_for_each; [apply _|]. intros id. apply from_emit. }
  apply steps_bind; [apply _| |intros _].
  { apply from_each. intros id Hid. destruct (Hids id Hid) as (m & Hm & Hr & Hhost).
    apply steps_bind; [apply _| |intros _; apply from_cleanup]. apply steps_ignore.
    eapply from_release; [exact Hm|]. intros db T. by eapply given_up_dead. }
  apply from_relisted; [done| |intros e; apply steps_ret, _].
  intros db ms T [= <-]. apply from_each. intros m Hm.
  assert (row_keys db) as Hk' by (by eapply row_keys_tick).
  apply listed_machine in Hm as [_ Hm]; [|done].
  destruct (String.eqb_spec (Machine_Status m) "stopped") as [E|]; [|apply steps_ret, _].
  apply steps_ignore. eapply from_set_status; [exact Hm|]. intros db' c _ _. auto.
Qed.

(** The check of an unreachable host, listed in [db0]. *)
Lemma checker_run h w :
  let checker :=
    if negb (String.eqb (Host_Provider h) "") && negb (String.eqb (Host_Provider h) "gcp")
    then Heartbeat_InstanceExists else GCP_InstanceExists instance_exists in
  w_db (checker (Host_Zone h) (Host_VMName h) w).2 = w_db w ∧
  ((checker (Host_Zone h) (Host_VMName h) w).1 = Ok false → gone instance_exists h = true).
Proof.
  cbv zeta. unfold gone.
  destruct (String.eqb (Host_Provider h) ""), (String.eqb (Host_Provider h) "gcp"); cbn;
    try done; unfold GCP_InstanceExists, remote, pop_fault, bind, emit, modify, ret; cbn;
    destruct (w_faults w) as [|[] ?]; cbn; (split; [done|]); try done; by intros [= ->].
Qed.

Lemma terminate_run db0 h w :
  tick db0 (w_db w) → db_hosts db0 !! Host_ID h = Some h →
  Host_Status h = "unreachable"%string → gone instance_exists h = true →
  let '(r, w') := call (UpdateHostStatus (Host_ID h) "terminated") w in
  tick (w_db w) (w_db w') ∧
  (is_ok r = true → ∃ c, db_hosts (w_db w') !! Host_ID h = Some c ∧
     Host_Status c = "terminated"%string).
Proof.
  intros T Hh Hs Hg. pose proof (tick_hosts _ _ _ _ T (Host_ID h)) as Hrow.
  rewrite Hh in Hrow. inversion Hrow as [? c [F S] E1 E2|]; subst. symmetry in E2.
  assert (Host_Status c = "unreachable"%string ∨ Host_Status c = "terminated"%string) as Hc
    by (rewrite Hs in S; tauto).
  assert (gone instance_exists c = true) as Hgc
    by (revert Hg; unfold gone; destruct h, c; cbn in F |- *; by simplify_eq).
  assert (tick (w_db w) (UpdateHostStatus (Host_ID h) "terminated" (w_db w)).2) as T'.
  { cbn. apply tick_set_host; [reflexivity|]. intros c1 c2 Hc1 [F2 S2].
    rewrite E2 in Hc1. injection Hc1 as <-. split; [|done]. split; [by rewrite <-F2|].
    destruct Hc as [Hc|Hc]; [right; right; auto|by left]. }
  pose proof (call_db (UpdateHostStatus (Host_ID h) "terminated") w) as Hcall.
  destruct (call _ w) as [r w']. destruct Hcall as [[-> ->]|[-> ->]].
  - split; [exact T'|]. intros _. cbn. rewrite lookup_alter_eq, E2. by eexists.
  - by split.
Qed.

Lemma check_unreachable_run db0 h w :
  row_keys db0 → db_hosts db0 !! Host_ID h = Some h → Host_Status h = "unreachable"%string →
  tick db0 (w_db w) →
  tick (w_db w) (w_db (check_unreachable rs machineCleanup instance_exists (host_row db0 h) w).2).
Proof.
  intros Hk Hh Hs Hw. unfold check_unreachable. rewrite bind_try.
  destruct (checker_run h w) as [Ed Hg].
  change (Host_Provider (host_row db0 h)) with (Host_Provider h).
  change (Host_Zone (host_row db0 h)) with (Host_Zone h).
  change (Host_VMName (host_row db0 h)) with (Host_VMName h).
  change (Host_ID (host_row db0 h)) with (Host_ID h).
  match goal with |- context [?f (Host_Zone h) (Host_VMName h) w] =>
    destruct (f (Host_Zone h) (Host_VMName h) w) as [[[]|e] w1] end;
    cbn in Ed, Hg |- *; [by rewrite Ed| |by rewrite Ed].
  rewrite <-Ed in *. clear Ed w. rewrite bind_try.
  pose proof (terminate_run db0 h w1 Hw Hh Hs (Hg eq_refl)) as H.
  destruct (call _ w1) as [[u|e] w2]; cbn in H |- *; destruct H as [T H]; [|exact T].
  destruct (H eq_refl) as (c & Hc & Hsc). etransitivity; [exact T|].
  eapply (from_cleanup_machines _ (host_row db0 h)); [|exact Hc|exact Hsc|reflexivity].
  eapply row_keys_tick, row_keys_tick; [exact T|exact Hw|done].
Qed.

Lemma from_check_unreachable db0 h :
  row_keys db0 → db_hosts db0 !! Host_ID h = Some h → Host_Status h = "unreachable"%string →
  steps (keeps (from db0))
    (check_unreachable rs machineCleanup instance_exists (host_row db0 h)).
Proof.
  intros Hk Hh Hs w Hw. unfold from in *. etransitivity; [exact Hw|].
  by apply check_unreachable_run.
Qed.
End Tick.

(** *** Hosts that are overdue *)

Lemma tick_weaken st ie db db' : tick st (λ _ _, true) db db' → tick st ie db db'.
Proof.
  intros T. split; [|exact (tick_machines _ _ _ _ T)|exact (tick_placements _ _ _ _ T)|
    exact (tick_operations _ _ _ _ T)|exact (tick_rest _ _ _ _ T)].
  intros id. pose proof (tick_hosts _ _ _ _ T id) as H.
  inversion H as [h c [F S] E1 E2|]; constructor. split; [done|].
  destruct S as [?|[?|(_ & G & _)]]; [auto..|]. unfold gone in G.
  by rewrite andb_false_r in G.
Qed.

Lemma from_mark_stale st db0 h :
  db_hosts db0 !! Host_ID h = Some h → overdue st (db_now db0) h = true →
  steps (keeps (from st (λ _ _, true) db0)) (mark_stale (host_row db0 h)).
Proof.
  intros Hh Ho. unfold mark_stale.
  destruct (Host_MaintenanceMode (host_row db0 h)); [apply steps_ret, _|].
  apply steps_bind; [apply _| |intros [u|e]; [apply from_tick, steps_emit, _|apply steps_ret, _]].
  apply steps_try, from_call. intros db T. cbn. apply tick_set_host; [done|].
  intros h' c Hh' [F S]. rewrite Hh in Hh'. injection Hh' as <-. split.
  - split; [by rewrite <-F|]. right; left. auto.
  - intros E. rewrite E in S. destruct S as [E'|[[? _]|(_ & G & _)]]; [|done|].
    + unfold overdue in Ho. by rewrite <-E' in Ho.
    + unfold gone in G. by rewrite andb_false_r in G.
Qed.

Section Once.
Context (rs : RuntimeService) (machineCleanup : bool) (staleThreshold : Z).
Context (instance_exists : string → string → bool).
Abbreviation tick := (tick staleThreshold instance_exists).
Abbreviation from := (from staleThreshold instance_exists).

Lemma from_stale_hosts db0 (k : unit → M unit) :
  row_keys db0 → (∀ db, row_keys db → steps (keeps (from db)) (k tt)) →
  steps (keeps (from db0)) (
    let! stale := try (call (ListStaleHosts staleThreshold)) in
    (match stale with
     | Err _ => ret tt
     | Ok hosts => for_each hosts mark_stale
     end) ;; k tt).
Proof.
  intros Hk Hrest. apply from_relisted_at; [done| |].
  2:{ intros e. apply steps_bind; [apply _|apply steps_ret, _|intros []; by apply Hrest]. }
  intros w hosts T [= <-]. assert (row_keys (w_db w)) as Hk' by (by eapply row_keys_tick).
  match goal with |- context [for_each ?l mark_stale] => set (hosts := l) end.
  assert (tick (w_db w) (w_db (for_each hosts mark_stale w).2)) as Hloop.
  { apply tick_weaken. apply (from_each _ _ (w_db w) hosts mark_stale); [|by unfold
      ReconcilerLemmas.from].
    intros r Hr. apply list_elem_of_fmap in Hr as (h & -> & Hh).
    apply listed_host in Hh as [Ho Hh]; [|done]. by apply from_mark_stale. }
  unfold bind. destruct (for_each hosts mark_stale w) as [[[]|e] w1]; cbn in Hloop; [|exact Hloop].
  etransitivity; [exact Hloop|]. apply (Hrest (w_db w1)); [by eapply row_keys_tick|].
  unfold ReconcilerLemmas.from. reflexivity.
Qed.

Lemma from_unreachable_hosts db0 :
  row_keys db0 → steps (keeps (from db0)) (
    let! unreachable := try (call ListUnreachableHosts) in
    match unreachable with
    | Err _ => ret tt
    | Ok hosts => for_each hosts (check_unreachable rs machineCleanup instance_exists)
    end).
Proof.
  intros Hk. apply from_relisted; [done| |intros e; apply steps_ret, _].
  intros db hosts T [= <-]. assert (row_keys db) as Hk' by (by eapply row_keys_tick).
  apply from_each. intros r Hr. apply list_elem_of_fmap in Hr as (h & -> & Hh).
  apply listed_host in Hh as [Hs Hh]; [|done]. apply from_check_unreachable; [done..|].
  by apply String.eqb_eq.
Qed.
End Once.


Lemma row_keys_reachable db : reachable db → row_keys db.
Proof. intros (H1 & H2 & _ & _ & _ & H6 & _)%reachable_keyed. by split. Qed.

(** Machine id-4 runs on host 2, which no longer answers. *)
Definition db_lost : DB := exec_all [OpUpdateHostStatus 2 "unreachable"] db_running.
Lemma db_lost_reachable : reachable db_lost.
Proof. apply exec_all_reachable; [apply db_running_reachable|by repeat split]. Qed.
Definition no_instance (zone vmName : string) : bool := false.


(** ** A host whose instance is gone *)

(** No machine starts to run in a tick. *)
Definition calm : relation DB := λ db db',
  ∀ id m', db_machines db' !! id = Some m' →
    ∃ m, db_machines db !! id = Some m ∧ Machine_HostID m' = Machine_HostID m ∧
      (should_run m' = true → should_run m = true).
#[export] Instance calm_preorder : PreOrder calm.
Proof.
  split; [by intros db id m Hm; exists m|].
  intros db1 db2 db3 H12 H23 id m3 Hm3. destruct (H23 id m3 Hm3) as (m2 & Hm2 & E2 & R2).
  destruct (H12 id m2 Hm2) as (m1 & Hm1 & E1 & R1). exists m1.
  split; [done|]. split; [congruence|auto].
Qed.

Lemma calm_update id f :
  (∀ m, Machine_HostID (f m) = Machine_HostID m ∧ (should_run (f m) = true → should_run m = true)) →
  steps calm (update_machine id f).
Proof.
  intros Hf db k m'. cbn. rewrite lookup_alter. case_decide as E; [subst k|by exists m'].
  intros (m & Hm & ->)%fmap_Some. exists m. split; [done|apply Hf].
Qed.
Lemma calm_status id status msg :
  one_of ["running"; "provisioning"; "starting"]%string status = false →
  steps calm (UpdateMachineStatus id status msg).
Proof.
  intros Hs db. apply (calm_update id (machine_set_status (db_now db) status msg)).
  intros m. split; [done|].
  unfold should_run. cbn -[one_of]. by rewrite Hs.
Qed.
Lemma calm_same {A} (q : Q A) : steps (same db_machines) q → steps calm q.
Proof. intros H db id m'. rewrite (H db). intros Hm. by exists m'. Qed.
Lemma same_GetMachine id : steps (same db_machines) (GetMachine id).
Proof. intros db. by rewrite GetMachine_run. Qed.
Lemma same_GetAccount id : steps (same db_machines) (GetAccount id).
Proof. intros db. by rewrite GetAccount_run. Qed.
Lemma calm_mark hid msg : steps calm (MarkMachinesOnHostError hid msg).
Proof.
  intros db id m'. cbn. rewrite lookup_update_where. intros (m & Hm & ->)%fmap_Some.
  exists m. split; [done|]. by destruct (_ && _).
Qed.

(** Every call of the reconciler is calm. *)
Ltac calm_call :=
  first [ apply calm_status; reflexivity | apply calm_mark
        | apply calm_same; by frame | apply calm_update; by intros ? ].
Ltac calm_go := repeat first [quiet_step | calm_call].

Section Calm.
Context (rs : RuntimeService) (machineCleanup : bool) (instance_exists : string → string → bool).

Lemma calm_cleanup id : quiet calm (cleanup_machine rs machineCleanup id).
Proof.
  unfold cleanup_machine, CleanupMachineRouteAndTunnel, teardown_route, TeardownRoute.
  repeat quiet_step.
  - apply calm_same, same_GetMachine.
  - apply calm_same, same_GetAccount.
  - by apply calm_update.
Qed.
Lemma calm_reset_stuck m : quiet calm (reset_stuck rs machineCleanup m).
Proof. unfold reset_stuck. calm_go; apply calm_cleanup. Qed.
Lemma calm_cleanup_machines h : quiet calm (cleanupMachinesOnHost rs machineCleanup h).
Proof. unfold cleanupMachinesOnHost. calm_go; apply calm_cleanup. Qed.
Lemma calm_check h : quiet calm (check_unreachable rs machineCleanup instance_exists h).
Proof.
  unfold check_unreachable. cbv zeta. apply quiet_bind; [apply _| |intros r].
  - apply quiet_try. destruct (_ && _); unfold Heartbeat_InstanceExists, GCP_InstanceExists; calm_go.
  - calm_go; apply calm_cleanup_machines.
Qed.
End Calm.

(** Runs that never fail. *)
Definition settles (m : M unit) : Prop := ∀ w, is_ok (m w).1 = true.
Lemma settles_bind (m : M unit) k : settles m → (∀ u, settles (k u)) → settles (bind m k).
Proof. intros Hm Hk w. unfold bind. specialize (Hm w). destruct (m w) as [[]]; [apply Hk|done]. Qed.
Lemma settles_try {A} (m : M A) k : (∀ r, settles (k r)) → settles (bind (try m) k).
Proof. intros Hk w. rewrite bind_try. apply Hk. Qed.
Lemma settles_each {A} (xs : list A) body : (∀ x, settles (body x)) → settles (for_each xs body).
Proof. intros Hb. induction xs; [done|]. by apply settles_bind. Qed.
Ltac settle :=
  repeat match goal with
  | |- settles (let _ := _ in _) => cbv zeta
  | |- settles (bind (try _) _) => apply settles_try; intros ?
  | |- settles (bind _ _) => apply settles_bind; [|intros ?]
  | |- settles (for_each _ _) => apply settles_each; intros ?
  | |- settles (when ?b _) => destruct b; [cbn [when]|done]
  | |- settles (match ?x with _ => _ end) => destruct x
  | |- settles _ => done
  end.

Section GivenUp.
Context (rs : RuntimeService) (machineCleanup : bool) (staleThreshold : Z).
Context (instance_exists : string → string → bool).
Abbreviation tick := (tick staleThreshold instance_exists).

Lemma settles_reset_stuck m : settles (reset_stuck rs machineCleanup m).
Proof. unfold reset_stuck, cleanup_machine. settle. Qed.
Lemma settles_check h : settles (check_unreachable rs machineCleanup instance_exists h).
Proof. unfold check_unreachable, cleanupMachinesOnHost, cleanup_machine. settle. Qed.

(** The host is terminated and no machine of it is meant to run. *)
Definition dead (hid : Z) (db : DB) : Prop :=
  (Host_Status <$> db_hosts db !! hid = Some "terminated"%string) ∧
  ∀ id m, db_machines db !! id = Some m → Machine_HostID m = Some hid → should_run m = false.

Lemma terminated_mono db db' hid :
  tick db db' → Host_Status <$> db_hosts db !! hid = Some "terminated"%string →
  Host_Status <$> db_hosts db' !! hid = Some "terminated"%string.
Proof.
  intros T (h & Hh & Hs)%fmap_Some. pose proof (tick_hosts _ _ _ _ T hid) as H.
  rewrite Hh in H. inversion H as [? h' [_ S] E1 E2|]; subst. cbn. f_equal.
  unfold overdue in S. rewrite <-Hs in S. destruct S as [?|[[_ ?]|(? & _)]]; done.
Qed.
Lemma idle_mono db db' hid :
  calm db db' →
  (∀ id m, db_machines db !! id = Some m → Machine_HostID m = Some hid → should_run m = false) →
  ∀ id m, db_machines db' !! id = Some m → Machine_HostID m = Some hid → should_run m = false.
Proof.
  intros C Hi id m' Hm' Hh. destruct (C id m' Hm') as (m & Hm & E & R).
  rewrite E in Hh. destruct (should_run m'); [|done]. rewrite <-(Hi id m Hm Hh). by rewrite R.
Qed.
Lemma dead_mono db db' hid : tick db db' → calm db db' → dead hid db → dead hid db'.
Proof. intros T C [Hs Hi]. split; [by eapply terminated_mono|by eapply idle_mono]. Qed.

Lemma cleanup_idle h w :
  fault_free w →
  ∀ id m, db_machines (w_db (cleanupMachinesOnHost rs machineCleanup h w).2) !! id = Some m →
    Machine_HostID m = Some (Host_ID h) → should_run m = false.
Proof.
  intros Hf. unfold cleanupMachinesOnHost. rewrite bind_try, call_free by done. cbn [fst snd].
  match goal with |- context [?k ?w1] => enough (quiet calm k) as [Hq _];
    [apply (idle_mono (w_db w1)); [apply (Hq w1)|]|] end.
  - intros id m. cbn. rewrite lookup_update_where. intros (c & Hc & ->)%fmap_Some.
    destruct (bool_decide_reflect (Machine_HostID c = Some (Host_ID h))); cbn; [|by intros].
    unfold should_run. destruct (one_of _ (Machine_Status c)) eqn:E; [by intros|].
    cbn. by rewrite E.
  - cbv beta zeta. calm_go; apply calm_cleanup.
Qed.

Lemma bind_emit {A} e (k : unit → M A) w : bind (emit e) k w = k tt (w <| w_trace ::= cons e |>).
Proof. done. Qed.

(** Without faults, the check of a host that is gone kills it. *)
Lemma check_kills db0 h w :
  fault_free w → row_keys db0 → tick db0 (w_db w) →
  db_hosts db0 !! Host_ID h = Some h → Host_Status h = "unreachable"%string →
  gone instance_exists h = true →
  dead (Host_ID h)
    (w_db (check_unreachable rs machineCleanup instance_exists (host_row db0 h) w).2).
Proof.
  intros Hf Hk T Hh Hs Hg. unfold check_unreachable.
  change (Host_Provider (host_row db0 h)) with (Host_Provider h).
  change (Host_Zone (host_row db0 h)) with (Host_Zone h).
  change (Host_VMName (host_row db0 h)) with (Host_VMName h).
  change (Host_ID (host_row db0 h)) with (Host_ID h).
  assert (∃ w1, fault_free w1 ∧ w_db w1 = w_db w ∧
    GCP_InstanceExists instance_exists (Host_Zone h) (Host_VMName h) w = (Ok false, w1))
    as (w1 & Hf1 & Ed & Ec).
  { unfold GCP_InstanceExists, bind. rewrite remote_free by done. unfold gone in Hg.
    apply andb_prop in Hg as [_ Hg]. rewrite negb_true_iff in Hg.
    eexists. split; [|split; [|unfold ret; rewrite Hg; reflexivity]]; [exact Hf|done]. }
  assert (negb (String.eqb (Host_Provider h) "") && negb (String.eqb (Host_Provider h) "gcp")
    = false) as -> by (unfold gone in Hg; destruct (String.eqb (Host_Provider h) ""),
      (String.eqb (Host_Provider h) "gcp"); cbn in *; congruence).
  rewrite bind_try, Ec. cbn [fst snd]. rewrite <-Ed in *. clear Ec Ed.
  pose proof (terminate_run staleThreshold instance_exists db0 h w1 T Hh Hs Hg) as Ht.
  rewrite bind_try. rewrite call_free in * by done. cbn [fst snd UpdateHostStatus] in *.
  set (w2 := w1 <| w_db := _ |>) in *. destruct Ht as [T2 Ht]. cbn [is_ok update_host modify fst] in *.
  destruct (Ht eq_refl) as (c & Hc & Hsc). 
  change (UpdateHostStatus (Host_ID h) "terminated" (w_db w1)).1 with (Ok tt). cbv iota.
  rewrite bind_emit.
  set (w3 := set w_trace (cons _) w2). change (w_db w2) with (w_db w3) in *.
  assert (fault_free w3) as Hf3 by exact Hf1. clearbody w3. clear w2.
  split; [|by apply (cleanup_idle (host_row db0 h))].
  eapply terminated_mono; [|rewrite Hc; cbn; by rewrite Hsc].
  eapply (from_cleanup_machines _ _ _ _ _ (host_row db0 h)); [|exact Hc|exact Hsc|reflexivity].
  eapply row_keys_tick, row_keys_tick; [exact T2|exact T|done].
Qed.

(** ... also when it is one of many. *)
Lemma check_all_run db0 rows :
  row_keys db0 →
  (∀ r, r ∈ rows → ∃ h, r = host_row db0 h ∧ db_hosts db0 !! Host_ID h = Some h ∧
     Host_Status h = "unreachable"%string) →
  ∀ w, tick db0 (w_db w) → tick (w_db w)
    (w_db (for_each rows (check_unreachable rs machineCleanup instance_exists) w).2).
Proof.
  intros Hk. induction rows as [|r rows IH]; intros Hrows w T; cbn [for_each]; [reflexivity|].
  destruct (Hrows r ltac:(left)) as (h & -> & Hh & Hs). unfold bind.
  pose proof (check_unreachable_run rs machineCleanup staleThreshold instance_exists
    db0 h w Hk Hh Hs T) as T1.
  destruct (check_unreachable _ _ _ _ w) as [[[]|e] w1]; cbn in *; [|exact T1].
  etransitivity; [exact T1|]. apply IH; [|by etransitivity].
  intros r Hr. apply Hrows. by right.
Qed.
Lemma check_all_kills db0 rows h w :
  row_keys db0 →
  (∀ r, r ∈ rows → ∃ h, r = host_row db0 h ∧ db_hosts db0 !! Host_ID h = Some h ∧
     Host_Status h = "unreachable"%string) →
  host_row db0 h ∈ rows → db_hosts db0 !! Host_ID h = Some h →
  Host_Status h = "unreachable"%string → gone instance_exists h = true →
  fault_free w → tick db0 (w_db w) →
  dead (Host_ID h)
    (w_db (for_each rows (check_unreachable rs machineCleanup instance_exists) w).2).
Proof.
  intros Hk Hrows Hin Hh Hs Hg. revert w. induction rows as [|r rows IH]; [by apply elem_of_nil in Hin|].
  intros w Hf T. cbn [for_each]. unfold bind.
  pose proof (settles_check r w) as Hok.
  destruct (calm_check rs machineCleanup instance_exists r) as [_ Hff].
  specialize (Hff w Hf).
  assert (tick db0 (w_db (check_unreachable rs machineCleanup instance_exists r w).2)) as T1.
  { destruct (Hrows r ltac:(left)) as (h' & -> & Hh' & Hs').
    by apply (from_check_unreachable rs machineCleanup staleThreshold instance_exists db0 h'). }
  apply elem_of_cons in Hin as [<-|Hin].
  - pose proof (check_kills db0 h w Hf Hk T Hh Hs Hg) as Hd.
    destruct (check_unreachable _ _ _ _ w) as [[[]|e] w1]; [|done]. cbn in *.
    eapply dead_mono; [| |exact Hd].
    + apply check_all_run with db0; [done| |done]. intros r Hr. apply Hrows. by right.
    + refine (proj1 (quiet_for_each calm rows _ _) w1). intros x. apply calm_check.
  - destruct (check_unreachable _ _ _ _ w) as [[[]|e] w1]; [|done]. cbn in *.
    apply IH; try done. intros r' Hr'. apply Hrows. by right.
Qed.
End GivenUp.

Lemma bind_settles {A} (m : M unit) (k : unit → M A) w :
  settles m → bind m k w = k tt (m w).2.
Proof. intros H. specialize (H w). unfold bind. by destruct (m w) as [[[]|]]. Qed.

(** The tick up to the check of the unreachable hosts; no host has been
    terminated yet. *)
Definition reconcile_prefix (rs : RuntimeService) (machineCleanup : bool) (staleThreshold : Z)
    : M unit :=
  ignore (call (ExpireStaleOperations (minutes 30))) ;;
  reconcileStuckMachines rs machineCleanup ;;
  let! stale := try (call (ListStaleHosts staleThreshold)) in
  match stale with
  | Err _ => ret tt
  | Ok hosts => for_each hosts mark_stale
  end.

Lemma reconcile_prefix_run rs machineCleanup st ie w :
  row_keys (w_db w) → fault_free w →
  let w1 := (reconcile_prefix rs machineCleanup st w).2 in
  tick st (λ _ _, true) (w_db w) (w_db w1) ∧ fault_free w1 ∧
  reconcileOnce rs machineCleanup st ie w =
    (let! unreachable := try (call ListUnreachableHosts) in
     match unreachable with
     | Err _ => ret tt
     | Ok hosts => for_each hosts (check_unreachable rs machineCleanup ie)
     end) w1.
Proof.
  intros Hk Hf. unfold reconcile_prefix. split; [|split].
  - enough (steps (keeps (from st (λ _ _, true) (w_db w)))
      (reconcile_prefix rs machineCleanup st)) as H by (apply H; unfold from; reflexivity).
    unfold reconcile_prefix.
    apply steps_bind; [apply _|apply steps_ignore, from_expire|intros _].
    apply steps_bind; [apply _|by apply from_stuck_machines|intros _].
    apply from_relisted; [done| |intros e; apply steps_ret, _]. intros db hosts T [= <-].
    apply from_each. intros r (h & -> & Hh)%list_elem_of_fmap.
    apply listed_host in Hh as [Ho Hh]; [|by eapply row_keys_tick]. by apply from_mark_stale.
  - enough (quiet calm (reconcile_prefix rs machineCleanup st)) as [_ H] by (by apply H).
    unfold reconcile_prefix, reconcileStuckMachines, mark_stale.
    calm_go; apply calm_reset_stuck.
  - unfold reconcileOnce. rewrite !bind_ignore.
    assert (settles (reconcileStuckMachines rs machineCleanup)) as Hs.
    { unfold reconcileStuckMachines. settle. apply settles_reset_stuck. }
    rewrite !bind_settles by done. rewrite !bind_try.
    destruct (call (ListStaleHosts st) _) as [[hosts|e] wl]; cbn [fst snd].
    + rewrite bind_settles; [by rewrite bind_try|]. unfold mark_stale. settle.
    + by rewrite bind_settles, bind_try.
Qed.

(** C12: without faults, a tick gives up every host that was unreachable and whose
    cloud instance is gone: it returns normally, the host is terminated, and no
    machine placed on it is left running, provisioning or starting. *)
Theorem gone_host_given_up (rs : RuntimeService) (machineCleanup : bool) (staleThreshold : Z)
    (instance_exists : string → string → bool) (w : World) (hid : Z) (h : Host) :
  fault_free w → row_keys (w_db w) → db_hosts (w_db w) !! hid = Some h →
  Host_Status h = "unreachable"%string → gone instance_exists h = true →
  let '(r, w') := reconcileOnce rs machineCleanup staleThreshold instance_exists w in
  r = Ok tt ∧ dead hid (w_db w').
Proof.
  intros Hf Hk Hh Hs Hg. pose proof (proj1 Hk _ _ Hh) as E. cbn in E. subst hid.
  pose proof (reconcile_prefix_run rs machineCleanup staleThreshold instance_exists w Hk Hf) as H.
  cbv zeta in H. set (w1 := (reconcile_prefix _ _ _ w).2) in H. destruct H as (T & Hf1 & ->).
  assert (row_keys (w_db w1)) as Hk1 by (by eapply row_keys_tick).
  rewrite bind_try, call_free by done. cbn [fst snd ListUnreachableHosts gets].
  pose proof (tick_hosts _ _ _ _ T (Host_ID h)) as Hrow. rewrite Hh in Hrow.
  inversion Hrow as [? c [F S] E1 E2|]; subst. symmetry in E2.
  assert (Host_Status c = "unreachable"%string) as Hc.
  { destruct S as [S|[[S _]|(_ & G & _)]]; [congruence|done|]. unfold gone in G.
    by rewrite andb_false_r in G. }
  assert (gone instance_exists c = true ∧ Host_ID c = Host_ID h) as [Hgc Eid]
    by (revert Hg; unfold gone; destruct h, c; cbn in F |- *; by simplify_eq).
  rewrite <-Eid in *.
  match goal with |- context [for_each ?l _ ?v] => set (rows := l); set (w2 := v) end.
  pose proof (check_all_kills rs machineCleanup staleThreshold instance_exists (w_db w1)
    rows c w2 Hk1) as Hd.
  pose proof (settles_each rows _ (settles_check rs machineCleanup instance_exists) w2) as Hok.
  assert (∀ r, r ∈ rows → ∃ h, r = host_row (w_db w1) h ∧
    db_hosts (w_db w1) !! Host_ID h = Some h ∧ Host_Status h = "unreachable"%string) as Hrows.
  { intros r (h' & -> & Hh')%list_elem_of_fmap. exists h'. split; [done|].
    apply listed_host in Hh' as [Hu Hh']; [|done]. by apply String.eqb_eq in Hu. }
  specialize (Hd Hrows). destruct (for_each rows _ w2) as [[[]|e] w']; [|done].
  split; [done|]. apply Hd; try done.
  apply list_elem_of_fmap. exists c. split; [done|]. apply elem_of_select. split; [|by eexists].
  by rewrite Hc.
Qed.

Lemma gone_host_given_up_witness :
  let '(r, w') := reconcileOnce runtime0 true (minutes 10) no_instance (world db_lost) in
  r = Ok tt ∧ dead 2 (w_db w').
Proof.
  eapply (gone_host_given_up runtime0 true (minutes 10) no_instance (world db_lost) 2).
  - reflexivity.
  - exact (row_keys_reachable _ db_lost_reachable).
  - vm_compute. reflexivity.
  - vm_compute. reflexivity.
  - vm_compute. reflexivity.
Defined.

(** ** What a tick leaves behind *)

(** Six minutes later machine id-4, placed on host 2, is still provisioning; the
    host is well. *)
Definition db_stuck : DB :=
  exec_all [OpUpdateHostHeartbeat 2 "203.0.113.9" "1.0" "r1" "b1" "o1" None]
    (db_placed <| db_now ::= λ t, t + minutes 6 |>).
Lemma reachable_later db d : reachable db → 0 ≤ d → reachable (db <| db_now ::= λ t, t + d |>).
Proof.
  intros (t & users & Hr) Hd. exists t, users. eapply rtc_r; [exact Hr|].
  apply (step_tick db). lia.
Qed.
Lemma db_stuck_reachable : reachable db_stuck.
Proof.
  apply exec_all_reachable; [|by repeat split].
  apply reachable_later; [apply db_placed_reachable|done].
Qed.

(** The world before the tick, after it, and the run of the next Start. *)
Definition world_stuck : World :=
  (world db_stuck) <| w_rand := ["aa"; "bb"; "cc"; "dd"; "ee"]%string |>.
Definition world_reset : World :=
  (reconcileOnce runtime0 true (minutes 10) no_instance world_stuck).2.
Definition machine_reset : Machine := machine_of (w_db world_reset) "id-4".
Definition run_restart : res (Host * string * option PollJob) * World :=
  Start (go_sort:=go_sort_merge) runtime0 machine_reset no_options world_reset.

(** The tick resets a stuck machine to "error" and releases its placement
    record, but neither unassigns it nor frees its host's capacity; the next
    Start takes it for a restart of a stopped machine and reserves the capacity
    again: from a reachable database, without faults, a tick and a Start leave a
    host that counts twice the vCPUs of its only machine. *)
Lemma reset_machine_counted_twice :
  reachable (w_db world_stuck) ∧ fault_free world_stuck ∧
  db_machines (w_db world_reset) !! "id-4"%string = Some machine_reset ∧
  Machine_Status machine_reset = "error"%string ∧ is_ok run_restart.1 = true ∧
  used_vcpus 2 (w_db world_reset) = Some (placed_vcpus 2 (w_db world_reset)) ∧
  used_vcpus 2 (w_db run_restart.2) = Some (2 * placed_vcpus 2 (w_db run_restart.2)) ∧
  0 < placed_vcpus 2 (w_db run_restart.2).
Proof.
  split; [exact db_stuck_reachable|]. split; [reflexivity|].
  split; [vm_compute; reflexivity|]. split; [vm_compute; reflexivity|].
  split; [vm_compute; reflexivity|]. split; [vm_compute; reflexivity|].
  split; vm_compute; reflexivity.
Qed.
