(* ===== verification/Workflows.v ===== *)
(** * The workflow service: workflows/service.go and workflows/types.go

    The service is a thin layer over the workflow tables.  The steps of a
    workflow are run by DBOS, a library the code calls: what it does with a step
    is a parameter, [StepRunner]. *)

From S2P Require Import Prelude Schema OperationStore World.

Definition StatusQueued : string := "queued".
Definition StatusRunning : string := "running".
Definition StatusWaiting : string := "waiting".
Definition StatusCompleted : string := "completed".
Definition StatusFailed : string := "failed".
Definition KindMigration : string := "migration".
Definition KindNotification : string := "notification".
Definition QueueNotifications : string := "notifications".
Definition QueueMachineLifecycle : string := "machine-lifecycle".

Record CreateRunParams : Type := mkCreateRunParams {
  CreateRunParams_ID : string;
  CreateRunParams_Kind : string;
  CreateRunParams_ScopeType : string;
  CreateRunParams_ScopeID : string;
  CreateRunParams_RequestedBy : option Z;
  CreateRunParams_AccountID : option Z;
  CreateRunParams_Priority : string;
  CreateRunParams_InputJSON : option json
}.
#[export] Instance eta_CreateRunParams : Eta CreateRunParams := λ r,
  mkCreateRunParams (CreateRunParams_ID r) (CreateRunParams_Kind r)
    (CreateRunParams_ScopeType r) (CreateRunParams_ScopeID r)
    (CreateRunParams_RequestedBy r) (CreateRunParams_AccountID r)
    (CreateRunParams_Priority r) (CreateRunParams_InputJSON r).

Record EventParams : Type := mkEventParams {
  EventParams_WorkflowID : string;
  EventParams_Phase : option string;
  EventParams_Level : string;
  EventParams_EventType : string;
  EventParams_Message : string;
  EventParams_DetailsJSON : option json
}.
Record LockParams : Type := mkLockParams {
  LockParams_ResourceType : string;
  LockParams_ResourceID : string;
  LockParams_LockKind : string;
  LockParams_WorkflowID : string;
  LockParams_LeaseExpiresAt : time
}.

(** Eight random bytes in hexadecimal. *)
Definition generateWorkflowID : M string :=
  let! b := wrap "generating workflow ID" rand_hex in
  ret ("wf_" +:+ b)%string.
Definition NewID : M string := generateWorkflowID.

Definition CreateRun (params : CreateRunParams) : M WorkflowRun :=
  let! id := if String.eqb (CreateRunParams_ID params) "" then generateWorkflowID
             else ret (CreateRunParams_ID params) in
  let params := params
    <| CreateRunParams_ID := id |>
    <| CreateRunParams_Priority ::= λ p, if String.eqb p "" then "normal"%string else p |>
    <| CreateRunParams_InputJSON ::= λ j, Some (default (JObj []) j) |> in
  call (CreateWorkflowRun (mkWorkflowRun (CreateRunParams_ID params)
    (CreateRunParams_Kind params) (CreateRunParams_ScopeType params)
    (CreateRunParams_ScopeID params) StatusQueued None
    (CreateRunParams_RequestedBy params) (CreateRunParams_AccountID params)
    (CreateRunParams_Priority params) (CreateRunParams_InputJSON params)
    None None None None None None 0 0)).

Definition GetRun (id : string) : M WorkflowRun := call (GetWorkflowRun id).
Definition ListRunsByScope (scopeType scopeID : string) (limit : Z) : M (list WorkflowRun) :=
  call (ListWorkflowRunsByScope scopeType scopeID limit).
Definition ListEvents (workflowID : string) (limit : Z) : M (list WorkflowEvent) :=
  call (ListWorkflowEvents workflowID limit).

Definition AddEvent (params : EventParams) : M unit :=
  let! _ := call (CreateWorkflowEvent (mkWorkflowEvent 0 (EventParams_WorkflowID params)
    (EventParams_Phase params) (EventParams_Level params) (EventParams_EventType params)
    (EventParams_Message params) (EventParams_DetailsJSON params) 0)) in
  ret tt.

Definition UpdateStatus (id status : string) (phase : option string)
    (summary : option json) (errCode errMsg : option string) : M unit :=
  call (UpdateWorkflowRunStatus id status phase summary errCode errMsg).
Definition Complete (id status : string) (output : option json)
    (errCode errMsg : option string) : M unit :=
  call (CompleteWorkflowRun id status output errCode errMsg).

Definition AcquireLock (params : LockParams) : M unit :=
  let! _ := call (AcquireWorkflowLock (mkWorkflowLock (LockParams_ResourceType params)
    (LockParams_ResourceID params) (LockParams_LockKind params)
    (LockParams_WorkflowID params) (LockParams_LeaseExpiresAt params) 0 0)) in
  ret tt.
Definition RenewLock (workflowID resourceType resourceID lockKind : string)
    (leaseUntil : time) : M unit :=
  call (RenewWorkflowLock workflowID resourceType resourceID lockKind leaseUntil).
Definition ReleaseLocks (workflowID : string) : M unit :=
  call (ReleaseWorkflowLocks workflowID).

(** ** Steps

    DBOS runs the body of a step, and again after an error, at most as many
    times as [WithStepMaxRetries] says (none without it); a step that keeps
    failing returns an error of DBOS's own.  [step_attempts n] is how many of
    the [n] retries are made. *)
Class StepRunner := {
  step_attempts : nat → nat;
  step_attempts_le n : (step_attempts n ≤ n)%nat;
  step_error : nat → error → error
}.

Fixpoint attempt {A} (retries : nat) (body : M A) : M A :=
  match retries with
  | O => body
  | S n =>
      let! r := try body in
      match r with
      | Ok a => ret a
      | Err _ => attempt n body
      end
  end.

Definition RunAsStep `{StepRunner} {A} (maxRetries : nat) (body : M A) : M A :=
  let! r := try (attempt (step_attempts maxRetries) body) in
  match r with
  | Ok a => ret a
  | Err e => fail (step_error maxRetries e)
  end.

(** The documented behaviour: all retries are made. *)
#[export] Instance step_runner_all : StepRunner := {|
  step_attempts := λ n, n;
  step_attempts_le := λ n, Nat.le_refl n;
  step_error := λ n e, if Nat.eqb n 0 then e
                       else ErrWrap "step has exceeded its maximum of retries" e
|}.
