(* ===== verification/Api.v ===== *)
(** * The API server: internal/api/server.go

    The server's dependencies, the responses, and the middleware that puts the
    caller's identity and membership into a request. *)

From S2P Require Import Prelude Schema HostStore AccountStore.
From S2P Require Import World Fleet GoStrings Versions Routing Runtime.

(** The dependencies of the API server; those that may be nil are a Boolean or
    an option.  [srv_env] is [os.Getenv]. *)
Record Server : Type := mkServer {
  srv_machines : RuntimeService;
  srv_placement : option PlacementConfig;
  srv_workflows : bool;           (* s.workflows != nil and its Context() *)
  srv_kvStore : bool;
  srv_tunnelMgr : bool;
  srv_tunnelCreator : bool;
  srv_routing : option RoutingService;
  srv_emailClient : bool;
  srv_agentToken : string;
  srv_backupMasterKey : string;
  srv_vcpuOversubRatio : Z;
  srv_dataPlaneDomain : string;
  srv_backendURL : string;
  srv_rootfsGCSManifest : string;
  srv_agentGCSManifest : string;
  srv_browserRootfsGCSManifest : string;
  srv_browserRootfsVersion : string;
  srv_gcsServiceAccountKey : string;
  srv_secretKey : string;
  srv_composio : bool;
  srv_env : string → string
}.

(** A server that has what the migrations and the accounts need. *)
Definition api_server (rs : RuntimeService) (workflows kvStore tunnelMgr : bool)
    (backupMasterKey dataPlaneDomain : string) : Server :=
  mkServer rs None workflows kvStore tunnelMgr false None false "" backupMasterKey 2
    dataPlaneDomain "" "" "" "" "" "" "" false (λ _, EmptyString).

(** ** Responses *)

(** An HTTP response: status and body. *)
Record response : Type := mkResponse { response_status : Z; response_body : json }.
Definition writeJSON (status : Z) (v : json) : M response := ret (mkResponse status v).
Definition writeError (status : Z) (msg : string) : M response :=
  writeJSON status (JObj [("error"%string, JStr msg)]).
(** [w.WriteHeader(http.StatusNoContent)]. *)
Definition noContent : M response := writeJSON 204 JNull.

(** Values of [json.Marshal]. *)
Definition json_id (id : option Z) : json :=
  match id with Some n => JNum n | None => JNull end.
Definition omitempty (key : string) (v : option json) : list (string * json) :=
  match v with Some j => [(key, j)] | None => [] end.
Definition omitempty_str (key v : string) : list (string * json) :=
  omitempty key (if String.eqb v "" then None else Some (JStr v)).

(** ** Configuration *)

(** VCPU_OVERSUBSCRIPTION_RATIO, clamped to [1, 3]. *)
Definition maxVCPUOversubRatio : Z := 3.
Definition vcpuOversubscriptionRatio (getenv : string → string) : Z :=
  let raw := getenv "VCPU_OVERSUBSCRIPTION_RATIO"%string in
  if String.eqb raw "" then 2
  else
    match Atoi raw with
    | None => 2
    | Some v =>
        if bool_decide (v < 1) then 1
        else if bool_decide (maxVCPUOversubRatio < v) then maxVCPUOversubRatio else v
    end.

Definition normalizeDomain (d : string) : string :=
  trim_dots_right (trim_dots_left (TrimSpace d)).

(** [^[a-z0-9][a-z0-9-]{0,61}[a-z0-9]$]. *)
Definition slug_char (c : ascii) : bool :=
  is_digit c || (Nat.leb 97 (Ascii.nat_of_ascii c) && Nat.leb (Ascii.nat_of_ascii c) 122).
Fixpoint slug_tail (s : string) : bool :=
  match s with
  | EmptyString => false
  | String c EmptyString => slug_char c
  | String c s' => (slug_char c || Ascii.eqb c "-") && slug_tail s'
  end.
Definition isValidSlug (slug : string) : bool :=
  match slug with
  | EmptyString => false
  | String c s' => slug_char c && slug_tail s' && Nat.leb (String.length slug) 63
  end.

Section Server.
  Variable s : Server.

Definition dataPlaneDomainOrLocal : string :=
  let d := normalizeDomain (srv_dataPlaneDomain s) in
  if String.eqb d "" then "localhost"%string else d.
Definition dataPlaneHostname (prefix slug : string) : string :=
  (prefix +:+ "-" +:+ slug +:+ "." +:+ dataPlaneDomainOrLocal)%string.

(** ** The caller *)

Record Claims : Type := mkClaims {
  Claims_UserID : Z;
  Claims_Email : string
}.

(** The email is in the comma-separated list of one of the variables. *)
Definition emailInEnvList (email : string) (keys : list string) : bool :=
  let email := ToLower (TrimSpace email) in
  if String.eqb email "" then false
  else existsb (λ key, existsb (λ candidate, String.eqb (ToLower (TrimSpace candidate)) email)
                         (Split "," (srv_env s key))) keys.
Definition isSuperuser (claims : option Claims) : bool :=
  match claims with
  | None => false
  | Some c => emailInEnvList (Claims_Email c) ["OCM_SUPERUSER_EMAILS"; "OCM_ADMIN_EMAILS"]%string
  end.
Definition requireSuperuser (claims : option Claims) (next : M response) : M response :=
  if isSuperuser claims then next else writeError 403 "admin access required".

(** The handler behind the middleware gets the account and the caller's
    membership. *)
Definition AccountMiddleware (accountId : string) (claims : option Claims)
    (next : Z → Claims → AccountMember → M response) : M response :=
  match Sscanf_d accountId with
  | None => writeError 400 "invalid account id"
  | Some accountID =>
      match claims with
      | None => writeError 401 "unauthorized"
      | Some c =>
          let! m := try (call (GetAccountMember accountID (Claims_UserID c))) in
          match m with
          | Err _ => writeError 403 "access denied to this account"
          | Ok member => next accountID c member
          end
      end
  end.

Definition requireOwnerRole (member : AccountMember) (next : M response) : M response :=
  if String.eqb (AccountMember_Role member) "owner" then next
  else writeError 403 "owner role required for this action".
(** [requireRole], and the same check written out in handlers. *)
Definition requireRole (roles : list string) (member : AccountMember) (next : M response)
    : M response :=
  if one_of roles (AccountMember_Role member) then next
  else writeError 403 "insufficient permissions".
End Server.
