(* ===== verification/Members.v ===== *)
(** * Accounts, members and invitations: internal/api/accounts.go, members.go,
    invitations.go and notification_workflow.go

    Who may change the membership of an account.  A decoded request body is an
    option: [None] is a body that does not decode.  Emails are ASCII: the
    folding of other letters by strings.EqualFold is not modelled. *)

From S2P Require Import Prelude Schema HostStore AccountStore.
From S2P Require Import World Fleet GoStrings Versions Routing Runtime Workflows Api.

(** ** Bodies *)

Definition account_json (a : Account) : json :=
  JObj [("id", JNum (Account_ID a)); ("name", JStr (Account_Name a));
        ("slug", JStr (Account_Slug a)); ("created_by", JNum (Account_CreatedBy a));
        ("created_at", JNum (Account_CreatedAt a))]%string.
Definition member_json (m : AccountMember) : json :=
  JObj ([("account_id", JNum (AccountMember_AccountID m));
         ("user_id", JNum (AccountMember_UserID m));
         ("role", JStr (AccountMember_Role m))]%string ++
    omitempty_str "email" (AccountMember_Email m) ++
    omitempty_str "name" (AccountMember_Name m) ++
    [("created_at"%string, JNum (AccountMember_CreatedAt m))]).
(** Without the token ([json:"-"]). *)
Definition invitation_json (i : AccountInvitation) : json :=
  JObj ([("id", JNum (AccountInvitation_ID i));
         ("account_id", JNum (AccountInvitation_AccountID i))]%string ++
    omitempty_str "account_name" (AccountInvitation_AccountName i) ++
    [("email", JStr (AccountInvitation_Email i)); ("role", JStr (AccountInvitation_Role i));
     ("status", JStr (AccountInvitation_Status i));
     ("invited_by", JNum (AccountInvitation_InvitedBy i))]%string ++
    omitempty "accepted_by" (JNum <$> AccountInvitation_AcceptedBy i) ++
    [("expires_at", JNum (AccountInvitation_ExpiresAt i));
     ("created_at", JNum (AccountInvitation_CreatedAt i))]%string ++
    omitempty "responded_at" (JNum <$> AccountInvitation_RespondedAt i)).

Record invitationEmailInput : Type := mkInvitationEmailInput {
  InvitationEmail_InvitationToken : string;
  InvitationEmail_RecipientEmail : string;
  InvitationEmail_InviterEmail : string;
  InvitationEmail_AccountName : string;
  InvitationEmail_AccountID : Z;
  InvitationEmail_Role : string
}.

(** The claims of an authenticated user. *)
Section Members.
  Context {go_sort : GoSort} `{StepRunner}.
  Variable s : Server.
  Variable claims : Claims.
  Abbreviation userID := (Claims_UserID claims).

(** [x, _ := m]: nil after an error. *)
Definition or_nil {A} (m : M A) : M (option A) :=
  let! r := try m in ret (match r with Ok a => Some a | Err _ => None end).
(** [x, err := m; if err != nil { writeError; return }]. *)
Definition or_error {A} (m : M A) (status : Z) (msg : string) (k : A → M response)
    : M response :=
  let! r := try m in
  match r with Ok a => k a | Err _ => writeError status msg end.
(** [writeError(w, status, err.Error())]. *)
Definition or_its_error {A} (m : M A) (status : Z) (k : A → M response) : M response :=
  let! r := try m in
  match r with Ok a => k a | Err e => writeError status (Error e) end.
(** [json.NewDecoder(r.Body).Decode(&req)]. *)
Definition decoded {B} (body : option B) (k : B → M response) : M response :=
  match body with Some b => k b | None => writeError 400 "invalid request body" end.
(** [parseIntParam]. *)
Definition int_param (param msg : string) (k : Z → M response) : M response :=
  match Sscanf_d param with Some n => k n | None => writeError 400 msg end.

(** ** Accounts (accounts.go) *)

Definition handleListAccounts : M response :=
  or_its_error (call (ListAccountsByUser userID)) 500 (λ accounts,
  writeJSON 200 (JArr (account_json <$> accounts))).

Definition handleCreateAccount (body : option (string * string)) : M response :=
  decoded body (λ '(name, slug),
  if negb (isValidSlug slug) then
    writeError 400 "invalid slug: must be 2-63 lowercase alphanumeric characters or hyphens, cannot start or end with a hyphen"
  else
    let! r := try (call (CreateAccountWithOwner (mkAccount 0 name slug userID 0) userID)) in
    match r with
    | Err e =>
        if errors_is e ErrConflict
        then writeError 409 "an account with this slug already exists"
        else writeError 500 "failed to create account"
    | Ok account =>
        when (srv_kvStore s)
          (ignore (PutAccount (Account_Slug account)
                     (mkKVAccountEntry (Account_ID account) [userID]))) ;;
        emit (AccountLog "account.created" userID (Account_ID account)) ;;
        writeJSON 201 (account_json account)
    end).

(** Refresh the KV entry of the account with the current members. *)
Definition refreshAccountKVCache (accountID : Z) : M unit :=
  if negb (srv_kvStore s) then ret tt
  else
    let! a := try (call (GetAccount accountID)) in
    match a with
    | Err _ => ret tt
    | Ok account =>
        let! ms := try (call (ListAccountMembers accountID)) in
        match ms with
        | Err _ => ret tt
        | Ok members =>
            ignore (PutAccount (Account_Slug account)
              (mkKVAccountEntry (Account_ID account) (AccountMember_UserID <$> members)))
        end
    end.

Definition handleGetAccount (accountID : Z) : M response :=
  or_error (call (GetAccount accountID)) 404 "account not found" (λ account,
  writeJSON 200 (account_json account)).

Definition handleUpdateAccount (accountID : Z) (member : AccountMember)
    (body : option string) : M response :=
  if negb (String.eqb (AccountMember_Role member) "owner") then
    writeError 403 "only account owners can update account settings"
  else
    decoded body (λ name,
    let name := TrimSpace name in
    if String.eqb name "" || Nat.ltb 100 (String.length name) then
      writeError 400 "name must be 1-100 characters"
    else
      or_error (call (UpdateAccountName accountID name)) 500 "failed to update account" (λ _,
      or_error (call (GetAccount accountID)) 500 "failed to fetch updated account" (λ account,
      emit (AccountLog "account.updated" (AccountMember_UserID member) accountID) ;;
      writeJSON 200 (account_json account)))).

(** ** Members (members.go) *)

Definition handleListMembers (accountID : Z) : M response :=
  or_its_error (call (ListAccountMembers accountID)) 500 (λ members,
  writeJSON 200 (JArr (member_json <$> members))).

Definition handleUpdateMemberRole (accountID : Z) (member : AccountMember)
    (userId : string) (body : option string) : M response :=
  requireOwnerRole member (
  int_param userId "invalid user id" (λ targetUserID,
  if bool_decide (AccountMember_UserID member = targetUserID) then
    writeError 400 "cannot change your own role"
  else
    decoded body (λ role,
    if negb (one_of ["admin"; "member"]%string role) then
      writeError 400 "role must be 'admin' or 'member'"
    else
      or_error (call (GetAccountMember accountID targetUserID)) 404 "member not found" (λ target,
      if String.eqb (AccountMember_Role target) "owner" then
        writeError 403 "cannot change the owner's role"
      else
        or_error (call (UpdateAccountMemberRole accountID targetUserID role)) 500
          "failed to update role" (λ _,
        emit (AccountLog "member.role_changed" (AccountMember_UserID member) accountID) ;;
        writeJSON 200 (JObj [("role"%string, JStr role)])))))).

Definition handleRemoveMember (accountID : Z) (member : AccountMember) (userId : string)
    : M response :=
  requireRole ["owner"; "admin"]%string member (
  int_param userId "invalid user id" (λ targetUserID,
  if bool_decide (AccountMember_UserID member = targetUserID) then
    writeError 400 "use the leave endpoint to remove yourself"
  else
    or_error (call (GetAccountMember accountID targetUserID)) 404 "member not found" (λ target,
    if String.eqb (AccountMember_Role target) "owner" then
      writeError 403 "cannot remove the account owner"
    else if String.eqb (AccountMember_Role member) "admin" &&
            String.eqb (AccountMember_Role target) "admin" then
      writeError 403 "admins cannot remove other admins"
    else
      or_error (call (RemoveAccountMember accountID targetUserID)) 500
        "failed to remove member" (λ _,
      refreshAccountKVCache accountID ;;
      emit (AccountLog "member.removed" (AccountMember_UserID member) accountID) ;;
      noContent)))).

Definition handleLeaveAccount (accountID : Z) (member : AccountMember) : M response :=
  if String.eqb (AccountMember_Role member) "owner" then
    writeError 403 "owners cannot leave — transfer ownership first"
  else
    or_error (call (RemoveAccountMember accountID (AccountMember_UserID member))) 500
      "failed to leave account" (λ _,
    refreshAccountKVCache accountID ;;
    noContent).

(** ** The invitation email (notification_workflow.go) *)

Definition enqueueInvitationEmail (input : invitationEmailInput) : M unit :=
  if negb (srv_workflows s) then ret tt
  else if negb (srv_emailClient s) then ret tt
  else
    let! wid := try NewID in
    match wid with
    | Err _ => ret tt
    | Ok workflowID =>
        let! run := try (CreateRun (mkCreateRunParams workflowID KindNotification "account"
          (pretty (InvitationEmail_AccountID input)) None
          (Some (InvitationEmail_AccountID input)) "normal"
          (Some (JObj [("notification_type", JStr "invitation");
                       ("recipient_email", JStr (InvitationEmail_RecipientEmail input));
                       ("account_name", JStr (InvitationEmail_AccountName input))]%string)))) in
        match run with
        | Err _ => ret tt
        | Ok _ =>
            let! q := try (remote (WorkflowEnqueue workflowID QueueNotifications "")) in
            match q with
            | Ok _ => ret tt
            | Err e => ignore (Complete workflowID StatusFailed None
                                 (Some "enqueue_failed"%string) (Some (Error e)))
            end
        end
    end.

Definition invitationEmailFrom : string :=
  let from := TrimSpace (srv_env s "OCM_EMAIL_FROM") in
  if String.eqb from "" then "OpenClaw Machines <noreply@example.com>"%string else from.

(** Whether the mail was delivered, and the workflow's error; rendering the
    template is a call that can only fail. *)
Definition runInvitationEmailWorkflow (input : invitationEmailInput)
    : M (bool * option error) :=
  if negb (srv_emailClient s) then ret (false, None)
  else
    let! html := try (RunAsStep 0 load) in
    match html with
    | Err e => ret (false, Some e)
    | Ok _ =>
        let! sent := try (RunAsStep 5 (remote (EmailSend invitationEmailFrom
          (InvitationEmail_RecipientEmail input)
          (InvitationEmail_InviterEmail input +:+ " invited you to " +:+
           InvitationEmail_AccountName input)%string))) in
        match sent with
        | Err e => ret (false, Some e)
        | Ok _ => ret (true, None)
        end
    end.

(** ** Invitations (invitations.go) *)

Definition invitation_days : Z := 7.

Definition handleCreateInvitation (accountID : Z) (member : AccountMember)
    (body : option (string * string)) : M response :=
  requireRole ["owner"; "admin"]%string member (
  decoded body (λ '(email, role),
  let email := ToLower (TrimSpace email) in
  if String.eqb email "" then writeError 400 "email is required"
  else if negb (one_of ["admin"; "member"]%string role) then
    writeError 400 "role must be 'admin' or 'member'"
  else if EqualFold email (Claims_Email claims) then writeError 400 "cannot invite yourself"
  else
    let! existing := or_nil (call (GetUserByEmail email)) in
    let! is_member :=
      match existing with
      | Some u => or_nil (call (GetAccountMember accountID (User_ID u)))
      | None => ret None
      end in
    if is_some_b is_member then writeError 409 "user is already a member of this account"
    else
      or_error (call (ListInvitationsByAccount accountID)) 500
        "failed to check existing invitations" (λ invs,
      if existsb (λ i, String.eqb (AccountInvitation_Status i) "pending" &&
                       EqualFold (AccountInvitation_Email i) email) invs
      then writeError 409 "a pending invitation already exists for this email"
      else
        let! t := gets (λ w, db_now (w_db w)) in
        or_error (call (CreateInvitation (mkAccountInvitation 0 accountID "" email role "" ""
            userID None (t + seconds (invitation_days * 24 * 3600)) 0 None))) 500
          "failed to create invitation" (λ inv,
        let! account := or_nil (call (GetAccount accountID)) in
        let accountName := match account with Some a => Account_Name a | None => EmptyString end in
        enqueueInvitationEmail (mkInvitationEmailInput (AccountInvitation_Token inv)
          (AccountInvitation_Email inv) (Claims_Email claims) accountName accountID
          (AccountInvitation_Role inv)) ;;
        emit (AccountLog "member.invited" userID accountID) ;;
        writeJSON 201 (JObj [("id", JNum (AccountInvitation_ID inv));
          ("account_id", JNum (AccountInvitation_AccountID inv));
          ("email", JStr (AccountInvitation_Email inv));
          ("role", JStr (AccountInvitation_Role inv));
          ("token", JStr (AccountInvitation_Token inv)); ("status", JStr "pending");
          ("expires_at", JNum (AccountInvitation_ExpiresAt inv));
          ("created_at", JNum (AccountInvitation_CreatedAt inv))]%string))))).

Definition handleListInvitations (accountID : Z) (member : AccountMember) : M response :=
  requireRole ["owner"; "admin"]%string member (
  or_error (call (ListInvitationsByAccount accountID)) 500 "failed to list invitations" (λ invs,
  writeJSON 200 (JArr (invitation_json <$> invs)))).

Definition handleRevokeInvitation (accountID : Z) (member : AccountMember)
    (invitationId : string) : M response :=
  requireRole ["owner"; "admin"]%string member (
  int_param invitationId "invalid invitation id" (λ invID,
  or_error (call (RevokeInvitation accountID invID)) 500 "failed to revoke invitation" (λ _,
  emit (AccountLog "invitation.revoked" (AccountMember_UserID member) accountID) ;;
  noContent))).

(** The newest invitation per account, of the accounts the user is not in. *)
Fixpoint filter_pending (invs : list AccountInvitation) (seenAccounts : list Z)
    : M (list AccountInvitation) :=
  match invs with
  | [] => ret []
  | inv :: rest =>
      if bool_decide (AccountInvitation_AccountID inv ∈ seenAccounts)
      then filter_pending rest seenAccounts
      else
        let! m := try (call (GetAccountMember (AccountInvitation_AccountID inv) userID)) in
        let! rest' := filter_pending rest (AccountInvitation_AccountID inv :: seenAccounts) in
        ret (if is_ok m then rest' else inv :: rest')
  end.
Definition handleListPendingInvitations : M response :=
  or_error (call (ListPendingInvitationsByEmail (Claims_Email claims))) 500
    "failed to list pending invitations" (λ invs,
  let! filtered := filter_pending
    (sort_slice (λ i, - AccountInvitation_CreatedAt i) invs) [] in
  writeJSON 200 (JArr (invitation_json <$> filtered))).

Definition handleAcceptInvitation (token : string) : M response :=
  or_error (call (GetInvitationByToken token)) 404 "invitation not found or already used" (λ inv,
  if negb (String.eqb (AccountInvitation_Status inv) "pending") then
    writeError 410 ("invitation has already been " +:+ AccountInvitation_Status inv)
  else
    let! t := gets (λ w, db_now (w_db w)) in
    if bool_decide (AccountInvitation_ExpiresAt inv < t) then
      writeError 410 "invitation has expired"
    else if negb (EqualFold (Claims_Email claims) (AccountInvitation_Email inv)) then
      writeError 403 "this invitation was sent to a different email address"
    else
      let! rows := try (call (AcceptInvitation token userID)) in
      match rows with
      | Err e =>
          if errors_is e ErrAlreadyMember
          then writeError 409 "you are already a member of this account"
          else writeError 500 "failed to update invitation"
      | Ok rows =>
          if bool_decide (rows = 0) then writeError 410 "invitation is no longer available"
          else
            refreshAccountKVCache (AccountInvitation_AccountID inv) ;;
            emit (AccountLog "member.accepted" userID (AccountInvitation_AccountID inv)) ;;
            writeJSON 200 (JObj [("account_id", JNum (AccountInvitation_AccountID inv));
              ("role", JStr (AccountInvitation_Role inv));
              ("message", JStr "invitation accepted")]%string)
      end).

Definition handleDeclineInvitation (token : string) : M response :=
  or_error (call (GetInvitationByToken token)) 404 "invitation not found" (λ inv,
  if negb (String.eqb (AccountInvitation_Status inv) "pending") then
    writeError 410 ("invitation has already been " +:+ AccountInvitation_Status inv)
  else if negb (EqualFold (Claims_Email claims) (AccountInvitation_Email inv)) then
    writeError 403 "this invitation was sent to a different email address"
  else
    or_error (call (DeclineInvitation token)) 500 "failed to decline invitation" (λ _,
    emit (AccountLog "invitation.declined" userID (AccountInvitation_AccountID inv)) ;;
    noContent)).

(** The account's name and the inviter's email, empty when they cannot be read. *)
Definition invitation_names (inv : AccountInvitation) : M (string * string) :=
  let! account := or_nil (call (GetAccount (AccountInvitation_AccountID inv))) in
  let! inviter := or_nil (call (GetUser (AccountInvitation_InvitedBy inv))) in
  ret (match account with Some a => Account_Name a | None => EmptyString end,
       match inviter with Some u => User_Email u | None => EmptyString end).

Definition handleGetInvitation (token : string) : M response :=
  or_error (call (GetInvitationByToken token)) 404 "invitation not found" (λ inv,
  let! names := invitation_names inv in
  let '(accountName, inviterEmail) := names in
  let invitee := EqualFold (Claims_Email claims) (AccountInvitation_Email inv) in
  writeJSON 200 (JObj [("id", JNum (AccountInvitation_ID inv));
    ("account_id", JNum (AccountInvitation_AccountID inv));
    ("account_name", JStr accountName);
    ("email", JStr (if invitee then AccountInvitation_Email inv else EmptyString));
    ("role", JStr (AccountInvitation_Role inv)); ("status", JStr (AccountInvitation_Status inv));
    ("inviter_email", JStr (if invitee then inviterEmail else EmptyString));
    ("expires_at", JNum (AccountInvitation_ExpiresAt inv))]%string)).

Definition handleGetInvitationPublic (token : string) : M response :=
  or_error (call (GetInvitationByToken token)) 404 "invitation not found" (λ inv,
  let! names := invitation_names inv in
  let '(accountName, inviterEmail) := names in
  writeJSON 200 (JObj [("account_name", JStr accountName);
    ("role", JStr (AccountInvitation_Role inv)); ("status", JStr (AccountInvitation_Status inv));
    ("inviter_email", JStr inviterEmail);
    ("expires_at", JNum (AccountInvitation_ExpiresAt inv))]%string)).

(** ** The routes *)

(** Requests of an authenticated user, with their parameters and body. *)
Inductive account_request : Type :=
| GetAccounts
| PostAccount (body : option (string * string))
| GetAccountByID (accountId : string)
| PatchAccount (accountId : string) (body : option string)
| GetMembers (accountId : string)
| PutMemberRole (accountId userId : string) (body : option string)
| DeleteMember (accountId userId : string)
| PostLeave (accountId : string)
| PostInvitation (accountId : string) (body : option (string * string))
| GetInvitations (accountId : string)
| DeleteInvitation (accountId invitationId : string)
| GetPendingInvitations
| GetInvitation (token : string)
| PostAccept (token : string)
| PostDecline (token : string)
| GetInvitationPublic (token : string).

Definition serve (r : account_request) : M response :=
  let account accountId k := AccountMiddleware accountId (Some claims) (λ id _ m, k id m) in
  match r with
  | GetAccounts => handleListAccounts
  | PostAccount body => handleCreateAccount body
  | GetAccountByID a => account a (λ id _, handleGetAccount id)
  | PatchAccount a body => account a (λ id m, handleUpdateAccount id m body)
  | GetMembers a => account a (λ id _, handleListMembers id)
  | PutMemberRole a u body => account a (λ id m, handleUpdateMemberRole id m u body)
  | DeleteMember a u => account a (λ id m, handleRemoveMember id m u)
  | PostLeave a => account a handleLeaveAccount
  | PostInvitation a body => account a (λ id m, handleCreateInvitation id m body)
  | GetInvitations a => account a handleListInvitations
  | DeleteInvitation a i => account a (λ id m, handleRevokeInvitation id m i)
  | GetPendingInvitations => handleListPendingInvitations
  | GetInvitation t => handleGetInvitation t
  | PostAccept t => handleAcceptInvitation t
  | PostDecline t => handleDeclineInvitation t
  | GetInvitationPublic t => handleGetInvitationPublic t
  end.
End Members.
