(* ===== verification/MembersLemmas.v ===== *)
(** * Lemmas on the account handlers

    A handler reads rows, checks them and writes at most once: what it may do to
    the database is shown from the rows it has read. *)

From S2P Require Import Prelude Schema HostStore PlacementStore OperationStore.
From S2P Require Import AccountStore StoreStep AccountInv World Fleet GoStrings.
From S2P Require Import FleetLemmas Versions Routing Runtime RuntimeLemmas PollerLemmas.
From S2P Require Import Workflows Api Members.

Lemma quiet_writeJSON R `{!PreOrder R} status v : quiet R (writeJSON status v).
Proof. apply quiet_ret, _. Qed.
Lemma quiet_writeError R `{!PreOrder R} status msg : quiet R (writeError status msg).
Proof. apply quiet_ret, _. Qed.
Lemma quiet_noContent R `{!PreOrder R} : quiet R noContent.
Proof. apply quiet_ret, _. Qed.
#[export] Hint Resolve quiet_writeJSON quiet_writeError quiet_noContent : quiet.

Lemma one_of_2 a b x : one_of [a; b] x = true → x = a ∨ x = b.
Proof.
  unfold one_of. rewrite bool_decide_eq_true, !elem_of_cons, elem_of_nil. naive_solver.
Qed.

(** ** Handlers that write once *)

Section Ends.
Context {T : Type} (f : DB → T) (P : relation DB).
Hypothesis P_same : ∀ db db', f db' = f db → P db db'.
Hypothesis P_then : ∀ db db1 db2, P db db1 → f db2 = f db1 → P db db2.

(** From the database [db], the run ends in one that [P] relates it to. *)
Definition ends {A} (db : DB) (m : M A) : Prop :=
  ∀ w, w_db w = db → P db (w_db (m w).2).

Lemma ends_quiet {A} db (m : M A) : quiet (same f) m → ends db m.
Proof. intros [Hq _] w <-. apply P_same, Hq. Qed.

Lemma ends_read {A} {B} db (q : Q A) (k : res A → M B) :
  (∀ db, (q db).2 = db) → (∀ r, r = (q db).1 ∨ r = Err ErrTransient → ends db (k r)) →
  ends db (bind (try (call q)) k).
Proof.
  intros Hq Hk w Hw. rewrite bind_try. pose proof (call_db q w) as Hc.
  destruct (call q w) as [r w1]. cbn. rewrite Hq in Hc. subst db.
  destruct Hc as [[-> Ed]|[-> Ed]]; apply Hk; auto.
Qed.
Lemma ends_read_ok {A} db (q : Q A) status msg (k : A → M response) :
  (∀ db, (q db).2 = db) → (∀ a, (q db).1 = Ok a → ends db (k a)) →
  ends db (or_error (call q) status msg k).
Proof.
  intros Hq Hk. apply ends_read; [done|]. intros [a|e] [E|E]; [by apply Hk|done| |];
    apply ends_quiet; repeat quiet_step.
Qed.
(** The write, and what follows it. *)
Lemma ends_write {A} {B} db (q : Q A) (k : res A → M B) :
  P db (q db).2 → (∀ r, quiet (same f) (k r)) → ends db (bind (try (call q)) k).
Proof.
  intros Hq Hk w Hw. rewrite bind_try. pose proof (call_db q w) as Hc.
  destruct (call q w) as [r w1]. cbn. destruct (Hk r) as [Hs _]. specialize (Hs w1).
  subst db. destruct Hc as [[-> Ed]|[-> Ed]].
  - eapply P_then; [exact Hq|]. by rewrite <-Ed.
  - apply P_same. unfold on_db, same in Hs. by rewrite Hs, Ed.
Qed.
Lemma ends_write_ok {A} db (q : Q A) status msg (k : A → M response) :
  P db (q db).2 → (∀ a, quiet (same f) (k a)) → ends db (or_error (call q) status msg k).
Proof.
  intros Hq Hk. apply ends_write; [done|]. intros [a|e]; [apply Hk|repeat quiet_step].
Qed.
Lemma ends_bind {A} {B} db (m : M A) (k : A → M B) :
  (∀ w, w_db (m w).2 = w_db w) → (∀ a, ends db (k a)) → ends db (bind m k).
Proof.
  intros Hm Hk w Hw. unfold bind. specialize (Hm w).
  destruct (m w) as [[a|e] w1]; cbn in Hm |- *; [apply Hk; congruence|].
  apply P_same. congruence.
Qed.
Lemma ends_now {A} db (k : Z → M A) :
  ends db (k (db_now db)) → ends db (bind (gets (λ w, db_now (w_db w))) k).
Proof. intros Hk w Hw. rewrite bind_gets, Hw. by apply Hk. Qed.
End Ends.

(** Reads. *)
Lemma GetUser_db id db : (GetUser id db).2 = db.
Proof. unfold GetUser, bind, get, query_row, of_res. by destruct (_ !! _). Qed.
Lemma GetUserByEmail_db e db : (GetUserByEmail e db).2 = db.
Proof. unfold GetUserByEmail, bind, get, query_row, of_res. by destruct (head _). Qed.
Lemma GetAccountMember_run a u db :
  GetAccountMember a u db =
    (match db_members db !! (a, u) with Some m => Ok m | None => Err ErrNoRows end, db).
Proof. unfold GetAccountMember, bind, get, query_row, of_res. by destruct (_ !! _). Qed.
Lemma GetAccountMember_db a u db : (GetAccountMember a u db).2 = db.
Proof. by rewrite GetAccountMember_run. Qed.
Lemma GetAccountMember_ok a u db m :
  (GetAccountMember a u db).1 = Ok m ↔ db_members db !! (a, u) = Some m.
Proof. rewrite GetAccountMember_run. cbn. destruct (_ !! _); naive_solver. Qed.
Lemma GetInvitationByToken_run token db :
  GetInvitationByToken token db =
    (match invitation_by_token db token with Some i => Ok i | None => Err ErrNoRows end, db).
Proof.
  unfold GetInvitationByToken, bind, get, query_row, of_res.
  by destruct (invitation_by_token db token).
Qed.
Lemma GetInvitationByToken_db token db : (GetInvitationByToken token db).2 = db.
Proof. by rewrite GetInvitationByToken_run. Qed.
Lemma GetAccount_db id db : (GetAccount id db).2 = db.
Proof. by rewrite GetAccount_run. Qed.

(** ** Parts that leave the members alone *)

Definition roster (db : DB) := (db_accounts db, db_members db, db_invitations db).

(** ** What the writes do *)

Lemma CreateAccountWithOwner_db a owner db :
  let db' := (CreateAccountWithOwner a owner db).2 in
  roster db' = roster db ∨
  ∃ id row m, db_accounts db !! id = None ∧
    AccountMember_Role m = "owner"%string ∧
    (AccountMember_AccountID m, AccountMember_UserID m) = (id, owner) ∧
    db_accounts db' = <[id := row]> (db_accounts db) ∧
    db_members db' = <[(id, owner) := m]> (db_members db) ∧
    db_invitations db' = db_invitations db.
Proof.
  unfold CreateAccountWithOwner, CreateAccount, insert_member, tx, wrap, bind, now, gets, get,
    references, unique, next_serial, modify, ret, fail, is_some_b. cbn.
  destruct (db_users db !! Account_CreatedBy a); cbn; [|by left].
  destruct (db_accounts db !! _) eqn:Ea; cbn; [by left|].
  destruct (bool_decide _); cbn; [|by left]. rewrite lookup_insert_eq. cbn.
  destruct (db_users db !! owner); cbn; [|by left].
  destruct (db_members db !! _) eqn:Em; cbn; [by left|].
  right. eexists _, _, (mkAccountMember _ owner "owner" "" "" (db_now db)).
  by repeat split.
Qed.

Lemma CreateInvitation_roster inv db :
  let db' := (CreateInvitation inv db).2 in
  roster db' = roster db ∨
  db_accounts db' = db_accounts db ∧ db_members db' = db_members db ∧
  ∃ id i, db_invitations db' = <[id := i]> (db_invitations db) ∧
    AccountInvitation_Role i = AccountInvitation_Role inv.
Proof.
  unfold CreateInvitation, tx, bind, now, gets, get, references, unique, next_serial,
    gen_random_uuid, modify, ret, fail, is_some_b. cbn.
  destruct (db_accounts db !! _); cbn; [|by left].
  destruct (db_users db !! _); cbn; [|by left].
  destruct (db_invitations db !! _) eqn:Eid; cbn; [by left|].
  destruct (bool_decide _); cbn; [|by left]. right. split; [done|]. split; [done|]. eauto.
Qed.

(** Accepting an invitation: the account exists. *)
Lemma AcceptInvitation_roster token u db :
  let db' := (AcceptInvitation token u db).2 in
  roster db' = roster db ∨
  ∃ i m f, invitation_by_token db token = Some i ∧
    AccountInvitation_Status i = "pending"%string ∧
    db_members db !! (AccountInvitation_AccountID i, u) = None ∧
    is_Some (db_accounts db !! AccountInvitation_AccountID i) ∧
    AccountMember_Role m = AccountInvitation_Role i ∧
    (AccountMember_AccountID m, AccountMember_UserID m) = (AccountInvitation_AccountID i, u) ∧
    (∀ i, AccountInvitation_Role (f i) = AccountInvitation_Role i) ∧
    roster db' = (db_accounts db, <[(AccountInvitation_AccountID i, u) := m]> (db_members db),
      alter f (AccountInvitation_ID i) (db_invitations db)).
Proof.
  cbv zeta. destruct (AcceptInvitation token u db) as [[n|e] db'] eqn:E.
  2:{ apply tx_err in E as ->. by left. }
  pose proof E as E1. apply AcceptInvitation_ok in E1 as [[_ ->]|(i & _ & Hi & Hp & Hm & ->)];
    [by left|]. right.
  eexists i, (mkAccountMember _ u (AccountInvitation_Role i) "" "" (db_now db)), _.
  split; [exact Hi|]. split; [exact Hp|].
  split; [exact Hm|]. split; [|split; [|split; [|split; [|reflexivity]]]]; [|done..].
  destruct (db_accounts db !! AccountInvitation_AccountID i) eqn:Ea; [done|]. exfalso. revert E.
  unfold AcceptInvitation, tx, bind, now, gets, get, wrap, try, insert_member, references, unique,
    modify, ret, fail, is_some_b. cbn. rewrite Hi, Hp. cbn. rewrite Hm. cbn.
  destruct (db_users db !! u); cbn; [|done]. rewrite Ea. cbn. done.
Qed.

Section Quiet.
Context {go_sort : GoSort} `{StepRunner} (s : Server) (claims : Claims).

Lemma roster_put key v : quiet (same roster) (putWithRetry key v).
Proof. apply quiet_with_retry; [apply _|]. apply quiet_kv_put, _. Qed.
Lemma roster_refresh accountID : quiet (same roster) (refreshAccountKVCache s accountID).
Proof.
  unfold refreshAccountKVCache, PutAccount. quiet_go; apply roster_put.
Qed.
Lemma roster_email input : quiet (same roster) (enqueueInvitationEmail s input).
Proof.
  unfold enqueueInvitationEmail, NewID, generateWorkflowID, CreateRun, Complete.
  quiet_go. unfold generateWorkflowID. quiet_go.
Qed.
End Quiet.
