(* ===== verification/MembersSpec.v ===== *)
(** * What the account routes guarantee

    Who may change a membership, that an account keeps its owner, and that the
    edge's copy of the members follows the database. *)

From S2P Require Import Prelude Schema HostStore PlacementStore OperationStore.
From S2P Require Import AccountStore StoreStep AccountInv Scenario World Fleet.
From S2P Require Import GoStrings.
From S2P Require Import FleetLemmas Versions Routing Runtime RuntimeLemmas PollerLemmas.
From S2P Require Import TableInv RuntimeSpec RoutingSpec Workflows Api Members.
From S2P Require Import MembersLemmas.

(** ** Changes of membership *)

Section Changes.
Context (claims : Claims).
Abbreviation me := (Claims_UserID claims).

Definition role_in (db : DB) (acc u : Z) : option string :=
  AccountMember_Role <$> db_members db !! (acc, u).

(** Why the row of user [u] in account [acc] may have changed. *)
Inductive allowed_change (db db' : DB) (acc u : Z) : Prop :=
| change_role role m :
    role_in db acc me = Some "owner"%string → u ≠ me →
    role_in db acc u ≠ Some "owner"%string →
    db_members db !! (acc, u) = Some m → role = "admin"%string ∨ role = "member"%string →
    db_members db' !! (acc, u) = Some (m <| AccountMember_Role := role |>) →
    allowed_change db db' acc u
| change_removed r :
    role_in db acc me = Some "owner"%string ∨ role_in db acc me = Some "admin"%string →
    u ≠ me → role_in db acc u = Some r → r ≠ "owner"%string →
    (role_in db acc me = Some "admin"%string → r ≠ "admin"%string) →
    db_members db' !! (acc, u) = None → allowed_change db db' acc u
| change_left r :
    u = me → role_in db acc u = Some r → r ≠ "owner"%string →
    db_members db' !! (acc, u) = None → allowed_change db db' acc u
| change_accepted inv :
    u = me → db_members db !! (acc, u) = None →
    (∃ token, invitation_by_token db token = Some inv) → AccountInvitation_AccountID inv = acc →
    AccountInvitation_Status inv = "pending"%string →
    db_now db ≤ AccountInvitation_ExpiresAt inv →
    EqualFold (Claims_Email claims) (AccountInvitation_Email inv) = true →
    role_in db' acc u = Some (AccountInvitation_Role inv) → allowed_change db db' acc u
| change_founded :
    u = me → db_accounts db !! acc = None → role_in db' acc u = Some "owner"%string →
    allowed_change db db' acc u.


Definition changes_allowed (db db' : DB) : Prop :=
  ∀ acc u, db_members db' !! (acc, u) = db_members db !! (acc, u) ∨ allowed_change db db' acc u.

(** What a request does to accounts, members and invitations. *)
Inductive roster_step (db db' : DB) : Prop :=
| step_same : roster db' = roster db → roster_step db db'
| step_renamed acc name :
    db_accounts db' = alter (λ a, a <| Account_Name := name |>) acc (db_accounts db) →
    db_members db' = db_members db → db_invitations db' = db_invitations db →
    roster_step db db'
| step_invitations :
    db_accounts db' = db_accounts db → db_members db' = db_members db →
    (∀ id i, db_invitations db' !! id = Some i →
       AccountInvitation_Role i = "admin"%string ∨ AccountInvitation_Role i = "member"%string ∨
       ∃ i0, db_invitations db !! id = Some i0 ∧
         AccountInvitation_Role i = AccountInvitation_Role i0) →
    roster_step db db'
| step_role acc u role :
    role_in db acc me = Some "owner"%string → u ≠ me → role_in db acc u ≠ Some "owner"%string →
    role = "admin"%string ∨ role = "member"%string →
    roster db' = (db_accounts db, alter (λ m, m <| AccountMember_Role := role |>) (acc, u)
                    (db_members db), db_invitations db) →
    roster_step db db'
| step_removed acc u r :
    role_in db acc u = Some r → r ≠ "owner"%string →
    u = me ∨
      u ≠ me ∧ (role_in db acc me = Some "owner"%string ∨
        role_in db acc me = Some "admin"%string ∧ r ≠ "admin"%string) →
    roster db' = (db_accounts db, delete (acc, u) (db_members db), db_invitations db) →
    roster_step db db'
| step_accepted token inv m f :
    invitation_by_token db token = Some inv →
    AccountInvitation_Status inv = "pending"%string →
    db_now db ≤ AccountInvitation_ExpiresAt inv →
    EqualFold (Claims_Email claims) (AccountInvitation_Email inv) = true →
    db_members db !! (AccountInvitation_AccountID inv, me) = None →
    is_Some (db_accounts db !! AccountInvitation_AccountID inv) →
    AccountMember_Role m = AccountInvitation_Role inv →
    (AccountMember_AccountID m, AccountMember_UserID m) = (AccountInvitation_AccountID inv, me) →
    (∀ i, AccountInvitation_Role (f i) = AccountInvitation_Role i) →
    roster db' = (db_accounts db,
      <[(AccountInvitation_AccountID inv, me) := m]> (db_members db),
      alter f (AccountInvitation_ID inv) (db_invitations db)) →
    roster_step db db'
| step_founded acc row m :
    db_accounts db !! acc = None → AccountMember_Role m = "owner"%string →
    (AccountMember_AccountID m, AccountMember_UserID m) = (acc, me) →
    roster db' = (<[acc := row]> (db_accounts db), <[(acc, me) := m]> (db_members db),
                  db_invitations db) →
    roster_step db db'.

Lemma roster_then db db1 db2 :
  roster_step db db1 → roster db2 = roster db1 → roster_step db db2.
Proof.
  intros H E. pose proof E as [= Ea Em Ei]. destruct H;
    [apply step_same|eapply step_renamed|eapply step_invitations|eapply step_role
    |eapply step_removed|eapply step_accepted|eapply step_founded];
    rewrite ?Ea, ?Em, ?Ei, ?E; eauto.
Qed.

(** ** The requests *)

Context {go_sort : GoSort} `{StepRunner} (s : Server).
Abbreviation ends := (ends roster_step).

Lemma ends_none {A} db (m : M A) : quiet (same roster) m → ends db m.
Proof. apply (ends_quiet roster), step_same. Qed.
Lemma ends_error db status msg : ends db (writeError status msg).
Proof. apply ends_none, quiet_writeError, _. Qed.
Lemma ends_read_ok' {A} db (q : Q A) status msg k :
  (∀ db, (q db).2 = db) → (∀ a, (q db).1 = Ok a → ends db (k a)) →
  ends db (or_error (call q) status msg k).
Proof. apply (ends_read_ok roster), step_same. Qed.
Lemma ends_write_ok' {A} db (q : Q A) status msg k :
  roster_step db (q db).2 → (∀ a, quiet (same roster) (k a)) →
  ends db (or_error (call q) status msg k).
Proof. apply (ends_write_ok roster); [apply step_same|apply roster_then]. Qed.
Lemma ends_account accountId db (k : Z → AccountMember → M response) :
  (∀ acc m, db_members db !! (acc, me) = Some m → ends db (k acc m)) →
  ends db (AccountMiddleware accountId (Some claims) (λ id _ m, k id m)).
Proof.
  intros Hk. unfold AccountMiddleware. destruct (Sscanf_d accountId) as [acc|];
    [|apply ends_error]. apply ends_read; [apply GetAccountMember_db|].
  intros [m|e] [E|E]; [|done|apply ends_error..].
  apply Hk, GetAccountMember_ok. by rewrite <-E.
Qed.

(** Handlers that only read. *)
Ltac reads_go :=
  unfold or_error, or_nil, or_its_error, decoded, int_param, requireRole, requireOwnerRole;
  quiet_go.
Lemma reads_update accountID member body :
  ∀ db, ends db (handleUpdateAccount accountID member body).
Proof.
  intros db. unfold handleUpdateAccount, decoded. destruct (negb _); [apply ends_error|].
  destruct body as [name|]; [|apply ends_error]. cbv zeta. destruct (_ || _); [apply ends_error|].
  apply ends_write_ok'; [|intros _; reads_go].
  unfold UpdateAccountName, bind, get, modify. cbn. destruct (db_accounts db !! accountID).
  - by eapply step_renamed.
  - by apply step_same.
Qed.

Lemma ends_int_param db param msg k :
  (∀ n, ends db (k n)) → ends db (int_param param msg k).
Proof. intros Hk. unfold int_param. destruct (Sscanf_d param); [apply Hk|apply ends_error]. Qed.
Lemma ends_decoded {B} db (body : option B) k :
  (∀ b, ends db (k b)) → ends db (decoded body k).
Proof. intros Hk. destruct body; [apply Hk|apply ends_error]. Qed.
Lemma ends_require db roles m k :
  (one_of roles (AccountMember_Role m) = true → ends db k) → ends db (requireRole roles m k).
Proof. intros Hk. unfold requireRole. destruct (one_of _ _); [auto|apply ends_error]. Qed.
Lemma role_in_some db acc u m :
  db_members db !! (acc, u) = Some m → role_in db acc u = Some (AccountMember_Role m).
Proof. unfold role_in. by intros ->. Qed.

Section Keyed.
Context (db : DB).
Hypothesis Hkey : keyed (λ m, (AccountMember_AccountID m, AccountMember_UserID m)) (db_members db).
Lemma my_id acc m : db_members db !! (acc, me) = Some m → AccountMember_UserID m = me.
Proof. intros Hm. specialize (Hkey _ _ Hm). by injection Hkey. Qed.

Lemma ends_role acc m u body :
  db_members db !! (acc, me) = Some m → ends db (handleUpdateMemberRole acc m u body).
Proof.
  intros Hm. unfold handleUpdateMemberRole, requireOwnerRole.
  destruct (String.eqb_spec (AccountMember_Role m) "owner") as [Er|]; [|apply ends_error].
  apply ends_int_param. intros t. case_bool_decide as Ht; [apply ends_error|].
  apply ends_decoded. intros role. destruct (one_of _ role) eqn:Erole; cbn; [|apply ends_error].
  apply ends_read_ok'; [apply GetAccountMember_db|]. intros tm Htm%GetAccountMember_ok.
  destruct (String.eqb_spec (AccountMember_Role tm) "owner"); [apply ends_error|].
  apply ends_write_ok'; [|intros _; reads_go]. apply role_in_some in Hm as Hr.
  eapply (step_role _ _ acc t role); [by rewrite Hr, Er|by rewrite <-(my_id acc m Hm)| |
    |reflexivity].
  - apply role_in_some in Htm as ->. congruence.
  - by apply one_of_2.
Qed.

Lemma ends_remove acc m u :
  db_members db !! (acc, me) = Some m → ends db (handleRemoveMember s acc m u).
Proof.
  intros Hm. unfold handleRemoveMember. apply ends_require. intros Er.
  apply ends_int_param. intros t. case_bool_decide as Ht; [apply ends_error|].
  apply ends_read_ok'; [apply GetAccountMember_db|]. intros tm Htm%GetAccountMember_ok.
  destruct (String.eqb_spec (AccountMember_Role tm) "owner") as [|Ho]; [apply ends_error|].
  destruct (String.eqb (AccountMember_Role m) "admin" && _) eqn:Ea; [apply ends_error|].
  apply ends_write_ok'; [|intros _; reads_go; apply roster_refresh].
  apply role_in_some in Hm as Hr. apply role_in_some in Htm as Htr.
  eapply (step_removed _ _ acc t); [exact Htr|done| |reflexivity].
  right. split; [by rewrite <-(my_id acc m Hm)|]. rewrite Hr.
  apply one_of_2 in Er as [E|E]; [left; by rewrite E|right]. split; [by rewrite E|].
  rewrite E in Ea. cbn in Ea. by apply String.eqb_neq in Ea.
Qed.

Lemma ends_leave acc m :
  db_members db !! (acc, me) = Some m → ends db (handleLeaveAccount s acc m).
Proof.
  intros Hm. unfold handleLeaveAccount.
  destruct (String.eqb_spec (AccountMember_Role m) "owner") as [|Ho]; [apply ends_error|].
  apply ends_write_ok'; [|intros _; reads_go; apply roster_refresh].
  apply role_in_some in Hm as Hr. rewrite (my_id acc m Hm).
  eapply (step_removed _ _ acc me); [exact Hr|done|by left|reflexivity].
Qed.
End Keyed.

Lemma ends_create db body : ends db (handleCreateAccount s claims body).
Proof.
  apply ends_decoded. intros [name slug]. destruct (negb _); [apply ends_error|].
  apply (ends_write roster); [apply step_same|apply roster_then| |].
  - destruct (CreateAccountWithOwner_db (mkAccount 0 name slug me 0) me db)
      as [E|(id & row & m & Hn & Hr & Hid & Ea & Em & Ei)]; [by apply step_same|].
    eapply step_founded; [exact Hn|exact Hr|exact Hid|]. unfold roster. by rewrite Ea, Em, Ei.
  - intros [a|e]; [|destruct (errors_is _ _); reads_go].
    reads_go. apply roster_put.
Qed.

(** Parts that change nothing before a write. *)
Lemma ends_pure {A B} db (m : M A) (k : A → M B) :
  steps (on_db eq) m → (∀ a, ends db (k a)) → ends db (bind m k).
Proof.
  intros Hm. apply (ends_bind roster); [apply step_same|]. intros w. symmetry. apply Hm.
Qed.

Lemma ends_invite db acc m body : ends db (handleCreateInvitation s claims acc m body).
Proof.
  unfold handleCreateInvitation. apply ends_require. intros _. apply ends_decoded.
  intros [email role]. cbv zeta. destruct (String.eqb _ ""); [apply ends_error|].
  destruct (one_of _ role) eqn:Erole; cbn [negb]; [|apply ends_error].
  destruct (EqualFold _ _); [apply ends_error|].
  apply ends_pure.
  { unfold or_nil. run_steps. intros d. by rewrite GetUserByEmail_db. }
  intros existing. apply ends_pure.
  { unfold or_nil. run_steps. intros d. by rewrite GetAccountMember_db. }
  intros is_member. destruct (is_some_b is_member); [apply ends_error|].
  apply ends_read_ok'; [done|]. intros invs _. destruct (existsb _ _); [apply ends_error|].
  apply ends_pure; [run_steps|]. intros t. apply ends_write_ok'.
  - destruct (CreateInvitation_roster (mkAccountInvitation 0 acc ""
      (ToLower (TrimSpace email)) role "" "" me None
      (t + seconds (invitation_days * 24 * 3600)) 0 None) db)
      as [E|(Ea & Em & id & i & Ei & Er)]; [by apply step_same|].
    apply step_invitations; [done..|]. intros id' i'. rewrite Ei, lookup_insert_Some.
    intros [[_ <-]|[_ Hi]]; [|by eauto]. rewrite Er.
    apply one_of_2 in Erole as [->| ->]; auto.
  - intros inv. reads_go; apply roster_email.
Qed.

Lemma ends_accept db token : ends db (handleAcceptInvitation s claims token).
Proof.
  apply ends_read_ok'; [apply GetInvitationByToken_db|]. intros inv Hi.
  destruct (String.eqb_spec (AccountInvitation_Status inv) "pending") as [Ep|];
    cbn [negb]; [|apply ends_error].
  apply ends_now. case_bool_decide as Ht; [apply ends_error|].
  destruct (EqualFold _ _) eqn:Ee; cbn [negb]; [|apply ends_error].
  rewrite GetInvitationByToken_run in Hi. cbn in Hi.
  destruct (invitation_by_token db token) as [inv'|] eqn:Et; [|done]. injection Hi as ->.
  apply (ends_write roster); [apply step_same|apply roster_then| |].
  - destruct (AcceptInvitation_roster token me db) as
      [E|(i & m & f & Hi & Hs & Hm & Ha & Hr & Hid & Hf & E)]; [by apply step_same|].
    rewrite Et in Hi. injection Hi as <-.
    eapply step_accepted; [exact Et|exact Ep|lia|exact Ee|exact Hm|exact Ha|exact Hr|exact Hid|exact Hf
      |exact E].
  - intros [n|e]; [|destruct (errors_is _ _); reads_go].
    case_bool_decide; reads_go. apply roster_refresh.
Qed.

Lemma ends_decline db token : ends db (handleDeclineInvitation claims token).
Proof.
  apply ends_read_ok'; [apply GetInvitationByToken_db|]. intros inv _.
  destruct (negb _); [apply ends_error|]. destruct (negb _); [apply ends_error|].
  apply ends_write_ok'; [|intros _; reads_go]. apply step_invitations; [done..|].
  cbn. intros id i. rewrite lookup_update_where. intros (i0 & Hi & ->)%fmap_Some.
  right. right. exists i0. split; [done|]. by destruct (_ && _).
Qed.
Lemma ends_revoke db acc m i : ends db (handleRevokeInvitation acc m i).
Proof.
  apply ends_require. intros _. apply ends_int_param. intros id.
  apply ends_write_ok'; [|intros _; reads_go]. apply step_invitations; [done..|].
  cbn. intros id' i' [Hi _]%lookup_delete_where. eauto.
Qed.

Lemma reads_pending invs seen :
  quiet (same roster) (filter_pending claims invs seen).
Proof.
  revert seen. induction invs as [|i invs IH]; intros seen; cbn [filter_pending]; [quiet_go|].
  case_bool_decide; [apply IH|]. quiet_go.
Qed.

(** What any request does. *)
Lemma serve_roster r w :
  keyed (λ m, (AccountMember_AccountID m, AccountMember_UserID m)) (db_members (w_db w)) →
  roster_step (w_db w) (w_db (serve s claims r w).2).
Proof.
  intros Hk. revert w Hk. enough (∀ db,
    keyed (λ m, (AccountMember_AccountID m, AccountMember_UserID m)) (db_members db) →
    ends db (serve s claims r)) as H' by (intros w Hk; by apply H').
  intros db Hk. destruct r; cbn [serve]; try (apply ends_account; intros acc m Hm).
  - apply ends_none. unfold handleListAccounts. reads_go.
  - apply ends_create.
  - apply ends_none. unfold handleGetAccount. reads_go.
  - apply reads_update.
  - apply ends_none. unfold handleListMembers. reads_go.
  - by apply ends_role.
  - by apply ends_remove.
  - by apply ends_leave.
  - apply ends_invite.
  - apply ends_none. unfold handleListInvitations. reads_go.
  - apply ends_revoke.
  - apply ends_none. unfold handleListPendingInvitations. reads_go. apply reads_pending.
  - apply ends_none. unfold handleGetInvitation, invitation_names. reads_go.
  - apply ends_accept.
  - apply ends_decline.
  - apply ends_none. unfold handleGetInvitationPublic, invitation_names. reads_go.
Qed.
End Changes.

(** ** Authorization *)

(** A request either leaves a member's row alone or was entitled to change it. *)
Lemma roster_step_allowed claims db db' :
  roster_step claims db db' → changes_allowed claims db db'.
Proof.
  assert (∀ (Q : Z → Z → Prop) k, (∀ acc u, (acc, u) = k → Q acc u) →
    (∀ acc u, (acc, u) ≠ k → Q acc u) → ∀ acc u, Q acc u) as Hcase.
  { intros Q k H1 H2 acc u. destruct (decide ((acc, u) = k)); auto. }
  destruct 1 as [E|acc name _ E _|_ E _|acc u role Hr Hu Ho Hrole E|acc u r Hr Ho Hby E
    |token inv m f Hi Hp Ht He Hm Ha Hrole Hid Hf E|acc row m Hn Hr Hid E].
  - injection E as _ E _. intros ? ?. left. by rewrite E.
  - intros ? ?. left. by rewrite E.
  - intros ? ?. left. by rewrite E.
  - injection E as _ E _. unfold changes_allowed. rewrite E. apply (Hcase _ (acc, u)).
    + intros ?? [= -> ->]. rewrite lookup_alter_eq.
      destruct (db_members db !! (acc, u)) as [m|] eqn:Em; [right|by left].
      eapply change_role; eauto. by rewrite E, lookup_alter_eq, Em.
    + intros ?? Hne. left. by rewrite lookup_alter_ne.
  - injection E as _ E _. unfold changes_allowed. rewrite E. apply (Hcase _ (acc, u)).
    + intros ?? [= -> ->]. right. assert (db_members db' !! (acc, u) = None) as Hd
        by (by rewrite E, lookup_delete_eq).
      destruct Hby as [Hu|[Hu Hby]]; [by eapply change_left|].
      eapply change_removed; [|exact Hu|exact Hr|exact Ho| |exact Hd].
      * destruct Hby as [?|[? _]]; auto.
      * intros Ead. destruct Hby as [?|[_ ?]]; [congruence|done].
    + intros ?? Hne. left. by rewrite lookup_delete_ne.
  - injection E as _ E _. unfold changes_allowed. rewrite E.
    apply (Hcase _ (AccountInvitation_AccountID inv, Claims_UserID claims)).
    + intros ?? [= -> ->]. right. eapply change_accepted; eauto.
      unfold role_in. rewrite E, lookup_insert_eq. cbn. by rewrite Hrole.
    + intros ?? Hne. left. by rewrite lookup_insert_ne.
  - injection E as _ E _. unfold changes_allowed. rewrite E.
    apply (Hcase _ (acc, Claims_UserID claims)).
    + intros ?? [= -> ->]. right. eapply change_founded; eauto.
      unfold role_in. rewrite E, lookup_insert_eq. cbn. by rewrite Hr.
    + intros ?? Hne. left. by rewrite lookup_insert_ne.
Qed.

(** C16: nobody's membership changes without the right to it: whatever calls
    fail, a request changes a member's row only if its sender is the account's
    owner and sets the role of another member to admin or member, or is its
    owner or an admin and removes another member who is not the owner (nor an
    admin, for an admin), or leaves without being the owner, or accepts a pending
    invitation that has not expired, sent to the sender's own address, with the
    role it names, or founds the account. *)
Theorem membership_changes_authorized {go_sort : GoSort} `{StepRunner} (s : Server)
    (claims : Claims) (r : account_request) (w : World) :
  keyed (λ m, (AccountMember_AccountID m, AccountMember_UserID m)) (db_members (w_db w)) →
  changes_allowed claims (w_db w) (w_db (serve s claims r w).2).
Proof. intros Hk. by apply roster_step_allowed, serve_roster. Qed.

(** ** Owners *)

(** Every account has exactly one owner; no invitation makes another. *)
Definition owned (db : DB) : Prop :=
  (∀ acc, is_Some (db_accounts db !! acc) → ∃ u, role_in db acc u = Some "owner"%string ∧
     ∀ u', role_in db acc u' = Some "owner"%string → u' = u) ∧
  (∀ acc u, is_Some (db_members db !! (acc, u)) → is_Some (db_accounts db !! acc)) ∧
  (∀ id i, db_invitations db !! id = Some i → AccountInvitation_Role i ≠ "owner"%string).

Lemma invitation_by_token_in db token i :
  invitation_by_token db token = Some i → ∃ id, db_invitations db !! id = Some i.
Proof.
  unfold invitation_by_token. destruct (select _ _) as [|j l] eqn:E; [done|]. intros [= <-].
  assert (j ∈ select (λ i, String.eqb (AccountInvitation_Token i) token) (db_invitations db))
    as Hin by (rewrite E; apply list_elem_of_here). by apply elem_of_select in Hin as [_ ?].
Qed.

(** Changing the row of someone who is not the owner, to something else. *)
Lemma owned_members db db' acc u :
  owned db → db_accounts db' = db_accounts db → role_in db acc u ≠ Some "owner"%string →
  role_in db' acc u ≠ Some "owner"%string →
  (∀ acc' u', (acc', u') ≠ (acc, u) →
     db_members db' !! (acc', u') = db_members db !! (acc', u')) →
  (is_Some (db_members db' !! (acc, u)) → is_Some (db_accounts db !! acc)) →
  (∀ id i, db_invitations db' !! id = Some i → AccountInvitation_Role i ≠ "owner"%string) →
  owned db'.
Proof.
  intros (H1 & H2 & _) Ea Hold Hnew Hother Hfk Hinv. split; [|split; [|done]]; rewrite Ea.
  - intros acc' Hacc. destruct (H1 acc' Hacc) as (o & Ho & Huniq).
    assert (∀ u', role_in db' acc' u' = Some "owner"%string ↔
                  role_in db acc' u' = Some "owner"%string) as Hsame.
    { intros u'. destruct (decide ((acc', u') = (acc, u))) as [[= -> ->]|Hne]; [done|].
      unfold role_in. by rewrite Hother. }
    exists o. split; [by apply Hsame|]. intros u' Hu'. by apply Huniq, Hsame.
  - intros acc' u'. destruct (decide ((acc', u') = (acc, u))) as [[= -> ->]|Hne]; [done|].
    rewrite Hother by done. apply H2.
Qed.

Lemma owned_step claims db db' : roster_step claims db db' → owned db → owned db'.
Proof.
  intros Hs Ho. pose proof Ho as (H1 & H2 & H3).
  destruct Hs as [E|acc name Ea Em Ei|Ea Em Hi|acc u role Hr Hu Hno Hrole E|acc u r Hr Hno Hby E
    |token inv m f Hi Hp Ht He Hm Ha Hrole Hid Hf E|acc row m Hn Hr Hid E].
  - injection E as Ea Em Ei. unfold owned, role_in. by rewrite Ea, Em, Ei.
  - unfold owned, role_in. rewrite Em, Ei. split; [|split; [|done]].
    + intros a. rewrite Ea, lookup_alter_is_Some. apply H1.
    + intros a u. rewrite Ea, lookup_alter_is_Some. apply H2.
  - unfold owned, role_in. rewrite Ea, Em. split; [done|]. split; [done|].
    intros id i Hid. destruct (Hi id i Hid) as [->|[->|(i0 & H0 & ->)]]; [done..|by eapply H3].
  - injection E as Ea Em Ei. eapply (owned_members db db' acc u); [done..| | | |by rewrite Ei].
    + unfold role_in. rewrite Em, lookup_alter_eq. destruct (_ !! _); cbn; [|done].
      intros [= ->]. by destruct Hrole.
    + intros a v Hne. by rewrite Em, lookup_alter_ne.
    + rewrite Em, lookup_alter_is_Some. apply H2.
  - injection E as Ea Em Ei. eapply (owned_members db db' acc u); [done..| | | | |by rewrite Ei].
    + rewrite Hr. congruence.
    + unfold role_in. by rewrite Em, lookup_delete_eq.
    + intros a v Hne. by rewrite Em, lookup_delete_ne.
    + rewrite Em, lookup_delete_eq. by intros [].
  - injection E as Ea Em Ei. apply invitation_by_token_in in Hi as [id Hinv].
    eapply (owned_members db db' (AccountInvitation_AccountID inv) (Claims_UserID claims));
      [done..| | | | |].
    + unfold role_in. by rewrite Hm.
    + unfold role_in. rewrite Em, lookup_insert_eq. cbn. rewrite Hrole. intros [= E0].
      by apply (H3 id inv Hinv).
    + intros a v Hne. by rewrite Em, lookup_insert_ne.
    + done.
    + rewrite Ei. intros id' i. rewrite lookup_alter_Some.
      intros [(_&i0&H0&->)|[_ H0]]; [rewrite Hf|]; by eapply H3.
  - injection E as Ea Em Ei. split; [|split].
    + intros a Hacc. destruct (decide (a = acc)) as [->|Hne].
      * exists (Claims_UserID claims). unfold role_in. rewrite Em, lookup_insert_eq. cbn.
        rewrite Hr. split; [done|]. intros u'.
        destruct (decide (u' = Claims_UserID claims)) as [|Hu]; [done|].
        rewrite lookup_insert_ne by congruence. intros Hin. exfalso.
        destruct (db_members db !! (acc, u')) eqn:Eu; [|done].
        destruct (H2 acc u') as [? ?]; [eauto|]. congruence.
      * rewrite Ea, lookup_insert_ne in Hacc by done. destruct (H1 a Hacc) as (o & Hown & Hu).
        exists o. unfold role_in in *. rewrite Em, lookup_insert_ne by congruence.
        split; [done|]. intros u'. rewrite lookup_insert_ne by congruence. apply Hu.
    + intros a v. rewrite Ea, Em. destruct (decide (a = acc)) as [->|Hne].
      * rewrite lookup_insert_eq. eauto.
      * rewrite !lookup_insert_ne by congruence. apply H2.
    + rewrite Ei. apply H3.
Qed.

Definition members_keyed (db : DB) : Prop :=
  keyed (λ m, (AccountMember_AccountID m, AccountMember_UserID m)) (db_members db).
Lemma keyed_step claims db db' : roster_step claims db db' → members_keyed db → members_keyed db'.
Proof.
  intros Hs Hk. unfold members_keyed.
  destruct Hs as [E|acc name Ea Em Ei|Ea Em Hi|acc u role Hr Hu Hno Hrole E|acc u r Hr Hno Hby E
    |token inv m f Hi Hp Ht He Hm Ha Hrole Hid Hf E|acc row m Hn Hr Hid E];
    try injection E as _ Em _; rewrite Em; try done.
  - by apply keyed_alter.
  - by apply keyed_delete.
  - by apply keyed_insert.
  - by apply keyed_insert.
Qed.

(** Requests of several users, one after the other. *)
Fixpoint serve_all {go_sort : GoSort} `{StepRunner} (s : Server)
    (rs : list (Claims * account_request)) (w : World) : World :=
  match rs with
  | [] => w
  | (claims, r) :: rest => serve_all s rest (serve s claims r w).2
  end.

(** C17: an account always has exactly one owner: whatever requests users make and
    whatever calls fail, no sequence of requests leaves an account without its
    owner, gives it a second one, or makes an invitation for one. *)
Theorem requests_keep_owner {go_sort : GoSort} `{StepRunner} (s : Server)
    (rs : list (Claims * account_request)) (w : World) :
  members_keyed (w_db w) → owned (w_db w) → owned (w_db (serve_all s rs w)).
Proof.
  revert w. induction rs as [|[claims r] rs IH]; intros w Hk Ho; cbn [serve_all]; [done|].
  pose proof (serve_roster claims s r w Hk) as Hs.
  apply IH; [by eapply keyed_step|by eapply owned_step].
Qed.

(** ** The edge *)

(** The edge's entry of the account lists exactly its members. *)
Definition edge_current (acc : Z) (w : World) : Prop :=
  ∃ row l, db_accounts (w_db w) !! acc = Some row ∧
    w_kv w !! account_key (Account_Slug row) = Some (KVAccount (mkKVAccountEntry acc l)) ∧
    ∀ u, u ∈ l ↔ is_Some (db_members (w_db w) !! (acc, u)) ∧ is_Some (db_users (w_db w) !! u).

Lemma elem_of_members acc db u :
  members_keyed db →
  (∃ ms, (ListAccountMembers acc db).1 = Ok ms ∧ (u ∈ AccountMember_UserID <$> ms ↔
    is_Some (db_members db !! (acc, u)) ∧ is_Some (db_users db !! u))).
Proof.
  intros Hk. eexists. split; [reflexivity|]. rewrite list_elem_of_fmap. split.
  - intros (m & -> & Hm). apply list_elem_of_omap in Hm as (m0 & Hm0 & E).
    unfold order_by_asc in Hm0. rewrite merge_sort_Permutation in Hm0.
    apply elem_of_select in Hm0 as [Hacc [[a v] Hkey]]. apply bool_decide_eq_true in Hacc.
    destruct (db_users db !! AccountMember_UserID m0) as [us|] eqn:Eu; [|done].
    injection E as <-. cbn. pose proof (Hk _ _ Hkey) as [= Ea Ev]. subst a v.
    rewrite <-Hacc. split; [by exists m0|by exists us].
  - intros [[m0 Hm0] [us Hu]]. pose proof (Hk _ _ Hm0) as [= Ea Eu].
    eexists. split; [|apply list_elem_of_omap; exists m0; split].
    2:{ unfold order_by_asc. rewrite merge_sort_Permutation. apply elem_of_select.
        split; [by apply bool_decide_eq_true|by exists (acc, u)]. }
    2:{ rewrite Eu, Hu. reflexivity. }
    cbn. congruence.
Qed.

Lemma refresh_edge {go_sort : GoSort} (s : Server) acc w row :
  fault_free w → srv_kvStore s = true → members_keyed (w_db w) →
  db_accounts (w_db w) !! acc = Some row → Account_ID row = acc →
  edge_current acc (refreshAccountKVCache s acc w).2.
Proof.
  intros Hf Hkv Hk Ha Hi. unfold refreshAccountKVCache. rewrite Hkv. cbn [negb].
  rewrite bind_try, call_free, GetAccount_run, Ha by done. cbn [fst snd].
  rewrite bind_try, call_free by done. cbn [fst snd].
  destruct (elem_of_members acc (w_db w) 0 Hk) as (ms & E & _). cbn [w_db set]. rewrite E.
  unfold PutAccount, ignore. rewrite putWithRetry_free by done. cbn.
  exists row, (AccountMember_UserID <$> ms). split; [done|]. cbn. rewrite Hi.
  split; [by rewrite lookup_insert_eq|]. intros u.
  destruct (elem_of_members acc (w_db w) u Hk) as (ms' & E' & Hu).
  rewrite E in E'. injection E' as <-. exact Hu.
Qed.

(** What follows the write: the refresh and a response. *)
Lemma or_error_free {A} (q : Q A) status msg k w r w' :
  fault_free w → or_error (call q) status msg k w = (Ok r, w') → response_status r ≠ status →
  ∃ a db', q (w_db w) = (Ok a, db') ∧ k a (w <| w_db := db' |>) = (Ok r, w').
Proof.
  intros Hf E Hs. unfold or_error in E. rewrite bind_try, call_free in E by done.
  destruct (q (w_db w)) as [[a|e] db'] eqn:Eq; cbn [fst snd] in E; [by exists a, db'|].
  injection E as <- _. by destruct Hs.
Qed.

(** Whose membership of which account a request changes. *)
Definition concerns (db : DB) (r : account_request) (acc : Z) : Prop :=
  (∃ a u, r = DeleteMember a u ∧ Sscanf_d a = Some acc) ∨
  (∃ a, r = PostLeave a ∧ Sscanf_d a = Some acc) ∨
  (∃ t inv, r = PostAccept t ∧ invitation_by_token db t = Some inv ∧
     AccountInvitation_AccountID inv = acc).

Lemma account_free {go_sort : GoSort} accountId claims k w r w' acc :
  fault_free w → Sscanf_d accountId = Some acc → response_status r < 400 →
  AccountMiddleware accountId (Some claims) (λ id _ m, k id m) w = (Ok r, w') →
  ∃ m, k acc m w = (Ok r, w').
Proof.
  intros Hf Ha Hs. unfold AccountMiddleware. rewrite Ha, bind_try, call_free by done.
  rewrite GetAccountMember_run. cbn. replace (w <| w_db := w_db w |>) with w by (by destruct w).
  destruct (db_members (w_db w) !! _) as [m|]; [by exists m|]. intros [= <- _]. cbn in Hs. lia.
Qed.

Section Edge.
Context {go_sort : GoSort} `{StepRunner} (s : Server) (acc : Z) (row : Account) (w : World).
Hypothesis Hkv : srv_kvStore s = true.
Hypothesis Hf : fault_free w.
Hypothesis Hk : members_keyed (w_db w).
Hypothesis Ha : db_accounts (w_db w) !! acc = Some row.
Hypothesis Hrow : Account_ID row = acc.

(** The refresh after a write of the members. *)
Lemma refresh_then db' (k : M response) w' r :
  members_keyed db' → db_accounts db' !! acc = Some row →
  (∀ w1, w_db (k w1).2 = w_db w1 ∧ w_kv (k w1).2 = w_kv w1) →
  (refreshAccountKVCache s acc ;; k) (w <| w_db := db' |>) = (Ok r, w') → edge_current acc w'.
Proof.
  intros Hk' Ha' Hq E. apply bind_ok in E as ([] & w1 & E1 & E).
  assert (edge_current acc (refreshAccountKVCache s acc (w <| w_db := db' |>)).2) as He
    by (by apply (refresh_edge s acc _ row)).
  rewrite E1 in He. destruct (Hq w1) as [Ed Ek]. rewrite E in Ed, Ek. cbn in *.
  unfold edge_current in *. by rewrite Ed, Ek.
Qed.

Lemma remove_edge m u r w' :
  handleRemoveMember s acc m u w = (Ok r, w') → response_status r < 400 → edge_current acc w'.
Proof.
  unfold handleRemoveMember, requireRole, int_param. intros E Hs.
  destruct (one_of _ _); [|injection E as <- _; cbn in Hs; lia].
  destruct (Sscanf_d u) as [t|]; [|injection E as <- _; cbn in Hs; lia].
  case_bool_decide; [injection E as <- _; cbn in Hs; lia|].
  apply or_error_free in E as (tm & db1 & E1 & E); [|done|lia].
  rewrite GetAccountMember_run in E1. injection E1 as _ <-.
  destruct (String.eqb _ _); [injection E as <- _; cbn in Hs; lia|].
  destruct (_ && _); [injection E as <- _; cbn in Hs; lia|].
  apply or_error_free in E as (? & db2 & E2 & E); [|done|lia]. injection E2 as _ <-.
  eapply refresh_then; [| | |exact E]; [by apply keyed_delete|exact Ha|done].
Qed.
Lemma leave_edge m r w' :
  handleLeaveAccount s acc m w = (Ok r, w') → response_status r < 400 → edge_current acc w'.
Proof.
  unfold handleLeaveAccount. intros E Hs.
  destruct (String.eqb _ _); [injection E as <- _; cbn in Hs; lia|].
  apply or_error_free in E as (? & db2 & E2 & E); [|done|lia]. injection E2 as _ <-.
  eapply refresh_then; [| | |exact E]; [by apply keyed_delete|exact Ha|done].
Qed.
Lemma accept_edge claims token inv r w' :
  invitation_by_token (w_db w) token = Some inv → AccountInvitation_AccountID inv = acc →
  handleAcceptInvitation s claims token w = (Ok r, w') → response_status r < 400 →
  edge_current acc w'.
Proof.
  intros Hi Hacc E Hs. unfold handleAcceptInvitation in E.
  apply or_error_free in E as (inv' & db1 & E1 & E); [|done|lia].
  rewrite GetInvitationByToken_run, Hi in E1. injection E1 as <- <-.
  destruct (negb _); [injection E as <- _; cbn in Hs; lia|]. rewrite bind_gets in E.
  case_bool_decide; [injection E as <- _; cbn in Hs; lia|].
  destruct (negb _); [injection E as <- _; cbn in Hs; lia|].
  rewrite bind_try, call_free in E by done.
  pose proof (AcceptInvitation_roster token (Claims_UserID claims) (w_db w)) as Hr.
  cbn in E, Hr. destruct (AcceptInvitation _ _ _) as [[n|e] db2]; cbn [fst snd] in E, Hr.
  2:{ destruct (errors_is _ _); injection E as <- _; cbn in Hs; lia. }
  case_bool_decide; [injection E as <- _; cbn in Hs; lia|]. rewrite Hacc in E.
  eapply (refresh_then db2); [| | |exact E]; [| |done].
  - destruct Hr as [[= _ Em _]|(i & m & f & _ & _ & _ & _ & _ & Hid & _ & [= _ Em _])];
      unfold members_keyed; rewrite Em; [exact Hk|by apply keyed_insert].
  - by destruct Hr as [[= -> _ _]|(i & m & f & _ & _ & _ & _ & _ & _ & _ & [= -> _ _])].
Qed.
End Edge.

(** The edge learns of a change of membership before the response: without
    faults, when a removal, a departure or an accepted invitation is answered
    with success, the KV entry the edge authorizes by lists exactly the account's
    members. *)
Lemma membership_reaches_edge {go_sort : GoSort} `{StepRunner} (s : Server)
    (claims : Claims) (r : account_request) (acc : Z) (row : Account) (w : World) :
  srv_kvStore s = true → fault_free w → members_keyed (w_db w) →
  db_accounts (w_db w) !! acc = Some row → Account_ID row = acc → concerns (w_db w) r acc →
  let '(resp, w') := serve s claims r w in
  match resp with
  | Ok resp => response_status resp < 400 → edge_current acc w'
  | Err _ => True
  end.
Proof.
  intros Hkv Hf Hk Ha Hrow Hc. destruct (serve s claims r w) as [[resp|e] w'] eqn:E; [|done].
  intros Hs. destruct Hc as [(a & u & -> & Hacc)|[(a & -> & Hacc)|(t & inv & -> & Hi & Hacc)]].
  - eapply account_free in E as [m E]; [|done..]. by eapply remove_edge.
  - eapply account_free in E as [m E]; [|done..]. by eapply leave_edge.
  - by eapply accept_edge.
Qed.

(** ** Concrete requests *)

Definition server1 : Server := api_server runtime0 false true false "" "example.com".
Definition alice_claims : Claims := mkClaims 1 "alice@example.com".
Definition bob_claims : Claims := mkClaims 2 "bob@example.com".
Lemma db_invited_members : members_keyed db_invited.
Proof. by destruct (reachable_keyed _ db_invited_reachable) as (_&_&_&_&_&_&_&_&_&?&_). Qed.

Abbreviation run_accept :=
  (serve (go_sort:=go_sort_merge) server1 bob_claims (PostAccept "id-3") (world db_invited)).

Lemma membership_changes_authorized_witness :
  changes_allowed bob_claims db_invited (w_db run_accept.2) ∧
  role_in (w_db run_accept.2) 1 2 = Some "admin"%string.
Proof.
  split; [|vm_compute; reflexivity].
  exact (membership_changes_authorized (go_sort:=go_sort_merge) server1 bob_claims
    (PostAccept "id-3") (world db_invited) db_invited_members).
Defined.

Lemma membership_reaches_edge_witness : edge_current 1 run_accept.2.
Proof.
  assert (db_accounts db_invited !! 1 = Some (default (mkAccount 0 "" "" 0 0)
    (db_accounts db_invited !! 1))) as Ha by (vm_compute; reflexivity).
  assert (invitation_by_token db_invited "id-3" = Some (default
    (mkAccountInvitation 0 1 "" "" "" "" "" 1 None 0 0 None)
    (invitation_by_token db_invited "id-3"))) as Hi by (vm_compute; reflexivity).
  pose proof (membership_reaches_edge (go_sort:=go_sort_merge) server1 bob_claims
    (PostAccept "id-3") 1 _ (world db_invited) eq_refl eq_refl db_invited_members Ha
    ltac:(vm_compute; reflexivity)) as H.
  specialize (H ltac:(right; right; eexists _, _; split; [reflexivity|];
    split; [exact Hi|vm_compute; reflexivity])).
  assert (response_status <$> (match run_accept.1 with Ok r => Some r | Err _ => None end)
    = Some 200) as E by (vm_compute; reflexivity).
  destruct run_accept as [[r|e] w']; [|discriminate E]. apply H. cbn in E.
  injection E as ->. reflexivity.
Defined.

(** Two users: an account is founded, the second user invited, made an admin and
    demoted; nobody can remove or demote the owner. *)
Definition world_users : World :=
  world ((db_empty (seconds 1000)) <| db_users := {[ 1 := alice; 2 := bob ]} |>).
Definition session : list (Claims * account_request) :=
  [ (alice_claims, PostAccount (Some ("Acme", "acme")%string));
    (alice_claims, PostInvitation "1" (Some ("Bob@example.com", "admin")%string));
    (bob_claims, PostAccept "id-3");
    (bob_claims, DeleteMember "1" "1");
    (bob_claims, PutMemberRole "1" "1" (Some "member"%string));
    (alice_claims, PutMemberRole "1" "2" (Some "member"%string));
    (alice_claims, PostLeave "1") ].
Abbreviation after_session := (serve_all (go_sort:=go_sort_merge) server1 session world_users).

Lemma requests_keep_owner_witness :
  owned (w_db after_session) ∧
  role_in (w_db after_session) 1 1 = Some "owner"%string ∧
  role_in (w_db after_session) 1 2 = Some "member"%string.
Proof.
  split; [|split; vm_compute; reflexivity].
  apply (requests_keep_owner (go_sort:=go_sort_merge) server1 session world_users).
  - intros k m. cbn. by rewrite lookup_empty.
  - split; [|split]; [intros acc [? E]|intros acc u [? E]|intros id i E]; cbn in E;
      by rewrite lookup_empty in E.
Defined.
