(* ===== verification/Agents.v ===== *)
(** * Host agents: internal/api/enrollment.go, agent_heartbeat.go and the
    authentication and activity parts of agent_auth.go

    A host registers with an enrollment token, sends heartbeats, says that it
    shuts down, and is deregistered.  A decoded request body is a record, an
    option when it may not decode.  The background restart after an update is
    [restartMachinesAfterUpdate]; the handler returns the machines it is started for. *)

From S2P Require Import Prelude Schema HostStore PlacementStore AccountStore.
From S2P Require Import World Fleet GoStrings Json Versions Routing Runtime Api.
From S2P Require Import Members.

(** ** Values *)

(** Two's complement. *)
Definition int64 (n : Z) : Z := (n + 2 ^ 63) mod 2 ^ 64 - 2 ^ 63.

(** A field of [json.Unmarshal] into a struct of integers: keys are compared
    without case, the last one counts, null is no value; [None] is an error. *)
Fixpoint int_field (key : string) (fields : list (string * json)) (v : Z) : option Z :=
  match fields with
  | [] => Some v
  | (k, j) :: rest =>
      if EqualFold k key then
        match j with
        | JNum n => n' ← int_range n; int_field key rest n'
        | JNull => int_field key rest v
        | _ => None
        end
      else int_field key rest v
  end.
Record Caps : Type := mkCaps { Caps_CPUThreads : Z; Caps_MemoryMB : Z; Caps_DiskMB : Z }.
Definition unmarshal_caps (capabilities : json) : option Caps :=
  match capabilities with
  | JObj fields =>
      c ← int_field "cpu_threads" fields 0;
      m ← int_field "memory_mb" fields 0;
      d ← int_field "disk_mb" fields 0;
      Some (mkCaps c m d)
  | JNull => Some (mkCaps 0 0 0)
  | _ => None
  end.

(** [metadata["tunnel_id"].(string)] of a decoded object: the last key counts. *)
Fixpoint last_field (key : string) (fields : list (string * json)) (v : option json)
    : option json :=
  match fields with
  | [] => v
  | (k, j) :: rest => last_field key rest (if String.eqb k key then Some j else v)
  end.
Definition tunnel_id_of (metadata : json) : string :=
  match metadata with
  | JObj fields => match last_field "tunnel_id" fields None with
                   | Some (JStr t) => t
                   | _ => EmptyString
                   end
  | _ => EmptyString
  end.

Definition time_ms (t : time) : Z := Z.quot t 1000000.

(** ** Requests *)

Record registration : Type := mkRegistration {
  Registration_EnrollmentToken : string;
  Registration_AgentEndpoint : string;
  Registration_AgentEndpointType : string;
  Registration_Capabilities : option json;
  Registration_Labels : option json
}.
(** [vm_versions] is a map: its entries in the order it yields them. *)
Record heartbeat : Type := mkHeartbeat {
  Heartbeat_HostID : string;
  Heartbeat_ExternalIP : string;
  Heartbeat_AgentVersion : string;
  Heartbeat_VMCount : Z;
  Heartbeat_RootfsVersion : string;
  Heartbeat_BrowserRootfsVersion : string;
  Heartbeat_AgentEndpoint : string;
  Heartbeat_OpenclawVersion : string;
  Heartbeat_Capabilities : option json;
  Heartbeat_VMVersions : list (string * (string * string))
}.
Record activity_report : Type := mkActivityReport {
  ActivityReport_Category : string;
  ActivityReport_Action : string;
  ActivityReport_Status : string;
  ActivityReport_MachineID : string;
  ActivityReport_Summary : string
}.

(** What an agent answers to the pairing of a browser VM. *)
Inductive PairAnswer : Type := Paired | PairVMGone | PairFailed.

Section Agents.
  Context {go_sort : GoSort}.
  Variable s : Server.

(** ** Authentication *)

(** [subtle.ConstantTimeCompare([]byte(a), []byte(b)) == 1]. *)
Definition ConstantTimeEq (a b : string) : bool := String.eqb a b.

(** The per-host token, then the token of the fleet: [Err] is a refusal. *)
Definition authenticateAgent (authHeader : string) (hostID : Z) : M unit :=
  if negb (HasPrefix authHeader "Bearer ") then fail (ErrText "missing bearer token")
  else
    let token := TrimPrefix authHeader "Bearer " in
    let fleet :=
      if String.eqb (srv_agentToken s) "" then fail (ErrText "agent token not configured")
      else if negb (ConstantTimeEq token (srv_agentToken s)) then
        fail (ErrText "invalid agent token")
      else ret tt in
    if bool_decide (hostID = 0) then fleet
    else
      let! h := try (call (GetHost hostID)) in
      match h with
      | Ok host =>
          match Host_AgentToken host with
          | Some agentToken =>
              if String.eqb agentToken "" then fleet
              else if ConstantTimeEq token agentToken then ret tt
              else fail (ErrText "invalid agent token for host")
          | None => fleet
          end
      | Err _ => fleet
      end.
(** [if ok, authErr := s.authenticateAgent(...); !ok { ... }]. *)
Definition authenticated (authHeader : string) (hostID : Z) (next : M response) : M response :=
  let! r := try (authenticateAgent authHeader hostID) in
  match r with
  | Ok _ => next
  | Err e =>
      if String.eqb (Error e) "missing bearer token" then writeError 401 (Error e)
      else writeError 403 (Error e)
  end.

(** The host of the token; 0 for the token of the fleet. *)
Definition authenticateAgentToken (authHeader : string) (next : Z → M response) : M response :=
  if negb (HasPrefix authHeader "Bearer ") then writeError 401 "missing bearer token"
  else
    let token := TrimPrefix authHeader "Bearer " in
    let! h := try (call (GetHostByAgentToken token)) in
    match h with
    | Ok host => next (Host_ID host)
    | Err _ =>
        if negb (String.eqb (srv_agentToken s) "") && ConstantTimeEq token (srv_agentToken s)
        then next 0
        else writeError 401 "invalid agent token"
    end.

Definition validateMachinePlacement (machineID : string) (hostID : Z) : M unit :=
  if bool_decide (hostID = 0) then ret tt
  else
    let! m := try (call (GetMachine machineID)) in
    match m with
    | Err _ => fail (ErrText "machine not found")
    | Ok machine =>
        if bool_decide (Machine_HostID machine = Some hostID) then ret tt
        else fail (ErrText "machine is not placed on this host")
    end.

(** ** Registration (enrollment.go) *)

Definition handleListEnrollmentTokens : M response :=
  or_error (call ListEnrollmentTokens) 500 "failed to list enrollment tokens" (λ tokens,
  writeJSON 200 (JArr ((λ k, JObj ([("id", JStr (EnrollmentToken_ID k));
      ("token", JStr (EnrollmentToken_Token k)); ("provider", JStr (EnrollmentToken_Provider k));
      ("provider_class", JStr (EnrollmentToken_ProviderClass k));
      ("labels", default JNull (EnrollmentToken_Labels k))]%string ++
    omitempty "used_by_host_id" (JNum <$> EnrollmentToken_UsedByHostID k) ++
    [("expires_at", JNum (EnrollmentToken_ExpiresAt k));
     ("created_at", JNum (EnrollmentToken_CreatedAt k))]%string)) <$> tokens))).

(** 1: validate the token. *)
Definition validate_token (token : string) (next : EnrollmentToken → M response) : M response :=
  or_error (call (GetEnrollmentToken token)) 401 "invalid enrollment token" (λ enrollToken,
  if is_some_b (EnrollmentToken_UsedByHostID enrollToken) then
    writeError 409 "enrollment token already used"
  else
    let! t := gets (λ w, db_now (w_db w)) in
    if bool_decide (EnrollmentToken_ExpiresAt enrollToken < t) then
      writeError 401 "enrollment token expired"
    else next enrollToken).

(** 3 and 4: the host record. *)
Definition registered_host (req : registration) (enrollToken : EnrollmentToken)
    (agentToken : string) (now_ms : Z) : Host :=
  let capabilities := default (JObj []) (Registration_Capabilities req) in
  let sourceImage :=
    match srv_placement s with
    | Some config =>
        let img := PlacementConfig_ExpectedImage config in
        if String.eqb img "" then None else Some img
    | None => None
    end in
  let caps := default (mkCaps 0 0 0) (unmarshal_caps capabilities) in
  let positive n v := if bool_decide (0 < n) then v else 0 in
  mkHost 0 ("ocm-host-" +:+ pretty now_ms) None "external" "external" "registered" None None
    None "provisioning" None sourceImage
    (positive (Caps_CPUThreads caps) (int64 (Caps_CPUThreads caps * srv_vcpuOversubRatio s)))
    (positive (Caps_MemoryMB caps) (Caps_MemoryMB caps))
    (positive (Caps_DiskMB caps) (Caps_DiskMB caps)) 0 0 0 0 None None "" "" None 0
    (EnrollmentToken_Provider enrollToken) (EnrollmentToken_ProviderClass enrollToken)
    "registered" (Some (Registration_AgentEndpoint req))
    (if String.eqb (Registration_AgentEndpointType req) "" then "public_http"%string
     else Registration_AgentEndpointType req)
    None (Some (JObj [])) (Some capabilities)
    (Some (default (JObj []) (Registration_Labels req))) (Some agentToken) false.

(** 4b: the tunnel of the host; the token of the tunnel goes to [next]. *)
Definition create_host_tunnel (host : Host) (next : string → M response) : M response :=
  if negb (srv_tunnelCreator s) then next EmptyString
  else if String.eqb (normalizeDomain (srv_dataPlaneDomain s)) "" then
    writeError 400 "DATA_PLANE_DOMAIN is required for tunnel enrollment"
  else
    let tunnelHostname := (Host_VMName host +:+ "." +:+ dataPlaneDomainOrLocal s)%string in
    or_error (remote (HostTunnelCreate (Host_VMName host)) ;;
              let! tunnelID := rand_hex in let! tToken := rand_hex in ret (tunnelID, tToken))
      500 "failed to create tunnel" (λ '(tunnelID, tToken),
    let! c := try (remote (HostTunnelConfigure tunnelID tunnelHostname)) in
    match c with
    | Err _ =>
        ignore (remote (HostTunnelDelete tunnelID)) ;;
        writeError 500 "failed to configure tunnel"
    | Ok _ =>
        let! d := try (remote (HostTunnelDNS tunnelID tunnelHostname)) in
        match d with
        | Err _ =>
            ignore (remote (HostTunnelDelete tunnelID)) ;;
            writeError 500 "failed to create DNS route"
        | Ok _ =>
            ignore (call (UpdateHostDetails (host <| Host_TunnelURL := Some tunnelHostname |>))) ;;
            ignore (call (UpdateHostProviderMetadata (Host_ID host)
                            (Some (JObj [("tunnel_id"%string, JStr tunnelID)])))) ;;
            next tToken
        end
    end).

(** 2 to 6: the token of the agent, the host, the tunnel, the enrollment token
    marked as used (an error is dropped). *)
Definition register_host (req : registration) (enrollToken : EnrollmentToken) : M response :=
  let! b := try rand_hex in
  match b with
  | Err _ => writeError 500 "failed to generate agent token"
  | Ok tokenBytes =>
      let agentToken := ("ocm_agent_" +:+ tokenBytes)%string in
      let! t := gets (λ w, db_now (w_db w)) in
      or_error (call (CreateRegisteredHost
          (registered_host req enrollToken agentToken (time_ms t)))) 500
        "failed to create host record" (λ host,
      create_host_tunnel host (λ tunnelToken,
      ignore (call (MarkEnrollmentTokenUsed (Registration_EnrollmentToken req)
                      (Host_ID host))) ;;
      writeJSON 201 (JObj [("host_id", JNum (Host_ID host)); ("agent_token", JStr agentToken);
        ("backend_url", JStr (srv_backendURL s));
        ("rootfs_gcs_manifest", JStr (srv_rootfsGCSManifest s));
        ("agent_gcs_manifest", JStr (srv_agentGCSManifest s));
        ("browser_rootfs_gcs_manifest", JStr (srv_browserRootfsGCSManifest s));
        ("browser_rootfs_version", JStr (srv_browserRootfsVersion s));
        ("gcs_credentials", JStr (srv_gcsServiceAccountKey s));
        ("tunnel_token", JStr tunnelToken)]%string)))
  end.

Definition handleAgentRegister (body : option registration) : M response :=
  decoded body (λ req,
  if String.eqb (Registration_EnrollmentToken req) "" then
    writeError 400 "enrollment_token is required"
  else validate_token (Registration_EnrollmentToken req) (register_host req)).

Definition handleDeregisterHost (hostId : string) : M response :=
  int_param hostId "invalid host id" (λ hostID,
  or_error (call (GetHost hostID)) 404 "host not found" (λ host,
  (match Host_ProviderMetadata host with
   | Some metadata =>
       let tunnelID := tunnel_id_of metadata in
       when (srv_tunnelCreator s && negb (String.eqb tunnelID ""))
         (ignore (remote (HostTunnelDeleteDNS tunnelID
            (match Host_TunnelURL host with Some u => [u] | None => [] end))))
   | None => ret tt
   end) ;;
  ignore (call (MarkMachinesOnHostError hostID "host deregistered")) ;;
  or_error (call (UpdateHostStatus hostID "terminated")) 500 "failed to update host status"
    (λ _, writeJSON 200 (JObj [("status"%string, JStr "deregistered")])))).

(** ** Heartbeats (agent_heartbeat.go) *)

(** Pairing again the browser VMs of the host's running machines: [answers] is
    what the agent answers for each browser VM. *)
Section Pairings.
  Variable answers : string → PairAnswer.

Definition replay_pairing (host : Host) (machine : Machine) : M unit :=
  match Machine_BrowserVMID machine, Machine_VMIP machine with
  | Some bvmID, Some machineIP =>
      if negb (String.eqb (Machine_Status machine) "running") then ret tt
      else
        let! b := try (call (GetBrowserVM bvmID)) in
        match b with
        | Err _ => ret tt
        | Ok bvm =>
            match BrowserVM_VMIP bvm with
            | None => ret tt
            | Some bvmIP =>
                if negb (String.eqb (BrowserVM_Status bvm) "running") ||
                   negb (bool_decide (BrowserVM_HostID bvm = Some (Host_ID host)))
                then ret tt
                else
                  emit (AgentPairBrowserVM (Host_ID host) (BrowserVM_ID bvm) machineIP
                          (match answers (BrowserVM_ID bvm) with PairVMGone => true
                           | _ => false end)) ;;
                  match answers (BrowserVM_ID bvm) with
                  | PairFailed => ret tt
                  | PairVMGone =>
                      ignore (call (UnpairBrowserVM (Machine_ID machine))) ;;
                      ignore (call (UpdateBrowserVMStatus (BrowserVM_ID bvm) "error"
                        (Some "agent reports browser VM no longer exists on host"%string))) ;;
                      ignore (call (UnassignBrowserVMFromHost (BrowserVM_ID bvm))) ;;
                      ignore (call (ReleaseBrowserVMPlacement (BrowserVM_ID bvm)))
                  | Paired =>
                      ignore (remote (AgentSetCDPTarget (Host_ID host) (Machine_ID machine)
                                        (bvmIP +:+ ":9222")))
                  end
            end
        end
  | _, _ => ret tt
  end.

Definition reconcileHostBrowserPairings (host : Host) : M unit :=
  when (rs_agentClient (srv_machines s)) (
    let! ms := try (call (ListMachinesByHost (Host_ID host))) in
    match ms with
    | Err _ => ret tt
    | Ok machines => for_each machines (replay_pairing host)
    end).

(** The [pending_restarts] of a status message; none when it does not decode. *)
Definition pending_restarts (msg : string) : list string :=
  match Unmarshal msg with
  | Some (JObj fields) => default [] (strings_field "pending_restarts" fields [])
  | _ => []
  end.

(** Recovery of an unreachable, draining or updating host; the machines to
    restart when it was updating. *)
Definition recover_host (hostID : Z) (host : Host) : M (list string) :=
  if negb (one_of ["unreachable"; "draining"; "updating"]%string (Host_Status host)) then ret []
  else
    let! u := try (call (UpdateHostStatus hostID "ready")) in
    (match u with
     | Ok _ => emit (ActivityLog "host.recovered" (Some hostID) None)
     | Err _ => ret tt
     end) ;;
    if String.eqb (Host_Status host) "updating" then
      ignore (call (SetHostMaintenanceMode hostID false)) ;;
      ret (match Host_StatusMessage host with Some msg => pending_restarts msg | None => [] end)
    else ret [].
(** Promotion of a provisioning host. *)
Definition promote_host (hostID : Z) (host : Host) : M unit :=
  when (String.eqb (Host_Status host) "provisioning") (
    let! u := try (call (UpdateHostStatus hostID "ready")) in
    match u with
    | Ok _ => emit (ActivityLog "host.enrolled" (Some hostID) None)
    | Err _ => ret tt
    end).

(** The records of the heartbeat: the artifact states, a table the model does not
    hold, and the versions of the VMs. *)
Definition record_versions (hostID : Z) (req : heartbeat) : M unit :=
  when (negb (String.eqb (Heartbeat_RootfsVersion req) "")) (ignore load) ;;
  when (negb (String.eqb (Heartbeat_OpenclawVersion req) "")) (ignore load) ;;
  for_each (Heartbeat_VMVersions req) (λ '(machineID, (rootfs, openclaw)),
    let machineID := TrimSpace machineID in
    when (negb (String.eqb machineID ""))
      (ignore (call (UpdateMachineActualVersions hostID machineID (TrimSpace rootfs)
                       (TrimSpace openclaw))))) ;;
  when (negb (String.eqb (Heartbeat_AgentEndpoint req) ""))
    (ignore (call (UpdateHostAgentEndpoint hostID (Heartbeat_AgentEndpoint req)
                     "public_http"))).

(** The response and the machines to restart in the background. *)
Definition heartbeat_body (hostID : Z) (req : heartbeat) : M (response * list string) :=
  let! r := try (call (UpdateHostHeartbeat hostID (Heartbeat_ExternalIP req)
    (Heartbeat_AgentVersion req) (Heartbeat_RootfsVersion req)
    (Heartbeat_BrowserRootfsVersion req) (Heartbeat_OpenclawVersion req)
    (Heartbeat_Capabilities req))) in
  match r with
  | Err _ => let! resp := writeError 500 "heartbeat update failed" in ret (resp, [])
  | Ok ipChanged =>
      record_versions hostID req ;;
      when ipChanged (emit (ActivityLog "host.ip_changed" (Some hostID) None)) ;;
      let! h := try (call (GetHost hostID)) in
      let! pending :=
        match h with
        | Err _ => ret []
        | Ok host =>
            let! pending := recover_host hostID host in
            promote_host hostID host ;;
            when (bool_decide (0 < Heartbeat_VMCount req)) (reconcileHostBrowserPairings host) ;;
            ret pending
        end in
      let! resp := writeJSON 200 (JObj ([("status", JStr "ok");
          ("ip_changed", JBool ipChanged)]%string ++
        (if String.eqb (srv_backupMasterKey s) "" then []
         else [("backup_enabled"%string, JBool true)]))) in
      ret (resp, pending)
  end.

(** [strings.Trim] of the quotation marks (character 34) around the identifier. *)
Fixpoint trim_quotes_left (t : string) : string :=
  match t with
  | String c t' => if Nat.eqb (Ascii.nat_of_ascii c) 34 then trim_quotes_left t' else t
  | EmptyString => EmptyString
  end.
Fixpoint trim_quotes_right (t : string) : string :=
  match t with
  | EmptyString => EmptyString
  | String c t' =>
      match trim_quotes_right t' with
      | EmptyString => if Nat.eqb (Ascii.nat_of_ascii c) 34 then EmptyString
                       else String c EmptyString
      | t'' => String c t''
      end
  end.

Definition handleAgentHeartbeat (authHeader : string) (body : option heartbeat)
    : M (response * list string) :=
  let reply m := let! resp := m in ret (resp, []) in
  match body with
  | None => reply (writeError 400 "invalid request body")
  | Some req =>
      match Atoi (trim_quotes_right (trim_quotes_left (Heartbeat_HostID req))) with
      | None => reply (writeError 400 "host_id and external_ip are required")
      | Some hostID =>
          if bool_decide (hostID = 0) || String.eqb (Heartbeat_ExternalIP req) "" then
            reply (writeError 400 "host_id and external_ip are required")
          else
            let! r := try (authenticateAgent authHeader hostID) in
            match r with
            | Err e => reply (if String.eqb (Error e) "missing bearer token"
                              then writeError 401 (Error e) else writeError 403 (Error e))
            | Ok _ => heartbeat_body hostID req
            end
      end
  end.
End Pairings.

(** The background restart of the machines stopped for an update
    (admin_hosts.go): one machine after the other, whatever fails. *)
Definition restart_machine (machineID : string) : M unit :=
  let! m := try (call (GetMachine machineID)) in
  match m with
  | Err _ => ret tt
  | Ok machine =>
      if negb (String.eqb (Machine_Status machine) "stopped") then ret tt
      else
        let! r := try (Start (srv_machines s) machine no_options) in
        match r with
        | Err e => ignore (call (UpdateMachineStatus (Machine_ID machine) "stopped"
                     (Some ("failed to restart after update: " +:+ Error e)%string)))
        | Ok _ => ret tt
        end
  end.
Definition restartMachinesAfterUpdate (pendingIDs : list string) : M unit :=
  for_each pendingIDs restart_machine.

Definition handleAgentShutdownNotify (authHeader : string) (body : option (string * string))
    : M response :=
  decoded body (λ '(hostId, _),
  match Atoi hostId with
  | None => writeError 400 "host_id is required"
  | Some hostID =>
      if bool_decide (hostID = 0) then writeError 400 "host_id is required"
      else
        authenticated authHeader hostID (
        or_error (call (UpdateHostStatus hostID "draining")) 500 "failed to update host status"
          (λ _,
        emit (ActivityLog "agent.shutdown" (Some hostID) None) ;;
        writeJSON 200 (JObj [("status"%string, JStr "ok")])))
  end).

(** [DrainHost] of provisioner/provisioner.go. *)
Definition DrainHost (hostID : Z) : M unit :=
  wrap "update host status" (call (UpdateHostStatus hostID "draining")) ;;
  emit (ActivityLog "status.changed" (Some hostID) None).

(** The route of a machine for the edge, which heals the KV cache. *)
Definition handleInternalResolve (body : option (string * string)) : M response :=
  decoded body (λ '(accountSlug, machineSlug),
  if String.eqb accountSlug "" || String.eqb machineSlug "" then
    writeError 400 "account_slug and machine_slug are required"
  else
    or_error (call (ResolveRoute accountSlug machineSlug)) 404 "route not found" (λ route,
    (match srv_routing s with
     | None => ret tt
     | Some routing =>
         when (negb (String.eqb (ResolvedRoute_HostHostname route) ""))
           (ignore (SyncRouteToKV routing (mkSyncKVRequest accountSlug machineSlug
              (ResolvedRoute_MachineID route) (ResolvedRoute_HostHostname route)
              (ResolvedRoute_ProxyToken route)))) ;;
         ignore (SyncAccountToKV routing accountSlug (ResolvedRoute_AccountID route)
                   (ResolvedRoute_UserIDs route))
     end) ;;
    writeJSON 200 (JObj [("account_id", JNum (ResolvedRoute_AccountID route));
      ("machine_id", JStr (ResolvedRoute_MachineID route));
      ("proxy_token", JStr (ResolvedRoute_ProxyToken route));
      ("host_hostname", JStr (ResolvedRoute_HostHostname route));
      ("user_ids", JArr (JNum <$> ResolvedRoute_UserIDs route))]%string))).

(** Activity reports (agent_auth.go): of per-host tokens only. *)
Definition handleAgentActivity (authHeader : string) (body : option activity_report)
    : M response :=
  authenticateAgentToken authHeader (λ hostID,
  if bool_decide (hostID = 0) then
    writeError 403 "fleet-wide tokens cannot report activity"
  else
    decoded body (λ req,
    if existsb (λ f, String.eqb f "") [ActivityReport_Category req; ActivityReport_Action req;
         ActivityReport_Status req; ActivityReport_Summary req]
    then writeError 400 "category, action, status, and summary are required"
    else if negb (one_of ["agent"; "vm"; "gateway"; "host"]%string (ActivityReport_Category req))
    then writeError 400 "category must be one of: agent, vm, gateway, host"
    else
      let machineID := if String.eqb (ActivityReport_MachineID req) "" then None
                       else Some (ActivityReport_MachineID req) in
      let! v := try (match machineID with
                     | Some id => validateMachinePlacement id hostID
                     | None => ret tt
                     end) in
      match v with
      | Err e => writeError 403 (Error e)
      | Ok _ =>
          emit (AgentLog (ActivityReport_Category req) (ActivityReport_Action req)
                  (ActivityReport_Status req) hostID machineID) ;;
          writeJSON 200 (JObj [("status"%string, JStr "ok")])
      end)).

(** ** The routes of the agents *)

Inductive agent_request : Type :=
| PostHeartbeat (authHeader : string) (body : option heartbeat)
| PostShutdownNotify (authHeader : string) (body : option (string * string))
| PostActivity (authHeader : string) (body : option activity_report).

Definition serve_agent (answers : string → PairAnswer) (r : agent_request) : M response :=
  match r with
  | PostHeartbeat h body =>
      let! out := handleAgentHeartbeat answers h body in ret out.1
  | PostShutdownNotify h body => handleAgentShutdownNotify h body
  | PostActivity h body => handleAgentActivity h body
  end.
End Agents.
