(* ===== verification/AgentsSpec.v ===== *)
(** * What the agent routes guarantee

    A call of an agent is authenticated and touches its own host only, and a
    heartbeat settles the status of the host. *)

From S2P Require Import Prelude Schema HostStore PlacementStore OperationStore.
From S2P Require Import AccountStore StoreStep AccountInv Scenario World Fleet.
From S2P Require Import GoStrings.
From S2P Require Import FleetLemmas Versions Routing Runtime RuntimeLemmas PollerLemmas.
From S2P Require Import TableInv RuntimeSpec Workflows Api Members Agents.

(** ** Authentication *)

(** The token of the host's row. *)
Definition token_of (db : DB) (hostID : Z) (token : string) : Prop :=
  ∃ h, db_hosts db !! hostID = Some h ∧ Host_AgentToken h = Some token.

(** The header has the host's own token, or, for a host that has none or whose
    row could not be read, the token of the fleet. *)
Inductive accepted (s : Server) (w : World) (authHeader : string) (hostID : Z) : Prop :=
| accepted_own token :
    authHeader = ("Bearer " +:+ token)%string → token ≠ ""%string →
    token_of (w_db w) hostID token → accepted s w authHeader hostID
| accepted_fleet :
    authHeader = ("Bearer " +:+ srv_agentToken s)%string → srv_agentToken s ≠ ""%string →
    (hd false (w_faults w) = true ∨
     ∀ token, token_of (w_db w) hostID token → token = ""%string) →
    accepted s w authHeader hostID.

Definition unchanged (w w' : World) : Prop := w_db w' = w_db w ∧ w_trace w' = w_trace w.

(** A read. *)
Lemma call_read {A} (q : Q A) w :
  (∀ db, (q db).2 = db) →
  unchanged w (call q w).2 ∧
  ((call q w).1 = (q (w_db w)).1 ∨
   (call q w).1 = Err ErrTransient ∧ hd false (w_faults w) = true).
Proof.
  intros Hq. unfold call, bind, pop_fault, unchanged. specialize (Hq (w_db w)).
  destruct (w_faults w) as [|[] fs]; cbn; [|by auto|];
    destruct (q (w_db w)) as [r db]; cbn in *; subst; auto.
Qed.
Lemma GetHost_run id db :
  GetHost id db =
    (match db_hosts db !! id with Some h => Ok (host_row db h) | None => Err ErrNoRows end, db).
Proof. unfold GetHost, bind, get, query_row, of_res. by destruct (_ !! _). Qed.

Lemma authenticateAgent_unchanged s authHeader hostID w :
  unchanged w (authenticateAgent s authHeader hostID w).2.
Proof.
  unfold authenticateAgent. destruct (negb _); [done|]. cbv zeta.
  case_bool_decide; [by repeat case_match|]. rewrite bind_try.
  destruct (call_read (GetHost hostID) w (GetHost_db hostID)) as [Hu _].
  destruct (call (GetHost hostID) w) as [r w1]. cbn in *.
  destruct r as [h|e]; [destruct (Host_AgentToken h)|]; by repeat case_match.
Qed.

Lemma authenticateAgent_ok s authHeader hostID w u w' :
  hostID ≠ 0 → authenticateAgent s authHeader hostID w = (Ok u, w') →
  accepted s w authHeader hostID.
Proof.
  intros Hz. unfold authenticateAgent. destruct (HasPrefix authHeader "Bearer ") eqn:Hp; [|done].
  apply HasPrefix_app in Hp. cbn [negb]. cbv zeta. rewrite bool_decide_eq_false_2 by done.
  rewrite bind_try. destruct (call_read (GetHost hostID) w (GetHost_db hostID)) as [_ Hr].
  destruct (call (GetHost hostID) w) as [r w1]. cbn [fst snd] in *.
  rewrite GetHost_run in Hr. cbn [fst] in Hr. unfold ConstantTimeEq.
  set (token := TrimPrefix authHeader "Bearer ") in *.
  assert (∀ w2, (if String.eqb (srv_agentToken s) "" then fail (ErrText "agent token not configured")
      else if negb (String.eqb token (srv_agentToken s)) then fail (ErrText "invalid agent token")
      else ret tt) w2 = (Ok u, w') →
    hd false (w_faults w) = true ∨ (∀ t, token_of (w_db w) hostID t → t = ""%string) →
    accepted s w authHeader hostID) as Hfleet.
  { intros w2. destruct (String.eqb_spec (srv_agentToken s) ""); [done|].
    destruct (String.eqb_spec token (srv_agentToken s)) as [E|]; [|done].
    intros _ H. apply accepted_fleet; [by rewrite <-E|done|done]. }
  destruct r as [h|e].
  - destruct Hr as [Hr|[? _]]; [|done].
    destruct (db_hosts (w_db w) !! hostID) as [h0|] eqn:Eh; [|done]. injection Hr as ->.
    change (Host_AgentToken (host_row _ h0)) with (Host_AgentToken h0).
    destruct (Host_AgentToken h0) as [t|] eqn:Et.
    + destruct (String.eqb_spec t "") as [->|Hne].
      * intros E. eapply Hfleet; [exact E|]. right. intros t (h & Eh' & Et').
        congruence.
      * destruct (String.eqb_spec token t) as [E|]; [|done]. intros _.
        eapply (accepted_own _ _ _ _ t); [by rewrite <-E|done|by exists h0].
    + intros E. eapply Hfleet; [exact E|]. right. intros t (h & Eh' & Et').
      congruence.
  - intros E. eapply Hfleet; [exact E|]. destruct Hr as [Hr|[_ Hf]]; [right|by left].
    intros t (h & Eh & _). by rewrite Eh in Hr.
Qed.

(** ** Confinement *)

(** A host without its counters. *)
Definition uncounted (h : Host) : Host :=
  h <| Host_UsedVCPUs := 0 |> <| Host_UsedMemoryMB := 0 |> <| Host_UsedDiskMB := 0 |>.

(** From [db] to [db'] only the row of the host, the capacity counters, and rows
    of machines placed on the host change (of these tables). *)
Record own (hostID : Z) (db db' : DB) : Prop := mkOwn {
  own_host_ids : ∀ id, Host_ID <$> db_hosts db' !! id = Host_ID <$> db_hosts db !! id;
  own_hosts : ∀ id, id ≠ hostID →
    uncounted <$> db_hosts db' !! id = uncounted <$> db_hosts db !! id;
  own_placement : ∀ id, (λ m, (Machine_ID m, Machine_HostID m)) <$> db_machines db' !! id =
    (λ m, (Machine_ID m, Machine_HostID m)) <$> db_machines db !! id;
  own_machines : ∀ id m, db_machines db !! id = Some m → Machine_HostID m ≠ Some hostID →
    db_machines db' !! id = Some m;
  own_rest : db_accounts db' = db_accounts db ∧ db_members db' = db_members db ∧
    db_operations db' = db_operations db ∧ db_placements db' = db_placements db ∧
    db_enrollment_tokens db' = db_enrollment_tokens db
}.
#[export] Instance own_preorder hostID : PreOrder (own hostID).
Proof.
  split; [intros db; by repeat split|]. intros db1 db2 db3 [A1 B1 C1 D1 E1] [A2 B2 C2 D2 E2].
  split.
  - intros id. by rewrite A2.
  - intros id Hid. by rewrite B2, B1.
  - intros id. by rewrite C2.
  - intros id m Hm Hh. apply D2; [by apply D1|done].
  - destruct E1 as (?&?&?&?&?), E2 as (?&?&?&?&?). repeat split; congruence.
Qed.

(** The host a call or a log entry is about; a machine it names is placed there. *)
Definition about (hostID : Z) (db : DB) (e : event) : Prop :=
  match e with
  | ActivityLog _ h _ => h = Some hostID
  | AgentPairBrowserVM h _ _ _ | AgentSetCDPTarget h _ _ => h = hostID
  | AgentLog _ _ _ h machineID =>
      h = hostID ∧ ∀ id, machineID = Some id →
        ∃ m, db_machines db !! id = Some m ∧ Machine_HostID m = Some hostID
  | _ => False
  end.

Section Confined.
Context (hostID : Z) (w0 : World).
Abbreviation db0 := (w_db w0).
Hypothesis Hhosts : keyed Host_ID (db_hosts db0).
Hypothesis Hmachines : keyed Machine_ID (db_machines db0).

Definition confined (w : World) : Prop :=
  own hostID db0 (w_db w) ∧ ∀ e, e ∈ w_trace w → e ∈ w_trace w0 ∨ about hostID db0 e.
Abbreviation stays := (steps (keeps confined)).

Lemma confined_call {A} (q : Q A) :
  (∀ db, own hostID db0 db → own hostID db (q db).2) → stays (call q).
Proof.
  intros Hq w [Ho Ht]. unfold confined, call, bind, pop_fault.
  destruct (w_faults w) as [|[] fs]; cbn; [|by split|];
    specialize (Hq _ Ho); destruct (q (w_db w)); cbn in *; (split; [by etransitivity|done]).
Qed.
Lemma confined_emit e : about hostID db0 e → stays (emit e).
Proof.
  intros He w [Ho Ht]. split; [done|]. intros e' [->|Hin]%elem_of_cons; [by right|by apply Ht].
Qed.
Lemma confined_remote e : about hostID db0 e → stays (remote e).
Proof.
  intros He. apply steps_bind; [apply _|by apply confined_emit|]. intros _ w Hw.
  unfold bind, pop_fault. by destruct (w_faults w) as [|[] fs].
Qed.
Lemma confined_load : stays load.
Proof. intros w Hw. unfold load, bind, pop_fault. by destruct (w_faults w) as [|[] fs]. Qed.
Lemma confined_read {A B} (q : Q A) (k : res A → M B) :
  (∀ db, (q db).2 = db) →
  (∀ db a, own hostID db0 db → (q db).1 = Ok a → stays (k (Ok a))) →
  (∀ e, stays (k (Err e))) → stays (bind (try (call q)) k).
Proof.
  intros Hq Hok Herr w [Ho Ht]. rewrite bind_try.
  destruct (call_read q w Hq) as [[Ed Et] Hr]. destruct (call q w) as [r w1]. cbn [fst snd] in *.
  assert (confined w1) as Hw1 by (split; [by rewrite Ed|by rewrite Et]).
  destruct r as [a|e]; [|by apply Herr]. destruct Hr as [Hr|[? _]]; [|done].
  by eapply Hok.
Qed.

(** Writes of one row. *)
Lemma own_alter_host f db :
  (∀ h, Host_ID (f h) = Host_ID h) → own hostID db (db <| db_hosts ::= alter f hostID |>).
Proof.
  intros Hf. split; cbn; try done.
  - intros id. destruct (decide (id = hostID)) as [->|].
    + rewrite lookup_alter_eq. destruct (_ !! _); cbn; [by rewrite Hf|done].
    + by rewrite lookup_alter_ne.
  - intros id Hid. by rewrite lookup_alter_ne.
Qed.
Lemma own_alter_machine f mid db :
  (∀ m, Machine_ID (f m) = Machine_ID m ∧ Machine_HostID (f m) = Machine_HostID m) →
  (∀ m, db_machines db !! mid = Some m → Machine_HostID m = Some hostID ∨ f m = m) →
  own hostID db (db <| db_machines ::= alter f mid |>).
Proof.
  intros Hf Hm. split; cbn; try done.
  - intros id. destruct (decide (id = mid)) as [->|].
    + rewrite lookup_alter_eq. destruct (_ !! _) as [m|]; cbn; [|done].
      destruct (Hf m) as [-> ->]. done.
    + by rewrite lookup_alter_ne.
  - intros id m Hid Hh. destruct (decide (id = mid)) as [->|].
    + rewrite lookup_alter_eq, Hid. cbn. by destruct (Hm m Hid) as [?| ->].
    + by rewrite lookup_alter_ne.
Qed.
Lemma own_credit id v mem db :
  own hostID db (db <| db_hosts ::= alter (host_credit v mem) id |>).
Proof.
  split; cbn; try done.
  - intros id'. destruct (decide (id' = id)) as [->|]; [|by rewrite lookup_alter_ne].
    rewrite lookup_alter_eq. by destruct (_ !! _).
  - intros id' _. destruct (decide (id' = id)) as [->|]; [|by rewrite lookup_alter_ne].
    rewrite lookup_alter_eq. by destruct (_ !! _).
Qed.

(** What is read of the host and its machines. *)
Lemma own_GetHost db h : own hostID db0 db → (GetHost hostID db).1 = Ok h → Host_ID h = hostID.
Proof.
  intros Ho. rewrite GetHost_run. cbn. destruct (db_hosts db !! hostID) as [h0|] eqn:E; [|done].
  intros [= <-]. cbn. pose proof (own_host_ids _ _ _ Ho hostID) as Hi. rewrite E in Hi. cbn in Hi.
  destruct (db_hosts db0 !! hostID) as [h1|] eqn:E1; [|done]. injection Hi as ->.
  by apply Hhosts in E1.
Qed.
Definition on_host (mid : string) (db : DB) : Prop :=
  ∃ m, db_machines db !! mid = Some m ∧ Machine_HostID m = Some hostID.
Lemma own_on_host mid db : own hostID db0 db → on_host mid db0 ↔ on_host mid db.
Proof.
  intros Ho. pose proof (own_placement _ _ _ Ho mid) as Hp. unfold on_host.
  destruct (db_machines db !! mid) as [m|], (db_machines db0 !! mid) as [m0|]; cbn in Hp;
    naive_solver congruence.
Qed.
Lemma own_listed db ms m :
  own hostID db0 db → (ListMachinesByHost hostID db).1 = Ok ms → m ∈ ms →
  on_host (Machine_ID m) db0.
Proof.
  intros Ho [= <-] [Hh [mid Hm]]%elem_of_select. apply bool_decide_eq_true in Hh.
  rewrite (own_on_host _ db) by done. exists m. split; [|done].
  pose proof (own_placement _ _ _ Ho mid) as Hp. rewrite Hm in Hp. cbn in Hp.
  destruct (db_machines db0 !! mid) as [m0|] eqn:E; [|done]. injection Hp as -> _.
  by rewrite (Hmachines _ _ E).
Qed.

(** The calls of a heartbeat. *)
Lemma own_same db db' :
  db_hosts db' = db_hosts db → db_machines db' = db_machines db →
  db_accounts db' = db_accounts db ∧ db_members db' = db_members db ∧
  db_operations db' = db_operations db ∧ db_placements db' = db_placements db ∧
  db_enrollment_tokens db' = db_enrollment_tokens db →
  own hostID db db'.
Proof. intros Eh Em Er. split; rewrite ?Eh, ?Em; auto. Qed.

Lemma confined_status status : stays (call (UpdateHostStatus hostID status)).
Proof. apply confined_call. intros db _. by apply own_alter_host. Qed.
Lemma confined_maintenance b : stays (call (SetHostMaintenanceMode hostID b)).
Proof. apply confined_call. intros db _. by apply own_alter_host. Qed.
Lemma confined_endpoint e t : stays (call (UpdateHostAgentEndpoint hostID e t)).
Proof. apply confined_call. intros db _. by apply own_alter_host. Qed.
Lemma confined_heartbeat ip av rv bv ov caps :
  stays (call (UpdateHostHeartbeat hostID ip av rv bv ov caps)).
Proof.
  apply confined_call. intros db _. unfold UpdateHostHeartbeat, bind, now, gets, get, query_row,
    of_res. destruct (db_hosts db !! hostID); [|reflexivity]. by apply own_alter_host.
Qed.
Lemma confined_versions mid rv ov :
  stays (call (UpdateMachineActualVersions hostID mid rv ov)).
Proof.
  apply confined_call. intros db _. apply own_alter_machine.
  - intros m. by case_bool_decide.
  - intros m _. case_bool_decide; auto.
Qed.
Lemma confined_unpair mid : on_host mid db0 → stays (call (UnpairBrowserVM mid)).
Proof.
  intros Hm. apply confined_call. intros db Ho. apply own_alter_machine; [done|].
  intros m Em. left. destruct (proj1 (own_on_host _ _ Ho) Hm) as (m1 & Em1 & Hh). congruence.
Qed.
Lemma confined_bvm_status id status msg : stays (call (UpdateBrowserVMStatus id status msg)).
Proof.
  apply confined_call. intros db _. unfold UpdateBrowserVMStatus, bind, now, gets, get.
  destruct (_ && _); [reflexivity|]. by apply own_same.
Qed.
Lemma confined_bvm_unassign id : stays (call (UnassignBrowserVMFromHost id)).
Proof. apply confined_call. intros db _. by apply own_same. Qed.
Lemma confined_bvm_release id : stays (call (ReleaseBrowserVMPlacement id)).
Proof.
  apply confined_call. intros db _. unfold ReleaseBrowserVMPlacement, tx, bind, now, gets, get.
  destruct (select _ _) as [|p l]; [reflexivity|]. cbn.
  destruct (db_browser_vms db !! id) as [b|]; cbn; [|reflexivity].
  etransitivity; [|apply own_credit]. by apply own_same.
Qed.

Lemma GetBrowserVM_db id db : (GetBrowserVM id db).2 = db.
Proof. unfold GetBrowserVM, bind, get, query_row, of_res. by destruct (_ !! _). Qed.
(** Along the structure of a handler. *)
Ltac confined_step :=
  match goal with
  | |- steps _ (call (UpdateHostStatus _ _)) => apply confined_status
  | |- steps _ (call (SetHostMaintenanceMode _ _)) => apply confined_maintenance
  | |- steps _ (call (UpdateHostAgentEndpoint _ _ _)) => apply confined_endpoint
  | |- steps _ (call (UpdateHostHeartbeat _ _ _ _ _ _ _)) => apply confined_heartbeat
  | |- steps _ (call (UpdateMachineActualVersions _ _ _ _)) => apply confined_versions
  | |- steps _ (call (UnpairBrowserVM _)) => by apply confined_unpair
  | |- steps _ (call (UpdateBrowserVMStatus _ _ _)) => apply confined_bvm_status
  | |- steps _ (call (UnassignBrowserVMFromHost _)) => apply confined_bvm_unassign
  | |- steps _ (call (ReleaseBrowserVMPlacement _)) => apply confined_bvm_release
  | |- steps _ (emit _) => by apply confined_emit
  | |- steps _ (remote _) => by apply confined_remote
  | |- steps _ load => apply confined_load
  | |- steps _ (writeError _ _) => apply steps_ret, _
  | |- steps _ (writeJSON _ _) => apply steps_ret, _
  | |- steps _ (bind (try (call (GetHost _))) _) =>
      apply confined_read; [apply GetHost_db|intros ? ? ? ?|intros ?]
  | |- steps _ (bind (try (call (GetBrowserVM _))) _) =>
      apply confined_read; [apply GetBrowserVM_db|intros ? ? ? ?|intros ?]
  | _ => go_step
  end.
Ltac confined_go := repeat confined_step.

Lemma confined_pairing answers host m :
  Host_ID host = hostID → on_host (Machine_ID m) db0 → stays (replay_pairing answers host m).
Proof. intros Hid Hm. unfold replay_pairing. confined_go. Qed.
Lemma confined_for_each {A} (xs : list A) body :
  (∀ x, x ∈ xs → stays (body x)) → stays (for_each xs body).
Proof.
  induction xs as [|x xs IH]; intros H; [apply steps_ret, _|].
  apply steps_bind; [apply _|apply H, list_elem_of_here|]. intros _.
  apply IH. intros y Hy. by apply H, list_elem_of_further.
Qed.
Lemma confined_pairings s answers host :
  Host_ID host = hostID → stays (reconcileHostBrowserPairings s answers host).
Proof.
  intros Hid. apply steps_when; [apply _|]. rewrite Hid.
  apply confined_read; [done| |intros e; apply steps_ret, _]. intros db ms Ho Hms.
  apply confined_for_each. intros m Hm. apply confined_pairing; [done|].
  by eapply own_listed.
Qed.

Lemma confined_body s answers req : stays (heartbeat_body s answers hostID req).
Proof.
  unfold heartbeat_body, recover_host, promote_host, record_versions.
  confined_go; apply confined_pairings; eapply own_GetHost; eauto.
Qed.
End Confined.

(** ** Calls of agents *)

(** The host a request speaks for, with the right to it. *)
Inductive speaks_for (s : Server) (w : World) (hostID : Z) : agent_request → Prop :=
| speaks_heartbeat authHeader req :
    Atoi (trim_quotes_right (trim_quotes_left (Heartbeat_HostID req))) = Some hostID →
    accepted s w authHeader hostID → speaks_for s w hostID (PostHeartbeat authHeader (Some req))
| speaks_shutdown authHeader id reason :
    Atoi id = Some hostID → accepted s w authHeader hostID →
    speaks_for s w hostID (PostShutdownNotify authHeader (Some (id, reason)))
| speaks_activity token req :
    token_of (w_db w) hostID token →
    speaks_for s w hostID (PostActivity ("Bearer " +:+ token) (Some req)).

Lemma unchanged_trans w0 w1 w2 : unchanged w0 w1 → unchanged w1 w2 → unchanged w0 w2.
Proof. unfold unchanged. intros [-> ->] [-> ->]. done. Qed.
Lemma confined_unchanged hostID w0 w1 : unchanged w0 w1 → confined hostID w0 w1.
Proof. intros [Ed Et]. split; [by rewrite Ed|]. rewrite Et. by left. Qed.

Section Calls.
Context (s : Server) (answers : string → PairAnswer) (w : World).
Hypothesis Hhosts : keyed Host_ID (db_hosts (w_db w)).
Hypothesis Hmachines : keyed Machine_ID (db_machines (w_db w)).

(** After the authentication the handler runs confined. *)
Lemma authenticated_confined {A} r authHeader hostID (k : res unit → M A) :
  hostID ≠ 0 → (accepted s w authHeader hostID → speaks_for s w hostID r) →
  (∀ e w, unchanged w (k (Err e) w).2) →
  (∀ u, steps (keeps (confined hostID w)) (k (Ok u))) →
  let w' := (bind (try (authenticateAgent s authHeader hostID)) k w).2 in
  unchanged w w' ∨ ∃ hostID, speaks_for s w hostID r ∧ confined hostID w w'.
Proof.
  intros Hz Hr Herr Hok. cbv zeta. rewrite bind_try.
  pose proof (authenticateAgent_unchanged s authHeader hostID w) as Hu.
  destruct (authenticateAgent s authHeader hostID w) as [[u|e] w1] eqn:E; cbn [fst snd] in *.
  - right. exists hostID. split; [by eapply Hr, authenticateAgent_ok|]. by apply Hok, confined_unchanged.
  - left. by eapply unchanged_trans.
Qed.

Lemma heartbeat_confined authHeader body :
  let w' := (handleAgentHeartbeat s answers authHeader body w).2 in
  unchanged w w' ∨ ∃ hostID, speaks_for s w hostID (PostHeartbeat authHeader body) ∧
    confined hostID w w'.
Proof.
  cbv zeta. unfold handleAgentHeartbeat. destruct body as [req|]; [|by left].
  destruct (Atoi _) as [hostID|] eqn:Ea; [|by left].
  case_bool_decide as Hz; [by left|]. cbn [orb]. destruct (String.eqb _ _); [by left|].
  apply authenticated_confined with (hostID := hostID); [exact Hz|by constructor| |].
  - intros e w1. by destruct (String.eqb _ _).
  - intros _. by apply confined_body.
Qed.
Lemma shutdown_confined authHeader body :
  let w' := (handleAgentShutdownNotify s authHeader body w).2 in
  unchanged w w' ∨ ∃ hostID, speaks_for s w hostID (PostShutdownNotify authHeader body) ∧
    confined hostID w w'.
Proof.
  cbv zeta. unfold handleAgentShutdownNotify. destruct body as [[id reason]|]; [|by left].
  cbn [decoded]. destruct (Atoi _) as [hostID|] eqn:Ea; [|by left].
  case_bool_decide as Hz; [by left|].
  apply authenticated_confined with (hostID := hostID); [exact Hz|by constructor| |].
  - intros e w1. by destruct (String.eqb _ _).
  - intros _. unfold or_error.
    apply steps_bind; [apply _|apply steps_try, confined_status|]. intros [u|e];
      [|apply steps_ret, _].
    apply steps_bind; [apply _|by apply confined_emit|]. intros _. apply steps_ret, _.
Qed.

Lemma placement_valid mid hostID w1 u w2 :
  hostID ≠ 0 → validateMachinePlacement mid hostID w1 = (Ok u, w2) →
  ∃ m, db_machines (w_db w1) !! mid = Some m ∧ Machine_HostID m = Some hostID.
Proof.
  intros Hz. unfold validateMachinePlacement. rewrite bool_decide_eq_false_2 by done.
  rewrite bind_try. destruct (call_read (GetMachine mid) w1 (GetMachine_db mid)) as [_ Hr].
  destruct (call (GetMachine mid) w1) as [[m|e] w3]; cbn [fst snd] in *; [|done].
  destruct Hr as [Hr|[? _]]; [|done]. case_bool_decide as Hh; [|done]. intros _.
  unfold GetMachine, bind, get, query_row, of_res in Hr.
  destruct (db_machines (w_db w1) !! mid) as [m'|]; [|done]. injection Hr as ->. eauto.
Qed.
Lemma placement_unchanged mid hostID w1 : unchanged w1 (validateMachinePlacement mid hostID w1).2.
Proof.
  unfold validateMachinePlacement. case_bool_decide; [done|]. rewrite bind_try.
  destruct (call_read (GetMachine mid) w1 (GetMachine_db mid)) as [Hu _].
  destruct (call (GetMachine mid) w1) as [[m|e] w3]; cbn [fst snd] in *; [|exact Hu].
  by case_match.
Qed.

Lemma activity_confined authHeader body :
  let w' := (handleAgentActivity s authHeader body w).2 in
  unchanged w w' ∨ ∃ hostID, speaks_for s w hostID (PostActivity authHeader body) ∧
    confined hostID w w'.
Proof.
  cbv zeta. unfold handleAgentActivity, authenticateAgentToken.
  destruct (HasPrefix authHeader "Bearer ") eqn:Hp; [|by left]. cbn [negb]. cbv zeta.
  apply HasPrefix_app in Hp. set (token := TrimPrefix authHeader "Bearer ") in *.
  rewrite bind_try. assert (∀ db, (GetHostByAgentToken token db).2 = db) as Hg.
  { intros db. unfold GetHostByAgentToken, bind, get, query_row, of_res. by destruct (_ <$> _). }
  destruct (call_read (GetHostByAgentToken token) w Hg) as [Hu Hr].
  destruct (call (GetHostByAgentToken token) w) as [[h|e] w1]; cbn [fst snd] in *.
  2:{ left. destruct (_ && _); exact Hu. }
  destruct Hr as [Hr|[? _]]; [|done].
  unfold GetHostByAgentToken, bind, get, query_row, of_res in Hr.
  destruct (select _ (db_hosts (w_db w))) as [|h0 l] eqn:El; [done|]. injection Hr as ->.
  assert (h0 ∈ h0 :: l) as Hin by apply list_elem_of_here. rewrite <-El in Hin.
  apply elem_of_select in Hin as [Ht [hostID Hh]]. apply bool_decide_eq_true in Ht.
  change (Host_ID (host_row _ h0)) with (Host_ID h0). rewrite (Hhosts _ _ Hh).
  case_bool_decide as Hz; [by left|]. destruct body as [req|]; [|by left].
  cbn [decoded]. destruct (existsb _ _); [by left|]. destruct (negb _); [by left|].
  cbv zeta. set (mid := if String.eqb _ _ then None else _).
  set (v := match mid with Some id => _ | None => _ end). rewrite bind_try.
  assert (unchanged w1 (v w1).2) as Hv by (subst v; destruct mid; [apply placement_unchanged|done]).
  destruct (v w1) as [[u|e] w2] eqn:Ev; cbn [fst snd] in *.
  2:{ left. by eapply unchanged_trans. }
  right. exists hostID. split.
  - rewrite Hp. constructor. by exists h0.
  - assert (confined hostID w w2) as Hw2
      by (apply confined_unchanged; by eapply unchanged_trans).
    revert w2 Hw2 Ev Hv. intros w2 Hw2 Ev _. apply (steps_bind (keeps (confined hostID w))); [|
      intros _; apply steps_ret, _|exact Hw2].
    apply confined_emit. split; [done|]. intros id Hid. subst v. rewrite Hid in Ev.
    destruct Hu as [<- _]. by eapply placement_valid.
Qed.
End Calls.


(** ** Heartbeats *)

Definition host_state (h : Host) :=
  (Host_Status h, Host_StatusMessage h, Host_MaintenanceMode h, Host_LastHeartbeat h,
   Host_ExternalIP h).
Definition host_states (db : DB) := host_state <$> db_hosts db.
Lemma states_lookup db id : host_states db !! id = host_state <$> db_hosts db !! id.
Proof. apply lookup_fmap. Qed.
Lemma states_alter db f id :
  (∀ h, host_state (f h) = host_state h) →
  host_states (db <| db_hosts ::= alter f id |>) = host_states db.
Proof.
  intros Hf. apply map_eq. intros i. rewrite !states_lookup. cbn.
  destruct (decide (i = id)) as [->|].
  - rewrite lookup_alter_eq. destruct (_ !! _); cbn; [by rewrite Hf|done].
  - by rewrite lookup_alter_ne.
Qed.

(** A run that succeeds and leaves the states of the hosts alone. *)
Lemma run_quiet {A} (m : M A) w :
  returns m → quiet (same host_states) m → fault_free w →
  ∃ a w', m w = (Ok a, w') ∧ host_states (w_db w') = host_states (w_db w) ∧ fault_free w'.
Proof.
  intros Hr [Hs Hf] Hw. specialize (Hr w). specialize (Hs w). specialize (Hf w Hw).
  destruct (m w) as [[a|e] w']; [|done]. by exists a, w'.
Qed.

Lemma states_versions hostID req : quiet (same host_states) (record_versions hostID req).
Proof.
  unfold record_versions. quiet_go. intros db. by apply states_alter.
Qed.
Lemma states_pairings s answers host :
  quiet (same host_states) (reconcileHostBrowserPairings s answers host).
Proof.
  unfold reconcileHostBrowserPairings, replay_pairing. quiet_go.
  unfold ReleaseBrowserVMPlacement. go_steps; intros db; try reflexivity.
  by apply states_alter.
Qed.
Lemma returns_versions hostID req : returns (record_versions hostID req).
Proof. unfold record_versions. repeat returns_step. Qed.
Lemma returns_pairings s answers host : returns (reconcileHostBrowserPairings s answers host).
Proof. unfold reconcileHostBrowserPairings, replay_pairing. repeat returns_step. Qed.

(** Without faults the accepted call is let in. *)
Lemma authenticateAgent_accepts s authHeader hostID w h :
  fault_free w → hostID ≠ 0 → db_hosts (w_db w) !! hostID = Some h →
  accepted s w authHeader hostID → authenticateAgent s authHeader hostID w = (Ok tt, w).
Proof.
  intros Hf Hz Hh Ha. unfold authenticateAgent, ConstantTimeEq.
  assert (∃ token, authHeader = ("Bearer " +:+ token)%string) as [token ->] by (destruct Ha; eauto).
  unfold HasPrefix. rewrite TrimPrefix_from_app, TrimPrefix_app. cbn [negb]. cbv zeta.
  rewrite bool_decide_eq_false_2 by done. rewrite bind_try, call_free, GetHost_run, Hh by done.
  cbn [fst snd]. replace (w <| w_db := w_db w |>) with w by (by destruct w).
  change (Host_AgentToken (host_row _ h)) with (Host_AgentToken h).
  destruct Ha as [t E Hne (h' & Hh' & Ht)|E Hne Hno]; apply append_inj in E; subst.
  - rewrite Hh in Hh'. injection Hh' as <-. rewrite Ht.
    destruct (String.eqb_spec t ""); [done|]. by rewrite String.eqb_refl.
  - rewrite (proj2 (String.eqb_neq _ _) Hne), String.eqb_refl.
    destruct (Host_AgentToken h) as [t|] eqn:Et; [|done].
    destruct Hno as [Hno|Hno]; [by rewrite Hf in Hno|].
    by rewrite (Hno t) by (by exists h).
Qed.

(** The statuses a heartbeat ends. *)
Definition woken (status : string) : bool :=
  one_of ["unreachable"; "draining"; "updating"; "provisioning"]%string status.
Definition woken_status (status : string) : string :=
  if woken status then "ready"%string else status.

Section Settles.
Context (s : Server) (answers : string → PairAnswer) (hostID : Z).

Definition state_at (w : World) (st : string * option string * bool * option time * option string)
    : Prop := host_states (w_db w) !! hostID = Some st.
Definition on_row (f : Host → Host) (w : World) : World :=
  w <| w_db ::= set db_hosts (alter f hostID) |>.

Lemma state_on_row f g st w :
  (∀ h, host_state (f h) = g (host_state h)) → state_at w st → state_at (on_row f w) (g st).
Proof.
  unfold state_at. intros Hf. rewrite !states_lookup. cbn. rewrite lookup_alter_eq.
  destruct (_ !! _) as [h0|]; cbn; [|done]. intros [= <-]. by rewrite Hf.
Qed.
Definition ready (h : Host) : Host :=
  h <| Host_Status := "ready"%string |> <| Host_StatusMessage := None |>.
Lemma ready_state w st msg mm hb ip :
  state_at w (st, msg, mm, hb, ip) → state_at (on_row ready w) ("ready"%string, None, mm, hb, ip).
Proof.
  apply (state_on_row ready (λ '(_, _, mm, hb, ip), ("ready"%string, None, mm, hb, ip))
    (st, msg, mm, hb, ip)). done.
Qed.
Lemma maintenance_state w st msg mm hb ip :
  state_at w (st, msg, mm, hb, ip) →
  state_at (on_row (set Host_MaintenanceMode (λ _, false)) w) (st, msg, false, hb, ip).
Proof.
  apply (state_on_row _ (λ '(st, msg, _, hb, ip), (st, msg, false, hb, ip))
    (st, msg, mm, hb, ip)). done.
Qed.

Ltac run_free w Hf := unfold fault_free in Hf; destruct w; cbn in Hf; subst; reflexivity.

(** The recovery and the promotion of the host read before. *)
Lemma recover_promote h w mm hb ip :
  fault_free w → state_at w (Host_Status h, Host_StatusMessage h, mm, hb, ip) →
  ∃ w1 w' msg, recover_host hostID h w =
    (Ok (if String.eqb (Host_Status h) "updating" then
           match Host_StatusMessage h with Some m => pending_restarts m | None => [] end else []), w1) ∧
    promote_host hostID h w1 = (Ok tt, w') ∧
    fault_free w' ∧
    state_at w' (woken_status (Host_Status h), msg,
      negb (String.eqb (Host_Status h) "updating") && mm, hb, ip).
Proof.
  intros Hf Hs. unfold recover_host, promote_host, woken_status, woken.
  destruct (one_of ["unreachable"; "draining"; "updating"]%string (Host_Status h)) eqn:Er;
    unfold one_of in *; cbn [negb].
  - rewrite (proj2 (bool_decide_eq_true _)).
    2:{ apply bool_decide_eq_true in Er. set_solver. }
    assert (String.eqb (Host_Status h) "provisioning" = false) as ->.
    { apply bool_decide_eq_true in Er. apply String.eqb_neq. intros E. rewrite E in Er.
      set_solver. }
    set (w1 := on_row ready w
      <| w_trace ::= cons (ActivityLog "host.recovered" (Some hostID) None) |>).
    destruct (String.eqb (Host_Status h) "updating").
    + exists (on_row (set Host_MaintenanceMode (λ _, false)) w1), (on_row (set Host_MaintenanceMode
        (λ _, false)) w1), None. split; [by run_free w Hf|]. split; [done|]. split; [exact Hf|].
      eapply maintenance_state, ready_state, Hs.
    + exists w1, w1, None. split; [by run_free w Hf|]. split; [done|]. split; [exact Hf|].
      eapply ready_state, Hs.
  - assert (String.eqb (Host_Status h) "updating" = false) as Eu.
    { apply String.eqb_neq. intros E. rewrite E in Er. discriminate. }
    rewrite Eu. destruct (String.eqb_spec (Host_Status h) "provisioning") as [Ep|Ep].
    + rewrite Ep in *. exists w, (on_row ready w
        <| w_trace ::= cons (ActivityLog "host.enrolled" (Some hostID) None) |>), None.
      split; [done|]. split; [by run_free w Hf|]. split; [exact Hf|]. eapply ready_state, Hs.
    + rewrite (proj2 (bool_decide_eq_false _)).
      2:{ apply bool_decide_eq_false in Er. set_solver. }
      by exists w, w, (Host_StatusMessage h).
Qed.

Lemma heartbeat_recorded w h ip av rv bv ov caps :
  fault_free w → db_hosts (w_db w) !! hostID = Some h →
  ∃ changed w1, call (UpdateHostHeartbeat hostID ip av rv bv ov caps) w = (Ok changed, w1) ∧
    fault_free w1 ∧ state_at w1 (Host_Status h, Host_StatusMessage h, Host_MaintenanceMode h,
      Some (db_now (w_db w)), Some ip).
Proof.
  intros Hf Hh. eexists _, _. split; [|split; [|]].
  - rewrite call_free by done. unfold UpdateHostHeartbeat, bind, now, gets, get, query_row, of_res.
    rewrite Hh. reflexivity.
  - exact Hf.
  - unfold state_at. rewrite states_lookup. cbn. by rewrite lookup_alter_eq, Hh.
Qed.
(** A part of the handler that leaves the states alone. *)
Lemma state_quiet {A} (m : M A) w st :
  returns m → quiet (same host_states) m → fault_free w → state_at w st →
  ∃ a w1, m w = (Ok a, w1) ∧ fault_free w1 ∧ state_at w1 st.
Proof.
  intros Hr Hq Hf Hs. destruct (run_quiet m w Hr Hq Hf) as (a & w1 & E & Ed & Hf1).
  exists a, w1. unfold state_at. by rewrite Ed.
Qed.
Lemma GetHost_state w st :
  fault_free w → state_at w st →
  ∃ h, call (GetHost hostID) w = (Ok h, w) ∧ host_state h = st.
Proof.
  intros Hf. unfold state_at. rewrite states_lookup. intros (h0 & Hh & ->)%fmap_Some.
  exists (host_row (w_db w) h0). rewrite call_free, GetHost_run, Hh by done. cbn.
  split; [|done]. by destruct w.
Qed.

Lemma heartbeat_run (authHeader : string) (req : heartbeat) (h : Host) (w : World) :
  fault_free w → hostID ≠ 0 → Heartbeat_ExternalIP req ≠ ""%string →
  Atoi (trim_quotes_right (trim_quotes_left (Heartbeat_HostID req))) = Some hostID →
  accepted s w authHeader hostID → db_hosts (w_db w) !! hostID = Some h →
  ∃ resp pending w' h',
    handleAgentHeartbeat s answers authHeader (Some req) w = (Ok (resp, pending), w') ∧
    response_status resp = 200 ∧ db_hosts (w_db w') !! hostID = Some h' ∧
    Host_LastHeartbeat h' = Some (db_now (w_db w)) ∧
    Host_ExternalIP h' = Some (Heartbeat_ExternalIP req) ∧
    Host_Status h' = woken_status (Host_Status h) ∧
    Host_MaintenanceMode h' =
      negb (String.eqb (Host_Status h) "updating") && Host_MaintenanceMode h ∧
    pending = (if String.eqb (Host_Status h) "updating" then
                 match Host_StatusMessage h with Some m => pending_restarts m | None => [] end else []).
Proof.
  intros Hf Hz Hip Ea Hacc Hh. unfold handleAgentHeartbeat. rewrite Ea.
  rewrite bool_decide_eq_false_2 by done. cbn [orb]. rewrite (proj2 (String.eqb_neq _ _) Hip).
  rewrite bind_try, (authenticateAgent_accepts _ _ _ _ h) by done. cbn [fst snd].
  unfold heartbeat_body. rewrite bind_try.
  destruct (heartbeat_recorded w h (Heartbeat_ExternalIP req) (Heartbeat_AgentVersion req)
    (Heartbeat_RootfsVersion req) (Heartbeat_BrowserRootfsVersion req)
    (Heartbeat_OpenclawVersion req) (Heartbeat_Capabilities req)) as (ch & w1 & -> & Hf1 & Hs1);
    [done..|]. cbn [fst snd].
  destruct (state_quiet (record_versions hostID req) w1 _ (returns_versions _ _)
    (states_versions _ _) Hf1 Hs1) as ([] & w2 & E2 & Hf2 & Hs2). rewrite (bind_eq_ok _ _ _ _ _ E2).
  destruct (state_quiet (when ch (emit (ActivityLog "host.ip_changed" (Some hostID) None))) w2 _
    ltac:(repeat returns_step) ltac:(quiet_go) Hf2 Hs2) as ([] & w3 & E3 & Hf3 & Hs3).
  rewrite (bind_eq_ok _ _ _ _ _ E3), bind_try.
  destruct (GetHost_state w3 _ Hf3 Hs3) as (h3 & -> & E). cbn [fst snd].
  injection E as E1 E4 E5 _ _. rewrite <-E1, <-E4 in Hs3.
  destruct (recover_promote h3 w3 _ _ _ Hf3 Hs3) as (w4 & w5 & msg & Er & Ep & Hf5 & Hs5).
  destruct (state_quiet (when (bool_decide (0 < Heartbeat_VMCount req))
    (reconcileHostBrowserPairings s answers h3)) w5 _
    ltac:(apply returns_when, returns_pairings) ltac:(apply quiet_when, states_pairings; apply _)
    Hf5 Hs5) as ([] & w6 & E6 & Hf6 & Hs6).
  unfold bind at 1 2. rewrite Er, (bind_eq_ok _ _ _ _ _ Ep), (bind_eq_ok _ _ _ _ _ E6). cbn.
  unfold state_at in Hs6. rewrite states_lookup in Hs6.
  apply fmap_Some in Hs6 as (h6 & Hh6 & [= A B C D E]). rewrite E1, E4 in *.
  eexists _, _, _, h6. split; [reflexivity|]. by repeat split.
Qed.
(** C20: a heartbeat settles its host: without faults, an accepted heartbeat is
    answered with 200 and records its time and address; a host that was
    unreachable, draining, updating or provisioning is ready afterwards - also one
    an administrator is draining -, any other status stays; the end of an update
    ends the maintenance mode and starts the pending restarts. *)
Theorem heartbeat_settles_host (authHeader : string) (req : heartbeat) (h : Host) (w : World) :
  fault_free w → hostID ≠ 0 → Heartbeat_ExternalIP req ≠ ""%string →
  Atoi (trim_quotes_right (trim_quotes_left (Heartbeat_HostID req))) = Some hostID →
  accepted s w authHeader hostID → db_hosts (w_db w) !! hostID = Some h →
  ∃ resp pending w' h',
    handleAgentHeartbeat s answers authHeader (Some req) w = (Ok (resp, pending), w') ∧
    response_status resp = 200 ∧ db_hosts (w_db w') !! hostID = Some h' ∧
    Host_LastHeartbeat h' = Some (db_now (w_db w)) ∧
    Host_ExternalIP h' = Some (Heartbeat_ExternalIP req) ∧
    Host_Status h' = woken_status (Host_Status h) ∧
    Host_MaintenanceMode h' =
      negb (String.eqb (Host_Status h) "updating") && Host_MaintenanceMode h ∧
    pending = (if String.eqb (Host_Status h) "updating" then
                 match Host_StatusMessage h with Some m => pending_restarts m | None => [] end else []).
Proof. apply heartbeat_run. Qed.
End Settles.

(** ** Concrete calls *)

Definition agent_server : Server :=
  mkServer runtime0 None false false false false None false "fleet" "" 2 "example.com"
    "https://api.example.com" "" "" "" "" "" "" false (λ _, EmptyString).
Definition heartbeat2 : heartbeat :=
  mkHeartbeat "2" "203.0.113.9" "1.1" 1 "r2" "b1" "" "o2" None [("id-4", ("r2", "o2"))]%string.
Definition call_agent (r : agent_request) (w : World) : res response * World :=
  serve_agent agent_server (λ _, Paired) r w.

(** Host 2 after an administrator has drained it. *)
Definition drained : World := (DrainHost 2 (world db_setup)).2.
Lemma drained_db :
  w_db drained = exec_all [OpUpdateHostStatus 2 "draining"] db_setup.
Proof. reflexivity. Qed.
Lemma drained_keyed :
  keyed Host_ID (db_hosts (w_db drained)) ∧ keyed Machine_ID (db_machines (w_db drained)).
Proof.
  assert (reachable (w_db drained)) as Hr.
  { rewrite drained_db. apply exec_all_reachable; [apply db_setup_reachable|by repeat split]. }
  by destruct (reachable_keyed _ Hr) as (? & ? & _).
Qed.
Lemma drained_accepted : accepted agent_server drained "Bearer fleet" 2.
Proof.
  apply accepted_fleet; [done|done|]. right. intros t (h & Hh & Ht). exfalso.
  assert (Host_AgentToken <$> db_hosts (w_db drained) !! 2 = Some None) as E
    by (vm_compute; reflexivity). rewrite Hh in E. cbn in E. congruence.
Qed.
Abbreviation after_heartbeat :=
  (call_agent (PostHeartbeat "Bearer fleet" (Some heartbeat2)) drained).2.


(** The drained host takes machines again after its next heartbeat. *)
Lemma heartbeat_settles_host_witness :
  Host_Status <$> db_hosts (w_db drained) !! 2 = Some "draining"%string ∧
  Host_Status <$> db_hosts (w_db after_heartbeat) !! 2 = Some "ready"%string.
Proof.
  assert (Host_Status <$> db_hosts (w_db drained) !! 2 = Some "draining"%string) as Hd
    by (vm_compute; reflexivity). split; [exact Hd|].
  apply fmap_Some in Hd as (h & Hh & Es).
  destruct (heartbeat_settles_host agent_server (λ _, Paired) 2 "Bearer fleet" heartbeat2
    h drained ltac:(vm_compute; reflexivity) ltac:(done) ltac:(done)
    ltac:(vm_compute; reflexivity) drained_accepted Hh)
    as (resp & pending & w' & h' & E & _ & Hh' & _ & _ & Hst & _).
  unfold call_agent, serve_agent, bind. rewrite E. cbn [snd ret].
  rewrite Hh'. cbn. rewrite Hst, <-Es. reflexivity.
Defined.

(** One enrollment token enrols two hosts: a registration that runs between the
    check of the token and the rest of another one marks it first; the failure to
    mark it again is dropped, and both hosts have an agent token. *)
Definition registration0 : registration :=
  mkRegistration "ocm_enroll_00ff" "http://203.0.113.9:9090" "public_http" None None.
Definition interleaved : res response * World :=
  validate_token "ocm_enroll_00ff" (λ k,
    handleAgentRegister agent_server (Some registration0) ;;
    register_host agent_server registration0 k)
  ((world db_token) <| w_rand := ["aa"; "bb"]%string |>).
Lemma token_enrolls_two_hosts :
  response_status <$> (match interleaved.1 with Ok r => Some r | Err _ => None end) = Some 201 ∧
  (λ h, (Host_ID h, Host_Status h, Host_AgentToken h)) <$>
    select (λ h, String.eqb (Host_LifecycleMode h) "registered") (db_hosts (w_db interleaved.2)) =
    [(7, "provisioning", Some "ocm_agent_aa"); (8, "provisioning", Some "ocm_agent_bb")]%string.
Proof. split; vm_compute; reflexivity. Qed.
