(* ===== verification/BrowserVMs.v ===== *)
(** * Browser VMs: internal/api/browser_vms.go and admin_browser_vms.go

    A browser VM is created as a row, started on the agent of a host, paired
    with a machine, stopped and deleted.  What the agent answers is an argument;
    an event of the trace records what its answer says about the VM it holds.
    Writes under [context.WithoutCancel] are calls like the others.  The push of
    the browser configuration runs in the background: the handlers record it and
    [pushBrowserConfigAsync] is what then runs. *)

From S2P Require Import Prelude Schema HostStore PlacementStore AccountStore.
From S2P Require Import World Fleet GoStrings Versions Routing Runtime Api.
From S2P Require Import Members.

(** ** Values *)

(** Constants of config/config.go. *)
Definition StableBrowserRootfsManifestURI : string := EmptyString.
Definition StableKernelBrowserRootfsVersion : string := EmptyString.

Definition strPtrValue (v : option string) : string :=
  match v with None => EmptyString | Some x => TrimSpace x end.
Definition browserStringPtr (v : string) : option string :=
  let v := TrimSpace v in if String.eqb v "" then None else Some v.

(** Slashes, and blanks, by their codes (machines.go). *)
Definition validateRootfsVersion (version : string) : res unit :=
  let version := TrimSpace version in
  if String.eqb version "" then Err (ErrText "rootfs version is required")
  else if Contains version ".." then Err (ErrText "invalid rootfs version")
  else if ContainsAny version [47; 92]%nat then Err (ErrText "invalid rootfs version")
  else if ContainsAny version [32; 9; 13; 10]%nat then Err (ErrText "invalid rootfs version")
  else Ok tt.

Definition browserVMMayExistOnAgent (bvm : BrowserVM) : bool :=
  is_some_b (BrowserVM_HostID bvm) &&
  one_of ["running"; "provisioning"; "error"]%string (BrowserVM_Status bvm).

(** The manifest and the version that a requested image names. *)
Definition image_selection (image manifest version defaultManifest stableVersion : string)
    : res (string * string) :=
  if one_of [""; "default"]%string image then Ok (manifest, version)
  else if one_of ["kernel-stable"; "kernel-rollback"]%string image then
    if String.eqb defaultManifest "" then
      Err (ErrText "BROWSER_ROOTFS_GCS_MANIFEST is required for browser_image presets")
    else Ok (defaultManifest, if String.eqb version "" then stableVersion else version)
  else if one_of ["kernel-latest"; "kernel-experimental"]%string image then
    if String.eqb defaultManifest "" then
      Err (ErrText "BROWSER_ROOTFS_GCS_MANIFEST is required for browser_image presets")
    else Ok (defaultManifest, version)
  else Err (ErrText "browser_image must be one of: default, kernel-stable, kernel-experimental").

Definition browserRootfsSelection (image manifest version defaultManifest stableVersion : string)
    : res (option string * option string) :=
  let image := TrimSpace image in
  let manifest := TrimSpace manifest in
  let version := TrimSpace version in
  let defaultManifest := TrimSpace defaultManifest in
  let stableVersion := TrimSpace stableVersion in
  if negb (String.eqb image "") && negb (String.eqb manifest "") then
    Err (ErrText "browser_image cannot be combined with rootfs_manifest")
  else
    match image_selection image manifest version defaultManifest stableVersion with
    | Err e => Err e
    | Ok (manifest, version) =>
        if negb (String.eqb StableBrowserRootfsManifestURI "") &&
           String.eqb manifest StableBrowserRootfsManifestURI then
          Err (ErrText "legacy CDP browser rootfs is disabled; use kernel-stable or kernel-experimental")
        else if String.eqb version "" then
          if String.eqb manifest "" then Ok (None, None)
          else Ok (browserStringPtr manifest, browserStringPtr version)
        else
          match validateRootfsVersion version with
          | Err e => Err e
          | Ok _ =>
              if negb (String.eqb manifest "") then
                Ok (browserStringPtr manifest, browserStringPtr version)
              else if String.eqb defaultManifest "" then
                Err (ErrText "rootfs_manifest is required when rootfs_version is set")
              else Ok (browserStringPtr defaultManifest, browserStringPtr version)
          end
    end.

Definition stableVersionForBrowserVM : string := TrimSpace StableKernelBrowserRootfsVersion.
Definition browserVMRequiresReflink (bvm : BrowserVM) : bool :=
  let manifest := strPtrValue (BrowserVM_DesiredRootfsManifest bvm) in
  let version := strPtrValue (BrowserVM_DesiredRootfsVersion bvm) in
  if String.eqb manifest "" then false
  else if String.eqb version "" then true
  else negb (String.eqb stableVersionForBrowserVM "") &&
       negb (String.eqb version stableVersionForBrowserVM).
Definition browserVMUsesDisabledLegacyRootfs (bvm : BrowserVM) : bool :=
  negb (String.eqb StableBrowserRootfsManifestURI "") &&
  String.eqb (strPtrValue (BrowserVM_DesiredRootfsManifest bvm)) StableBrowserRootfsManifestURI.

Definition browser_vm_json (b : BrowserVM) : json :=
  JObj ([("id", JStr (BrowserVM_ID b)); ("account_id", JNum (BrowserVM_AccountID b));
         ("slug", JStr (BrowserVM_Slug b)); ("name", JStr (BrowserVM_Name b))]%string ++
    omitempty "host_id" (JNum <$> BrowserVM_HostID b) ++
    omitempty "vm_ip" (JStr <$> BrowserVM_VMIP b) ++
    [("status", JStr (BrowserVM_Status b)); ("vcpus", JNum (BrowserVM_VCPUs b));
     ("memory_mb", JNum (BrowserVM_MemoryMB b)); ("cdp_port", JNum (BrowserVM_CDPPort b))]%string ++
    omitempty "desired_rootfs_manifest" (JStr <$> BrowserVM_DesiredRootfsManifest b) ++
    omitempty "desired_rootfs_version" (JStr <$> BrowserVM_DesiredRootfsVersion b) ++
    omitempty "rootfs_version" (JStr <$> BrowserVM_RootfsVersion b) ++
    omitempty "error_message" (JStr <$> BrowserVM_ErrorMessage b) ++
    [("created_at", JNum (BrowserVM_CreatedAt b));
     ("updated_at", JNum (BrowserVM_UpdatedAt b))]%string ++
    omitempty "paired_machine" ((λ p, JObj [("id", JStr (BrowserVMPairedMachine_ID p));
      ("name", JStr (BrowserVMPairedMachine_Name p))]%string) <$> BrowserVM_PairedMachine b)).

(** ** The agent's answers *)

(** Whether a create was done, failed without a VM on the agent, or has an unknown
    outcome (agentclient.ErrOutcomeUnknown: the VM may exist).  An error of the
    second kind after which the agent does have a VM (a connection that breaks
    once the request was delivered) is outside of the model. *)
Inductive CreateAnswer : Type := Created | CreateRefused (msg : string) | CreateUnknown (msg : string).

(** The health of a browser VM, HTTP 404, or another error. *)
Record BrowserVMHealth : Type := mkBrowserVMHealth {
  Health_BrowserVMID : string;
  Health_VMIP : string;
  Health_Status : string;
  Health_CDPError : string;
  Health_CDPReachable : bool;
  Health_CDPVersion : string;
  Health_CDPLatencyMS : Z;
  Health_LiveReachable : bool;
  Health_LiveLatencyMS : Z;
  Health_LivePort : Z
}.
Definition health_json (h : BrowserVMHealth) : json :=
  JObj [("browser_vm_id", JStr (Health_BrowserVMID h)); ("vm_ip", JStr (Health_VMIP h));
        ("status", JStr (Health_Status h)); ("cdp_error", JStr (Health_CDPError h));
        ("cdp_reachable", JBool (Health_CDPReachable h));
        ("cdp_version", JStr (Health_CDPVersion h));
        ("cdp_latency_ms", JNum (Health_CDPLatencyMS h));
        ("live_reachable", JBool (Health_LiveReachable h));
        ("live_latency_ms", JNum (Health_LiveLatencyMS h));
        ("live_port", JNum (Health_LivePort h))]%string.
Inductive HealthAnswer : Type :=
| Health (h : BrowserVMHealth) | HealthNotFound (msg : string) | HealthFailed (msg : string).

Definition agent_create (host : Z) (id vmIP : string) (answer : CreateAnswer) : M unit :=
  emit (AgentCreateBrowserVM host id vmIP (match answer with CreateRefused _ => false | _ => true end)).
Definition agent_destroy (host : Z) (id : string) : M unit :=
  let! lost := pop_fault in
  emit (AgentDestroyBrowserVM host id (negb lost)) ;;
  if lost then fail ErrTransient else ret tt.
Definition agent_health (host : Z) (id : string) (answer : HealthAnswer) : M unit :=
  emit (AgentBrowserVMHealth host id (match answer with HealthNotFound _ => true | _ => false end)).

(** ** Requests *)

Record create_body : Type := mkCreateBody {
  CreateBody_Name : string;
  CreateBody_VCPUs : Z;
  CreateBody_MemoryMB : Z;
  CreateBody_BrowserImage : string;
  CreateBody_RootfsManifest : string;
  CreateBody_RootfsVersion : string
}.

(** A body that is optional: an empty one is [Ok] of the zero values. *)
Definition optional_body {B} (body : res B) (k : B → M response) : M response :=
  match body with
  | Ok b => k b
  | Err e => writeError 400 ("invalid request body: " +:+ Error e)
  end.

Section BrowserVMs.
  Context {go_sort : GoSort}.
  Variable s : Server.
  Abbreviation agentClient := (rs_agentClient (srv_machines s)).

(** ** Reading and creating *)

Definition handleListBrowserVMs (accountID : Z) : M response :=
  or_error (call (ListBrowserVMsByAccount accountID)) 500 "failed to list browser VMs" (λ bvms,
  writeJSON 200 (JArr (browser_vm_json <$> bvms))).

(** Seven random bytes, here the next entry of the random source, as letters and
    digits (machines.go); an error of the source, a panic in the code, ends the
    request. *)
Definition charset : string := "abcdefghijklmnopqrstuvwxyz0123456789".
Fixpoint charset_of (b : string) : string :=
  match b with
  | EmptyString => EmptyString
  | String c b' => String (default c (String.get (Ascii.nat_of_ascii c mod String.length charset)
                                        charset)) (charset_of b')
  end.
Definition generateShortID : M string :=
  let! b := rand_hex in ret (charset_of (String.substring 0 7 b)).

(** Three slugs are tried. *)
Fixpoint create_attempts (attempts : nat) (bvm : string → BrowserVM) : M response :=
  match attempts with
  | O => writeError 409 "failed to generate unique slug, please try again"
  | S attempts' =>
      let! slug := generateShortID in
      let! r := try (call (CreateBrowserVM (bvm slug))) in
      match r with
      | Ok created => writeJSON 201 (browser_vm_json created)
      | Err e =>
          if errors_is e ErrConflict then create_attempts attempts' bvm
          else writeError 500 "failed to create browser VM"
      end
  end.
Definition handleCreateBrowserVM (accountID : Z) (body : res create_body) : M response :=
  optional_body body (λ req,
  let name := if String.eqb (CreateBody_Name req) "" then "Browser VM"%string
              else CreateBody_Name req in
  let vcpus := if bool_decide (CreateBody_VCPUs req ≤ 0) then 2 else CreateBody_VCPUs req in
  let memoryMB := if bool_decide (CreateBody_MemoryMB req ≤ 0) then 4096
                  else CreateBody_MemoryMB req in
  match browserRootfsSelection (CreateBody_BrowserImage req) (CreateBody_RootfsManifest req)
          (CreateBody_RootfsVersion req) (srv_browserRootfsGCSManifest s)
          (srv_browserRootfsVersion s) with
  | Err e => writeError 400 (Error e)
  | Ok (desiredManifest, desiredVersion) =>
      create_attempts 3 (λ slug, mkBrowserVM "" accountID slug name None None "stopped" vcpus
        memoryMB 9222 desiredManifest desiredVersion None None 0 0 None)
  end).

(** The browser VM of the path, if it is the account's. *)
Definition owned_browser_vm (accountID : Z) (bvmID : string) (k : BrowserVM → M response)
    : M response :=
  or_error (call (GetBrowserVM bvmID)) 404 "browser VM not found" (λ bvm,
  if bool_decide (BrowserVM_AccountID bvm = accountID) then k bvm
  else writeError 403 "browser VM does not belong to this account").

Definition handleGetBrowserVM (accountID : Z) (bvmID : string) : M response :=
  owned_browser_vm accountID bvmID (λ bvm,
  let! pm := or_nil (call (GetMachineByBrowserVMID (BrowserVM_ID bvm))) in
  writeJSON 200 (browser_vm_json (match pm with
    | Some m => bvm <| BrowserVM_PairedMachine :=
                  Some (mkBrowserVMPairedMachine (Machine_ID m) (Machine_Name m)) |>
    | None => bvm
    end))).

(** ** Unpairing *)

(** [go s.pushBrowserConfigAsync(...)]. *)
Definition go_pushBrowserConfig (machineID : string) (paired : bool) : M unit :=
  emit (PushBrowserConfig machineID paired).

Definition cleanupBrowserPairing (machine : Machine) (bvm : BrowserVM) : M unit :=
  (match Machine_HostID machine, Machine_VMIP machine with
   | Some hostID, Some machineIP =>
       when agentClient (
         let! h := try (call (GetHost hostID)) in
         match h with
         | Err _ => ret tt
         | Ok host =>
             when (is_some_b (BrowserVM_VMIP bvm))
               (ignore (remote (AgentUnpairBrowserVM (Host_ID host) (BrowserVM_ID bvm)
                                  machineIP))) ;;
             ignore (remote (AgentResetCDPTarget (Host_ID host) (Machine_ID machine)))
         end)
   | _, _ => ret tt
   end) ;;
  ignore (call (UnpairBrowserVM (Machine_ID machine))) ;;
  when (String.eqb (Machine_Status machine) "running" && is_some_b (Machine_HostID machine))
    (go_pushBrowserConfig (Machine_ID machine) false).
Definition auto_unpair_browser (bvmID : string) (bvm : BrowserVM) : M unit :=
  let! paired := or_nil (call (GetMachineByBrowserVMID bvmID)) in
  match paired with
  | Some machine => cleanupBrowserPairing machine bvm
  | None => ret tt
  end.

(** ** Deleting and stopping *)

(** The record is kept when the agent cannot be asked to destroy the VM. *)
Definition destroy_on_agent (bvmID : string) (hostID : Z) (kind : string) (k : M response)
    : M response :=
  let! h := try (call (GetHost hostID)) in
  match h with
  | Err _ =>
      ignore (call (UpdateBrowserVMStatus bvmID "error"
                      (Some ("host lookup failed — retry " +:+ kind +:+ " later")%string))) ;;
      writeError 503 "host unavailable — browser VM record kept for retry"
  | Ok host =>
      if agentClient then
        let! d := try (agent_destroy (Host_ID host) bvmID) in
        match d with
        | Err e =>
            ignore (call (UpdateBrowserVMStatus bvmID "error"
                            (Some ("agent destroy failed: " +:+ Error e)%string))) ;;
            writeError 502 ("agent destroy failed — browser VM record kept for retry: " +:+ Error e)
        | Ok _ => k
        end
      else k
  end.

Definition handleDeleteBrowserVM (accountID : Z) (bvmID : string) : M response :=
  owned_browser_vm accountID bvmID (λ bvm,
  auto_unpair_browser bvmID bvm ;;
  let finish :=
    or_error (call (DeleteBrowserVM bvmID)) 500 "failed to delete browser VM" (λ _, noContent) in
  match BrowserVM_HostID bvm with
  | Some hostID =>
      if browserVMMayExistOnAgent bvm then
        destroy_on_agent bvmID hostID "delete" (
          ignore (call (ReleaseBrowserVMPlacement bvmID)) ;;
          ignore (call (UnassignBrowserVMFromHost bvmID)) ;;
          finish)
      else finish
  | None => finish
  end).

Definition refetched (bvmID : string) : M response :=
  let! b := or_nil (call (GetBrowserVM bvmID)) in
  writeJSON 200 (match b with Some bvm => browser_vm_json bvm | None => JNull end).

Definition stoppable (bvm : BrowserVM) : bool :=
  one_of ["running"; "provisioning"]%string (BrowserVM_Status bvm) ||
  String.eqb (BrowserVM_Status bvm) "error" && is_some_b (BrowserVM_HostID bvm).
Definition handleStopBrowserVM (accountID : Z) (bvmID : string) : M response :=
  owned_browser_vm accountID bvmID (λ bvm,
  if negb (stoppable bvm) then
    writeError 409 ("browser VM is " +:+ BrowserVM_Status bvm +:+
      ", must be running, provisioning, or error with an assigned host to stop")
  else
    auto_unpair_browser bvmID bvm ;;
    let finish :=
      ignore (call (ReleaseBrowserVMPlacement bvmID)) ;;
      ignore (call (UnassignBrowserVMFromHost bvmID)) ;;
      ignore (call (UpdateBrowserVMStatus bvmID "stopped" None)) ;;
      refetched bvmID in
    match BrowserVM_HostID bvm with
    | Some hostID => if agentClient then destroy_on_agent bvmID hostID "stop" finish else finish
    | None => finish
    end).

(** ** Starting *)

Definition callerOccupiesHost (accountID hostID : Z) : M bool :=
  let! machines := call (ListMachinesByAccount accountID) in
  ret (existsb (λ m, bool_decide (Machine_HostID m = Some hostID) ||
                     bool_decide (Machine_HomeHostID m = Some hostID)) machines).

(** [healths]: what the agent answers until the deadline of four minutes; the
    end of the list is the deadline. *)
Fixpoint wait_ready (host : Z) (bvmID : string) (healths : list HealthAnswer) (lastErr : string)
    : M unit :=
  match healths with
  | [] => fail (ErrText ("context deadline exceeded: " +:+ lastErr)%string)
  | answer :: rest =>
      agent_health host bvmID answer ;;
      match answer with
      | Health h =>
          if Health_CDPReachable h then ret tt
          else wait_ready host bvmID rest ("agent status=" +:+ Health_Status h +:+
            " cdp_reachable=false live_reachable=" +:+
            (if Health_LiveReachable h then "true" else "false"))%string
      | HealthNotFound msg | HealthFailed msg => wait_ready host bvmID rest msg
      end
  end.
Definition waitForBrowserVMReady (host : Z) (bvmID : string) (healths : list HealthAnswer)
    : M unit :=
  if agentClient then wait_ready host bvmID healths "" else ret tt.

(** [errMsg := err.Error(); _ = s.store.UpdateBrowserVMStatus(..., "error", &errMsg)]. *)
Definition set_error (bvmID msg : string) : M unit :=
  ignore (call (UpdateBrowserVMStatus bvmID "error" (Some msg))).

Definition create_on_agent (host : Host) (bvmID vmIP : string) (answer : CreateAnswer)
    (healths : list HealthAnswer) (k : M response) : M response :=
  agent_create (Host_ID host) bvmID vmIP answer ;;
  match answer with
  | CreateUnknown msg =>
      set_error bvmID msg ;;
      writeError 504 ("browser VM create outcome unknown on agent: " +:+ msg)
  | CreateRefused msg =>
      set_error bvmID msg ;;
      ignore (call (ReleaseBrowserVMPlacement bvmID)) ;;
      ignore (call (UnassignBrowserVMFromHost bvmID)) ;;
      writeError 502 ("failed to create browser VM on agent: " +:+ msg)
  | Created =>
      let! w := try (waitForBrowserVMReady (Host_ID host) bvmID healths) in
      match w with
      | Err e =>
          set_error bvmID (Error e) ;;
          writeError 504 ("browser VM readiness timed out; agent resource ownership preserved: "
                            +:+ Error e)
      | Ok _ => k
      end
  end.

Definition finish_start (bvmID : string) : M response :=
  ignore (call (ActivateBrowserVMPlacement bvmID)) ;;
  ignore (call (UpdateBrowserVMStatus bvmID "running" None)) ;;
  refetched bvmID.

(** From the status on: placement, assignment, creation on the agent.  Without a
    placement service the handler panics. *)
Definition start_browser_vm (bvmID : string) (bvm : BrowserVM) (hostID : Z) (region : string)
    (answer : CreateAnswer) (healths : list HealthAnswer) : M response :=
  or_error (call (UpdateBrowserVMStatus bvmID "provisioning" None)) 500 "failed to update status"
    (λ _,
  match srv_placement s with
  | None => fail (ErrText "nil pointer dereference")
  | Some config =>
      let! r := try (ReserveBrowserVM config bvmID (mkPlacementRequest (BrowserVM_VCPUs bvm)
        (BrowserVM_MemoryMB bvm) 0 region "" "" hostID (browserVMRequiresReflink bvm))) in
      match r with
      | Err e =>
          set_error bvmID (Error e) ;;
          writeError 503 ("no capacity available: " +:+ Error e)
      | Ok (host, vmIP) =>
          let! a := try (call (AssignBrowserVMToHost bvmID (Host_ID host) vmIP)) in
          match a with
          | Err e =>
              set_error bvmID (Error e) ;;
              ignore (call (ReleaseBrowserVMPlacement bvmID)) ;;
              writeError 500 "failed to assign browser VM to host"
          | Ok _ =>
              if agentClient then create_on_agent host bvmID vmIP answer healths (finish_start bvmID)
              else finish_start bvmID
          end
      end
  end).

(** The body: host_id and region. *)
Definition handleStartBrowserVM (claims : option Claims) (accountID : Z) (bvmID : string)
    (body : res (Z * string)) (answer : CreateAnswer) (healths : list HealthAnswer)
    : M response :=
  owned_browser_vm accountID bvmID (λ bvm,
  if negb (one_of ["stopped"; "error"]%string (BrowserVM_Status bvm)) then
    writeError 409 ("browser VM is " +:+ BrowserVM_Status bvm +:+
                      ", must be stopped or error to start")
  else if String.eqb (BrowserVM_Status bvm) "error" && is_some_b (BrowserVM_HostID bvm) then
    writeError 409 "browser VM has an unknown agent-side resource; stop or delete it before retrying start"
  else if browserVMUsesDisabledLegacyRootfs bvm then
    writeError 409 "legacy CDP browser rootfs is disabled; create a kernel browser VM"
  else
    optional_body body (λ '(hostID, region),
    let superuser := isSuperuser s claims in
    let start :=
      if negb (String.eqb region "") && negb superuser then
        writeError 403 "region placement overrides require admin role"
      else start_browser_vm bvmID bvm hostID region answer healths in
    if negb (bool_decide (hostID = 0)) && negb superuser then
      or_error (callerOccupiesHost accountID hostID) 500 "failed to verify host ownership" (λ owned,
      if owned then start
      else writeError 403 "host_id must reference a host where this account already runs a machine")
    else start)).

(** ** Pairing *)

(** The machine's previous browser VM is unpaired first. *)
Definition replace_previous (machine : Machine) (machineID bvmID : string) (k : M response)
    : M response :=
  match Machine_BrowserVMID machine with
  | None => k
  | Some prevID =>
      if String.eqb prevID bvmID then k
      else
        let! prev := try (call (GetBrowserVM prevID)) in
        match prev with
        | Ok prevBVM => cleanupBrowserPairing machine prevBVM ;; k
        | Err e =>
            if errors_is e ErrNoRows then ignore (call (UnpairBrowserVM machineID)) ;; k
            else writeError 503
              ("failed to look up previously paired browser VM — retry: " +:+ Error e)
        end
  end.

Definition pair_firewall (machine : Machine) (machineID bvmID : string) (hostID : Z)
    (k : M response) : M response :=
  match Machine_VMIP machine with
  | Some machineIP =>
      if agentClient then
        let! h := try (call (GetHost hostID)) in
        match h with
        | Err _ =>
            ignore (call (UnpairBrowserVM machineID)) ;;
            writeError 503 "failed to look up host for firewall setup — retry"
        | Ok host =>
            let! p := try (remote (AgentPairBrowserVM (Host_ID host) bvmID machineIP false)) in
            match p with
            | Err e =>
                ignore (call (UnpairBrowserVM machineID)) ;;
                writeError 502 ("failed to configure firewall rules: " +:+ Error e)
            | Ok _ => k
            end
        end
      else k
  | None => k
  end.
Definition pair_target (machine : Machine) (bvm : BrowserVM) (machineID bvmID : string)
    (hostID : Z) (k : M response) : M response :=
  match BrowserVM_VMIP bvm with
  | Some bvmIP =>
      if agentClient then
        let! h := try (call (GetHost hostID)) in
        match h with
        | Err _ =>
            ignore (call (UnpairBrowserVM machineID)) ;;
            writeError 500 "failed to resolve host for CDP target"
        | Ok host =>
            let! t := try (remote (AgentSetCDPTarget (Host_ID host) machineID (bvmIP +:+ ":9222"))) in
            match t with
            | Err e =>
                (match Machine_VMIP machine with
                 | Some machineIP =>
                     ignore (remote (AgentUnpairBrowserVM (Host_ID host) bvmID machineIP))
                 | None => ret tt
                 end) ;;
                ignore (call (UnpairBrowserVM machineID)) ;;
                writeError 502 ("failed to set CDP proxy target: " +:+ Error e)
            | Ok _ => k
            end
        end
      else k
  | None => k
  end.

Definition pair_on_host (machine : Machine) (bvm : BrowserVM) (machineID bvmID : string)
    (hostID : Z) : M response :=
  replace_previous machine machineID bvmID (
  let! p := try (call (PairBrowserVM machineID bvmID)) in
  match p with
  | Err e =>
      if errors_is e ErrConflict then
        writeError 409 "browser VM is already paired to another machine"
      else writeError 500 "failed to pair browser VM"
  | Ok _ =>
      pair_firewall machine machineID bvmID hostID (
      pair_target machine bvm machineID bvmID hostID (
      go_pushBrowserConfig machineID true ;;
      writeJSON 200 (JObj [("status", JStr "paired"); ("browser_vm_id", JStr bvmID);
                           ("machine_id", JStr machineID)]%string)))
  end).

(** The machine of the path, if it is the account's. *)
Definition owned_machine (accountID : Z) (machineID : string) (k : Machine → M response)
    : M response :=
  or_error (call (GetMachine machineID)) 404 "machine not found" (λ machine,
  if bool_decide (Machine_AccountID machine = accountID) then k machine
  else writeError 403 "machine does not belong to this account").

Definition handlePairBrowser (accountID : Z) (machineID : string) (body : option string)
    : M response :=
  match body with
  | None => writeError 400 "browser_vm_id is required"
  | Some bvmID =>
      if String.eqb bvmID "" then writeError 400 "browser_vm_id is required"
      else
        owned_machine accountID machineID (λ machine,
        if negb (String.eqb (Machine_Status machine) "running") then
          writeError 409 "machine must be running to pair a browser VM"
        else
          owned_browser_vm accountID bvmID (λ bvm,
          if negb (String.eqb (BrowserVM_Status bvm) "running") then
            writeError 409 "browser VM must be running to pair"
          else
            match Machine_HostID machine with
            | None => writeError 409 "machine and browser VM must be on the same host"
            | Some hostID =>
                if negb (bool_decide (BrowserVM_HostID bvm = Some hostID)) then
                  writeError 409 "machine and browser VM must be on the same host"
                else
                  let! existing := or_nil (call (GetMachineByBrowserVMID bvmID)) in
                  match existing with
                  | Some m =>
                      if String.eqb (Machine_ID m) machineID then
                        pair_on_host machine bvm machineID bvmID hostID
                      else writeError 409 "browser VM is already paired to another machine"
                  | None => pair_on_host machine bvm machineID bvmID hostID
                  end
            end))
  end.

Definition handleUnpairBrowser (accountID : Z) (machineID : string) : M response :=
  owned_machine accountID machineID (λ machine,
  match Machine_BrowserVMID machine with
  | None => writeError 409 "machine does not have a paired browser VM"
  | Some browserVMID =>
      let finish :=
        or_error (call (UnpairBrowserVM machineID)) 500 "failed to unpair browser VM" (λ _,
        go_pushBrowserConfig machineID false ;;
        writeJSON 200 (JObj [("status", JStr "unpaired"); ("machine_id", JStr machineID)]%string)) in
      match Machine_HostID machine, Machine_VMIP machine with
      | Some hostID, Some machineIP =>
          if agentClient then
            let! h := try (call (GetHost hostID)) in
            match h with
            | Err _ => writeError 503 "failed to look up host for unpair — retry"
            | Ok host =>
                let! u := try (remote (AgentUnpairBrowserVM (Host_ID host) browserVMID machineIP)) in
                match u with
                | Err e => writeError 502 ("agent failed to remove firewall rules — retry: " +:+ Error e)
                | Ok _ =>
                    let! t := try (remote (AgentResetCDPTarget (Host_ID host) machineID)) in
                    match t with
                    | Err e => writeError 502 ("agent failed to reset CDP target — retry: " +:+ Error e)
                    | Ok _ => finish
                    end
                end
            end
          else finish
      | _, _ => finish
      end
  end).

(** The background push of the browser configuration. *)
Definition pushBrowserConfigAsync (machineID : string) (paired : bool) : M unit :=
  let! m := try (call (GetMachine machineID)) in
  match m with
  | Err _ => ret tt
  | Ok machine =>
      match Machine_HostID machine, Machine_ProxyToken machine with
      | Some hostID, Some _ =>
          if negb (String.eqb (Machine_Status machine) "running") then ret tt
          else
            let! h := try (call (GetHost hostID)) in
            match h with
            | Err _ => ret tt
            | Ok host =>
                when agentClient (
                  let! b := try (remote (AgentConfigBatch (Host_ID host) machineID paired)) in
                  match b with
                  | Err _ => ret tt
                  | Ok _ => ignore (remote (AgentRestartGateway (Host_ID host) machineID))
                  end)
            end
      | _, _ => ret tt
      end
  end.

(** ** Reconciliation (admin_browser_vms.go) *)

Definition handleListBrowserVMReconcileCandidates : M response :=
  or_error (call ListBrowserVMsRequiringReconciliation) 500
    "failed to list browser VM reconcile candidates" (λ bvms,
  writeJSON 200 (JArr (browser_vm_json <$> bvms))).

(** browserVMReconcileResponse and browserVMReconcileError. *)
Record reconcile_response : Type := mkReconcileResponse {
  Reconcile_BrowserVMID : string;
  Reconcile_Action : string;
  Reconcile_Status : string;
  Reconcile_Message : string;
  Reconcile_AgentHealth : option BrowserVMHealth
}.
Inductive reconcile_result : Type :=
| Reconciled (r : reconcile_response)
| ReconcileError (status : Z) (message : string).

Definition or_reconcile_error {A} (m : M A) (status : Z) (message : string)
    (k : A → M reconcile_result) : M reconcile_result :=
  let! r := try m in
  match r with Ok a => k a | Err _ => ret (ReconcileError status message) end.

Definition reconcileBrowserVM (bvmID : string) (answer : HealthAnswer) : M reconcile_result :=
  if negb agentClient then ret (ReconcileError 503 "agent client not configured")
  else
    or_reconcile_error (call (GetBrowserVM bvmID)) 404 "browser VM not found" (λ bvm,
    match BrowserVM_HostID bvm with
    | None => ret (ReconcileError 409 "browser VM has no assigned host")
    | Some hostID =>
        or_reconcile_error (call (GetHost hostID)) 503 "host unavailable" (λ host,
        agent_health (Host_ID host) bvmID answer ;;
        match answer with
        | HealthNotFound _ =>
            or_reconcile_error (call (ReleaseBrowserVMPlacement bvmID)) 500
              "failed to release browser VM placement" (λ _,
            or_reconcile_error (call (UnassignBrowserVMFromHost bvmID)) 500
              "failed to unassign browser VM from host" (λ _,
            or_reconcile_error (call (UpdateBrowserVMStatus bvmID "stopped" None)) 500
              "failed to update browser VM status" (λ _,
            ret (Reconciled (mkReconcileResponse bvmID "released_absent_agent_resource" "stopped"
              "agent reported browser VM not found; placement released" None)))))
        | HealthFailed msg =>
            ret (ReconcileError 502 ("failed to query browser VM on agent: " +:+ msg))
        | Health health =>
            if Health_CDPReachable health || String.eqb (Health_Status health) "ready" then
              or_reconcile_error (call (ActivateBrowserVMPlacement bvmID)) 500
                "failed to activate browser VM placement" (λ _,
              or_reconcile_error (call (UpdateBrowserVMStatus bvmID "running" None)) 500
                "failed to update browser VM status" (λ _,
              ret (Reconciled (mkReconcileResponse bvmID "marked_running" "running"
                "agent reported browser VM ready" (Some health)))))
            else
              let msg := ("agent still has browser VM but CDP is not ready" +:+
                (if String.eqb (Health_CDPError health) "" then ""
                 else ": " +:+ Health_CDPError health))%string in
              set_error bvmID msg ;;
              ret (Reconciled (mkReconcileResponse bvmID "kept_agent_resource" "error" msg
                               (Some health)))
        end)
    end).

Definition handleReconcileBrowserVM (bvmID : string) (answer : HealthAnswer) : M response :=
  if negb agentClient then writeError 503 "agent client not configured"
  else
    let! r := reconcileBrowserVM bvmID answer in
    match r with
    | ReconcileError status message => writeError status message
    | Reconciled r => writeJSON 200 (JObj ([("browser_vm_id", JStr (Reconcile_BrowserVMID r));
        ("action", JStr (Reconcile_Action r)); ("status", JStr (Reconcile_Status r))]%string ++
        omitempty_str "message" (Reconcile_Message r) ++
        omitempty "agent_health" (health_json <$> Reconcile_AgentHealth r)))
    end.

(** One tick of the reconciler; [answers] is the health each browser VM has. *)
Fixpoint reconcile_each (bvms : list BrowserVM) (answers : string → HealthAnswer) : M Z :=
  match bvms with
  | [] => ret 0
  | bvm :: rest =>
      let! r := reconcileBrowserVM (BrowserVM_ID bvm) (answers (BrowserVM_ID bvm)) in
      let! n := reconcile_each rest answers in
      ret (match r with Reconciled _ => 1 + n | ReconcileError _ _ => n end)
  end.
Definition reconcileBrowserVMCandidatesOnce (answers : string → HealthAnswer) : M Z :=
  if negb agentClient then ret 0
  else
    let! bvms := call ListBrowserVMsRequiringReconciliation in
    reconcile_each bvms answers.

(** ** The routes *)

Inductive browser_request : Type :=
| GetBrowserVMs
| PostBrowserVM (body : res create_body)
| GetBrowserVMByID (browserVmId : string)
| PostStartBrowserVM (browserVmId : string) (body : res (Z * string))
    (answer : CreateAnswer) (healths : list HealthAnswer)
| PostStopBrowserVM (browserVmId : string)
| DeleteBrowserVMByID (browserVmId : string)
| PostPairBrowser (machineID : string) (body : option string)
| DeletePairBrowser (machineID : string).

Definition serve_browser (claims : option Claims) (accountId : string) (r : browser_request)
    : M response :=
  AccountMiddleware accountId claims (λ accountID c _,
  match r with
  | GetBrowserVMs => handleListBrowserVMs accountID
  | PostBrowserVM body => handleCreateBrowserVM accountID body
  | GetBrowserVMByID id => handleGetBrowserVM accountID id
  | PostStartBrowserVM id body answer healths =>
      handleStartBrowserVM (Some c) accountID id body answer healths
  | PostStopBrowserVM id => handleStopBrowserVM accountID id
  | DeleteBrowserVMByID id => handleDeleteBrowserVM accountID id
  | PostPairBrowser id body => handlePairBrowser accountID id body
  | DeletePairBrowser id => handleUnpairBrowser accountID id
  end).
End BrowserVMs.
