(* ===== verification/BrowserLemmas.v ===== *)
(** * Lemmas on browser VMs

    What an agent may hold, read from the trace, and what the parts of the
    handlers do to the row of a browser VM. *)

From S2P Require Import Prelude Schema HostStore PlacementStore OperationStore.
From S2P Require Import AccountStore StoreStep World Fleet GoStrings FleetLemmas.
From S2P Require Import Versions Routing Runtime RuntimeLemmas Api Members Agents.
From S2P Require Import BrowserVMs.

(** ** What the agents may hold *)

(** A create that was not refused puts the VM on the agent; it is gone when the
    agent says so: to a destroy, a pairing or a question about its health. *)
Definition effect (host : Z) (id : string) (e : event) (held : bool) : bool :=
  match e with
  | AgentCreateBrowserVM h b _ kept =>
      if bool_decide (h = host ∧ b = id) then kept || held else held
  | AgentDestroyBrowserVM h b gone | AgentPairBrowserVM h b _ gone
  | AgentBrowserVMHealth h b gone =>
      if bool_decide (h = host ∧ b = id) then negb gone && held else held
  | _ => held
  end.
Definition on_agent (trace : list event) (host : Z) (id : string) : bool :=
  foldr (effect host id) false trace.

(** Every browser VM that an agent may hold has its row, which names the host and
    has a status that lets it be destroyed. *)
Definition row_tracked (w : World) (id : string) : Prop :=
  ∀ host, on_agent (w_trace w) host id = true →
    ∃ b, db_browser_vms (w_db w) !! id = Some b ∧ BrowserVM_HostID b = Some host ∧
      browserVMMayExistOnAgent b = true.
Definition tracked (w : World) : Prop := ∀ id, row_tracked w id.

(** ** Runs about one browser VM *)

(** Only the row [id] and what the agents hold of it change. *)
Record only (id : string) (w w' : World) : Prop := mkOnly {
  only_hosts : ∀ i, Host_ID <$> db_hosts (w_db w') !! i = Host_ID <$> db_hosts (w_db w) !! i;
  only_rows : ∀ id', id' ≠ id →
    db_browser_vms (w_db w') !! id' = db_browser_vms (w_db w) !! id';
  only_trace : ∀ host id', id' ≠ id →
    on_agent (w_trace w') host id' = on_agent (w_trace w) host id';
  only_keyed : keyed BrowserVM_ID (db_browser_vms (w_db w)) →
    keyed BrowserVM_ID (db_browser_vms (w_db w'))
}.
#[export] Instance only_preorder id : PreOrder (only id).
Proof.
  split; [by split|]. intros w1 w2 w3 [A1 B1 C1 D1] [A2 B2 C2 D2]. split; [| | |auto].
  - intros i. by rewrite A2.
  - intros id' H. by rewrite B2, B1.
  - intros h id' H. by rewrite C2, C1.
Qed.
(** Nothing of this changes. *)
Definition calm (w w' : World) : Prop :=
  (∀ i, Host_ID <$> db_hosts (w_db w') !! i = Host_ID <$> db_hosts (w_db w) !! i) ∧
  db_browser_vms (w_db w') = db_browser_vms (w_db w) ∧
  ∀ host id, on_agent (w_trace w') host id = on_agent (w_trace w) host id.
#[export] Instance calm_preorder : PreOrder calm.
Proof.
  split; [by repeat split|]. intros w1 w2 w3 (A1 & B1 & C1) (A2 & B2 & C2). split; [|split].
  - intros i. by rewrite A2.
  - congruence.
  - intros h id. by rewrite C2.
Qed.
Lemma calm_only id w w' : calm w w' → only id w w'.
Proof. intros (A & B & C). split; [done| | |by rewrite B]; intros; [by rewrite B|by rewrite C]. Qed.
Lemma tracked_only id w w' :
  only id w w' → tracked w → row_tracked w' id → tracked w'.
Proof.
  intros [_ B C _] Ht Hr id'. destruct (decide (id' = id)) as [->|Hne]; [done|].
  intros host. rewrite C, B by done. apply Ht.
Qed.
Lemma tracked_calm w w' : calm w w' → tracked w → tracked w'.
Proof. intros (_ & B & C) Ht id host. rewrite C, B. apply Ht. Qed.

(** The databases of calm runs. *)
Definition calm_db (db db' : DB) : Prop :=
  (∀ i, Host_ID <$> db_hosts db' !! i = Host_ID <$> db_hosts db !! i) ∧
  db_browser_vms db' = db_browser_vms db.
#[export] Instance calm_db_preorder : PreOrder calm_db.
Proof.
  split; [by split|]. intros d1 d2 d3 [A1 B1] [A2 B2]. split; [|congruence].
  intros i. by rewrite A2.
Qed.
Lemma calm_db_hosts f id db :
  (∀ h, Host_ID (f h) = Host_ID h) → calm_db db (db <| db_hosts ::= alter f id |>).
Proof.
  intros Hf. split; [|done]. intros i. cbn. destruct (decide (i = id)) as [->|].
  - rewrite lookup_alter_eq. destruct (_ !! _); cbn; [by rewrite Hf|done].
  - by rewrite lookup_alter_ne.
Qed.
Lemma calm_db_same db db' :
  db_hosts db' = db_hosts db → db_browser_vms db' = db_browser_vms db → calm_db db db'.
Proof. intros E1 E2. split; [by rewrite E1|done]. Qed.

Lemma calm_call {A} (q : Q A) : steps calm_db q → steps calm (call q).
Proof.
  intros Hq w. unfold call, bind, pop_fault.
  destruct (w_faults w) as [|[] fs]; cbn; [|done|]; specialize (Hq (w_db w));
    destruct (q (w_db w)) as [r db]; cbn in *; destruct Hq; by split.
Qed.
Definition neutral (e : event) : Prop := ∀ host id held, effect host id e held = held.
Lemma calm_emit e : neutral e → steps calm (emit e).
Proof. intros He w. split; [done|]. split; [done|]. intros h id. apply He. Qed.
Lemma calm_load : steps calm load.
Proof. intros w. unfold load, bind, pop_fault. by destruct (w_faults w) as [|[] fs]. Qed.
Lemma calm_remote e : neutral e → steps calm (remote e).
Proof.
  intros He. apply steps_bind; [apply _|by apply calm_emit|]. intros _. apply calm_load.
Qed.
Lemma calm_rand_hex : steps calm rand_hex.
Proof. intros w. unfold rand_hex. by destruct (w_rand w). Qed.
Lemma calm_rand_int : steps calm rand_int.
Proof. intros w. unfold rand_int. by destruct (w_ints w). Qed.
Lemma steps_weaken {S A} (R R' : relation S) (m : ST S A) :
  (∀ s s', R s s' → R' s s') → steps R m → steps R' m.
Proof. intros H Hm s. apply H, Hm. Qed.

(** The statements the handlers use. *)
Lemma calm_GetBrowserVM id : steps calm_db (GetBrowserVM id).
Proof. unfold GetBrowserVM, query_row. go_steps. Qed.
Lemma calm_GetHost id : steps calm_db (GetHost id).
Proof. unfold GetHost, query_row. go_steps. Qed.
Lemma calm_GetMachine id : steps calm_db (GetMachine id).
Proof. unfold GetMachine, query_row. go_steps. Qed.
Lemma calm_GetMachineByBrowserVMID id : steps calm_db (GetMachineByBrowserVMID id).
Proof. unfold GetMachineByBrowserVMID, query_row. go_steps. Qed.
Lemma calm_Unpair id : steps calm_db (UnpairBrowserVM id).
Proof. unfold UnpairBrowserVM. go_steps. intros db. by apply calm_db_same. Qed.
Lemma calm_Pair m id : steps calm_db (PairBrowserVM m id).
Proof.
  unfold PairBrowserVM, unique, references. go_steps. intros db. by apply calm_db_same.
Qed.
Lemma calm_Release id : steps calm_db (ReleaseBrowserVMPlacement id).
Proof.
  unfold ReleaseBrowserVMPlacement, update_host. go_steps; intros db;
    first [by apply calm_db_same | by apply calm_db_hosts].
Qed.
Lemma calm_Activate id : steps calm_db (ActivateBrowserVMPlacement id).
Proof. unfold ActivateBrowserVMPlacement, now. go_steps. intros db. by apply calm_db_same. Qed.
Lemma calm_Place h id v m : steps calm_db (PlaceBrowserVMOnHost h id v m).
Proof.
  unfold PlaceBrowserVMOnHost, query_row, references, unique, gen_random_uuid, update_host. go_steps;
    intros db; first [by apply calm_db_same | by apply calm_db_hosts].
Qed.
Lemma calm_ListEligible f : steps calm_db (ListEligibleHosts f).
Proof. unfold ListEligibleHosts, now. go_steps. Qed.
Lemma calm_ListMachinesByAccount a : steps calm_db (ListMachinesByAccount a).
Proof. unfold ListMachinesByAccount. go_steps. Qed.
Lemma calm_ListMachinesByHost a : steps calm_db (ListMachinesByHost a).
Proof. unfold ListMachinesByHost. go_steps. Qed.
Lemma calm_ListBrowserVMs a : steps calm_db (ListBrowserVMsByAccount a).
Proof. unfold ListBrowserVMsByAccount. go_steps. Qed.
Lemma calm_ListCandidates : steps calm_db ListBrowserVMsRequiringReconciliation.
Proof. unfold ListBrowserVMsRequiringReconciliation. go_steps. Qed.
Lemma calm_GetAccountMember a u : steps calm_db (GetAccountMember a u).
Proof. unfold GetAccountMember, query_row. go_steps. Qed.
Create HintDb calm.
#[export] Hint Resolve calm_GetBrowserVM calm_GetHost calm_GetMachine
  calm_GetMachineByBrowserVMID calm_Unpair calm_Pair calm_Release calm_Activate calm_Place
  calm_ListEligible calm_ListMachinesByAccount calm_ListMachinesByHost calm_ListBrowserVMs
  calm_ListCandidates calm_GetAccountMember : calm.

Ltac calm_step :=
  match goal with
  | |- steps _ (call _) => apply calm_call; solve [auto with calm nocore]
  | |- steps _ (emit _) => by apply calm_emit
  | |- steps _ (remote _) => by apply calm_remote
  | |- steps _ load => apply calm_load
  | |- steps _ rand_hex => apply calm_rand_hex
  | |- steps _ rand_int => apply calm_rand_int
  | |- steps _ _ => solve [auto with calm nocore]
  | _ => go_step
  end.
Ltac calm_go := repeat calm_step.

Lemma calm_writeJSON status v : steps calm (writeJSON status v).
Proof. apply steps_ret, _. Qed.
Lemma calm_writeError status msg : steps calm (writeError status msg).
Proof. apply steps_ret, _. Qed.
#[export] Hint Resolve calm_writeJSON calm_writeError : calm.

Section Calm.
Context {go_sort : GoSort} (s : Server).

Lemma calm_cleanup_pairing machine bvm : steps calm (cleanupBrowserPairing s machine bvm).
Proof. unfold cleanupBrowserPairing, go_pushBrowserConfig. calm_go. Qed.
Lemma calm_auto_unpair id bvm : steps calm (auto_unpair_browser s id bvm).
Proof. unfold auto_unpair_browser, or_nil. calm_go. apply calm_cleanup_pairing. Qed.
Lemma calm_shuffle {A} i (l : list A) : steps calm (shuffle_from i l).
Proof. revert l. induction i; intros l; cbn [shuffle_from]; calm_go; auto. Qed.
Lemma calm_rank config hosts : steps calm (rank config hosts).
Proof. unfold rank. calm_go; apply calm_shuffle. Qed.
Lemma calm_try_hosts id req hosts : steps calm (try_browser_hosts id req hosts).
Proof. induction hosts; cbn [try_browser_hosts]; calm_go; auto. Qed.
Lemma calm_Reserve config id req : steps calm (ReserveBrowserVM config id req).
Proof. unfold ReserveBrowserVM. calm_go; [apply calm_rank|apply calm_try_hosts]. Qed.
Lemma calm_occupies a h : steps calm (callerOccupiesHost a h).
Proof. unfold callerOccupiesHost. calm_go. Qed.
Lemma calm_refetched id : steps calm (refetched id).
Proof. unfold refetched, or_nil. calm_go. Qed.
End Calm.
