(* ===== verification/BrowserModes.v ===== *)
(** * The modes of a browser VM

    No agent holds it, or only the agent of its row's host; runs are followed by
    the mode they start and end in, and each handler ends in a sound state. *)

From S2P Require Import Prelude Schema HostStore PlacementStore OperationStore.
From S2P Require Import AccountStore StoreStep Scenario World Fleet GoStrings.
From S2P Require Import FleetLemmas.
From S2P Require Import Versions Routing Runtime RuntimeLemmas RuntimeSpec.
From S2P Require Import Api Members MembersLemmas Agents BrowserVMs BrowserLemmas.

(** ** The modes of a browser VM *)

Definition keyed_hosts (w : World) : Prop := keyed Host_ID (db_hosts (w_db w)).
Definition keyed_rows (w : World) : Prop := keyed BrowserVM_ID (db_browser_vms (w_db w)).
Definition sound (w : World) : Prop := tracked w ∧ keyed_hosts w ∧ keyed_rows w.

(** No agent holds it; or only the agent of [host] may, and its row says so. *)
Definition free (id : string) (w : World) : Prop :=
  ∀ host, on_agent (w_trace w) host id = false.
Definition held (id : string) (host : Z) (w : World) : Prop :=
  (∀ host', on_agent (w_trace w) host' id = true → host' = host) ∧
  ∃ b, db_browser_vms (w_db w) !! id = Some b ∧ BrowserVM_HostID b = Some host ∧
    browserVMMayExistOnAgent b = true.
Lemma free_tracked id w : free id w → row_tracked w id.
Proof. intros Hf h. by rewrite Hf. Qed.
Lemma held_tracked id host w : held id host w → row_tracked w id.
Proof. intros [H1 H2] h Hh. by rewrite (H1 h Hh). Qed.

Lemma keyed_hosts_ids w w' :
  (∀ i, Host_ID <$> db_hosts (w_db w') !! i = Host_ID <$> db_hosts (w_db w) !! i) →
  keyed_hosts w → keyed_hosts w'.
Proof.
  intros Hi Hk i h Hh. specialize (Hi i). rewrite Hh in Hi. cbn in Hi.
  destruct (db_hosts (w_db w) !! i) as [h0|] eqn:E; [|done]. injection Hi as ->.
  exact (Hk _ _ E).
Qed.
Lemma sound_only id w w' : only id w w' → sound w → row_tracked w' id → sound w'.
Proof.
  intros Ho (Ht & Hk & Hb) Hr. split; [by eapply tracked_only|].
  split; [eapply keyed_hosts_ids; [apply Ho|done]|]. by eapply only_keyed.
Qed.
Lemma sound_calm w w' : calm w w' → sound w → sound w'.
Proof.
  intros Hc (Ht & Hk & Hb). split; [by eapply tracked_calm|].
  split; [eapply keyed_hosts_ids; [apply Hc|done]|]. unfold keyed_rows. by rewrite (proj1 (proj2 Hc)).
Qed.

(** *** Predicates that calm runs keep *)

Class Calm (P : World → Prop) : Prop := calm_keeps : ∀ w w', calm w w' → P w → P w'.
#[export] Instance free_calm id : Calm (free id).
Proof. intros w w' (_ & _ & C) H h. by rewrite C. Qed.
#[export] Instance held_calm id host : Calm (held id host).
Proof. intros w w' (_ & B & C) [H1 H2]. split; [intros h; rewrite C; apply H1|by rewrite B]. Qed.
#[export] Instance sound_is_calm : Calm sound.
Proof. exact sound_calm. Qed.
#[export] Instance and_calm P Q : Calm P → Calm Q → Calm (λ w, P w ∧ Q w).
Proof. intros HP HQ w w' Hc [H1 H2]. split; [by eapply HP|by eapply HQ]. Qed.
#[export] Instance row_calm id b : Calm (λ w, db_browser_vms (w_db w) !! id = Some b).
Proof. intros w w' (_ & B & _). by rewrite B. Qed.

(** From [P] the run [m] ends in [Post]. *)
Definition goes {A} (P : World → Prop) (m : M A) (Post : World → Prop) : Prop :=
  ∀ w, P w → Post (m w).2.

Section Goes.
Context (P Post : World → Prop) `{!Calm P}.
Hypothesis HPost : ∀ w, P w → Post w.

Lemma goes_calm {A} (m : M A) : steps calm m → goes P m Post.
Proof. intros Hm w Hw. apply HPost. by eapply calm_keeps, Hw. Qed.
Lemma goes_calm_bind {A B} (m : M A) (k : A → M B) :
  steps calm m → (∀ a, goes P (k a) Post) → goes P (bind m k) Post.
Proof.
  intros Hm Hk w Hw. unfold bind. specialize (Hm w).
  destruct (m w) as [[a|e] w1]; cbn in *; [apply Hk|apply HPost]; by eapply calm_keeps, Hw.
Qed.
Lemma goes_calm_try {A B} (m : M A) (k : res A → M B) :
  steps calm m → (∀ r, goes P (k r) Post) → goes P (bind (try m) k) Post.
Proof.
  intros Hm Hk w Hw. rewrite bind_try. specialize (Hm w).
  destruct (m w) as [r w1]; cbn in *. apply Hk. by eapply calm_keeps, Hw.
Qed.
Lemma goes_read {A B} (q : Q A) (k : res A → M B) :
  (∀ db, (q db).2 = db) →
  (∀ a, goes (λ w, P w ∧ (q (w_db w)).1 = Ok a) (k (Ok a)) Post) →
  (∀ e, goes P (k (Err e)) Post) → goes P (bind (try (call q)) k) Post.
Proof.
  intros Hq Hok Herr w Hw. rewrite bind_try.
  assert (calm w (call q w).2) as Hc.
  { apply calm_call. intros db. rewrite Hq. reflexivity. }
  pose proof (call_db q w) as Hd. destruct (call q w) as [[a|e] w1]; cbn [fst snd] in *;
    rewrite Hq in Hd.
  - apply Hok. destruct Hd as [[Ea Ed]|[? _]]; [|done]. rewrite Ed. split; [|done].
    by eapply calm_keeps, Hw.
  - apply Herr. by eapply calm_keeps, Hw.
Qed.
End Goes.
Lemma goes_weaken {A} (P P' Post : World → Prop) (m : M A) :
  (∀ w, P' w → P w) → goes P m Post → goes P' m Post.
Proof. intros H Hm w Hw. by apply Hm, H. Qed.
(** A run after which [P1] holds, or [P2] with an error. *)
Lemma goes_try {A B} (P P1 P2 Post : World → Prop) (m : M A) (k : res A → M B) :
  (∀ w, P w → let '(r, w') := m w in match r with Ok _ => P1 w' | Err _ => P2 w' end) →
  (∀ a, goes P1 (k (Ok a)) Post) → (∀ e, goes P2 (k (Err e)) Post) →
  goes P (bind (try m) k) Post.
Proof.
  intros Hm Hok Herr w Hw. rewrite bind_try. specialize (Hm w Hw).
  destruct (m w) as [[a|e] w1]; cbn in *; [by apply Hok|by apply Herr].
Qed.
Lemma goes_ignore {A B} (P P1 Post : World → Prop) (m : M A) (k : unit → M B) :
  goes P m P1 → goes P1 (k tt) Post → goes P (bind (ignore m) k) Post.
Proof. intros Hm Hk w Hw. rewrite bind_ignore. by apply Hk, Hm. Qed.

Lemma goes_seq {A B} (P Post : World → Prop) (m : M A) (k : A → M B) :
  (∀ w, P w → Post w) → goes P m P → (∀ a, goes P (k a) Post) → goes P (bind m k) Post.
Proof.
  intros HP Hm Hk w Hw. unfold bind. specialize (Hm w Hw).
  destruct (m w) as [[a|e] w1]; cbn in *; [by apply Hk|by apply HP].
Qed.
Lemma goes_emit {B} (P P1 Post : World → Prop) e (k : M B) :
  goes P (emit e) P1 → goes P1 k Post → goes P (bind (emit e) (λ _, k)) Post.
Proof. intros He Hk w Hw. apply Hk. by apply He in Hw. Qed.

(** ** Steps on one browser VM *)

(** Runs after which no more is held than before. *)
Definition shrinks (id : string) (w w' : World) : Prop :=
  only id w w' ∧
  ∀ host, on_agent (w_trace w') host id = true → on_agent (w_trace w) host id = true.
#[export] Instance shrinks_preorder id : PreOrder (shrinks id).
Proof.
  split; [intros w; by split|]. intros w1 w2 w3 [O1 S1] [O2 S2].
  split; [by etransitivity|auto].
Qed.
Lemma calm_shrinks id w w' : calm w w' → shrinks id w w'.
Proof. intros Hc. split; [by apply calm_only|]. intros h. by rewrite (proj2 (proj2 Hc)). Qed.
Lemma free_shrinks id w w' : shrinks id w w' → sound w ∧ free id w → sound w' ∧ free id w'.
Proof.
  intros [Ho Hs] [Hw Hf]. assert (free id w') as Hf'.
  { intros h. destruct (on_agent (w_trace w') h id) eqn:E; [|done].
    apply Hs in E. by rewrite Hf in E. }
  split; [|done]. by eapply sound_only, free_tracked.
Qed.
(** Once free, such runs may do what they like. *)
Lemma goes_free {A} id (m : M A) :
  steps (shrinks id) m → goes (λ w, sound w ∧ free id w) m sound.
Proof. intros Hm w Hw. by eapply free_shrinks, Hw. Qed.

Lemma shrinks_row {A} id (q : Q A) :
  (∀ db, (q db).2 = db ∨ ∃ f, (∀ b, BrowserVM_ID (f b) = BrowserVM_ID b) ∧
     (q db).2 = db <| db_browser_vms ::= alter f id |>) →
  steps (shrinks id) (call q).
Proof.
  intros Hq w. pose proof (call_db q w) as Hd. pose proof (call_trace q w) as Et.
  destruct (call q w) as [r w']. cbn in *. specialize (Hq (w_db w)).
  assert (w_db w' = w_db w ∨ ∃ f, (∀ b, BrowserVM_ID (f b) = BrowserVM_ID b) ∧
    w_db w' = (w_db w) <| db_browser_vms ::= alter f id |>) as [E|(f & Hf & E)].
  { destruct Hd as [[_ ->]|[_ ->]]; [|by left]. exact Hq. }
  - split; [split|]; intros; rewrite ?E, ?Et; try done. by rewrite <-Et.
  - split; [split|]; intros; rewrite ?E, ?Et; cbn; auto; [by rewrite lookup_alter_ne| |by rewrite <-Et].
    by apply keyed_alter.
Qed.
Lemma UpdateBrowserVMStatus_db id status msg db :
  let f b := b <| BrowserVM_Status := status |> <| BrowserVM_ErrorMessage := msg |>
               <| BrowserVM_UpdatedAt := db_now db |> in
  (UpdateBrowserVMStatus id status msg db).2 = db ∧
    is_ok (UpdateBrowserVMStatus id status msg db).1 = false ∨
  UpdateBrowserVMStatus id status msg db = (Ok tt, db <| db_browser_vms ::= alter f id |>).
Proof.
  unfold UpdateBrowserVMStatus, bind, now, gets, get. destruct (_ && _); [by left|by right].
Qed.
Lemma shrinks_status id status msg : steps (shrinks id) (call (UpdateBrowserVMStatus id status msg)).
Proof.
  apply shrinks_row. intros db. destruct (UpdateBrowserVMStatus_db id status msg db) as [[-> _]| ->];
    [by left|right]. eexists. split; [|reflexivity]. done.
Qed.
Lemma shrinks_unassign id : steps (shrinks id) (call (UnassignBrowserVMFromHost id)).
Proof.
  apply shrinks_row. intros db. right. eexists. split; [|reflexivity]. done.
Qed.
Lemma shrinks_assign id host ip : steps (shrinks id) (call (AssignBrowserVMToHost id host ip)).
Proof.
  apply shrinks_row. intros db. unfold AssignBrowserVMToHost, bind, now, gets, get, references.
  destruct (_ || _); [right|by left]. eexists. split; [|reflexivity]. done.
Qed.
Lemma shrinks_delete id : steps (shrinks id) (call (DeleteBrowserVM id)).
Proof.
  intros w. pose proof (call_db (DeleteBrowserVM id) w) as Hd.
  pose proof (call_trace (DeleteBrowserVM id) w) as Et.
  destruct (call (DeleteBrowserVM id) w) as [r w']. cbn in *.
  assert (db_hosts (w_db w') = db_hosts (w_db w) ∧ (∀ id', id' ≠ id →
      db_browser_vms (w_db w') !! id' = db_browser_vms (w_db w) !! id') ∧
    (keyed BrowserVM_ID (db_browser_vms (w_db w)) →
     keyed BrowserVM_ID (db_browser_vms (w_db w')))) as (Eh & Er & Ek).
  { destruct Hd as [[_ ->]|[_ ->]]; [|done]. unfold DeleteBrowserVM, bind, get.
    destruct (db_browser_vms (w_db w) !! id); [|done]. split; [done|].
    split; [|intros H; by apply keyed_delete]. intros id' Hne. cbn. by rewrite lookup_delete_ne. }
  split; [split|]; intros; rewrite ?Eh, ?Et; auto. by rewrite <-Et.
Qed.
Lemma shrinks_event id e :
  (∀ host id' held, id' ≠ id → effect host id' e held = held) →
  (∀ host held, effect host id e held = true → held = true) → steps (shrinks id) (emit e).
Proof.
  intros Ho Hs w. split; [split|]; try done.
  - intros h id' Hne. by apply Ho.
  - intros h. apply Hs.
Qed.
Lemma shrinks_health id host answer : steps (shrinks id) (agent_health host id answer).
Proof.
  apply shrinks_event.
  - intros h id' held Hne. cbn. rewrite bool_decide_eq_false_2; [done|]. naive_solver.
  - intros h held. cbn. case_bool_decide; [|done]. by intros [_ ?]%andb_true_iff.
Qed.
Lemma shrinks_calm {A} id (m : M A) : steps calm m → steps (shrinks id) m.
Proof. apply steps_weaken, calm_shrinks. Qed.

Ltac shrinks_step :=
  match goal with
  | |- steps _ (call (UpdateBrowserVMStatus _ _ _)) => apply shrinks_status
  | |- steps _ (call (UnassignBrowserVMFromHost _)) => apply shrinks_unassign
  | |- steps _ (call (AssignBrowserVMToHost _ _ _)) => apply shrinks_assign
  | |- steps _ (call (DeleteBrowserVM _)) => apply shrinks_delete
  | |- steps _ (call _) => apply shrinks_calm; calm_step
  | |- steps _ (agent_health _ _ _) => apply shrinks_health
  | |- steps _ (refetched _) => apply shrinks_calm, calm_refetched
  | |- steps _ noContent => apply steps_ret, _
  | |- steps _ (writeJSON _ _) => apply steps_ret, _
  | |- steps _ (writeError _ _) => apply steps_ret, _
  | |- steps _ (or_error _ _ _ _) => unfold or_error
  | _ => go_step
  end.
Ltac shrinks_go := repeat shrinks_step.

(** The row keeps its host: the VM stays tracked. *)
Lemma held_status id host status msg :
  one_of ["running"; "provisioning"; "error"]%string status = true →
  goes (λ w, sound w ∧ held id host w) (call (UpdateBrowserVMStatus id status msg))
    (λ w, sound w ∧ held id host w).
Proof.
  intros Hst w [Hw [Hh (b & Hb & Hhost & Hm)]]. pose proof (shrinks_status id status msg w) as [Ho Hs].
  pose proof (call_db (UpdateBrowserVMStatus id status msg) w) as Hd.
  destruct (call _ w) as [r w']. cbn [fst snd] in *.
  assert (held id host w') as Hw'.
  { split; [intros h Hon; by apply Hh, Hs|].
    assert (w_db w' = w_db w ∨ ∃ f, w_db w' = (w_db w) <| db_browser_vms ::= alter f id |> ∧
      ∀ b, BrowserVM_HostID (f b) = BrowserVM_HostID b ∧ BrowserVM_Status (f b) = status)
      as [E|(f & E & Hf)].
    { destruct Hd as [[_ ->]|[_ ->]]; [|by left].
      destruct (UpdateBrowserVMStatus_db id status msg (w_db w)) as [[-> _]| ->]; [by left|right].
      by eexists. }
    - rewrite E. by exists b.
    - rewrite E. cbn. rewrite lookup_alter_eq, Hb. cbn. exists (f b). split; [done|].
      destruct (Hf b) as [E1 E2]. unfold browserVMMayExistOnAgent. rewrite E1, E2, Hhost.
      split; [done|]. exact Hst. }
  split; [|done]. eapply sound_only; [done|done|by eapply held_tracked].
Qed.

(** ** The handlers *)

Lemma free_of id b w :
  sound w → db_browser_vms (w_db w) !! id = Some b → browserVMMayExistOnAgent b = false →
  free id w.
Proof.
  intros (Ht & _) Hb Hm h. destruct (on_agent (w_trace w) h id) eqn:E; [|done].
  apply Ht in E as (b' & Hb' & _ & Hm'). rewrite Hb in Hb'. congruence.
Qed.
Lemma held_of id b host w :
  sound w → db_browser_vms (w_db w) !! id = Some b → BrowserVM_HostID b = Some host →
  browserVMMayExistOnAgent b = true → held id host w.
Proof.
  intros (Ht & _) Hb Hh Hm. split; [|by exists b].
  intros h (b' & Hb' & Hh' & _)%Ht. rewrite Hb in Hb'. congruence.
Qed.
Lemma GetBrowserVM_run id db :
  GetBrowserVM id db =
    (match db_browser_vms db !! id with Some b => Ok b | None => Err ErrNoRows end, db).
Proof. unfold GetBrowserVM, bind, get, query_row, of_res. by destruct (_ !! _). Qed.
Lemma GetHost_key host w h :
  keyed_hosts w → (GetHost host (w_db w)).1 = Ok h → Host_ID h = host.
Proof.
  intros Hk E. unfold GetHost, bind, get, query_row, of_res in E.
  destruct (db_hosts (w_db w) !! host) as [h0|] eqn:Eh; [|done]. injection E as <-.
  exact (Hk _ _ Eh).
Qed.

Lemma sound_id {A} (m : M A) : steps calm m → goes sound m sound.
Proof. intros Hm. apply goes_calm; [apply _|done|done]. Qed.
Lemma sound_of {A} (P : World → Prop) `{!Calm P} (m : M A) :
  steps calm m → goes (λ w, sound w ∧ P w) m sound.
Proof. intros Hm. apply goes_calm; [apply _|by intros w [? _]|done]. Qed.

Section Handlers.
Context {go_sort : GoSort} (s : Server).
Hypothesis Hagent : rs_agentClient (srv_machines s) = true.

Lemma goes_owned acc id k :
  (∀ b, goes (λ w, sound w ∧ db_browser_vms (w_db w) !! id = Some b) (k b) sound) →
  goes sound (owned_browser_vm acc id k) sound.
Proof.
  intros Hk. apply goes_read; [apply _|intros db; by rewrite GetBrowserVM_run| |].
  - intros b. case_bool_decide; [|apply goes_weaken with sound;
      [by intros w [? _]|apply sound_id, calm_writeError]].
    eapply goes_weaken; [|apply Hk]. intros w [Hw Hb]. split; [done|].
    rewrite GetBrowserVM_run in Hb. cbn in Hb. destruct (_ !! _); congruence.
  - intros e. apply sound_id, calm_writeError.
Qed.

(** Destroying it on the agent. *)
Lemma destroy_answers id host w :
  sound w ∧ held id host w →
  let '(r, w') := agent_destroy host id w in
  match r with Ok _ => sound w' ∧ free id w' | Err _ => sound w' ∧ held id host w' end.
Proof.
  intros [Hw Hh]. unfold agent_destroy, bind, pop_fault, emit, modify.
  assert (∀ fs gone, let w' := (w <| w_faults := fs |>)
      <| w_trace ::= cons (AgentDestroyBrowserVM host id gone) |> in
    sound w' ∧ if gone then free id w' else held id host w') as H.
  { intros fs gone w'. assert (only id w w') as Ho.
    { split; try done. intros h id' Hne. cbn. rewrite bool_decide_eq_false_2; [done|naive_solver]. }
    assert (if gone then free id w' else held id host w') as Hm.
    { destruct gone.
      - intros h. cbn. case_bool_decide as E; [done|].
        destruct (on_agent (w_trace w) h id) eqn:Eon; [|done].
        apply (proj1 Hh) in Eon as ->. by destruct E.
      - destruct Hh as [Hh Hrow]. split; [|done]. intros h. cbn. case_bool_decide; apply Hh. }
    split; [|done]. eapply sound_only; [done|done|].
    destruct gone; [by apply free_tracked|by eapply held_tracked]. }
  destruct (w_faults w) as [|[] fs] eqn:Ef; cbn.
  - specialize (H [] true). by destruct w; cbn in Ef; subst.
  - by specialize (H fs false).
  - by specialize (H fs true).
Qed.
Lemma goes_error {B} id host msg (k : M B) :
  steps calm k → goes (λ w, sound w ∧ held id host w) (set_error id msg ;; k) sound.
Proof.
  intros Hk. eapply goes_ignore; [by apply held_status|]. by apply sound_of; [apply _|].
Qed.
Lemma goes_destroy id host kind k :
  goes (λ w, sound w ∧ free id w) k sound →
  goes (λ w, sound w ∧ held id host w) (destroy_on_agent s id host kind k) sound.
Proof.
  intros Hk. apply goes_read; [apply _|apply GetHost_db| |].
  - intros h. rewrite Hagent. intros w [[Hw Hh] Eh]. pose proof (GetHost_key _ _ _ (proj1 (proj2 Hw)) Eh) as ->.
    apply (goes_try _ _ _ sound (agent_destroy host id) _ (destroy_answers id host));
      [by intros u|intros e; apply goes_error, calm_writeError|done].
  - intros e. apply goes_error, calm_writeError.
Qed.

Lemma goes_delete acc id : goes sound (handleDeleteBrowserVM s acc id) sound.
Proof.
  apply goes_owned. intros b.
  assert (∀ P, Calm P → ∀ k : M response, goes (λ w, sound w ∧ P w) k sound →
    goes (λ w, sound w ∧ P w) (auto_unpair_browser s id b ;; k) sound) as Hun.
  { intros P HP k Hk. apply goes_calm_bind; [apply _|by intros w [? _]|apply calm_auto_unpair|done]. }
  destruct (browserVMMayExistOnAgent b) eqn:Hm.
  - destruct (BrowserVM_HostID b) as [host|] eqn:Hh; [|by unfold browserVMMayExistOnAgent in Hm;
      rewrite Hh in Hm].
    apply goes_weaken with (λ w, sound w ∧ held id host w);
      [intros w [Hw Hb]; split; [done|by eapply held_of]|].
    apply Hun; [apply _|]. apply goes_destroy, goes_free. shrinks_go.
  - apply goes_weaken with (λ w, sound w ∧ free id w);
      [intros w [Hw Hb]; split; [done|by eapply free_of]|].
    apply Hun; [apply _|]. apply goes_free. shrinks_go.
Qed.
Lemma goes_stop acc id : goes sound (handleStopBrowserVM s acc id) sound.
Proof.
  apply goes_owned. intros b. destruct (negb (stoppable b)) eqn:Hst;
    [apply sound_of; [apply _|apply calm_writeError]|].
  destruct (BrowserVM_HostID b) as [host|] eqn:Hh.
  - assert (browserVMMayExistOnAgent b = true) as Hm.
    { unfold browserVMMayExistOnAgent. rewrite Hh. apply negb_false_iff in Hst.
      unfold stoppable, one_of in *. cbn. rewrite bool_decide_eq_true.
      apply orb_true_iff in Hst as [Hst%bool_decide_eq_true|[Hst _]%andb_true_iff];
        [set_solver|]. apply String.eqb_eq in Hst as ->. set_solver. }
    apply goes_weaken with (λ w, sound w ∧ held id host w);
      [intros w [Hw Hb]; split; [done|by eapply held_of]|].
    apply goes_calm_bind; [apply _|by intros w [? _]|apply calm_auto_unpair|intros _].
    rewrite Hagent. apply goes_destroy, goes_free. shrinks_go.
  - apply goes_weaken with (λ w, sound w ∧ free id w).
    { intros w [Hw Hb]. split; [done|]. eapply free_of; [done|done|].
      unfold browserVMMayExistOnAgent. by rewrite Hh. }
    apply goes_calm_bind; [apply _|by intros w [? _]|apply calm_auto_unpair|intros _].
    apply goes_free. shrinks_go.
Qed.

(** Starting: free until the agent is asked, held from then on. *)
Definition assigned (id : string) (host : Z) (w : World) : Prop :=
  free id w ∧ ∃ b, db_browser_vms (w_db w) !! id = Some b ∧ BrowserVM_HostID b = Some host ∧
    browserVMMayExistOnAgent b = true.
Definition provisioning (id : string) (w : World) : Prop :=
  free id w ∧ ∃ b, db_browser_vms (w_db w) !! id = Some b ∧
    BrowserVM_Status b = "provisioning"%string.
#[local] Instance assigned_calm id host : Calm (assigned id host).
Proof. intros w w' Hc [Hf Hr]. split; [by eapply free_calm|]. by rewrite (proj1 (proj2 Hc)). Qed.
#[local] Instance provisioning_calm id : Calm (provisioning id).
Proof. intros w w' Hc [Hf Hr]. split; [by eapply free_calm|]. by rewrite (proj1 (proj2 Hc)). Qed.

Lemma agent_create_held id host ip answer w :
  (match answer with CreateRefused _ => False | _ => True end) →
  sound w ∧ assigned id host w →
  let w' := (agent_create host id ip answer w).2 in sound w' ∧ held id host w'.
Proof.
  intros Ha [Hw [Hf Hr]] w'.
  assert (∀ e, e = AgentCreateBrowserVM host id ip true → let w1 := w <| w_trace ::= cons e |> in
    only id w w1 ∧ held id host w1) as H.
  { intros e -> w1. split; [split; try done|split; [|exact Hr]].
    - intros h id' Hne. cbn. rewrite bool_decide_eq_false_2; [done|naive_solver].
    - intros h. change (effect h id (AgentCreateBrowserVM host id ip true)
        (on_agent (w_trace w) h id) = true → h = host). rewrite Hf. cbn.
      case_bool_decide as E; [by destruct E|done]. }
  destruct (H (AgentCreateBrowserVM host id ip true) eq_refl) as [Ho Hh].
  assert (sound w' ∧ held id host w') as Hok; [|exact Hok].
  subst w'. destruct answer; [|done|]; (split; [|exact Hh]);
    eapply sound_only; [exact Ho|done|by eapply held_tracked|exact Ho|done|by eapply held_tracked].
Qed.
Lemma agent_create_refused id host ip msg w :
  sound w ∧ assigned id host w →
  let w' := (agent_create host id ip (CreateRefused msg) w).2 in sound w' ∧ free id w'.
Proof.
  intros [Hw [Hf _]] w'. apply (free_shrinks id w); [|done].
  apply (shrinks_event id (AgentCreateBrowserVM host id ip false)).
  - intros h id' held Hne. cbn. by case_bool_decide.
  - intros h held. cbn. by case_bool_decide.
Qed.

(** Waiting and questions keep it held, or it is gone. *)
Lemma held_wait id host healths err :
  goes (λ w, sound w ∧ held id host w) (wait_ready host id healths err)
    (λ w, sound w ∧ held id host w).
Proof.
  assert (steps (shrinks id) (wait_ready host id healths err)) as Hs.
  { revert err. induction healths as [|a l IH]; intros err; cbn [wait_ready]; shrinks_go; auto. }
  assert (steps (on_db eq) (wait_ready host id healths err)) as Hd.
  { clear Hs. revert err. induction healths as [|a l IH]; intros err; cbn [wait_ready];
      unfold agent_health;
      run_steps; auto. }
  intros w [Hw [Hh Hr]]. specialize (Hs w). specialize (Hd w). destruct Hs as [Ho Hs].
  assert (held id host (wait_ready host id healths err w).2) as H.
  { split; [intros h Hon; by apply Hh, Hs|]. unfold on_db in Hd. by rewrite <-Hd. }
  split; [|done]. by eapply sound_only, held_tracked.
Qed.
Lemma goes_finish_start id host :
  goes (λ w, sound w ∧ held id host w) (finish_start id) sound.
Proof.
  unfold finish_start. apply goes_calm_bind; [apply _|by intros w [? _]| |].
  { apply steps_ignore, calm_call, calm_Activate. }
  intros _. eapply goes_ignore; [by apply held_status|]. apply sound_of; [apply _|].
  apply calm_refetched.
Qed.
Lemma goes_create_on_agent host id ip answer healths :
  goes (λ w, sound w ∧ assigned id (Host_ID host) w)
    (create_on_agent s host id ip answer healths (finish_start id)) sound.
Proof.
  intros w Hw. unfold create_on_agent. destruct answer as [|msg|msg].
  - rewrite (bind_eq_ok _ _ _ tt (agent_create (Host_ID host) id ip Created w).2) by done.
    apply (agent_create_held _ _ ip Created) in Hw; [|done]. revert Hw.
    generalize (agent_create (Host_ID host) id ip Created w).2.
    unfold waitForBrowserVMReady. rewrite Hagent.
    apply (goes_try _ (λ w, sound w ∧ held id (Host_ID host) w) (λ w, sound w ∧ held id (Host_ID host) w)).
    + intros w1 Hw1. pose proof (held_wait id (Host_ID host) healths "" w1 Hw1) as H.
      destruct (wait_ready _ _ _ _ w1) as [[u|e] w2]; exact H.
    + intros _. apply goes_finish_start.
    + intros e. apply goes_error, calm_writeError.
  - rewrite (bind_eq_ok _ _ _ tt (agent_create (Host_ID host) id ip (CreateRefused msg) w).2) by done.
    apply (agent_create_refused _ _ ip msg) in Hw. revert Hw.
    generalize (agent_create (Host_ID host) id ip (CreateRefused msg) w).2.
    apply goes_free. unfold set_error. shrinks_go.
  - rewrite (bind_eq_ok _ _ _ tt (agent_create (Host_ID host) id ip (CreateUnknown msg) w).2) by done.
    apply (agent_create_held _ _ ip (CreateUnknown msg)) in Hw; [|done]. revert Hw.
    generalize (agent_create (Host_ID host) id ip (CreateUnknown msg) w).2.
    apply goes_error, calm_writeError.
Qed.

Abbreviation fresh id := (λ w, sound w ∧ free id w).

(** The status is provisioning; the host is assigned. *)
Lemma status_provisioning id b w :
  sound w ∧ free id w ∧ db_browser_vms (w_db w) !! id = Some b →
  let '(r, w') := call (UpdateBrowserVMStatus id "provisioning" None) w in
  match r with Ok _ => sound w' ∧ provisioning id w' | Err _ => sound w' ∧ free id w' end.
Proof.
  intros (Hw & Hf & Hb). pose proof (shrinks_status id "provisioning" None w) as Hs.
  pose proof (call_db (UpdateBrowserVMStatus id "provisioning" None) w) as Hd.
  destruct (call _ w) as [r w']. cbn [fst snd] in *.
  destruct (free_shrinks id w w' Hs (conj Hw Hf)) as [Hw' Hf'].
  destruct r as [u|e]; [|done]. split; [done|]. split; [done|].
  destruct Hd as [[Er ->]|[? _]]; [|done].
  destruct (UpdateBrowserVMStatus_db id "provisioning" None (w_db w)) as [[_ E]|E];
    [by rewrite <-Er in E|]. rewrite E. cbn. rewrite lookup_alter_eq, Hb. by eexists.
Qed.
Lemma assign_assigned id host ip w :
  sound w ∧ provisioning id w →
  let '(r, w') := call (AssignBrowserVMToHost id host ip) w in
  match r with Ok _ => sound w' ∧ assigned id host w' | Err _ => sound w' ∧ free id w' end.
Proof.
  intros (Hw & Hf & b & Hb & Hst). pose proof (shrinks_assign id host ip w) as Hs.
  pose proof (call_db (AssignBrowserVMToHost id host ip) w) as Hd.
  destruct (call _ w) as [r w']. cbn [fst snd] in *.
  destruct (free_shrinks id w w' Hs (conj Hw Hf)) as [Hw' Hf'].
  destruct r as [u|e]; [|done]. split; [done|]. split; [done|].
  destruct Hd as [[Er ->]|[? _]]; [|done]. revert Er.
  unfold AssignBrowserVMToHost, bind, now, gets, get, references.
  destruct (_ || _); [|done]. intros _. cbn. rewrite lookup_alter_eq, Hb. eexists.
  split; [done|]. split; [done|]. unfold browserVMMayExistOnAgent. cbn. by rewrite Hst.
Qed.
Lemma goes_start_browser_vm id b hostID region answer healths :
  goes (λ w, sound w ∧ free id w ∧ db_browser_vms (w_db w) !! id = Some b)
    (start_browser_vm s id b hostID region answer healths) sound.
Proof.
  assert (∀ m : M response, steps (shrinks id) m → goes (fresh id) m sound) as Hfree
    by (intros m; apply goes_free).
  apply (goes_try _ (λ w, sound w ∧ provisioning id w) (fresh id)).
  { intros w Hw. exact (status_provisioning id b w Hw). }
  2:{ intros e. apply Hfree. shrinks_go. }
  intros _. destruct (srv_placement s) as [config|]; [|by intros w [? _]].
  apply goes_calm_try; [apply _|apply calm_Reserve|intros [[host ip]|e]].
  2:{ apply goes_weaken with (fresh id); [by intros w [? []]|]. apply Hfree.
      unfold set_error. shrinks_go. }
  apply (goes_try _ (λ w, sound w ∧ assigned id (Host_ID host) w) (fresh id)).
  { intros w Hw. exact (assign_assigned id (Host_ID host) ip w Hw). }
  - intros _. rewrite Hagent. apply goes_create_on_agent.
  - intros e. apply Hfree. unfold set_error. shrinks_go.
Qed.

Lemma goes_start claims acc id body answer healths :
  goes sound (handleStartBrowserVM s claims acc id body answer healths) sound.
Proof.
  apply goes_owned. intros b.
  assert (∀ status msg, goes (λ w, sound w ∧ db_browser_vms (w_db w) !! id = Some b)
    (writeError status msg) sound) as Herr
    by (intros status msg; apply sound_of; [apply _|apply calm_writeError]).
  destruct (negb (one_of _ _)) eqn:Hst; [apply Herr|].
  destruct (String.eqb (BrowserVM_Status b) "error" && _) eqn:Hno; [apply Herr|].
  destruct (browserVMUsesDisabledLegacyRootfs b); [apply Herr|].
  destruct body as [[hostID region]|e]; [|apply Herr]. cbn [optional_body].
  assert (browserVMMayExistOnAgent b = false) as Hm.
  { unfold browserVMMayExistOnAgent. apply negb_false_iff, one_of_2 in Hst as [E|E];
      rewrite E in *; cbn in Hno; [by rewrite andb_comm|by rewrite Hno]. }
  assert (∀ k : M response, goes (λ w, sound w ∧ free id w ∧ db_browser_vms (w_db w) !! id = Some b)
    k sound → goes (λ w, sound w ∧ db_browser_vms (w_db w) !! id = Some b) k sound) as Hmode.
  { intros k. apply goes_weaken. intros w [Hw Hb]. split; [done|]. split; [|done].
    by eapply free_of. }
  cbv zeta. set (start := if _ && _ then writeError 403 _ else _).
  assert (goes (λ w, sound w ∧ db_browser_vms (w_db w) !! id = Some b) start sound) as Hstart
    by (subst start; destruct (negb (String.eqb region "") && _);
        [apply Herr|apply Hmode, goes_start_browser_vm]).
  destruct (negb (bool_decide _) && _); [|exact Hstart].
  apply goes_calm_try; [apply _|apply calm_occupies|intros [[]|e]]; [exact Hstart|apply Herr|apply Herr].
Qed.

(** Creating: the new row is of no agent. *)
Lemma goes_attempts n b : goes sound (create_attempts n b) sound.
Proof.
  induction n as [|n IH]; cbn [create_attempts]; [apply sound_id, calm_writeError|].
  apply goes_calm_bind; [apply _|done|unfold generateShortID; calm_go|intros slug].
  apply (goes_try _ sound sound).
  - intros w (Ht & Hk & Hr). pose proof (call_db (CreateBrowserVM (b slug)) w) as Hd.
    pose proof (call_trace (CreateBrowserVM (b slug)) w) as Et.
    destruct (call _ w) as [r w']. cbn [fst snd] in *.
    assert (w_db w' = w_db w ∨ ∃ i row n, db_browser_vms (w_db w) !! i = None ∧ BrowserVM_ID row = i ∧
      w_db w' = (w_db w) <| db_browser_vms ::= <[i := row]> |> <| db_next := n |>) as Hw.
    { destruct Hd as [[_ ->]|[_ ->]]; [|by left]. unfold CreateBrowserVM, tx, bind, now, gets, get,
        references, unique, gen_random_uuid, next_serial, modify, ret, fail, is_some_b. cbn.
      destruct (db_accounts _ !! _); cbn; [|by left].
      destruct (db_browser_vms (w_db w) !! _) eqn:E; cbn; [by left|].
      destruct (bool_decide _); cbn; [right|by left]. eexists _, _, _. refine (conj E (conj _ eq_refl)). reflexivity. }
    assert (sound w') as Hs'; [|by destruct r].
    destruct Hw as [E|(i & row & m & Hi & Hid & E)]; unfold sound, tracked, row_tracked, keyed_hosts,
      keyed_rows; rewrite E, Et; [done|]. cbn. split; [|split; [done|by apply keyed_insert]].
    intros id host Hon. destruct (Ht id host Hon) as (b0 & Hb0 & H). exists b0. split; [|done].
    rewrite lookup_insert_ne; [done|]. intros ->. congruence.
  - intros created. apply sound_id, calm_writeJSON.
  - intros e. destruct (errors_is _ _); [done|apply sound_id, calm_writeError].
Qed.
Lemma goes_create acc body : goes sound (handleCreateBrowserVM s acc body) sound.
Proof.
  destruct body as [req|e]; [|apply sound_id, calm_writeError].
  unfold handleCreateBrowserVM, optional_body. cbv zeta.
  destruct (browserRootfsSelection _ _ _ _ _) as [[m v]|e];
    [apply goes_attempts|apply sound_id, calm_writeError].
Qed.

(** Pairing and unpairing. *)
Lemma neutral_pair host id ip : neutral (AgentPairBrowserVM host id ip false).
Proof. intros h i held. cbn. by case_bool_decide. Qed.
Ltac pair_step :=
  match goal with
  | |- steps _ (remote (AgentPairBrowserVM _ _ _ false)) => apply calm_remote, neutral_pair
  | |- steps _ (cleanupBrowserPairing _ _ _) => apply calm_cleanup_pairing
  | |- steps _ (or_error _ _ _ _) => unfold or_error
  | |- steps _ (or_nil _) => unfold or_nil
  | |- steps _ (owned_machine _ _ _) => unfold owned_machine
  | |- steps _ (owned_browser_vm _ _ _) => unfold owned_browser_vm
  | |- steps _ (go_pushBrowserConfig _ _) => unfold go_pushBrowserConfig
  | _ => calm_step
  end.
Lemma calm_pair_on_host machine bvm machineID bvmID hostID :
  steps calm (pair_on_host s machine bvm machineID bvmID hostID).
Proof.
  unfold pair_on_host, replace_previous, pair_firewall, pair_target. repeat pair_step.
Qed.
Lemma goes_pair acc mid body : goes sound (handlePairBrowser s acc mid body) sound.
Proof.
  apply sound_id. pose proof calm_pair_on_host. unfold handlePairBrowser.
  repeat first [progress auto|pair_step].
Qed.
Lemma goes_unpair acc mid : goes sound (handleUnpairBrowser s acc mid) sound.
Proof. apply sound_id. unfold handleUnpairBrowser. repeat pair_step. Qed.
Lemma goes_get acc id : goes sound (handleGetBrowserVM acc id) sound.
Proof. apply sound_id. unfold handleGetBrowserVM. repeat pair_step. Qed.
Lemma goes_list acc : goes sound (handleListBrowserVMs acc) sound.
Proof. apply sound_id. unfold handleListBrowserVMs. repeat pair_step. Qed.

(** An answer of the row's host that the VM is gone. *)
Lemma goes_gone id host b e :
  BrowserVM_HostID b = Some host →
  (∀ h i held, effect h i e held = if bool_decide (host = h ∧ id = i) then false else held) →
  goes (λ w, sound w ∧ db_browser_vms (w_db w) !! id = Some b) (emit e) (fresh id).
Proof.
  intros Hh He w [Hw Hb].
  assert (free id (emit e w).2) as Hf.
  { intros h. cbn. rewrite He. case_bool_decide as Ei; [done|].
    destruct (on_agent (w_trace w) h id) eqn:Eon; [|done].
    destruct (proj1 Hw id h Eon) as (b' & Hb' & Hh' & _).
    rewrite Hb in Hb'. injection Hb' as <-. rewrite Hh in Hh'. naive_solver. }
  split; [|done]. eapply (sound_only id w); [|done|by apply free_tracked].
  split; try done. intros h i Hne. cbn. rewrite He, bool_decide_eq_false_2; [done|naive_solver].
Qed.
Lemma goes_modes {A} id host b (m : M A) :
  BrowserVM_HostID b = Some host →
  goes (λ w, sound w ∧ held id host w) m sound → goes (fresh id) m sound →
  goes (λ w, sound w ∧ db_browser_vms (w_db w) !! id = Some b) m sound.
Proof.
  intros Hh H1 H2 w [Hw Hb]. destruct (browserVMMayExistOnAgent b) eqn:Hm.
  - apply H1. split; [done|by eapply held_of].
  - apply H2. split; [done|by eapply free_of].
Qed.

Ltac result_step :=
  match goal with
  | |- steps _ (or_reconcile_error _ _ _ _) => unfold or_reconcile_error
  | _ => shrinks_step
  end.
Lemma goes_reconcile id answer : goes sound (reconcileBrowserVM s id answer) sound.
Proof.
  unfold reconcileBrowserVM. rewrite Hagent. cbn [negb]. unfold or_reconcile_error at 1.
  apply goes_read; [apply _|intros db; by rewrite GetBrowserVM_run| |intros e; apply sound_id, steps_ret, _].
  intros b. apply goes_weaken with (λ w, sound w ∧ db_browser_vms (w_db w) !! id = Some b).
  { intros w [Hw Hb]. split; [done|]. rewrite GetBrowserVM_run in Hb. cbn in Hb.
    destruct (_ !! _); congruence. }
  destruct (BrowserVM_HostID b) as [hostID|] eqn:Hh; [|apply sound_of; [apply _|apply steps_ret, _]].
  apply goes_read; [apply _|apply GetHost_db| |
    intros e; apply sound_of; [apply _|apply steps_ret, _]].
  intros host w [[Hw Hb] Eh]. pose proof (GetHost_key _ _ _ (proj1 (proj2 Hw)) Eh) as Hid.
  rewrite Hid. clear Eh Hid. revert w Hw Hb.
  assert (∀ k : M reconcile_result,
    goes (λ w, sound w ∧ held id hostID w) k sound → goes (fresh id) k sound →
    (∀ a, answer = a → match a with HealthNotFound _ => False | _ => True end) →
    goes (λ w, sound w ∧ db_browser_vms (w_db w) !! id = Some b)
      (agent_health hostID id answer ;; k) sound) as Hkept.
  { intros k H1 H2 Ha. specialize (Ha answer eq_refl).
    assert (steps calm (agent_health hostID id answer)) as Hc.
    { apply calm_emit. intros h i held. cbn. destruct answer; try done; by case_bool_decide. }
    eapply goes_modes; [done| |].
    - apply goes_calm_bind; [apply _|by intros w []|done|done].
    - apply goes_calm_bind; [apply _|by intros w []|done|done]. }
  intros w Hw Hb. refine (_ w (conj Hw Hb)). clear w Hw Hb. destruct answer as [health|msg|msg].
  - apply Hkept; [| |by intros ? <-]; destruct (Health_CDPReachable health || _);
      unfold or_reconcile_error, set_error.
    + apply goes_calm_try; [apply _|apply calm_call, calm_Activate|intros [u|e]];
        [|apply sound_of; [apply _|apply steps_ret, _]].
      intros w Hw. rewrite bind_try. pose proof (held_status id hostID "running" None eq_refl w Hw) as H.
      cbn in H. by destruct (call _ w) as [[u'|e] w'], H.
    + eapply goes_ignore; [by apply held_status|]. apply sound_of; [apply _|apply steps_ret, _].
    + apply goes_free. repeat result_step.
    + apply goes_free. repeat result_step.
  - eapply goes_emit; [apply (goes_gone id hostID b)|apply goes_free; repeat result_step]; [done|].
    intros h i held. cbn. by case_bool_decide.
  - apply Hkept; [| |by intros ? <-]; (apply sound_of; [apply _|apply steps_ret, _]).
Qed.
End Handlers.
