(* ===== verification/BrowserSpec.v ===== *)
(** * What the browser VM handlers guarantee

    No sequence of requests, of calls of agents and of reconciliations loses a
    browser VM that an agent may hold. *)

From S2P Require Import Prelude Schema HostStore PlacementStore OperationStore.
From S2P Require Import AccountStore StoreStep AccountInv Scenario World Fleet.
From S2P Require Import GoStrings FleetLemmas.
From S2P Require Import TableInv Versions Routing Runtime RuntimeLemmas RuntimeSpec.
From S2P Require Import Api Members MembersLemmas Agents BrowserVMs BrowserLemmas.
From S2P Require Import BrowserModes.

(** ** Calls of agents and reconciliations *)

Section Steps.
Context {go_sort : GoSort} (s : Server).
Hypothesis Hagent : rs_agentClient (srv_machines s) = true.

Lemma goes_for_each {A} (xs : list A) body :
  (∀ x, goes sound (body x) sound) → goes sound (for_each xs body) sound.
Proof.
  intros Hb. induction xs as [|x xs IH]; [by intros w Hw|]. by apply goes_seq.
Qed.
Lemma goes_reconcile_each bvms answers : goes sound (reconcile_each s bvms answers) sound.
Proof.
  induction bvms as [|b bvms IH]; [by intros w Hw|]. cbn [reconcile_each].
  apply goes_seq; [done|by apply goes_reconcile|intros r].
  apply goes_seq; [done|exact IH|by intros n w Hw].
Qed.
Lemma goes_tick answers : goes sound (reconcileBrowserVMCandidatesOnce s answers) sound.
Proof.
  unfold reconcileBrowserVMCandidatesOnce. rewrite Hagent. apply goes_calm_bind; [apply _|done| |].
  { apply calm_call, calm_ListCandidates. }
  intros bvms. apply goes_reconcile_each.
Qed.
Lemma goes_admin id answer : goes sound (handleReconcileBrowserVM s id answer) sound.
Proof.
  unfold handleReconcileBrowserVM. rewrite Hagent. cbn [negb].
  apply goes_seq; [done|by apply goes_reconcile|by intros [r|st msg] w Hw].
Qed.

(** A machine's pairing: when the VM is gone, its row loses the host. *)
Lemma goes_replay answers host machine : goes sound (replay_pairing answers host machine) sound.
Proof.
  unfold replay_pairing. destruct (Machine_BrowserVMID machine) as [id|]; [|by intros w Hw].
  destruct (Machine_VMIP machine) as [ip|]; [|by intros w Hw]. destruct (negb _); [by intros w Hw|].
  apply goes_read; [apply _|intros db; by rewrite GetBrowserVM_run| |by intros e w Hw]. intros b.
  destruct (BrowserVM_VMIP b); [|by intros w []].
  destruct (negb _ || negb _) eqn:Hg; [by intros w []|].
  apply orb_false_iff in Hg as [_ Hh%negb_false_iff%bool_decide_eq_true].
  apply goes_weaken with (λ w, sound w ∧ BrowserVM_ID b = id ∧ db_browser_vms (w_db w) !! id = Some b).
  { intros w [Hw Hb]. rewrite GetBrowserVM_run in Hb. cbn in Hb. split; [done|].
    destruct (_ !! _) eqn:E; [|done]. injection Hb as ->.
    split; [exact (proj2 (proj2 Hw) _ _ E)|done]. }
  intros w (Hw & Hid & Hb). revert w Hw Hb. rewrite Hid.
  assert (goes (λ w, sound w ∧ db_browser_vms (w_db w) !! id = Some b)
    (emit (AgentPairBrowserVM (Host_ID host) id ip false)) sound) as Hpair
    by (apply sound_of; [apply _|apply calm_emit, neutral_pair]).
  intros w Hw Hb. refine (_ w (conj Hw Hb)). clear w Hw Hb. destruct (answers id).
  - eapply goes_emit; [exact Hpair|]. apply sound_id. calm_go.
  - eapply goes_emit; [apply (goes_gone id (Host_ID host) b); [done|]|apply goes_free; shrinks_go].
    intros h i held. cbn. by case_bool_decide.
  - eapply goes_emit; [exact Hpair|by intros w Hw].
Qed.
Lemma goes_pairings answers host : goes sound (reconcileHostBrowserPairings s answers host) sound.
Proof.
  unfold reconcileHostBrowserPairings. rewrite Hagent. cbn [when].
  apply goes_calm_try; [apply _|apply calm_call, calm_ListMachinesByHost|].
  intros [machines|e]; [|by intros w Hw]. apply goes_for_each. intros m. apply goes_replay.
Qed.

(** The rest of a heartbeat, and the other calls. *)
Lemma calm_update_host id f :
  (∀ h, Host_ID (f h) = Host_ID h) → steps calm (call (modify (set db_hosts (alter f id)))).
Proof. intros Hf. apply calm_call. intros db. by apply calm_db_hosts. Qed.
Lemma calm_read {A} (q : Q A) : (∀ db, (q db).2 = db) → steps calm (call q).
Proof. intros Hq. apply calm_call. intros db. by rewrite Hq. Qed.
Lemma calm_host_status id st : steps calm (call (UpdateHostStatus id st)).
Proof. by apply calm_update_host. Qed.
Lemma calm_maintenance id b : steps calm (call (SetHostMaintenanceMode id b)).
Proof. by apply calm_update_host. Qed.
Lemma calm_endpoint id e t : steps calm (call (UpdateHostAgentEndpoint id e t)).
Proof. by apply calm_update_host. Qed.
Lemma calm_versions id m r o : steps calm (call (UpdateMachineActualVersions id m r o)).
Proof.
  apply calm_call. unfold UpdateMachineActualVersions, update_machine. go_steps.
  intros db. by apply calm_db_same.
Qed.
Lemma calm_heartbeat id ip a r b o c : steps calm (call (UpdateHostHeartbeat id ip a r b o c)).
Proof.
  apply calm_call. unfold UpdateHostHeartbeat, query_row, now, update_host. go_steps.
  intros db. by apply calm_db_hosts.
Qed.
Ltac agent_step :=
  match goal with
  | |- steps _ (call (UpdateHostStatus _ _)) => apply calm_host_status
  | |- steps _ (call (SetHostMaintenanceMode _ _)) => apply calm_maintenance
  | |- steps _ (call (UpdateHostAgentEndpoint _ _ _)) => apply calm_endpoint
  | |- steps _ (call (UpdateMachineActualVersions _ _ _ _)) => apply calm_versions
  | |- steps _ (call (UpdateHostHeartbeat _ _ _ _ _ _ _)) => apply calm_heartbeat
  | |- steps _ (or_error _ _ _ _) => unfold or_error
  | |- steps _ (call (GetHostByAgentToken _)) => apply calm_read
  | _ => calm_step
  end.
Ltac agent_go := repeat agent_step.
Lemma calm_recover hostID host : steps calm (recover_host hostID host).
Proof. unfold recover_host. agent_go. Qed.
Lemma calm_promote hostID host : steps calm (promote_host hostID host).
Proof. unfold promote_host. agent_go. Qed.
Lemma calm_record hostID req : steps calm (record_versions hostID req).
Proof. unfold record_versions. agent_go. Qed.
Lemma calm_authenticate authHeader hostID : steps calm (authenticateAgent s authHeader hostID).
Proof. unfold authenticateAgent. agent_go. Qed.
Lemma calm_placement mid hostID : steps calm (validateMachinePlacement mid hostID).
Proof. unfold validateMachinePlacement. agent_go. Qed.

Lemma goes_heartbeat_body answers hostID req :
  goes sound (heartbeat_body s answers hostID req) sound.
Proof.
  unfold heartbeat_body. apply goes_calm_try; [apply _|apply calm_heartbeat|].
  intros [changed|e]; [|apply sound_id; agent_go].
  apply goes_calm_bind; [apply _|done|apply calm_record|intros _].
  apply goes_calm_bind; [apply _|done|agent_go|intros _].
  apply goes_calm_try; [apply _|apply calm_call, calm_GetHost|].
  intros [host|e]; [|apply sound_id; agent_go].
  apply goes_seq; [done| |intros pending; apply sound_id; agent_go].
  apply goes_seq; [done|apply sound_id, calm_recover|intros pending].
  apply goes_seq; [done|apply sound_id, calm_promote|intros _].
  apply goes_seq; [done| |by intros _ w Hw].
  case_bool_decide; [apply goes_pairings|by intros w Hw].
Qed.
Lemma goes_heartbeat answers authHeader body :
  goes sound (handleAgentHeartbeat s answers authHeader body) sound.
Proof.
  unfold handleAgentHeartbeat. cbv zeta. destruct body as [req|]; [|apply sound_id; agent_go].
  destruct (Atoi _) as [hostID|]; [|apply sound_id; agent_go].
  destruct (_ || _); [apply sound_id; agent_go|].
  apply goes_calm_try; [apply _|apply calm_authenticate|].
  intros [u|e]; [apply goes_heartbeat_body|apply sound_id; agent_go].
Qed.
Lemma goes_agent answers r : goes sound (serve_agent s answers r) sound.
Proof.
  destruct r as [h body|h body|h body]; cbn [serve_agent].
  - apply goes_seq; [done|apply goes_heartbeat|by intros o w Hw].
  - apply sound_id. pose proof calm_authenticate.
    unfold handleAgentShutdownNotify, decoded, authenticated. agent_go; auto.
  - apply sound_id. pose proof calm_placement.
    unfold handleAgentActivity, authenticateAgentToken, decoded. agent_go; auto.
Qed.

Lemma goes_browser claims accountId r : goes sound (serve_browser s claims accountId r) sound.
Proof.
  unfold serve_browser, AccountMiddleware.
  destruct (Sscanf_d accountId) as [acc|]; [|apply sound_id; agent_go].
  destruct claims as [c|]; [|apply sound_id; agent_go].
  apply goes_calm_try; [apply _|apply calm_call, calm_GetAccountMember|].
  intros [member|e]; [|apply sound_id; agent_go].
  destruct r; [apply goes_list|apply goes_create|apply goes_get|apply goes_start
              |apply goes_stop|apply goes_delete|apply goes_pair|apply goes_unpair]; done.
Qed.
Lemma goes_push machineID paired : goes sound (pushBrowserConfigAsync s machineID paired) sound.
Proof. apply sound_id. unfold pushBrowserConfigAsync. agent_go. Qed.

(** ** Histories *)

(** What happens: a request of a user, a call of an agent, the push of a
    configuration, a reconciliation by an administrator or by the ticker. *)
Inductive happening : Type :=
| UserRequest (claims : option Claims) (accountId : string) (r : browser_request)
| AgentCall (answers : string → PairAnswer) (r : agent_request)
| ConfigPush (machineID : string) (paired : bool)
| AdminReconcile (bvmID : string) (answer : HealthAnswer)
| Tick (answers : string → HealthAnswer).
Definition happens (w : World) (h : happening) : World :=
  match h with
  | UserRequest claims accountId r => (serve_browser s claims accountId r w).2
  | AgentCall answers r => (serve_agent s answers r w).2
  | ConfigPush machineID paired => (pushBrowserConfigAsync s machineID paired w).2
  | AdminReconcile bvmID answer => (handleReconcileBrowserVM s bvmID answer w).2
  | Tick answers => (reconcileBrowserVMCandidatesOnce s answers w).2
  end.

Lemma happens_sound h w : sound w → sound (happens w h).
Proof.
  destruct h; cbn [happens];
    [apply goes_browser|apply goes_agent|apply goes_push|by apply goes_admin|by apply goes_tick].
Qed.
Lemma history_sound hs w : sound w → sound (foldl happens w hs).
Proof. revert w. induction hs as [|h hs IH]; intros w Hw; [done|]. by apply IH, happens_sound. Qed.
End Steps.

(** C18: Whatever requests of users (create, start, stop, delete, pair, unpair),
    calls of agents (heartbeats that replay the pairings, shutdowns) and
    reconciliations (of an administrator and of the ticker) follow one another,
    and whichever statements and calls of agents fail, the control plane keeps
    track of every browser VM that an agent may hold: as long as the agent has
    not said that a VM it may have created is gone, the row of the VM is there,
    names that agent's host, and has a status from which the VM can be stopped or
    deleted on the agent.  (The error of a create that is not an unknown outcome
    counts as the agent's word that there is no VM.) *)
Theorem browser_vms_tracked `{go_sort : GoSort} (s : Server)
    (hs : list happening) (w : World) :
  rs_agentClient (srv_machines s) = true → sound w →
  tracked (foldl (happens s) w hs).
Proof. intros Ha Hw. by apply history_sound. Qed.

(** ** A concrete history *)

Lemma sound_reachable db rand : reachable db → sound ((world db) <| w_rand := rand |>).
Proof.
  intros Hr. destruct (reachable_keyed _ Hr) as (Hh & _ & _ & Hb & _). by split.
Qed.
Definition browser_server : Server :=
  mkServer runtime0 (Some config0) false false false false None false "fleet" "" 2 "example.com"
    "https://api.example.com" "" "" "" "" "" "" false (λ _, EmptyString).
Definition browsing : World := (world db_setup) <| w_rand := ["aa"]%string |>.
Definition alice_asks (r : browser_request) : happening :=
  UserRequest (Some (mkClaims 1 "alice@example.com")) "1" r.
(** A browser VM is created; its start has an unknown outcome and cannot be
    repeated; the agent answers an administrator that the VM is not ready. *)
Definition unclear : list happening := [
  alice_asks (PostBrowserVM (Ok (mkCreateBody "" 0 0 "" "" "")));
  alice_asks (PostStartBrowserVM "id-6" (Ok (0, "")) (CreateUnknown "timeout") []);
  alice_asks (PostStartBrowserVM "id-6" (Ok (0, "")) Created []);
  AdminReconcile "id-6" (Health (mkBrowserVMHealth "id-6" "192.168.100.2" "starting" "" false "" 0 false 0 0)) ]%string.
Abbreviation then_happens hs w := (foldl (happens (go_sort:=go_sort_merge) browser_server) w hs).

Lemma browser_vms_tracked_witness :
  tracked (then_happens unclear browsing) ∧
  on_agent (w_trace (then_happens unclear browsing)) 2 "id-6" = true ∧
  on_agent (w_trace (then_happens (unclear ++ [alice_asks (DeleteBrowserVMByID "id-6")]) browsing))
    2 "id-6" = false.
Proof.
  split; [|split; vm_compute; reflexivity].
  apply (browser_vms_tracked browser_server unclear browsing eq_refl).
  apply sound_reachable, db_setup_reachable.
Defined.

Definition start6 : happening :=
  alice_asks (PostStartBrowserVM "id-6" (Ok (0, "")) Created
    [Health (mkBrowserVMHealth "id-6" "192.168.100.2" "ready" "" true "" 0 true 0 0)])%string.
Definition stop6 : happening := alice_asks (PostStopBrowserVM "id-6").
Definition status6 (w : World) : option (string * option Z) :=
  (λ b, (BrowserVM_Status b, BrowserVM_HostID b)) <$> db_browser_vms (w_db w) !! "id-6"%string.
Abbreviation started6 := (then_happens (take 1 unclear ++ [start6]) browsing).
Abbreviation stopped6 :=
  (then_happens [stop6] (started6 <| w_faults := replicate 5 false ++ [true] |>)).
(** When the release of the placement fails during a stop, the stop still clears
    the host: the browser VM cannot be started again (its unreleased placement is
    in the way), cannot be stopped (it has no host), and deleting it leaves its
    vCPUs counted. *)
Lemma failed_release_strands :
  status6 started6 = Some ("running"%string, Some 2) ∧
  status6 stopped6 = Some ("stopped"%string, None) ∧
  status6 (then_happens [start6] stopped6) = Some ("error"%string, None) ∧
  status6 (then_happens [start6; stop6; start6] stopped6) = Some ("error"%string, None) ∧
  let gone := then_happens [start6; alice_asks (DeleteBrowserVMByID "id-6")] stopped6 in
  status6 gone = None ∧ used_vcpus 2 (w_db gone) = Some 2 ∧ used_vcpus 2 (w_db browsing) = Some 0.
Proof. repeat split; vm_compute; reflexivity. Qed.
