(* ===== verification/ConfigValues.v ===== *)
(** * Configuration values: map[string]interface{} and the helpers of
    configassembly/assembler.go on them

    A Go [interface{}] that holds JSON is a [value]; [Strs] is a [[]string], which
    the code stores in documents too and which a deep copy turns into a
    [[]interface{}] (it goes through json.Marshal).  Numbers are opaque to the
    code.  The order in which Go ranges over a map is not defined; here it is that
    of [map_fold], and the results that are maps do not depend on it. *)

From S2P Require Import Prelude.

#[warnings="-register-all"]
Inductive value : Type :=
| Null
| Bool (b : bool)
| Num (n : Z)
| Str (s : string)
| Strs (l : list string)
| Arr (l : list value)
| Obj (m : gmap string value).

(** [map[string]interface{}]; [obj] is a composite literal. *)
Abbreviation document := (gmap string value).
Definition obj (l : list (string * value)) : value := Obj (list_to_map l).

(** A field of a literal. *)
Notation "k ~> v" := (@pair string value k%string v) (at level 60, only parsing) : go_scope.
Arguments Str s%_string.

Section Induction.
  Variable P : value → Prop.
  Hypothesis HNull : P Null.
  Hypothesis HBool : ∀ b, P (Bool b).
  Hypothesis HNum : ∀ n, P (Num n).
  Hypothesis HStr : ∀ s, P (Str s).
  Hypothesis HStrs : ∀ l, P (Strs l).
  Hypothesis HArr : ∀ l, Forall P l → P (Arr l).
  Hypothesis HObj : ∀ m, map_Forall (λ _, P) m → P (Obj m).

Fixpoint depth (v : value) : nat :=
  match v with
  | Arr l => S (foldr (λ v n, Nat.max (depth v) n) O l)
  | Obj m => S (map_fold (λ _ v n, Nat.max (depth v) n) O m)
  | _ => O
  end.
Lemma depth_Arr l v : v ∈ l → (depth v < depth (Arr l))%nat.
Proof. cbn. induction l; [set_solver|]. cbn. intros [->|H]%elem_of_cons; [lia|]. specialize (IHl H). lia. Qed.
Lemma depth_Obj m k v : m !! k = Some v → (depth v < depth (Obj m))%nat.
Proof.
  cbn. enough (m !! k = Some v → (depth v ≤ map_fold (λ _ v n, Nat.max (depth v) n) 0 m)%nat)
    as H by (intros Hk; specialize (H Hk); lia). revert k v.
  apply (map_fold_weak_ind (λ n m, ∀ k v, m !! k = Some v → (depth v ≤ n)%nat)); [set_solver|].
  intros i x m' n Hi IH k v [[-> ->]|[_ H]]%lookup_insert_Some; [lia|]. specialize (IH _ _ H). lia.
Qed.
Lemma value_nested_ind v : P v.
Proof.
  remember (depth v) as n eqn:E. revert v E. induction n as [n IH] using lt_wf_ind. intros v ->.
  destruct v; auto.
  - apply HArr, Forall_forall. intros v Hv. eapply IH; [by apply depth_Arr, Hv|done].
  - apply HObj. intros k v Hv. eapply IH; [by eapply depth_Obj|done].
Qed.
End Induction.

(** ** Copying and merging *)

Fixpoint deepCopyValue (v : value) : value :=
  match v with
  | Obj m => Obj (deepCopyValue <$> m)
  | Arr l => Arr (map deepCopyValue l)
  | Strs l => Arr (map Str l)
  | _ => v
  end.
Definition deepCopy (m : document) : document := deepCopyValue <$> m.

(** What a key of the overlay gets, given what the result holds for it. *)
Fixpoint merge_entry (ov : value) (bv : option value) : value :=
  match ov, bv with
  | Obj o, Some (Obj b) =>
      Obj (map_fold (λ k ov result, <[k := merge_entry ov (result !! k)]> result) (deepCopy b) o)
  | _, _ => deepCopyValue ov
  end.
Definition deepMerge (base overlay : document) : document :=
  map_fold (λ k ov result, <[k := merge_entry ov (result !! k)]> result) (deepCopy base) overlay.

(** ** Nested maps *)

Definition as_map (v : option value) : option document :=
  match v with Some (Obj m) => Some m | _ => None end.
Definition as_string (v : value) : option string :=
  match v with Str s => Some s | _ => None end.
(** The map at [key], if there is one. *)
Definition sub_map (key : string) (parent : document) : option document := as_map (parent !! key).
Fixpoint sub_path (keys : list string) (m : document) : option document :=
  match keys with
  | [] => Some m
  | key :: keys' => match sub_map key m with Some m' => sub_path keys' m' | None => None end
  end.
(** The map at [key]; [with_map] is [m := getOrCreateMap(parent, key)] followed by
    changes of [m], which [parent] sees. *)
Definition getOrCreateMap (parent : document) (key : string) : document :=
  default ∅ (sub_map key parent).
Definition with_map (key : string) (change : document → document) (parent : document) : document :=
  <[key := Obj (change (getOrCreateMap parent key))]> parent.
(** [if m, ok := parent[key].(map[string]interface{}); ok { ... }]. *)
Definition in_map (key : string) (change : document → document) (parent : document) : document :=
  match sub_map key parent with
  | Some m => <[key := Obj (change m)]> parent
  | None => parent
  end.

Arguments sub_map key%_string parent.
Arguments sub_path keys%_string m.
Arguments getOrCreateMap parent key%_string.
Arguments with_map key%_string change parent.
Arguments in_map key%_string change parent.
(** [m[key] = v] and [delete(m, key)]. *)
Definition put (key : string) (v : value) (m : document) : document := <[key := v]> m.
Definition unset (key : string) (m : document) : document := delete key m.
Arguments put key%_string v m.
Arguments unset key%_string m.

(** What is found along a path. *)
Fixpoint at_path (path : list string) (v : value) : option value :=
  match path with
  | [] => Some v
  | k :: path' => match v with Obj m => m !! k ≫= at_path path' | _ => None end
  end.

(** ** Lemmas *)

Lemma lookup_overlay (f : value → option value → value) (r o : document) k :
  map_fold (λ k ov r, <[k := f ov (r !! k)]> r) r o !! k =
  match o !! k with Some ov => Some (f ov (r !! k)) | None => r !! k end.
Proof.
  apply (map_fold_weak_ind (λ r' o, r' !! k =
    match o !! k with Some ov => Some (f ov (r !! k)) | None => r !! k end)); [done|].
  intros i x m r' Hi IH. destruct (decide (k = i)) as [->|Hne].
  - by rewrite !lookup_insert_eq, IH, Hi.
  - by rewrite !lookup_insert_ne by done.
Qed.
Lemma lookup_deepMerge base overlay k :
  deepMerge base overlay !! k =
  match overlay !! k with
  | Some ov => Some (merge_entry ov (deepCopyValue <$> base !! k))
  | None => deepCopyValue <$> base !! k
  end.
Proof. unfold deepMerge. rewrite lookup_overlay. unfold deepCopy. by rewrite lookup_fmap. Qed.
Lemma merge_entry_Obj o b : merge_entry (Obj o) (Some (Obj b)) = Obj (deepMerge b o).
Proof. done. Qed.
Lemma lookup_with_map key change parent k :
  with_map key change parent !! k =
  if decide (k = key) then Some (Obj (change (getOrCreateMap parent key))) else parent !! k.
Proof.
  unfold with_map. case_decide; [subst; by rewrite lookup_insert_eq|by rewrite lookup_insert_ne].
Qed.
Lemma lookup_in_map key change parent k :
  in_map key change parent !! k =
  if decide (k = key) then
    match sub_map key parent with Some m => Some (Obj (change m)) | None => parent !! key end
  else parent !! k.
Proof.
  unfold in_map. case_decide as E; [subst|]; destruct (sub_map _ _); try done;
    [by rewrite lookup_insert_eq|by rewrite lookup_insert_ne].
Qed.
Lemma deepCopyValue_idem v : deepCopyValue (deepCopyValue v) = deepCopyValue v.
Proof.
  induction v as [| | | | |l IH|m IH] using value_nested_ind; cbn; try done.
  - f_equal. rewrite map_map. by apply map_ext.
  - f_equal. rewrite map_map. apply map_ext_in. intros v Hv. rewrite Forall_forall in IH.
    apply IH. by apply list_elem_of_In.
  - f_equal. rewrite <-map_fmap_compose. apply map_fmap_ext. intros i x Hx. exact (IH i x Hx).
Qed.
Lemma getOrCreateMap_Obj d k m : d !! k = Some (Obj m) → getOrCreateMap d k = m.
Proof. unfold getOrCreateMap, sub_map. by intros ->. Qed.
