(* ===== verification/ConfigAssembly.v ===== *)
(** * Configuration of the guests: configassembly/assembler.go

    [AssembleConfig] merges the platform's defaults, the capabilities of a machine
    and its plugins, and puts in what the platform decides: identity, providers,
    search, agents, integrations, channel tokens, skills.  It returns the document
    that the code passes to json.Marshal.  A step of the Go function that changes
    the map [result] in place is a function on documents here; the documents of a
    run share no submaps, so the changes are seen where the code sees them. *)

From S2P Require Import Prelude GoStrings Versions ConfigValues.
#[local] Open Scope go_scope.

(** ** Catalogs *)

Record CatalogProvider : Type := mkCatalogProvider {
  CatalogProvider_ID : string;
  CatalogProvider_Category : string;
  CatalogProvider_UpstreamHost : string;
  CatalogProvider_UpstreamPathPrefix : string;
  CatalogProvider_AuthMethod : string;
  CatalogProvider_AuthHeader : string;
  CatalogProvider_EnvVar : string;
  CatalogProvider_ExecSecretID : string;
  CatalogProvider_RuntimeProviderID : string;
  CatalogProvider_PluginID : string;
  CatalogProvider_AutodetectOrder : option Z
}.
Record CatalogModel : Type := mkCatalogModel {
  CatalogModel_ID : string;
  CatalogModel_Label : string;
  CatalogModel_Source : string;
  CatalogModel_Tier : option string;
  CatalogModel_GatewayModelID : option string;
  CatalogModel_Provider : string
}.

(** The set of the models a machine can use. *)
Definition available (providers : gset string) (cm : CatalogModel) : bool :=
  if String.eqb (CatalogModel_Source cm) "platform" then true
  else if String.eqb (CatalogModel_Source cm) "subscription" ||
          String.eqb (CatalogModel_Source cm) "byok"
  then bool_decide (CatalogModel_Provider cm ∈ providers)
  else false.
Definition AvailableCatalogIDs (catalog : list CatalogModel) (providers : gset string)
    : gset string :=
  list_to_set (CatalogModel_ID <$> filter (λ cm, available providers cm = true) catalog).

Fixpoint mapModelFromCatalog (catalog : list CatalogModel) (modelID : string) : string :=
  match catalog with
  | [] => modelID
  | m :: rest =>
      match CatalogModel_GatewayModelID m with
      | Some gateway => if String.eqb (CatalogModel_ID m) modelID then gateway
                        else mapModelFromCatalog rest modelID
      | None => mapModelFromCatalog rest modelID
      end
  end.

(** ** Runtimes and models *)

Definition NormalizeOpenAIAgentRuntime (runtime : string) : res string :=
  let runtime := ToLower (TrimSpace runtime) in
  if String.eqb runtime "" || String.eqb runtime "auto" then Ok EmptyString
  else if String.eqb runtime "codex" || String.eqb runtime "pi" then Ok runtime
  else Err (ErrText "unsupported OpenAI agent runtime").

Definition agentRuntimeForModelRef (modelRef openAIAgentRuntime : string) : string :=
  if HasPrefix modelRef "codex/" then "codex"
  else if negb (String.eqb openAIAgentRuntime "") && HasPrefix modelRef "openai/"
  then openAIAgentRuntime
  else "".
Definition with_agent_runtime (modelRef openAIAgentRuntime : string) (entry : document)
    : document :=
  let runtime := agentRuntimeForModelRef modelRef openAIAgentRuntime in
  if String.eqb runtime "" then entry
  else put "agentRuntime" (obj ["id" ~> Str runtime]) entry.
Definition agentModelCatalogEntry (modelRef openAIAgentRuntime : string) : document :=
  with_agent_runtime modelRef openAIAgentRuntime ∅.
Definition putAgentModelCatalogEntry (modelRef openAIAgentRuntime : string) (models : document)
    : document :=
  match sub_map modelRef models with
  | Some existing => <[modelRef := Obj (with_agent_runtime modelRef openAIAgentRuntime existing)]> models
  | None => <[modelRef := Obj (agentModelCatalogEntry modelRef openAIAgentRuntime)]> models
  end.

Definition buildNebiusModelsFromCatalog (catalog : list CatalogModel) : list value :=
  omap (λ m,
    match CatalogModel_GatewayModelID m with
    | None => None
    | Some gateway =>
        if negb (String.eqb (CatalogModel_Source m) "platform") then None
        else Some (obj ["id" ~> Str (TrimPrefix gateway "nebius/");
                        "name" ~> Str (CatalogModel_Label m);
                        "api" ~> Str "openai-completions";
                        "reasoning" ~> Bool (bool_decide (CatalogModel_Tier m = Some "smart"%string));
                        "input" ~> Strs ["text"%string];
                        "contextWindow" ~> Num 131072;
                        "maxTokens" ~> Num 8192])
    end) catalog.
(** What follows the first slash. *)
Definition bare_id (id : string) : string :=
  match split_first "/"%char id with Some (_, rest) => rest | None => id end.
Definition buildOpenRouterModelsFromCatalog (catalog : list CatalogModel) : list value :=
  omap (λ m,
    if negb (String.eqb (CatalogModel_Provider m) "openrouter") ||
       negb (String.eqb (CatalogModel_Source m) "byok") then None
    else Some (obj ["id" ~> Str (bare_id (CatalogModel_ID m));
                    "name" ~> Str (CatalogModel_Label m);
                    "api" ~> Str "openai-completions";
                    "input" ~> Strs ["text"%string];
                    "contextWindow" ~> Num 131072;
                    "maxTokens" ~> Num 8192])) catalog.

Definition codexAPIForVersion (resolvedOpenclawVersion : string) : string :=
  let '(atLeast, ok) := AtLeast resolvedOpenclawVersion 2026 6 in
  if ok && atLeast then "openai-chatgpt-responses" else "openai-codex-responses".
Definition buildCodexModelsFromCatalog (catalog : list CatalogModel)
    (resolvedOpenclawVersion : string) : list value :=
  omap (λ m,
    if negb (String.eqb (CatalogModel_Provider m) "openai-codex") ||
       negb (String.eqb (CatalogModel_Source m) "subscription") then None
    else Some (obj ["id" ~> Str (bare_id (CatalogModel_ID m));
                    "name" ~> Str (CatalogModel_Label m);
                    "api" ~> Str (codexAPIForVersion resolvedOpenclawVersion);
                    "reasoning" ~> Bool true;
                    "input" ~> Strs ["text"%string];
                    "contextWindow" ~> Num 1050000;
                    "maxTokens" ~> Num 128000])) catalog.
Definition buildCodexProviderConfig (catalog : list CatalogModel)
    (resolvedOpenclawVersion : string) : value :=
  obj ["baseUrl" ~> Str "https://chatgpt.com/backend-api";
       "api" ~> Str (codexAPIForVersion resolvedOpenclawVersion);
       "models" ~> Arr (buildCodexModelsFromCatalog catalog resolvedOpenclawVersion)].

(** ** Channels *)

Definition ChannelTokenFields : list (string * list (string * string)) :=
  [("telegram", [("botToken", "telegram")]); ("discord", [("token", "discord")]);
   ("slack", [("botToken", "slack"); ("appToken", "slack-app")])]%string.
(** The channel and the field of a credential's provider: each provider is in one
    place only. *)
Definition ProviderToChannel (provider : string) : option (string * string) :=
  head (flat_map (λ '(chID, mappings),
    omap (λ '(field, p), if String.eqb p provider then Some (chID, field) else None) mappings)
    ChannelTokenFields).

(** ** The platform's defaults *)

Definition gateway_defaults (denyCommands : list string → value) : document :=
  list_to_map ["mode" ~> Str "local";
    "auth" ~> obj ["mode" ~> Str "token"];
    "controlUi" ~> obj ["enabled" ~> Bool true; "allowInsecureAuth" ~> Bool true;
                        "dangerouslyDisableDeviceAuth" ~> Bool true];
    "reload" ~> obj ["mode" ~> Str "hot"];
    "nodes" ~> obj ["denyCommands" ~> denyCommands ["camera.snap"; "camera.clip";
      "screen.record"; "calendar.add"; "contacts.add"; "reminders.add"]%string];
    "http" ~> obj ["endpoints" ~> obj ["chatCompletions" ~> obj ["enabled" ~> Bool true]]]].
Definition commands_defaults : value :=
  obj ["native" ~> Str "auto"; "nativeSkills" ~> Str "auto"; "restart" ~> Bool true;
       "ownerDisplay" ~> Str "raw"].
Definition session_defaults : value :=
  obj ["dmScope" ~> Str "per-channel-peer"; "threadBindings" ~> obj ["enabled" ~> Bool true]].
Definition cron_defaults : value := obj ["enabled" ~> Bool true].
Definition env_defaults : value := obj ["shellEnv" ~> obj ["enabled" ~> Bool true]].
Definition platformDefaults : document :=
  list_to_map ["gateway" ~> Obj (gateway_defaults (λ l, Arr (map Str l)));
    "skills" ~> obj ["allowBundled" ~> Arr []];
    "commands" ~> commands_defaults; "session" ~> session_defaults; "cron" ~> cron_defaults;
    "env" ~> env_defaults].

(** ** Protected keys *)

Definition ProtectedConfigKeys : list string :=
  ["gateway"; "skills"; "ui"; "server"; "reload"; "agents"; "commands"; "session"; "plugins"]%string.
Definition protectedPrefixes : list string :=
  ["gateway."; "skills."; "ui."; "server."; "reload."; "agents."; "commands."; "session.";
   "plugins."]%string.
Definition protected_key (k : string) : bool := existsb (String.eqb k) ProtectedConfigKeys.
Definition blocked_path (fullPath : string) : bool :=
  existsb (HasPrefix fullPath) protectedPrefixes.

Arguments protected_key : simpl never.
Arguments blocked_path : simpl never.

(** What is left of the value at [fullPath]: a map that becomes empty goes. *)
Fixpoint strip_value (fullPath : string) (v : value) : option value :=
  match v with
  | Obj nested =>
      let stripped := map_imap (λ k v,
        let fullPath := (fullPath +:+ "." +:+ k)%string in
        if protected_key k || blocked_path fullPath then None else strip_value fullPath v) nested in
      if bool_decide (stripped = ∅) then None else Some (Obj stripped)
  | _ => Some v
  end.
Definition stripProtectedPaths (m : document) (pathPrefix : string) : document :=
  map_imap (λ k v,
    let fullPath := (pathPrefix +:+ k)%string in
    if protected_key k || blocked_path fullPath then None else strip_value fullPath v) m.
Definition StripProtectedKeys (overrides : document) : document :=
  map_imap (λ k v,
    if protected_key k then None
    else
      match v with
      | Obj m =>
          let stripped := stripProtectedPaths m (k +:+ ".") in
          if bool_decide (stripped = ∅) then None else Some (Obj stripped)
      | _ => Some v
      end) overrides.

(** The order of the violations is that of the maps. *)
Fixpoint violations_below (prefix : string) (v : value) : list string :=
  match v with
  | Obj m =>
      map_fold (λ k v violations,
        (let fullPath := if String.eqb prefix "" then k else (prefix +:+ "." +:+ k)%string in
         if protected_key k || blocked_path fullPath then [fullPath]
         else violations_below fullPath v) ++ violations) [] m
  | _ => []
  end.
Definition FindProtectedKeyViolations (m : document) (prefix : string) : list string :=
  violations_below prefix (Obj m).

(** ** Parameters *)

Record AgentDefinition : Type := mkAgentDefinition {
  AgentDefinition_AgentID : string;
  AgentDefinition_Name : string;
  AgentDefinition_Model : string;
  AgentDefinition_IdentityEmoji : string;
  AgentDefinition_IdentityAvatar : string;
  AgentDefinition_IsDefault : bool;
  AgentDefinition_SortOrder : Z
}.
Record PluginSelection : Type := mkPluginSelection {
  PluginSelection_PluginID : string;
  PluginSelection_Slot : string;
  PluginSelection_ConfigTemplate : option document;
  PluginSelection_ConfigOverrides : option document
}.
Record WorkspaceIntegrationConfig : Type := mkWorkspaceIntegrationConfig {
  Integration_ID : string;
  Integration_Slug : string;
  Integration_DisplayName : string;
  Integration_Kind : string;
  Integration_Transport : string;
  Integration_ToolCount : Z
}.
Record CapabilityWithTemplate : Type := mkCapability {
  Capability_EntryID : string;
  Capability_EntryType : string;
  Capability_ConfigTemplate : option document;
  Capability_ConfigOverrides : option document;
  Capability_Mode : option string
}.
Record Identity : Type := mkIdentity {
  Identity_Name : option string;
  Identity_Avatar : option string
}.
Abbreviation signer := (option (string → res string)).

Record AssemblyParams : Type := mkAssemblyParams {
  ap_MachineID : string;
  ap_Capabilities : list CapabilityWithTemplate;
  ap_Identity : option Identity;
  ap_Credentials : gset string;               (* the values are all "present" *)
  ap_ChannelCredentialValues : gmap string string;
  ap_ProxyBaseURL : string;
  ap_NativeMode : bool;
  ap_DefaultModel : string;
  ap_ModelFallbacks : list string;
  ap_VMHostname : string;
  ap_AccountHostname : string;
  ap_BrowserVMIP : string;
  ap_BridgeIP : string;
  ap_Agents : list AgentDefinition;
  ap_Plugins : list PluginSelection;
  ap_ModelCatalog : list CatalogModel;
  ap_ProviderCatalog : list CatalogProvider;
  ap_SearchProvider : string;
  ap_OpenAIAgentRuntime : string;
  ap_OpikAPIURL : string;
  ap_OpikAPIKey : string;
  ap_ComposioAPIURL : string;
  ap_ComposioProxyTokenSigner : signer;
  ap_WorkspaceIntegrationAPIURL : string;
  ap_WorkspaceIntegrationTokenSigner : signer;
  ap_WorkspaceIntegrations : list WorkspaceIntegrationConfig;
  ap_RuntimeSource : string;
  ap_ResolvedOpenclawVersion : string
}.

(** ** Looking up providers *)

(** The entry with the ID, else the first whose runtime ID it is. *)
Definition find_provider (catalog : list CatalogProvider) (provider : string)
    : option CatalogProvider :=
  match find (λ p, String.eqb (CatalogProvider_ID p) provider) catalog with
  | Some p => Some p
  | None => find (λ p, String.eqb (CatalogProvider_RuntimeProviderID p) provider) catalog
  end.
Definition non_empty (v default : string) : string := if String.eqb v "" then default else v.

Definition llm_providers : list string :=
  ["anthropic"; "openai"; "google"; "openrouter"; "nebius"]%string.
(** providerExecIDs and llmProviderEnvVars. *)
Definition providerExecIDs (provider : string) : option string :=
  if existsb (String.eqb provider) llm_providers then Some (provider +:+ "-key")%string else None.
Definition llmProviderEnvVars (provider : string) : option string :=
  snd <$> find (λ '(p, _), String.eqb p provider)
    [("anthropic", "ANTHROPIC_API_KEY"); ("openai", "OPENAI_API_KEY");
     ("google", "GOOGLE_API_KEY"); ("openrouter", "OPENROUTER_API_KEY");
     ("nebius", "NEBIUS_API_KEY")]%string.

Definition execSecretID (catalog : list CatalogProvider) (provider : string) : string :=
  match find_provider catalog provider with
  | Some p => non_empty (CatalogProvider_ExecSecretID p) (CatalogProvider_ID p +:+ "-key")
  | None => default (provider +:+ "-key")%string (providerExecIDs provider)
  end.
Definition envVarName (catalog : list CatalogProvider) (provider : string) : string :=
  match find_provider catalog provider with
  | Some p => CatalogProvider_EnvVar p
  | None => default EmptyString (llmProviderEnvVars provider)
  end.
Definition isProxiedProvider (catalog : list CatalogProvider) (provider : string) : bool :=
  existsb (λ p, String.eqb (CatalogProvider_ID p) provider &&
    (String.eqb (CatalogProvider_Category p) "ai" ||
     String.eqb (CatalogProvider_Category p) "search")) catalog ||
  existsb (String.eqb provider) llm_providers.
Definition isSearchProvider (catalog : list CatalogProvider) (provider : string) : bool :=
  existsb (λ p, String.eqb (CatalogProvider_ID p) provider &&
    String.eqb (CatalogProvider_Category p) "search") catalog.
Definition findCatalogProvider (catalog : list CatalogProvider) (id : string)
    : option CatalogProvider :=
  find (λ p, String.eqb (CatalogProvider_ID p) id) catalog.
Definition runtimeProviderID (catalog : list CatalogProvider) (id : string) : string :=
  match findCatalogProvider catalog id with
  | Some p => non_empty (CatalogProvider_RuntimeProviderID p) (CatalogProvider_ID p)
  | None => id
  end.
Definition pluginIDForProvider (catalog : list CatalogProvider) (provider : string) : string :=
  match find_provider catalog provider with
  | Some p => non_empty (CatalogProvider_PluginID p) (CatalogProvider_ID p)
  | None => provider
  end.

(** The search provider with a credential that comes first; [has_credential] is
    the set of credentials, or the list of providers of a seed. *)
Definition best_candidate (candidates : list (string * Z)) : option (string * Z) :=
  match candidates with
  | [] => None
  | c :: rest => Some (foldl (λ best c, if bool_decide (c.2 < best.2) then c else best) c rest)
  end.
Definition search_candidates (catalog : list CatalogProvider) (has_credential : string → bool)
    : list (string * Z) :=
  omap (λ p,
    if negb (String.eqb (CatalogProvider_Category p) "search") then None
    else
      match CatalogProvider_AutodetectOrder p with
      | Some order => if has_credential (CatalogProvider_ID p)
                      then Some (CatalogProvider_ID p, order) else None
      | None => None
      end) catalog.
Definition search_override (catalog : list CatalogProvider) (has_credential : string → bool)
    (SearchProvider : string) : bool :=
  negb (String.eqb SearchProvider "") &&
  match findCatalogProvider catalog SearchProvider with
  | Some cp => String.eqb (CatalogProvider_Category cp) "search"
  | None => true
  end && has_credential SearchProvider.
Definition resolve_search (catalog : list CatalogProvider) (has_credential : string → bool)
    (SearchProvider : string) : string :=
  if search_override catalog has_credential SearchProvider then
    runtimeProviderID catalog SearchProvider
  else
    match best_candidate (search_candidates catalog has_credential) with
    | None => EmptyString
    | Some (id, _) => runtimeProviderID catalog id
    end.
Definition resolveSearchProvider (params : AssemblyParams) : string :=
  resolve_search (ap_ProviderCatalog params)
    (λ p, bool_decide (p ∈ ap_Credentials params)) (ap_SearchProvider params).

Definition exec_secret (secretID : string) : value :=
  obj ["source" ~> Str "exec"; "provider" ~> Str "ocm"; "id" ~> Str secretID].
Definition buildProviderConfig (provider proxyBaseURL : string) (nativeMode : bool)
    (catalog : list CatalogProvider) : document :=
  let baseURL := (proxyBaseURL +:+ "/" +:+ provider)%string in
  list_to_map
    (if nativeMode then
       ["baseUrl" ~> Str (if negb (String.eqb provider "google") then baseURL +:+ "/v1" else baseURL);
        "apiKey" ~> exec_secret (execSecretID catalog provider); "models" ~> Arr []]
     else
       ["baseUrl" ~> Str baseURL; "apiKey" ~> Str (envVarName catalog provider);
        "models" ~> Arr []]).

(** ** Assembly *)

(** 2 and 3: the capabilities' templates and what is left of their overrides. *)
Definition merge_opt (overlay : option document) (result : document) : document :=
  match overlay with Some o => deepMerge result o | None => result end.
Definition merge_capability (result : document) (cap : CapabilityWithTemplate) : document :=
  let result := merge_opt (Capability_ConfigTemplate cap) result in
  match Capability_ConfigOverrides cap with
  | Some o =>
      let sanitized := StripProtectedKeys o in
      if bool_decide (sanitized = ∅) then result else deepMerge result sanitized
  | None => result
  end.

(** 3b: the browser's control endpoint. *)
Definition is_true (v : option value) : bool :=
  match v with Some (Bool b) => b | _ => false end.
Definition allowed_hosts (host : string) (existing : option value) : value :=
  Arr (Str host ::
    match existing with
    | Some (Arr l) => omap (λ h, match h with
        | Str s => if String.eqb s host then None else Some (Str s)
        | _ => None end) l
    | _ => []
    end).
Definition inject_browser (params : AssemblyParams) (result : document) : document :=
  let browserCDPHost := non_empty (ap_BridgeIP params) (ap_BrowserVMIP params) in
  if String.eqb browserCDPHost "" then result
  else
    with_map "browser" (λ browser,
      let paired := negb (String.eqb (ap_BrowserVMIP params) "") in
      let enabled := is_true (browser !! "enabled"%string) in
      let browser := if negb enabled && paired then put "enabled" (Bool true) browser else browser in
      if enabled || paired then
        with_map "ssrfPolicy" (λ policy,
            put "allowedHostnames"
              (allowed_hosts browserCDPHost (policy !! "allowedHostnames"%string)) policy)
          (put "headless" (Bool false) (put "noSandbox" (Bool true) (put "attachOnly" (Bool true)
            (put "cdpUrl" (Str ("http://" +:+ browserCDPHost +:+ ":9222")) browser))))
      else browser) result.

(** 4: the assistant's identity. *)
Definition put_opt (key : string) (v : option string) (m : document) : document :=
  match v with Some s => <[key := Str s]> m | None => m end.
Arguments put_opt key%_string v m.
Definition inject_identity (params : AssemblyParams) (result : document) : document :=
  match ap_Identity params with
  | None => result
  | Some id =>
      with_map "ui" (with_map "assistant" (λ assistant,
        put_opt "avatar" (Identity_Avatar id) (put_opt "name" (Identity_Name id) assistant))) result
  end.

(** 5: the providers behind the proxy. *)
Definition provider_api (catalog : list CatalogModel) (provider : string) (provCfg : document)
    : document :=
  if String.eqb provider "anthropic" then put "api" (Str "anthropic-messages") provCfg
  else if String.eqb provider "openai" || String.eqb provider "google" then
    put "api" (Str "openai-completions") provCfg
  else if String.eqb provider "openrouter" then
    put "models" (Arr (buildOpenRouterModelsFromCatalog catalog))
      (put "api" (Str "openai-completions") provCfg)
  else provCfg.
Definition nebius_config (proxyBaseURL : string) (nativeMode : bool)
    (providers : list CatalogProvider) (models : list CatalogModel) : value :=
  Obj (put "models" (Arr (buildNebiusModelsFromCatalog models))
    (put "api" (Str "openai-completions")
      (buildProviderConfig "nebius" proxyBaseURL nativeMode providers))).
Definition codex_profile : value :=
  obj ["provider" ~> Str "openai-codex"; "mode" ~> Str "oauth"].
Definition proxied_llm (catalog : list CatalogProvider) (provider : string) : bool :=
  isProxiedProvider catalog provider && negb (isSearchProvider catalog provider).
Definition provider_configs (params : AssemblyParams) : document :=
  let catalog := ap_ProviderCatalog params in
  let configs := set_fold (λ provider configs,
    if proxied_llm catalog provider && negb (String.eqb provider "nebius") then
      let rtID := runtimeProviderID catalog provider in
      <[rtID := Obj (provider_api (ap_ModelCatalog params) provider
          (buildProviderConfig rtID (ap_ProxyBaseURL params) (ap_NativeMode params) catalog))]>
        configs
    else configs) (∅ : document) (ap_Credentials params) in
  let configs :=
    match configs !! "nebius"%string with
    | Some _ => configs
    | None => put "nebius" (nebius_config (ap_ProxyBaseURL params) (ap_NativeMode params) catalog
                              (ap_ModelCatalog params)) configs
    end in
  if bool_decide ("openai-codex"%string ∈ ap_Credentials params) then
    match configs !! "openai-codex"%string with
    | Some _ => configs
    | None => put "openai-codex" (buildCodexProviderConfig (ap_ModelCatalog params)
                                    (ap_ResolvedOpenclawVersion params)) configs
    end
  else configs.

(** 5a: the plugins of the search providers with a credential, in catalog order;
    [has_provider] says which have one. *)
Definition search_plugin_entry (secretID : string) : value :=
  obj ["enabled" ~> Bool true;
       "config" ~> obj ["webSearch" ~> obj ["apiKey" ~> exec_secret secretID]]].
Definition search_providers (catalog : list CatalogProvider) (has_provider : CatalogProvider → bool)
    : list CatalogProvider :=
  filter (λ cp, String.eqb (CatalogProvider_Category cp) "search" && has_provider cp = true) catalog.
Definition inject_search_plugins (catalog : list CatalogProvider)
    (has_provider : CatalogProvider → bool) (result : document) : document :=
  foldl (λ result cp,
    with_map "plugins" (with_map "entries"
      <[pluginIDForProvider catalog (CatalogProvider_ID cp) :=
          search_plugin_entry (execSecretID catalog (CatalogProvider_ID cp))]>) result)
    result (search_providers catalog has_provider).
Definition search_plugin_allows (catalog : list CatalogProvider)
    (has_provider : CatalogProvider → bool) : list string :=
  (λ cp, pluginIDForProvider catalog (CatalogProvider_ID cp)) <$>
    search_providers catalog has_provider.
Definition inject_search (searchProvider : string) (result : document) : document :=
  if String.eqb searchProvider "" then result
  else with_map "tools" (with_map "web"
         (put "search" (obj ["enabled" ~> Bool true; "provider" ~> Str searchProvider]))) result.

Definition has_credential (params : AssemblyParams) (cp : CatalogProvider) : bool :=
  bool_decide (CatalogProvider_ID cp ∈ ap_Credentials params).
Definition inject_providers (params : AssemblyParams) (result : document) : document :=
  if String.eqb (ap_ProxyBaseURL params) "" then result
  else
    let result :=
      if bool_decide ("openai-codex"%string ∈ ap_Credentials params) then
        with_map "auth" (with_map "profiles" (put "openai-codex:default" codex_profile)) result
      else result in
    let result := inject_search_plugins (ap_ProviderCatalog params) (has_credential params) result in
    let result := inject_search (resolveSearchProvider params) result in
    with_map "models" (put "providers" (Obj (provider_configs params))) result.
Definition searchPluginAllows (params : AssemblyParams) : list string :=
  if String.eqb (ap_ProxyBaseURL params) "" then []
  else search_plugin_allows (ap_ProviderCatalog params) (has_credential params).

(** 5b. *)
Definition inject_origins (result : document) : document :=
  in_map "gateway" (in_map "controlUi" (put "allowedOrigins" (Strs ["*"%string]))) result.

(** 5c: the default model, its fallbacks and the models that can be chosen.  The
    fallbacks are mapped to gateway models; empty and repeated ones are dropped. *)
Fixpoint mapped_fallbacks (catalog : list CatalogModel) (seen fallbacks : list string)
    : list string :=
  match fallbacks with
  | [] => []
  | fallback :: rest =>
      let mapped := mapModelFromCatalog catalog fallback in
      if String.eqb mapped "" || existsb (String.eqb mapped) seen
      then mapped_fallbacks catalog seen rest
      else mapped :: mapped_fallbacks catalog (mapped :: seen) rest
  end.
Definition model_defaults (primary : string) (fallbacks : list string) : value :=
  obj (("primary" ~> Str primary) ::
       match fallbacks with [] => [] | _ => ["fallbacks" ~> Strs fallbacks] end).
Definition models_catalog (catalog : list CatalogModel) (providers : gset string)
    (runtime primary : string) (fallbacks : list string) : document :=
  let chosen := foldl (λ models m, putAgentModelCatalogEntry m runtime models) ∅
                  (primary :: fallbacks) in
  set_fold (λ catalogID models,
      putAgentModelCatalogEntry (mapModelFromCatalog catalog catalogID) runtime models)
    chosen (AvailableCatalogIDs catalog providers).
Definition workspace_dir : string := "/home/openclaw/.openclaw/workspace".
Definition heartbeat_defaults : value := obj ["every" ~> Str "15m"].
Definition inject_agents_defaults (params : AssemblyParams) (runtime : string) (result : document)
    : document :=
  if String.eqb (ap_DefaultModel params) "" then result
  else
    let catalog := ap_ModelCatalog params in
    let primary := mapModelFromCatalog catalog (ap_DefaultModel params) in
    let fallbacks := mapped_fallbacks catalog [primary] (ap_ModelFallbacks params) in
    with_map "agents" (with_map "defaults" (λ defaults,
      put "heartbeat" heartbeat_defaults (put "workspace" (Str workspace_dir)
        (put "models" (Obj (models_catalog catalog (ap_Credentials params) runtime primary fallbacks))
          (put "model" (model_defaults primary fallbacks) defaults))))) result.

(** 5d: the personas. *)
Definition str_field (key v : string) : list (string * value) :=
  if String.eqb v "" then [] else [(key, Str v)].
Definition agent_model (catalog : list CatalogModel) (defaultModel : string) (a : AgentDefinition)
    : string :=
  if String.eqb (AgentDefinition_Model a) "" then defaultModel
  else mapModelFromCatalog catalog (AgentDefinition_Model a).
Definition agent_entry (catalog : list CatalogModel) (defaultModel : string) (a : AgentDefinition)
    : value :=
  let identity := str_field "emoji" (AgentDefinition_IdentityEmoji a) ++
                  str_field "avatar" (AgentDefinition_IdentityAvatar a) in
  obj (["id" ~> Str (AgentDefinition_AgentID a); "name" ~> Str (AgentDefinition_Name a)] ++
    (if AgentDefinition_IsDefault a
     then ["default" ~> Bool true; "workspace" ~> Str workspace_dir]
     else ["workspace" ~> Str (workspace_dir +:+ "-" +:+ AgentDefinition_AgentID a)]) ++
    ["model" ~> obj ["primary" ~> Str (agent_model catalog defaultModel a)]] ++
    match identity with [] => [] | _ => ["identity" ~> obj identity] end).
Definition agent_models (catalog : list CatalogModel) (runtime : string)
    (agents : list AgentDefinition) (models : document) : document :=
  foldl (λ models a,
    if String.eqb (AgentDefinition_Model a) "" then models
    else putAgentModelCatalogEntry (mapModelFromCatalog catalog (AgentDefinition_Model a)) runtime
           models) models agents.
Definition inject_agents (params : AssemblyParams) (runtime : string) (result : document)
    : document :=
  match ap_Agents params with
  | [] => result
  | agents =>
      if String.eqb (ap_DefaultModel params) "" then result
      else
        let catalog := ap_ModelCatalog params in
        let defaultModel := mapModelFromCatalog catalog (ap_DefaultModel params) in
        with_map "agents" (λ ags,
          with_map "defaults" (λ defaults,
              put "models" (Obj (agent_models catalog runtime agents
                                   (getOrCreateMap defaults "models"))) defaults)
            (put "list" (Arr (agent_entry catalog defaultModel <$> agents)) ags)) result
  end.

(** The plugins: templates, overrides, and the list of all that they allow. *)
Definition merge_plugin (result : document) (p : PluginSelection) : document :=
  merge_opt (PluginSelection_ConfigOverrides p)
    (merge_opt (PluginSelection_ConfigTemplate p) result).
Definition template_allows (p : PluginSelection) : list string :=
  match PluginSelection_ConfigTemplate p with
  | None => []
  | Some template =>
      match sub_map "plugins" template with
      | None => []
      | Some tmpl =>
          match tmpl !! "allow"%string with
          | Some (Arr allow) => omap as_string allow
          | _ => []
          end
      end
  end.
Fixpoint dedup (seen l : list string) : list string :=
  match l with
  | [] => []
  | a :: rest => if existsb (String.eqb a) seen then dedup seen rest else a :: dedup (a :: seen) rest
  end.
Definition restore_allow (allPluginAllows : list string) (result : document) : document :=
  match allPluginAllows with
  | [] => result
  | _ => in_map "plugins" (put "allow" (Arr (Str <$> dedup [] allPluginAllows))) result
  end.
Definition merge_plugins (plugins : list PluginSelection) (searchPluginAllows : list string)
    (result : document) : document :=
  restore_allow (flat_map template_allows plugins ++ searchPluginAllows)
    (foldl merge_plugin result plugins).

(** 5d-opik and 5e-composio. *)
Definition put_default (key : string) (v : value) (m : document) : document :=
  match m !! key with Some _ => m | None => <[key := v]> m end.
Arguments put_default key%_string v m.
Definition inject_opik (OpikAPIURL OpikAPIKey : string) (result : document) : document :=
  if String.eqb OpikAPIURL "" then result
  else
    in_map "plugins" (in_map "entries" (in_map "opik-openclaw" (λ opikEntry,
      with_map "hooks" (put "allowConversationAccess" (Bool true))
        (with_map "config" (λ config,
          let config := put "apiUrl" (Str OpikAPIURL) (put_default "enabled" (Bool true) config) in
          if String.eqb OpikAPIKey "" then config else put "apiKey" (Str OpikAPIKey) config)
        opikEntry)))) result.
Definition composio_entry (result : document) : option document :=
  sub_path ["plugins"; "entries"; "composio"] result.
(** The token is asked for only when the plugin has an entry; [what] is the text of
    the error. *)
Definition inject_composio (what ComposioAPIURL MachineID : string) (sign : signer)
    (result : document) : res document :=
  if String.eqb ComposioAPIURL "" then Ok result
  else
    match composio_entry result with
    | None => Ok result
    | Some _ =>
        let configured (token : document → document) :=
          in_map "plugins" (in_map "entries" (in_map "composio" (with_map "config" (λ config,
            token (put "userId" (Str MachineID) (put "apiUrl" (Str ComposioAPIURL)
              (put_default "enabled" (Bool true) (unset "mcpUrl" (unset "consumerKey" config)))))))))
            result in
        match sign with
        | None => Ok (configured id)
        | Some sign =>
            match sign MachineID with
            | Err e => Err (ErrWrap what e)
            | Ok token => Ok (configured (put "machineToken" (Str token)))
            end
        end
    end.

(** The native MCP server of the workspace integrations. *)
Fixpoint trim_slashes (s : string) : string :=
  match s with
  | EmptyString => EmptyString
  | String c s' =>
      match trim_slashes s' with
      | EmptyString => if Ascii.eqb c "/" then EmptyString else String c EmptyString
      | s'' => String c s''
      end
  end.
(** [strings.CutSuffix]. *)
Definition cut_suffix (s suffix : string) : option string :=
  let n := (String.length s - String.length suffix)%nat in
  if String.eqb (String.substring n (String.length suffix) s) suffix &&
     Nat.leb (String.length suffix) (String.length s)
  then Some (String.substring 0 n s) else None.
Definition workspaceIntegrationMCPURL (workspaceIntegrationAPIURL : string) : string :=
  let baseURL := trim_slashes workspaceIntegrationAPIURL in
  match cut_suffix baseURL "/api/ocm-integrations" with
  | Some base => (base +:+ "/api/workspace-integrations/mcp")%string
  | None => (baseURL +:+ "/mcp")%string
  end.
Definition injectWorkspaceIntegrationMCPConfig (workspaceIntegrationAPIURL machineToken : string)
    (result : document) : document :=
  with_map "mcp" (with_map "servers" (put "ocm"
    (obj ["transport" ~> Str "streamable-http";
          "url" ~> Str (workspaceIntegrationMCPURL workspaceIntegrationAPIURL);
          "headers" ~> obj ["Authorization" ~> Str ("Bearer " +:+ machineToken)]]))) result.

Definition workspaceIntegrationRESTPluginSlug : string := "ocm-integrations".
Definition workspaceIntegrationRESTPluginConfigKeys : list string :=
  ["apiUrl"; "manifestUrl"; "toolsUrl"; "machineToken"; "workspaceIntegrations"]%string.
Definition disableWorkspaceIntegrationRESTPluginRuntime (result : document) : document :=
  in_map "plugins" (λ plugins,
    let plugins :=
      match plugins !! "allow"%string with
      | Some (Arr allow) =>
          put "allow" (Arr (omap (λ item,
            match item with
            | Str value => if String.eqb value workspaceIntegrationRESTPluginSlug then None
                           else Some item
            | _ => Some item
            end) allow)) plugins
      | _ => plugins
      end in
    in_map "entries" (in_map workspaceIntegrationRESTPluginSlug (λ entry,
      with_map "config" (λ config,
        foldr delete (put "enabled" (Bool false) config) workspaceIntegrationRESTPluginConfigKeys)
        (put "enabled" (Bool false) entry))) plugins) result.
Definition injectWorkspaceIntegrationNativeMCPConfig (machineID apiURL : string) (sign : signer)
    (result : document) : document :=
  if String.eqb apiURL "" then result
  else
    match sign with
    | None => result
    | Some sign =>
        match sign machineID with
        | Err _ => result
        | Ok token =>
            disableWorkspaceIntegrationRESTPluginRuntime
              (injectWorkspaceIntegrationMCPConfig (trim_slashes apiURL) token result)
        end
    end.

(** 5e: the tokens of the channels that are configured. *)
Definition inject_channel_tokens (params : AssemblyParams) (result : document) : document :=
  if bool_decide (ap_ChannelCredentialValues params = ∅) then result
  else
    in_map "channels" (λ channels,
      map_fold (λ provider token channels,
        match ProviderToChannel provider with
        | None => channels
        | Some (channelID, fieldName) => in_map channelID <[fieldName := Str token]> channels
        end) channels (ap_ChannelCredentialValues params)) result.

(** 6: the bundled skills. *)
Definition skill_ids (caps : list CapabilityWithTemplate) : list value :=
  omap (λ cap, if String.eqb (Capability_EntryType cap) "skill"
               then Some (Str (Capability_EntryID cap)) else None) caps.
Definition inject_skills (params : AssemblyParams) (result : document) : document :=
  with_map "skills" (λ skills,
    match skill_ids (ap_Capabilities params) with
    | [] => skills
    | ids => put "allowBundled" (Arr ids) skills
    end) result.

Definition AssembleConfig (params : AssemblyParams) : res document :=
  match NormalizeOpenAIAgentRuntime (ap_OpenAIAgentRuntime params) with
  | Err e => Err e
  | Ok openAIAgentRuntime =>
      let result := deepCopy platformDefaults in
      let result := foldl merge_capability result (ap_Capabilities params) in
      let result := inject_browser params result in
      let result := inject_identity params result in
      let result := inject_providers params result in
      let result := inject_origins result in
      let result := inject_agents_defaults params openAIAgentRuntime result in
      let result := inject_agents params openAIAgentRuntime result in
      let result := merge_plugins (ap_Plugins params) (searchPluginAllows params) result in
      let result := inject_opik (ap_OpikAPIURL params) (ap_OpikAPIKey params) result in
      match inject_composio "composio proxy token" (ap_ComposioAPIURL params) (ap_MachineID params)
              (ap_ComposioProxyTokenSigner params) result with
      | Err e => Err e
      | Ok result =>
          let result := injectWorkspaceIntegrationNativeMCPConfig (ap_MachineID params)
            (ap_WorkspaceIntegrationAPIURL params) (ap_WorkspaceIntegrationTokenSigner params)
            result in
          Ok (inject_skills params (inject_channel_tokens params result))
      end
  end.

(** ** The seed of a first boot *)

Record SeedParams : Type := mkSeedParams {
  sp_MachineID : string;
  sp_DefaultModel : string;
  sp_ModelFallbacks : list string;
  sp_Providers : list string;
  sp_ProxyBaseURL : string;
  sp_ModelCatalog : list CatalogModel;
  sp_ProviderCatalog : list CatalogProvider;
  sp_SearchProvider : string;
  sp_OpenAIAgentRuntime : string;
  sp_ChannelConfigs : gmap string document;
  sp_Plugins : list PluginSelection;
  sp_OpikAPIURL : string;
  sp_OpikAPIKey : string;
  sp_ComposioAPIURL : string;
  sp_ComposioProxyTokenSigner : signer;
  sp_WorkspaceIntegrationAPIURL : string;
  sp_WorkspaceIntegrationTokenSigner : signer;
  sp_WorkspaceIntegrations : list WorkspaceIntegrationConfig;
  sp_RuntimeSource : string;
  sp_ResolvedOpenclawVersion : string
}.

Definition resolveSearchProviderSeed (params : SeedParams) : string :=
  resolve_search (sp_ProviderCatalog params)
    (λ p, existsb (String.eqb p) (sp_Providers params)) (sp_SearchProvider params).

Definition seed_secrets : value :=
  obj ["providers" ~> obj ["ocm" ~> obj ["source" ~> Str "exec";
    "command" ~> Str "/usr/local/bin/ocm-secrets"; "allowInsecurePath" ~> Bool true]]].
Definition seed_gateway : value :=
  Obj (in_map "controlUi" (put "allowedOrigins" (Strs ["*"%string])) (gateway_defaults Strs)).
(** The providers of the machine and nebius. *)
Definition seed_provider_set (params : SeedParams) : gset string :=
  {["nebius"%string]} ∪ list_to_set (sp_Providers params).
Definition seed_provider_config (params : SeedParams) (provider : string) : value :=
  if String.eqb provider "nebius" then
    nebius_config (sp_ProxyBaseURL params) true (sp_ProviderCatalog params) (sp_ModelCatalog params)
  else Obj (provider_api (sp_ModelCatalog params) provider
              (buildProviderConfig provider (sp_ProxyBaseURL params) true
                 (sp_ProviderCatalog params))).
Definition seed_providers (params : SeedParams) : document :=
  let configs := set_fold (λ provider configs,
    if proxied_llm (sp_ProviderCatalog params) provider
    then <[provider := seed_provider_config params provider]> configs
    else configs) (∅ : document) (seed_provider_set params) in
  if bool_decide ("openai-codex"%string ∈ seed_provider_set params) then
    put "openai-codex" (buildCodexProviderConfig (sp_ModelCatalog params)
                          (sp_ResolvedOpenclawVersion params)) configs
  else configs.

Definition seed_agents (params : SeedParams) (runtime : string) : value :=
  let catalog := sp_ModelCatalog params in
  let primary := mapModelFromCatalog catalog (sp_DefaultModel params) in
  let fallbacks := mapped_fallbacks catalog [primary] (sp_ModelFallbacks params) in
  obj ["defaults" ~> obj ["model" ~> model_defaults primary fallbacks;
    "models" ~> Obj (models_catalog catalog (seed_provider_set params) runtime primary fallbacks);
    "workspace" ~> Str workspace_dir; "heartbeat" ~> heartbeat_defaults]].

Definition seed_document (params : SeedParams) (runtime : string) : document :=
  list_to_map ["secrets" ~> seed_secrets; "gateway" ~> seed_gateway;
    "models" ~> obj ["providers" ~> Obj (seed_providers params)];
    "agents" ~> seed_agents params runtime;
    "commands" ~> commands_defaults; "session" ~> session_defaults; "cron" ~> cron_defaults;
    "env" ~> env_defaults; "plugins" ~> obj ["entries" ~> obj []]].

(** A search provider counts under its catalog ID and under its runtime ID. *)
Definition seed_has_provider (params : SeedParams) (cp : CatalogProvider) : bool :=
  existsb (λ p, String.eqb p (CatalogProvider_ID cp) ||
    negb (String.eqb (CatalogProvider_RuntimeProviderID cp) "") &&
    String.eqb p (CatalogProvider_RuntimeProviderID cp)) (sp_Providers params).
Definition seed_channels (params : SeedParams) (result : document) : document :=
  if bool_decide (sp_ChannelConfigs params = ∅) then result
  else put "channels" (Obj (Obj <$> sp_ChannelConfigs params)) result.
Definition seed_auth (params : SeedParams) (result : document) : document :=
  if existsb (String.eqb "openai-codex") (sp_Providers params) then
    put "auth" (obj ["profiles" ~> obj ["openai-codex:default" ~> codex_profile]]) result
  else result.

Definition AssembleSeedConfig (params : SeedParams) : res document :=
  match NormalizeOpenAIAgentRuntime (sp_OpenAIAgentRuntime params) with
  | Err e => Err e
  | Ok openAIAgentRuntime =>
      let result := seed_document params openAIAgentRuntime in
      let result := inject_search_plugins (sp_ProviderCatalog params) (seed_has_provider params)
                      result in
      let result := inject_search (resolveSearchProviderSeed params) result in
      let result := seed_channels params result in
      let result := merge_plugins (sp_Plugins params)
        (search_plugin_allows (sp_ProviderCatalog params) (seed_has_provider params)) result in
      let result := inject_opik (sp_OpikAPIURL params) (sp_OpikAPIKey params) result in
      match inject_composio "composio proxy token (seed)" (sp_ComposioAPIURL params)
              (sp_MachineID params) (sp_ComposioProxyTokenSigner params) result with
      | Err e => Err e
      | Ok result =>
          let result := injectWorkspaceIntegrationNativeMCPConfig (sp_MachineID params)
            (sp_WorkspaceIntegrationAPIURL params) (sp_WorkspaceIntegrationTokenSigner params)
            result in
          Ok (seed_auth params result)
      end
  end.
