(* ===== verification/ConfigLemmas.v ===== *)
(** * Lemmas on the assembled configuration

    Documents that agree on the protected keys, and the steps of the assembly
    that respect this. *)

From S2P Require Import Prelude GoStrings ConfigValues ConfigAssembly.

(** ** Copies *)

(** A document without typed slices is its own copy. *)
Definition copied (d : document) : Prop := deepCopy d = d.
Lemma copied_lookup d k : copied d → deepCopyValue <$> d !! k = d !! k.
Proof. intros Hd. unfold copied in Hd. rewrite <-Hd at 2. unfold deepCopy. by rewrite lookup_fmap. Qed.
Lemma copied_deepCopy d : copied (deepCopy d).
Proof.
  unfold copied, deepCopy. rewrite <-map_fmap_compose. apply map_fmap_ext. intros k v _.
  apply deepCopyValue_idem.
Qed.
Lemma copied_entry ov bv :
  deepCopyValue <$> bv = bv → deepCopyValue (merge_entry ov bv) = merge_entry ov bv.
Proof.
  revert bv. induction ov as [| | | | |l IH|o IH] using value_nested_ind; intros bv Hb;
    try apply deepCopyValue_idem.
  destruct bv as [[| | | | | |b]|]; try apply deepCopyValue_idem.
  rewrite merge_entry_Obj. cbn [deepCopyValue]. f_equal. apply map_eq. intros k.
  rewrite lookup_fmap, lookup_deepMerge. injection Hb as Hb.
  assert (deepCopyValue <$> b !! k = b !! k) as Hk.
  { rewrite <-Hb at 2. by rewrite lookup_fmap. }
  destruct (o !! k) as [ov|] eqn:E; cbn; rewrite Hk; [|done].
  f_equal. by apply (IH k ov E).
Qed.
Lemma copied_deepMerge b o : copied (deepMerge b o).
Proof.
  apply map_eq. intros k. unfold deepCopy. rewrite lookup_fmap, lookup_deepMerge.
  assert (deepCopyValue <$> (deepCopyValue <$> b !! k) = deepCopyValue <$> b !! k) as Hk
    by (destruct (b !! k); cbn; [by rewrite deepCopyValue_idem|done]).
  destruct (o !! k) as [ov|]; cbn; [|exact Hk]. f_equal. by apply copied_entry.
Qed.

(** ** Agreement on the protected keys *)

Definition agree (d1 d2 : document) : Prop :=
  ∀ k, protected_key k = true → d1 !! k = d2 !! k.
#[export] Instance agree_equivalence : Equivalence agree.
Proof.
  split; [done|by intros d1 d2 H k Hk; rewrite H|].
  intros d1 d2 d3 H1 H2 k Hk. by rewrite H1, H2.
Qed.
(** A key that is not protected may hold what it likes. *)
Lemma agree_insert k v1 v2 d1 d2 :
  (protected_key k = true → v1 = v2) → agree d1 d2 → agree (<[k := v1]> d1) (<[k := v2]> d2).
Proof.
  intros Hv H k' Hk. destruct (decide (k' = k)) as [->|Hne].
  - rewrite !lookup_insert_eq. by rewrite Hv.
  - rewrite !lookup_insert_ne by done. by apply H.
Qed.
#[export] Instance agree_put k v : Proper (agree ==> agree) (put k v).
Proof. intros d1 d2. by apply agree_insert. Qed.
#[export] Instance agree_unset k : Proper (agree ==> agree) (unset k).
Proof.
  intros d1 d2 H k' Hk. unfold unset. destruct (decide (k' = k)) as [->|Hne].
  - by rewrite !lookup_delete_eq.
  - rewrite !lookup_delete_ne by done. by apply H.
Qed.
Lemma agree_sub_map k d1 d2 : agree d1 d2 → protected_key k = true → sub_map k d1 = sub_map k d2.
Proof. intros H Hk. unfold sub_map. by rewrite H. Qed.
#[export] Instance agree_with_map k f : Proper (agree ==> agree) (with_map k f).
Proof.
  intros d1 d2 H. apply agree_insert; [|done]. intros Hk. unfold getOrCreateMap.
  by rewrite (agree_sub_map k d1 d2).
Qed.
#[export] Instance agree_in_map k f : Proper (agree ==> agree) (in_map k f).
Proof.
  intros d1 d2 H k' Hk. rewrite !lookup_in_map. case_decide as E; [subst|by apply H].
  rewrite (agree_sub_map k d1 d2) by done. destruct (sub_map k d2); [done|by apply H].
Qed.
#[export] Instance agree_deepMerge : Proper (agree ==> eq ==> agree) deepMerge.
Proof. intros d1 d2 H o ? <- k Hk. rewrite !lookup_deepMerge. by rewrite H. Qed.
#[export] Instance agree_merge_opt o : Proper (agree ==> agree) (merge_opt o).
Proof. intros d1 d2 H. destruct o; cbn; [by rewrite H|done]. Qed.
Lemma agree_foldl {A} (f : document → A → document) l :
  (∀ a, Proper (agree ==> agree) (λ d, f d a)) → Proper (agree ==> agree) (λ d, foldl f d l).
Proof.
  intros Hf. induction l as [|a l IH]; intros d1 d2 H; cbn; [done|]. apply IH. by apply Hf.
Qed.

(** The capabilities: what is left of the overrides touches no protected key. *)
Lemma lookup_Strip o k : protected_key k = true → StripProtectedKeys o !! k = None.
Proof.
  intros Hk. unfold StripProtectedKeys. rewrite map_lookup_imap, Hk. by destruct (o !! k).
Qed.
Definition same_template (c1 c2 : CapabilityWithTemplate) : Prop :=
  Capability_EntryID c1 = Capability_EntryID c2 ∧
  Capability_EntryType c1 = Capability_EntryType c2 ∧
  Capability_ConfigTemplate c1 = Capability_ConfigTemplate c2.
Lemma agree_stripped d o :
  copied d → agree d (if bool_decide (StripProtectedKeys o = ∅) then d
                      else deepMerge d (StripProtectedKeys o)).
Proof.
  intros Hd. case_bool_decide; [done|]. intros k Hk.
  rewrite lookup_deepMerge, (lookup_Strip o k Hk). symmetry. by apply copied_lookup.
Qed.
Lemma copied_merge_opt o d : copied d → copied (merge_opt o d).
Proof. intros Hd. destruct o; [apply copied_deepMerge|done]. Qed.
Lemma copied_capability d c : copied d → copied (merge_capability d c).
Proof.
  intros Hd. unfold merge_capability. destruct (Capability_ConfigOverrides c);
    [case_bool_decide|]; try apply copied_deepMerge; by apply copied_merge_opt.
Qed.
Lemma agree_template d c : copied d → agree (merge_opt (Capability_ConfigTemplate c) d) (merge_capability d c).
Proof.
  intros Hd. unfold merge_capability. destruct (Capability_ConfigOverrides c); [|done].
  by apply agree_stripped, copied_merge_opt.
Qed.
Lemma agree_capability d1 d2 c1 c2 :
  copied d1 → copied d2 → agree d1 d2 → same_template c1 c2 →
  agree (merge_capability d1 c1) (merge_capability d2 c2).
Proof.
  intros H1 H2 H (_ & _ & Ht). rewrite <-!agree_template by done. by rewrite Ht, H.
Qed.
Lemma agree_capabilities d1 d2 caps1 caps2 :
  copied d1 → copied d2 → agree d1 d2 → Forall2 same_template caps1 caps2 →
  agree (foldl merge_capability d1 caps1) (foldl merge_capability d2 caps2).
Proof.
  intros H1 H2 Ha Hc. revert d1 d2 H1 H2 Ha. induction Hc as [|c1 c2 l1 l2 Ht _ IH];
    intros d1 d2 H1 H2 Ha; cbn; [done|].
  apply IH; by (apply copied_capability || apply agree_capability).
Qed.

(** ** The steps of the assembly *)

Definition with_capabilities (caps : list CapabilityWithTemplate) (p : AssemblyParams)
    : AssemblyParams :=
  mkAssemblyParams (ap_MachineID p) caps (ap_Identity p) (ap_Credentials p)
    (ap_ChannelCredentialValues p) (ap_ProxyBaseURL p) (ap_NativeMode p) (ap_DefaultModel p)
    (ap_ModelFallbacks p) (ap_VMHostname p) (ap_AccountHostname p) (ap_BrowserVMIP p)
    (ap_BridgeIP p) (ap_Agents p) (ap_Plugins p) (ap_ModelCatalog p) (ap_ProviderCatalog p)
    (ap_SearchProvider p) (ap_OpenAIAgentRuntime p) (ap_OpikAPIURL p) (ap_OpikAPIKey p)
    (ap_ComposioAPIURL p) (ap_ComposioProxyTokenSigner p) (ap_WorkspaceIntegrationAPIURL p)
    (ap_WorkspaceIntegrationTokenSigner p) (ap_WorkspaceIntegrations p) (ap_RuntimeSource p)
    (ap_ResolvedOpenclawVersion p).

Ltac agree_step f := intros d1 d2 Hagree; unfold f; repeat match goal with |- context [match ?x with _ => _ end] => destruct x end; try done; by rewrite ?Hagree.
#[export] Instance agree_browser p : Proper (agree ==> agree) (inject_browser p).
Proof. agree_step inject_browser. Qed.
#[export] Instance agree_identity p : Proper (agree ==> agree) (inject_identity p).
Proof. agree_step inject_identity. Qed.
#[export] Instance agree_search_plugins c h : Proper (agree ==> agree) (inject_search_plugins c h).
Proof. unfold inject_search_plugins. intros d1 d2. apply agree_foldl. intros cp. apply _. Qed.
#[export] Instance agree_search s : Proper (agree ==> agree) (inject_search s).
Proof. agree_step inject_search. Qed.
#[export] Instance agree_providers p : Proper (agree ==> agree) (inject_providers p).
Proof.
  intros d1 d2 Hagree. unfold inject_providers. destruct (String.eqb _ _); [done|]. cbv zeta.
  case_bool_decide; by rewrite Hagree.
Qed.
#[export] Instance agree_origins : Proper (agree ==> agree) inject_origins.
Proof. agree_step inject_origins. Qed.
#[export] Instance agree_agents_defaults p r : Proper (agree ==> agree) (inject_agents_defaults p r).
Proof. agree_step inject_agents_defaults. Qed.
#[export] Instance agree_agents p r : Proper (agree ==> agree) (inject_agents p r).
Proof. agree_step inject_agents. Qed.
#[export] Instance agree_plugins ps l : Proper (agree ==> agree) (merge_plugins ps l).
Proof.
  intros d1 d2 Hagree. unfold merge_plugins.
  assert (agree (foldl merge_plugin d1 ps) (foldl merge_plugin d2 ps)) as Hf.
  { apply agree_foldl; [|done]. intros p e1 e2 He. unfold merge_plugin. by rewrite He. }
  unfold restore_allow. destruct (_ ++ _)%list; [done|]. by rewrite Hf.
Qed.
#[export] Instance agree_opik u k : Proper (agree ==> agree) (inject_opik u k).
Proof. agree_step inject_opik. Qed.
#[export] Instance agree_mcp m u s :
  Proper (agree ==> agree) (injectWorkspaceIntegrationNativeMCPConfig m u s).
Proof.
  unfold injectWorkspaceIntegrationNativeMCPConfig, injectWorkspaceIntegrationMCPConfig,
    disableWorkspaceIntegrationRESTPluginRuntime. intros d1 d2 Hagree.
  repeat match goal with |- context [match ?x with _ => _ end] => destruct x end; try done.
  by rewrite Hagree.
Qed.
#[export] Instance agree_channels p : Proper (agree ==> agree) (inject_channel_tokens p).
Proof. agree_step inject_channel_tokens. Qed.
#[export] Instance agree_skills p : Proper (agree ==> agree) (inject_skills p).
Proof. agree_step inject_skills. Qed.

Definition agree_res (r1 r2 : res document) : Prop :=
  match r1, r2 with
  | Ok d1, Ok d2 => agree d1 d2
  | Err e1, Err e2 => e1 = e2
  | _, _ => False
  end.
Lemma agree_composio what u m s d1 d2 :
  agree d1 d2 → agree_res (inject_composio what u m s d1) (inject_composio what u m s d2).
Proof.
  intros H. unfold inject_composio. destruct (String.eqb u ""); [done|].
  assert (composio_entry d1 = composio_entry d2) as E.
  { unfold composio_entry. cbn [sub_path]. by rewrite (agree_sub_map "plugins" d1 d2). }
  rewrite E. destruct (composio_entry d2); [|done]. cbv zeta.
  destruct s as [s|]; [destruct (s m)|]; cbn; try done; by rewrite H.
Qed.

(** The assembly in four parts: the capabilities, the steps up to the plugins, the
    integrations, and what comes last. *)
Definition merged (caps : list CapabilityWithTemplate) : document :=
  foldl merge_capability (deepCopy platformDefaults) caps.
Definition assembly_steps (p : AssemblyParams) (runtime : string) (d : document) : document :=
  inject_opik (ap_OpikAPIURL p) (ap_OpikAPIKey p)
    (merge_plugins (ap_Plugins p) (searchPluginAllows p)
      (inject_agents p runtime (inject_agents_defaults p runtime (inject_origins
        (inject_providers p (inject_identity p (inject_browser p d))))))).
Definition integrated (p : AssemblyParams) (d : document) : res document :=
  inject_composio "composio proxy token" (ap_ComposioAPIURL p) (ap_MachineID p)
    (ap_ComposioProxyTokenSigner p) d.
Definition last_steps (p : AssemblyParams) (d : document) : document :=
  inject_skills p (inject_channel_tokens p (injectWorkspaceIntegrationNativeMCPConfig (ap_MachineID p)
    (ap_WorkspaceIntegrationAPIURL p) (ap_WorkspaceIntegrationTokenSigner p) d)).
Lemma AssembleConfig_parts p :
  AssembleConfig p =
  match NormalizeOpenAIAgentRuntime (ap_OpenAIAgentRuntime p) with
  | Err e => Err e
  | Ok rt =>
      match integrated p (assembly_steps p rt (merged (ap_Capabilities p))) with
      | Err e => Err e
      | Ok d => Ok (last_steps p d)
      end
  end.
Proof. done. Qed.

Lemma agree_steps p rt : Proper (agree ==> agree) (assembly_steps p rt).
Proof. intros d1 d2 H. unfold assembly_steps. by rewrite H. Qed.
Lemma agree_last p : Proper (agree ==> agree) (last_steps p).
Proof. intros d1 d2 H. unfold last_steps. by rewrite H. Qed.
Lemma agree_merged caps1 caps2 :
  Forall2 same_template caps1 caps2 → agree (merged caps1) (merged caps2).
Proof. apply agree_capabilities; [apply copied_deepCopy..|done]. Qed.

(** ** Violations *)

(** Without its empty maps; a map that becomes empty is dropped too. *)
Fixpoint prune (v : value) : option value :=
  match v with
  | Obj m =>
      let m' := omap prune m in
      if bool_decide (m' = ∅) then None else Some (Obj m')
  | _ => Some v
  end.

Definition violation_path (prefix k : string) : string :=
  if String.eqb prefix "" then k else (prefix +:+ "." +:+ k)%string.
Lemma elem_of_violations prefix m x :
  x ∈ violations_below prefix (Obj m) ↔
  ∃ k v, m !! k = Some v ∧
    if protected_key k || blocked_path (violation_path prefix k)
    then x = violation_path prefix k
    else x ∈ violations_below (violation_path prefix k) v.
Proof.
  cbn. apply (map_fold_weak_ind (λ l m, x ∈ l ↔ ∃ k v, m !! k = Some v ∧
    if protected_key k || blocked_path (violation_path prefix k)
    then x = violation_path prefix k
    else x ∈ violations_below (violation_path prefix k) v)); [set_solver|].
  intros k v m' l Hk IH. rewrite elem_of_app, IH. clear IH. fold (violation_path prefix k).
  split.
  - intros [H|(k' & v' & H & Hx)].
    + exists k, v. rewrite lookup_insert_eq. split; [done|]. by case_match; [set_solver|].
    + exists k', v'. rewrite lookup_insert_ne by congruence. done.
  - intros (k' & v' & [[-> ->]|[Hne H]]%lookup_insert_Some & Hx); [left|right; eauto].
    by case_match; [set_solver|].
Qed.

(** The paths of the check and of the assembly differ only below empty keys, where
    those of the assembly start with a dot. *)
Definition paths_match (checked stripped : string) : Prop :=
  checked = stripped ∨ ∃ t, stripped = ("." +:+ t)%string.
Lemma paths_match_below c s k :
  paths_match c s → paths_match (violation_path c k) (s +:+ "." +:+ k).
Proof.
  unfold violation_path. intros [->|[t ->]].
  - destruct (String.eqb_spec s "") as [->|]; [right; by exists k|by left].
  - right. eexists. reflexivity.
Qed.
Lemma blocked_match c s : paths_match c s → blocked_path c = false → blocked_path s = false.
Proof. by intros [->|[t ->]]. Qed.

Lemma lookup_Strip_path o k :
  StripProtectedKeys o !! k = o !! k ≫= λ v, if protected_key k then None else strip_value k v.
Proof.
  unfold StripProtectedKeys. rewrite map_lookup_imap. destruct (o !! k) as [v|]; [|done]. cbn.
  destruct (protected_key k); [done|]. destruct v; try done. unfold stripProtectedPaths.
  cbn [strip_value]. cbv zeta.
  replace (map_imap (λ k0 v, if protected_key k0 || blocked_path ((k +:+ ".") +:+ k0) then None
    else strip_value ((k +:+ ".") +:+ k0) v) m)
  with (map_imap (λ k0 v, if protected_key k0 || blocked_path (k +:+ "." +:+ k0) then None
    else strip_value (k +:+ "." +:+ k0) v) m); [done|].
  apply map_eq. intros i. rewrite !map_lookup_imap. by rewrite append_assoc.
Qed.
Lemma strip_accepted v c s :
  paths_match c s → violations_below c v = [] → strip_value s v = prune v.
Proof.
  revert c s. induction v as [| | | | |l _|m IH] using value_nested_ind; intros c p Hp Hv; try done.
  cbn [strip_value prune]. cbv zeta.
  assert (map_imap (λ k v, if protected_key k || blocked_path (p +:+ "." +:+ k) then None
    else strip_value (p +:+ "." +:+ k) v) m = omap prune m) as ->; [|done].
  apply map_eq. intros k. rewrite map_lookup_imap, lookup_omap.
  destruct (m !! k) as [v|] eqn:Hk; [|done]. cbn.
  pose proof (paths_match_below c p k Hp) as Hp'.
  assert (∀ x, ¬ (if protected_key k || blocked_path (violation_path c k)
    then x = violation_path c k else x ∈ violations_below (violation_path c k) v)) as Hn.
  { intros x Hx. apply (not_elem_of_nil x). rewrite <-Hv. apply elem_of_violations. by exists k, v. }
  destruct (protected_key k || blocked_path (violation_path c k)) eqn:Eb; [by destruct (Hn _ eq_refl)|].
  apply orb_false_iff in Eb as [-> Eb]. rewrite (blocked_match _ _ Hp' Eb). cbn.
  apply (IH k v Hk _ _ Hp'). destruct (violations_below _ v) as [|x l]; [done|].
  by destruct (Hn x (list_elem_of_here x l)).
Qed.

(** What is left has no protected name. *)
Lemma strip_unprotected v s v' path w :
  strip_value s v = Some v' → at_path path v' = Some w →
  Forall (λ k, protected_key k = false) path.
Proof.
  revert s v' path. induction v as [| | | | |l _|m IH] using value_nested_ind; intros p v' path;
    try (intros [= <-]; destruct path; [by constructor|done]).
  cbn [strip_value]. cbv zeta. case_bool_decide; [done|]. intros [= <-].
  destruct path as [|k path]; [by constructor|]. cbn [at_path]. rewrite map_lookup_imap.
  destruct (m !! k) as [v|] eqn:Hk; [|done]. cbn -[strip_value].
  destruct (protected_key k) eqn:Ek; [done|]. cbn [orb]. destruct (blocked_path _); [done|].
  destruct (strip_value _ v) as [v2|] eqn:Es; [|done]. intros Hw. constructor; [done|].
  by eapply IH.
Qed.

(** ** Keys that steps leave alone *)

(** The value at [k] stays, but for copies. *)
Definition same_at (k : string) (d1 d2 : document) : Prop :=
  deepCopyValue <$> d1 !! k = deepCopyValue <$> d2 !! k.
#[export] Instance same_at_equivalence k : Equivalence (same_at k).
Proof.
  unfold same_at. split; [done|by intros d1 d2 H|]. intros d1 d2 d3 H1 H2. by rewrite H1.
Qed.
Lemma same_at_insert k k' v d : k ≠ k' → same_at k (<[k' := v]> d) d.
Proof. intros Hne. unfold same_at. by rewrite lookup_insert_ne. Qed.
Lemma same_at_with_map k k' f d : k ≠ k' → same_at k (with_map k' f d) d.
Proof. by apply same_at_insert. Qed.
Lemma same_at_in_map k k' f d : k ≠ k' → same_at k (in_map k' f d) d.
Proof. intros Hne. unfold same_at. by rewrite lookup_in_map, decide_False. Qed.
Lemma same_at_deepMerge k d1 d2 o : same_at k d1 d2 → same_at k (deepMerge d1 o) (deepMerge d2 o).
Proof. unfold same_at. intros H. by rewrite !lookup_deepMerge, H. Qed.
Lemma same_at_merge_opt k d1 d2 o : same_at k d1 d2 → same_at k (merge_opt o d1) (merge_opt o d2).
Proof. destruct o; [apply same_at_deepMerge|done]. Qed.
Lemma same_at_plugins k ps l l' d1 d2 :
  k ≠ "plugins"%string → same_at k d1 d2 → same_at k (merge_plugins ps l d1) (merge_plugins ps l' d2).
Proof.
  intros Hk H. unfold merge_plugins.
  assert (same_at k (foldl merge_plugin d1 ps) (foldl merge_plugin d2 ps)) as Hf.
  { revert d1 d2 H. induction ps as [|p ps IH]; intros d1 d2 H; cbn; [done|].
    apply IH. by apply same_at_merge_opt, same_at_merge_opt. }
  assert (∀ a d, same_at k (restore_allow a d) d) as Hr.
  { intros [|x a] d; [done|]. by apply same_at_in_map. }
  by rewrite !Hr.
Qed.
(** Documents of plugins that do not name [k]. *)
Definition silent_on (k : string) (p : PluginSelection) : Prop :=
  (∀ o, PluginSelection_ConfigTemplate p = Some o → o !! k = None) ∧
  (∀ o, PluginSelection_ConfigOverrides p = Some o → o !! k = None).
Lemma same_at_silent_merge k o d :
  (∀ o', o = Some o' → o' !! k = None) → same_at k (merge_opt o d) d.
Proof.
  intros Ho. destruct o as [o|]; [|done]. cbn. unfold same_at.
  rewrite lookup_deepMerge, (Ho o eq_refl). destruct (d !! k); cbn; [by rewrite deepCopyValue_idem|done].
Qed.
Lemma same_at_silent k ps l d :
  k ≠ "plugins"%string → Forall (silent_on k) ps → same_at k (merge_plugins ps l d) d.
Proof.
  intros Hk Hps. unfold merge_plugins.
  assert (same_at k (foldl merge_plugin d ps) d) as Hf.
  { revert d. induction Hps as [|p ps [Ht Ho] _ IH]; intros d; cbn; [done|]. rewrite IH.
    unfold merge_plugin. by rewrite !same_at_silent_merge. }
  unfold restore_allow. destruct (_ ++ _)%list; [done|]. by rewrite same_at_in_map.
Qed.

Ltac other_key :=
  repeat match goal with
  | |- context [with_map ?k' ?f ?d] => rewrite (same_at_with_map _ k' f d) by congruence
  | |- context [in_map ?k' ?f ?d] => rewrite (same_at_in_map _ k' f d) by congruence
  end.
Lemma same_at_opik k u key d : k ≠ "plugins"%string → same_at k (inject_opik u key d) d.
Proof. intros Hk. unfold inject_opik. destruct (String.eqb u ""); [done|]. by other_key. Qed.
Lemma same_at_composio k what u m s d d' :
  k ≠ "plugins"%string → inject_composio what u m s d = Ok d' → same_at k d' d.
Proof.
  intros Hk. unfold inject_composio. destruct (String.eqb u ""); [by intros [= <-]|].
  destruct (composio_entry d); [|by intros [= <-]]. cbv zeta.
  destruct s as [s|]; [destruct (s m); [|done]|]; intros [= <-]; by other_key.
Qed.
Lemma same_at_mcp k m u s d :
  k ≠ "plugins"%string → k ≠ "mcp"%string →
  same_at k (injectWorkspaceIntegrationNativeMCPConfig m u s d) d.
Proof.
  intros Hp Hm. unfold injectWorkspaceIntegrationNativeMCPConfig. destruct (String.eqb u ""); [done|].
  destruct s as [s|]; [destruct (s m); [|done]|done].
  unfold disableWorkspaceIntegrationRESTPluginRuntime, injectWorkspaceIntegrationMCPConfig. by other_key.
Qed.
Lemma same_at_search_plugins k c h d :
  k ≠ "plugins"%string → same_at k (inject_search_plugins c h d) d.
Proof.
  intros Hk. unfold inject_search_plugins. revert d.
  induction (search_providers c h) as [|cp l IH]; intros d; cbn; [done|]. rewrite IH. by other_key.
Qed.
Lemma same_at_search k s d : k ≠ "tools"%string → same_at k (inject_search s d) d.
Proof. intros Hk. unfold inject_search. destruct (String.eqb s ""); [done|]. by other_key. Qed.
Lemma same_at_last k p d :
  k ≠ "plugins"%string → k ≠ "mcp"%string → k ≠ "channels"%string → k ≠ "skills"%string →
  same_at k (last_steps p d) d.
Proof.
  intros H1 H2 H3 H4. unfold last_steps, inject_skills, inject_channel_tokens. other_key.
  case_bool_decide; other_key; by apply same_at_mcp.
Qed.

(** *** Paths *)

Lemma at_path_copy path v : at_path path (deepCopyValue v) = deepCopyValue <$> at_path path v.
Proof.
  revert v. induction path as [|k path IH]; intros v; [done|]. destruct v; try done. cbn.
  rewrite lookup_fmap. destruct (m !! k); [apply IH|done].
Qed.
Lemma at_path_Obj m k v path : m !! k = Some v → at_path (k :: path) (Obj m) = at_path path v.
Proof. intros H. cbn. by rewrite H. Qed.
Lemma copy_Str o s : deepCopyValue <$> o = Some (Str s) → o = Some (Str s).
Proof. by destruct o as [[]|]. Qed.
Lemma copy_Obj o m : deepCopyValue <$> o = Some (Obj m) → ∃ m', o = Some (Obj m') ∧ deepCopy m' = m.
Proof. destruct o as [[| | | | | |m']|]; try done. intros [= <-]. by exists m'. Qed.
Lemma same_at_path k d1 d2 path :
  same_at k d1 d2 →
  deepCopyValue <$> at_path (k :: path) (Obj d1) = deepCopyValue <$> at_path (k :: path) (Obj d2).
Proof.
  unfold same_at. intros H. cbn. destruct (d1 !! k) as [v1|], (d2 !! k) as [v2|]; cbn in *; try done.
  injection H as H. by rewrite <-!at_path_copy, H.
Qed.

(** ** Models *)

Lemma put_model m rt models m' :
  is_Some (putAgentModelCatalogEntry m rt models !! m') ↔ m' = m ∨ is_Some (models !! m').
Proof.
  unfold putAgentModelCatalogEntry.
  destruct (sub_map m models) eqn:E; destruct (decide (m' = m)) as [->|Hne];
    rewrite ?lookup_insert_eq, ?lookup_insert_ne by done; naive_solver.
Qed.
Lemma chosen_models rt names models m :
  is_Some (foldl (λ models m, putAgentModelCatalogEntry m rt models) models names !! m) ↔
  m ∈ names ∨ is_Some (models !! m).
Proof.
  revert models. induction names as [|n names IH]; intros models; cbn; [set_solver|].
  rewrite IH, put_model, elem_of_cons. tauto.
Qed.
Lemma models_catalog_names catalog providers rt primary fallbacks m :
  m ∈ primary :: fallbacks → is_Some (models_catalog catalog providers rt primary fallbacks !! m).
Proof.
  intros Hm. unfold models_catalog. cbv zeta.
  apply (set_fold_ind_L (λ models (_ : gset string), is_Some (models !! m))).
  - apply (chosen_models rt (primary :: fallbacks) ∅). by left.
  - intros id _ models _ H. apply put_model. by right.
Qed.
Lemma agent_models_names catalog rt agents models m :
  is_Some (models !! m) ∨
    (∃ a, a ∈ agents ∧ AgentDefinition_Model a ≠ ""%string ∧
          m = mapModelFromCatalog catalog (AgentDefinition_Model a)) →
  is_Some (agent_models catalog rt agents models !! m).
Proof.
  unfold agent_models. revert models. induction agents as [|a agents IH]; intros models;
    cbn [foldl]; [intros [H|(a & Ha & _)]; [done|by apply elem_of_nil in Ha]|].
  intros H. apply IH. destruct (String.eqb_spec (AgentDefinition_Model a) "") as [E|E].
  - destruct H as [H|(b & [->|Hb]%elem_of_cons & Hn & Hm)]; [by left|done|right; by exists b].
  - destruct H as [H|(b & [->|Hb]%elem_of_cons & Hn & Hm)];
      [left; apply put_model; by right|left; apply put_model; by left|right; by exists b].
Qed.
Lemma lookup_obj l k : (list_to_map l : document) !! k = snd <$> find (λ kv, bool_decide (kv.1 = k)) l.
Proof.
  induction l as [|[k' v] l IH]; [done|]. cbn. case_bool_decide as E; [subst; by rewrite lookup_insert_eq|].
  by rewrite lookup_insert_ne.
Qed.
(** The entries of the personas hold no typed slices. *)
Lemma copied_agent_entry catalog m a : deepCopyValue (agent_entry catalog m a) = agent_entry catalog m a.
Proof.
  unfold agent_entry, obj, str_field.
  destruct (String.eqb _ ""), (String.eqb _ ""), (AgentDefinition_IsDefault a); cbn [app];
    cbn [deepCopyValue list_to_map foldr fst snd]; unfold uncurry; cbn;
    rewrite ?fmap_insert, ?fmap_empty; cbn; rewrite ?fmap_insert, ?fmap_empty; done.
Qed.

(** What the steps put under agents. *)
Section Agents.
Variables (p : AssemblyParams) (rt : string).
Let catalog := ap_ModelCatalog p.
Let primary := mapModelFromCatalog catalog (ap_DefaultModel p).
Let fallbacks := mapped_fallbacks catalog [primary] (ap_ModelFallbacks p).
Hypothesis Hmodel : ap_DefaultModel p ≠ ""%string.

Lemma agents_defaults_doc d :
  ∃ ags defaults, inject_agents_defaults p rt d !! "agents"%string = Some (Obj ags) ∧
    ags !! "defaults"%string = Some (Obj defaults) ∧
    defaults !! "models"%string =
      Some (Obj (models_catalog catalog (ap_Credentials p) rt primary fallbacks)) ∧
    defaults !! "model"%string = Some (model_defaults primary fallbacks).
Proof.
  unfold inject_agents_defaults. destruct (String.eqb_spec (ap_DefaultModel p) ""); [done|].
  cbv zeta. eexists _, _. rewrite lookup_with_map, decide_True by done. split; [done|].
  rewrite lookup_with_map, decide_True by done. split; [done|]. unfold put.
  split; rewrite ?lookup_insert_ne by done; apply lookup_insert_eq.
Qed.
Lemma agents_doc d :
  ∃ ags defaults models,
    inject_agents p rt (inject_agents_defaults p rt d) !! "agents"%string = Some (Obj ags) ∧
    ags !! "defaults"%string = Some (Obj defaults) ∧
    defaults !! "models"%string = Some (Obj models) ∧
    defaults !! "model"%string = Some (model_defaults primary fallbacks) ∧
    (∀ m, m ∈ primary :: fallbacks ++ (agent_model catalog primary <$> ap_Agents p) →
       is_Some (models !! m)) ∧
    (ap_Agents p ≠ [] →
       ags !! "list"%string = Some (Arr (agent_entry catalog primary <$> ap_Agents p))).
Proof.
  destruct (agents_defaults_doc d) as (ags & defaults & Ha & Hd & Hms & Hm).
  set (d1 := inject_agents_defaults p rt d) in *. unfold inject_agents.
  assert (∀ m, m ∈ primary :: fallbacks → is_Some
    (models_catalog catalog (ap_Credentials p) rt primary fallbacks !! m)) as Hl
    by (intros m; apply models_catalog_names).
  destruct (ap_Agents p) as [|a agents] eqn:Eag.
  { exists ags, defaults, (models_catalog catalog (ap_Credentials p) rt primary fallbacks).
    do 4 (split; [done|]). split; [|done]. intros m. rewrite app_nil_r. apply Hl. }
  destruct (String.eqb_spec (ap_DefaultModel p) ""); [done|]. cbv zeta.
  rewrite lookup_with_map, decide_True, (getOrCreateMap_Obj _ _ _ Ha) by done.
  fold catalog primary. set (list := put "list" _ ags). assert (list !! "defaults"%string = Some (Obj defaults))
    as Hd' by (unfold list, put; by rewrite lookup_insert_ne).
  eexists _, _, _. split; [reflexivity|].
  rewrite lookup_with_map, decide_True, (getOrCreateMap_Obj _ _ _ Hd') by done.
  split; [reflexivity|]. rewrite (getOrCreateMap_Obj _ _ _ Hms). unfold put at 1 2.
  rewrite lookup_insert_eq. split; [reflexivity|]. rewrite lookup_insert_ne by done.
  split; [done|]. split.
  - intros m Hin. apply agent_models_names.
    rewrite elem_of_cons, elem_of_app, list_elem_of_fmap in Hin.
    destruct Hin as [->|[Hin|(b & -> & Hb)]]; [left; apply Hl; by left|left; apply Hl; by right|].
    unfold agent_model. destruct (String.eqb_spec (AgentDefinition_Model b) "");
      [left; apply Hl; by left|right; by exists b].
  - intros _. rewrite lookup_with_map, decide_False by done. unfold list, put. apply lookup_insert_eq.
Qed.
End Agents.

(** ** The search provider *)

(** The first of the candidates with the least order. *)
Lemma best_candidate_least l b :
  best_candidate l = Some b →
  ∃ l1 l2, l = l1 ++ b :: l2 ∧ Forall (λ c, b.2 < c.2) l1 ∧ Forall (λ c, b.2 ≤ c.2) l2.
Proof.
  destruct l as [|c l]; [done|]. cbn. intros [= <-].
  induction l as [|d l IH] using rev_ind; [by exists [], []|]. rewrite foldl_app. cbn.
  destruct IH as (l1 & l2 & E & H1 & H2). set (b := foldl _ c l) in *.
  rewrite app_comm_cons, E. case_bool_decide as Hlt.
  - exists (l1 ++ b :: l2), []. split; [done|]. split; [|done].
    apply Forall_app. split; [eapply Forall_impl; [exact H1|]; cbn; intros; lia|].
    constructor; [done|]. eapply Forall_impl; [exact H2|]. cbn. intros. lia.
  - exists l1, (l2 ++ [d]). rewrite <-app_assoc. split; [done|]. split; [done|].
    apply Forall_app. split; [done|]. repeat constructor. lia.
Qed.
Lemma search_candidates_from catalog has id order :
  (id, order) ∈ search_candidates catalog has ↔
  has id = true ∧ ∃ cp, cp ∈ catalog ∧ CatalogProvider_Category cp = "search"%string ∧
    CatalogProvider_ID cp = id ∧ CatalogProvider_AutodetectOrder cp = Some order.
Proof.
  unfold search_candidates. rewrite list_elem_of_omap. split.
  - intros (cp & Hcp & H). destruct (String.eqb_spec (CatalogProvider_Category cp) "search") as [E|]; [|done].
    cbn in H. destruct (CatalogProvider_AutodetectOrder cp) as [n|] eqn:En; [|done].
    destruct (has (CatalogProvider_ID cp)) eqn:Eh; [|done]. injection H as <- <-. split; [done|by exists cp].
  - intros (Hh & cp & Hcp & Es & <- & Eo). exists cp. split; [done|]. by rewrite Es, Eo, Hh.
Qed.

(** ** The seed and the configuration that follows it *)

(** The parameters of a machine's first configuration push, as those of its seed: no
    capabilities, no identity, no browser and no personas. *)
Definition live_params (p : SeedParams) : AssemblyParams :=
  mkAssemblyParams (sp_MachineID p) [] None (list_to_set (sp_Providers p)) ∅ (sp_ProxyBaseURL p)
    true (sp_DefaultModel p) (sp_ModelFallbacks p) "" "" "" "" [] (sp_Plugins p)
    (sp_ModelCatalog p) (sp_ProviderCatalog p) (sp_SearchProvider p) (sp_OpenAIAgentRuntime p)
    (sp_OpikAPIURL p) (sp_OpikAPIKey p) (sp_ComposioAPIURL p) (sp_ComposioProxyTokenSigner p)
    (sp_WorkspaceIntegrationAPIURL p) (sp_WorkspaceIntegrationTokenSigner p)
    (sp_WorkspaceIntegrations p) (sp_RuntimeSource p) (sp_ResolvedOpenclawVersion p).

Lemma lookup_search_plugins k c h d :
  k ≠ "plugins"%string → inject_search_plugins c h d !! k = d !! k.
Proof.
  intros Hk. unfold inject_search_plugins. revert d.
  induction (search_providers c h) as [|cp l IH]; intros d; cbn; [done|].
  rewrite IH, lookup_with_map. by rewrite decide_False.
Qed.
Lemma lookup_search k s d : k ≠ "tools"%string → inject_search s d !! k = d !! k.
Proof.
  intros Hk. unfold inject_search. destruct (String.eqb s ""); [done|].
  by rewrite lookup_with_map, decide_False.
Qed.
Lemma lookup_providers k p d :
  k ∉ ["auth"; "plugins"; "tools"; "models"]%string → inject_providers p d !! k = d !! k.
Proof.
  intros Hk. unfold inject_providers. destruct (String.eqb _ _); [done|]. cbv zeta.
  rewrite lookup_with_map, decide_False, lookup_search, lookup_search_plugins by set_solver.
  case_bool_decide; [|done]. rewrite lookup_with_map, decide_False by set_solver. done.
Qed.
Lemma lookup_agents_defaults k p rt d :
  k ≠ "agents"%string → inject_agents_defaults p rt d !! k = d !! k.
Proof.
  intros Hk. unfold inject_agents_defaults. destruct (String.eqb _ _); [done|]. cbv zeta.
  by rewrite lookup_with_map, decide_False.
Qed.

(** What the plugins are merged into, in the seed and in the configuration. *)
Definition seed_base (p : SeedParams) (rt : string) : document :=
  seed_channels p (inject_search (resolveSearchProviderSeed p)
    (inject_search_plugins (sp_ProviderCatalog p) (seed_has_provider p) (seed_document p rt))).
Definition live_base (p : AssemblyParams) (rt : string) : document :=
  inject_agents_defaults p rt (inject_origins (inject_providers p (deepCopy platformDefaults))).
Lemma lookup_seed_base k p rt :
  k ∉ ["channels"; "tools"; "plugins"]%string → seed_base p rt !! k = seed_document p rt !! k.
Proof.
  intros Hk. unfold seed_base, seed_channels. case_bool_decide;
    [|unfold put; rewrite lookup_insert_ne by set_solver];
    by rewrite lookup_search, lookup_search_plugins by set_solver.
Qed.
Lemma seed_same_at k p d :
  AssembleSeedConfig p = Ok d → k ∉ ["plugins"; "mcp"; "auth"]%string →
  ∃ rt l, NormalizeOpenAIAgentRuntime (sp_OpenAIAgentRuntime p) = Ok rt ∧
    same_at k d (merge_plugins (sp_Plugins p) l (seed_base p rt)).
Proof.
  intros H Hk. unfold AssembleSeedConfig in H.
  destruct (NormalizeOpenAIAgentRuntime _) as [rt|]; [|done]. cbv zeta in H.
  destruct (inject_composio _ _ _ _ _) as [d'|] eqn:Ei; [|done]. injection H as <-.
  eexists rt, _. split; [done|]. unfold seed_auth.
  assert (k ≠ "plugins" ∧ k ≠ "mcp" ∧ k ≠ "auth")%string as (H1 & H2 & H3) by set_solver.
  assert (∀ v e, same_at k (put "auth" v e) e) as Hput by (intros; by apply same_at_insert).
  destruct (existsb _ _); rewrite ?Hput, same_at_mcp, (same_at_composio k _ _ _ _ _ _ H1 Ei), same_at_opik by done;
    reflexivity.
Qed.
Lemma live_same_at k p d :
  AssembleConfig (live_params p) = Ok d → k ∉ ["plugins"; "mcp"; "channels"; "skills"]%string →
  ∃ rt l, NormalizeOpenAIAgentRuntime (sp_OpenAIAgentRuntime p) = Ok rt ∧
    same_at k d (merge_plugins (sp_Plugins p) l (live_base (live_params p) rt)).
Proof.
  intros H Hk. rewrite AssembleConfig_parts in H. cbn [ap_OpenAIAgentRuntime live_params] in H.
  destruct (NormalizeOpenAIAgentRuntime _) as [rt|]; [|done].
  destruct (integrated _ _) as [d'|] eqn:Ei; [|done]. injection H as <-.
  eexists rt, _. split; [done|].
  assert (k ≠ "plugins" ∧ k ≠ "mcp" ∧ k ≠ "channels" ∧ k ≠ "skills")%string as (H1 & H2 & H3 & H4) by set_solver.
  rewrite same_at_last, (same_at_composio k _ _ _ _ _ _ H1 Ei) by done.
  unfold assembly_steps. rewrite same_at_opik by done. reflexivity.
Qed.
