(* ===== verification/ConfigSpec.v ===== *)
(** * What the assembled configuration guarantees

    The overrides of a user cannot touch what the platform decides; the check that
    refuses overrides and the assembly agree; every model that is named is listed;
    the search provider has a credential. *)

From S2P Require Import Prelude GoStrings Versions ConfigValues ConfigAssembly.
From S2P Require Import ConfigLemmas.

Lemma is_ok_ex {A} (r : res A) : is_ok r = true → ∃ a, r = Ok a.
Proof. destruct r; [by eexists|done]. Qed.

(** ** Protected keys *)

(** C34: The overrides of a machine's capabilities cannot touch what the platform
    decides: if two machines differ in nothing but the overrides of their
    capabilities, their assembled configurations agree on every protected key
    (gateway, skills, ui, agents, commands, session, plugins, ...), or both
    assemblies fail with the same error. *)
Theorem overrides_keep_protected (p : AssemblyParams) (caps1 caps2 : list CapabilityWithTemplate) :
  Forall2 same_template caps1 caps2 →
  match AssembleConfig (with_capabilities caps1 p), AssembleConfig (with_capabilities caps2 p) with
  | Ok d1, Ok d2 => ∀ k, protected_key k = true → d1 !! k = d2 !! k
  | Err e1, Err e2 => e1 = e2
  | _, _ => False
  end.
Proof.
  intros Hc. rewrite !AssembleConfig_parts. cbn [ap_OpenAIAgentRuntime with_capabilities].
  destruct (NormalizeOpenAIAgentRuntime _) as [rt|]; [|done].
  assert (skill_ids caps1 = skill_ids caps2) as Hs.
  { unfold skill_ids. induction Hc as [|c1 c2 l1 l2 (E1 & E2 & _) _ IH]; cbn; [done|].
    by rewrite E1, E2, IH. }
  assert (∀ d, last_steps (with_capabilities caps1 p) d = last_steps (with_capabilities caps2 p) d)
    as Hlast by (intros d; unfold last_steps, inject_skills; cbn [ap_Capabilities with_capabilities];
        by rewrite Hs).
  pose proof (agree_composio "composio proxy token" (ap_ComposioAPIURL p) (ap_MachineID p)
    (ap_ComposioProxyTokenSigner p) _ _ (agree_steps p rt _ _ (agree_merged _ _ Hc))) as H.
  change (agree_res (integrated (with_capabilities caps1 p) (assembly_steps (with_capabilities caps1 p) rt (merged caps1)))
    (integrated (with_capabilities caps2 p) (assembly_steps (with_capabilities caps2 p) rt (merged caps2)))) in H.
  cbn [ap_Capabilities with_capabilities].
  destruct (integrated _ (assembly_steps _ _ (merged caps1))) as [d1|e1],
    (integrated _ (assembly_steps _ _ (merged caps2))) as [d2|e2]; cbn in H; try done.
  rewrite Hlast. by apply agree_last.
Qed.

(** The check that refuses overrides and the assembly agree: overrides that the
    check accepts are merged as they are, but for their empty maps; and whatever
    overrides are given, no path through what is merged has a protected name, at
    any depth. *)
Lemma accepted_overrides_kept (o : document) :
  (FindProtectedKeyViolations o "" = [] → StripProtectedKeys o = omap prune o) ∧
  ∀ path v, at_path path (Obj (StripProtectedKeys o)) = Some v →
    Forall (λ k, protected_key k = false) path.
Proof.
  split.
  - intros Hv. apply map_eq. intros k. rewrite lookup_Strip_path, lookup_omap.
    destruct (o !! k) as [v|] eqn:Hk; [|done]. cbn.
    assert (∀ x, ¬ (if protected_key k || blocked_path k then x = k else x ∈ violations_below k v)) as Hn.
    { intros x Hx. apply (not_elem_of_nil x). rewrite <-Hv. apply elem_of_violations. by exists k, v. }
    destruct (protected_key k || blocked_path k) eqn:Eb; [by destruct (Hn _ eq_refl)|].
    apply orb_false_iff in Eb as [-> Eb]. apply (strip_accepted v k k); [by left|].
    destruct (violations_below k v) as [|x l]; [done|]. by destruct (Hn x (list_elem_of_here x l)).
  - intros [|k path] v; [by constructor|]. cbn [at_path]. rewrite lookup_Strip_path.
    destruct (o !! k) as [w|] eqn:Hk; [|done]. cbn. destruct (protected_key k) eqn:Ek; [done|].
    destruct (strip_value k w) as [w'|] eqn:Es; [|done]. intros H. constructor; [done|].
    by eapply strip_unprotected.
Qed.

(** ** Models *)


(** ** The search provider *)

(** The search provider that is made active has a credential: it is the one asked
    for, when it has a credential and the catalog does not list it under another
    category; else, of the search providers of the catalog with a credential and a
    place in the order, the first with the least place; and none only when there is
    none. *)
Lemma search_provider_chosen (p : AssemblyParams) :
  let catalog := ap_ProviderCatalog p in
  let wanted := ap_SearchProvider p in
  let candidate id order := id ∈ ap_Credentials p ∧ ∃ cp, cp ∈ catalog ∧
    CatalogProvider_Category cp = "search"%string ∧ CatalogProvider_ID cp = id ∧
    CatalogProvider_AutodetectOrder cp = Some order in
  (wanted ≠ ""%string ∧ wanted ∈ ap_Credentials p ∧
   (∀ cp, findCatalogProvider catalog wanted = Some cp →
      CatalogProvider_Category cp = "search"%string) ∧
   resolveSearchProvider p = runtimeProviderID catalog wanted) ∨
  (∃ id order, candidate id order ∧ (∀ id' order', candidate id' order' → order ≤ order') ∧
     resolveSearchProvider p = runtimeProviderID catalog id) ∨
  ((∀ id order, ¬ candidate id order) ∧ resolveSearchProvider p = ""%string).
Proof.
  intros catalog wanted candidate. unfold resolveSearchProvider, resolve_search.
  fold catalog wanted. set (has := λ q, bool_decide (q ∈ ap_Credentials p)).
  assert (∀ id order, (id, order) ∈ search_candidates catalog has ↔ candidate id order) as Hc.
  { intros id order. rewrite search_candidates_from. unfold has. by rewrite bool_decide_eq_true. }
  destruct (search_override catalog has wanted) eqn:Eo.
  - left. unfold search_override, has in Eo. rewrite !andb_true_iff, bool_decide_eq_true in Eo.
    destruct Eo as [[Hn Hs] Hin]. destruct (String.eqb_spec wanted ""); [done|].
    split; [done|]. split; [done|]. split; [|done]. intros cp Hcp. rewrite Hcp in Hs.
    by apply String.eqb_eq in Hs.
  - right. destruct (best_candidate (search_candidates catalog has)) as [[id order]|] eqn:Eb.
    + left. apply best_candidate_least in Eb as (l1 & l2 & E & H1 & H2).
      exists id, order. split; [apply Hc; rewrite E; set_solver|]. split; [|done].
      intros id' order' Hc'. apply Hc in Hc'. rewrite E in Hc'.
      rewrite Forall_forall in H1, H2.
      apply elem_of_app in Hc' as [Hc'|[Hc'|Hc']%elem_of_cons].
      * specialize (H1 _ Hc'). cbn in H1. lia.
      * injection Hc' as -> ->. lia.
      * specialize (H2 _ Hc'). cbn in H2. lia.
    + right. split; [|done]. intros id order Hcand. apply Hc in Hcand.
      destruct (search_candidates catalog has); [by apply elem_of_nil in Hcand|done].
Qed.

(** ** The seed *)


(** ** Overrides of plugins *)

(** A machine with the default model, a search provider and a persona. *)
Definition catalog0 : list CatalogModel :=
  [mkCatalogModel "deepseek/deepseek-v3" "DeepSeek" "platform" (Some "smart"%string)
     (Some "nebius/deepseek-ai/DeepSeek-V3"%string) "nebius";
   mkCatalogModel "openai/gpt-5" "GPT-5" "byok" None None "openai"]%string.
Definition providers0 : list CatalogProvider :=
  [mkCatalogProvider "exa" "search" "" "" "" "" "EXA_API_KEY" "" "" "" (Some 20);
   mkCatalogProvider "gemini-search" "search" "" "" "" "" "GEMINI_API_KEY" "" "gemini" "google"
     (Some 10);
   mkCatalogProvider "openai" "ai" "" "" "" "" "OPENAI_API_KEY" "" "" "" None]%string.
Definition params0 (caps : list CapabilityWithTemplate) (plugins : list PluginSelection)
    : AssemblyParams :=
  mkAssemblyParams "id-4" caps None {["exa"; "gemini-search"; "openai"]}
    ∅ "http://192.168.100.1:4000" true "deepseek/deepseek-v3" ["openai/gpt-5"; "openai/gpt-5"]
    "" "" "" "" [mkAgentDefinition "writer" "Writer" "openai/gpt-5" "" "" false 1] plugins catalog0
    providers0 "" "codex" "" "" "" None "" None [] "artifact" "v2026.6.1".
Definition no_auth : document :=
  list_to_map [("gateway"%string, obj [("auth"%string, obj [("mode"%string, Str "none")])])].
Definition auth_mode (r : res document) : option value :=
  match r with
  | Ok d => at_path ["gateway"; "auth"; "mode"]%string (Obj d)
  | Err _ => None
  end.

(** The overrides of a plugin are merged without the check and without the
    stripping that the overrides of a capability go through: the same document that
    is refused there, and stripped by the assembly, here replaces the gateway's
    authentication mode. *)
Lemma plugin_overrides_unprotected :
  FindProtectedKeyViolations no_auth "" = ["gateway"%string] ∧
  auth_mode (AssembleConfig (params0 [mkCapability "browser" "tool" None (Some no_auth) None] [])) =
    Some (Str "token") ∧
  auth_mode (AssembleConfig (params0 [] [mkPluginSelection "memory" "memory" None (Some no_auth)])) =
    Some (Str "none").
Proof. repeat split; vm_compute; reflexivity. Qed.

(** The check refuses dotted names that the assembly does not strip. *)
Lemma dotted_name_not_stripped :
  let o : document := list_to_map [("gateway.auth"%string, Num 1)] in
  FindProtectedKeyViolations o "" = ["gateway.auth"%string] ∧ StripProtectedKeys o = o.
Proof. split; vm_compute; reflexivity. Qed.

(** ** Concrete configurations *)

Definition cap0 (o : option document) : CapabilityWithTemplate :=
  mkCapability "slack" "channel"
    (Some (list_to_map [("channels"%string, obj [("slack"%string, obj [])])])) o None.
Definition chatty : document :=
  list_to_map [("gateway"%string, obj [("mode"%string, Str "remote")]);
    ("channels"%string, obj [("slack"%string, obj [("session"%string, Null); ("nick"%string, Str "bot")])])].
Lemma overrides_keep_protected_witness :
  auth_mode (AssembleConfig (with_capabilities [cap0 (Some chatty)] (params0 [] []))) =
  auth_mode (AssembleConfig (with_capabilities [cap0 None] (params0 [] []))).
Proof.
  pose proof (overrides_keep_protected (params0 [] []) [cap0 (Some chatty)] [cap0 None]
    ltac:(by repeat constructor)) as H.
  destruct (AssembleConfig (with_capabilities [cap0 (Some chatty)] _)) as [d1|e1],
    (AssembleConfig (with_capabilities [cap0 None] _)) as [d2|e2]; try done.
  unfold auth_mode. cbn [at_path]. by rewrite (H "gateway"%string eq_refl).
Defined.
Definition plain : document :=
  list_to_map [("channels"%string, obj [("slack"%string, obj [("nick"%string, Str "bot")]);
    ("memory"%string, obj [])])].
Lemma accepted_overrides_kept_witness :
  FindProtectedKeyViolations plain "" = [] ∧ StripProtectedKeys plain = omap prune plain.
Proof.
  assert (FindProtectedKeyViolations plain "" = []) as H by (vm_compute; reflexivity).
  split; [exact H|]. exact (proj1 (accepted_overrides_kept plain) H).
Defined.
Definition seed0 : SeedParams :=
  mkSeedParams "id-4" "deepseek/deepseek-v3" ["openai/gpt-5"] ["exa"; "openai"; "nebius"]
    "http://192.168.100.1:4000" catalog0 providers0 "" "auto" ∅
    [mkPluginSelection "memory" "memory" (Some (list_to_map [("cron"%string, obj [])])) None]
    "" "" "" None "" None [] "artifact" "v2026.6.1".
