(* ===== verification/Migration.v ===== *)
(** * Migration: api/admin_migrate.go and api/admin_migrate_workflow.go

    A machine moves from its host to another one: validation, stop, backup,
    release of the source, start on the target, restore.  The workflow runs the
    phases as DBOS steps; the older handler runs them in the request.  Reading
    the backup key (hexadecimal and AES decoding) and saving the backup record
    are calls that can only fail.  The agent client is configured, as the code
    takes for granted. *)

From S2P Require Import Prelude Schema HostStore PlacementStore OperationStore.
From S2P Require Import AccountStore World Fleet GoStrings Versions Routing Runtime.
From S2P Require Import Workflows Api.

Record adminMigrationRequest : Type := mkMigrationRequest {
  MigrationRequest_MachineID : string;
  MigrationRequest_TargetHostID : Z;
  MigrationRequest_Force : bool
}.
Record migrationWorkflowInput : Type := mkMigrationInput {
  MigrationInput_Request : adminMigrationRequest;
  MigrationInput_OperationID : string;
  MigrationInput_RequestedByUserID : option Z;
  MigrationInput_AccountID : Z
}.
Record migrationWorkflowResult : Type := mkMigrationResult {
  MigrationResult_WorkflowID : string;
  MigrationResult_Status : string;
  MigrationResult_MachineID : string;
  MigrationResult_TargetHostID : Z;
  MigrationResult_BackupID : option Z
}.
#[export] Instance eta_migrationWorkflowResult : Eta migrationWorkflowResult := λ r,
  mkMigrationResult (MigrationResult_WorkflowID r) (MigrationResult_Status r)
    (MigrationResult_MachineID r) (MigrationResult_TargetHostID r)
    (MigrationResult_BackupID r).
Record migrationWorkflowPlan : Type := mkMigrationPlan {
  MigrationPlan_SourceHostID : option Z;
  MigrationPlan_ReleaseCapacity : bool;
  MigrationPlan_CanBackup : bool
}.
Record migrationBackupSnapshot : Type := mkBackupSnapshot {
  BackupSnapshot_ID : Z;
  BackupSnapshot_GCSPath : string
}.
Record migrationStartSnapshot : Type := mkStartSnapshot {
  StartSnapshot_HostID : Z;
  StartSnapshot_PlacementID : string
}.

(** JSON objects: [json.Marshal] of the results. *)
Definition result_json (r : migrationWorkflowResult) : json :=
  JObj (omitempty "workflow_id" (if String.eqb (MigrationResult_WorkflowID r) "" then None
                                 else Some (JStr (MigrationResult_WorkflowID r))) ++
    [("status", JStr (MigrationResult_Status r));
     ("machine_id", JStr (MigrationResult_MachineID r));
     ("target_host_id", JNum (MigrationResult_TargetHostID r))]%string ++
    omitempty "backup_id" (JNum <$> MigrationResult_BackupID r)).
Definition summary_json (workflowID : string) (r : migrationWorkflowResult) : json :=
  JObj [("workflow_id", JStr workflowID); ("status", JStr (MigrationResult_Status r));
        ("machine_id", JStr (MigrationResult_MachineID r));
        ("target_host_id", JNum (MigrationResult_TargetHostID r));
        ("backup_id", json_id (MigrationResult_BackupID r))]%string.
Definition input_json (i : migrationWorkflowInput) : json :=
  let req := MigrationInput_Request i in
  JObj ([("request", JObj [("machine_id", JStr (MigrationRequest_MachineID req));
                           ("target_host_id", JNum (MigrationRequest_TargetHostID req));
                           ("force", JBool (MigrationRequest_Force req))]);
         ("operation_id", JStr (MigrationInput_OperationID i))]%string ++
    omitempty "requested_by_user_id" (JNum <$> MigrationInput_RequestedByUserID i) ++
    [("account_id"%string, JNum (MigrationInput_AccountID i))]).

Section Migration.
  Context {go_sort : GoSort} `{StepRunner}.
  Variable s : Server.
  Abbreviation rs := (srv_machines s).

Abbreviation dataPlaneHostname := (dataPlaneHostname s).

(** ** Shared parts *)

(** A row that does not exist keeps its error, another failure is wrapped. *)
Definition find_row {A} (msg : string) (q : Q A) : M A :=
  let! r := try (call q) in
  match r with
  | Ok a => ret a
  | Err e => if errors_is e ErrNoRows then fail e else fail (ErrWrap msg e)
  end.

Definition data_loss : string :=
  ("machine has a source host but backups are not enabled or configured — " +:+
   "data volume will be lost. Pass force=true to proceed anyway.")%string.
(** A [migrationValidationError] is an [ErrText]. *)
Definition validateMigrationRequest (req : adminMigrationRequest)
    : M (Machine * Host * option Z * bool) :=
  let! machine := find_row "machine lookup failed"
    (GetMachine (MigrationRequest_MachineID req)) in
  let! targetHost := find_row "target host lookup failed"
    (GetHost (MigrationRequest_TargetHostID req)) in
  if negb (String.eqb (Host_Status targetHost) "ready") then
    fail (ErrText ("target host is " +:+ Host_Status targetHost +:+ ", must be ready"))
  else if bool_decide (Machine_HostID machine = Some (MigrationRequest_TargetHostID req)) then
    fail (ErrText "machine is already on the target host")
  else
    let sourceHostID := Machine_HostID machine in
    let canBackup := is_some_b sourceHostID && Machine_BackupsEnabled machine &&
                     negb (String.eqb (srv_backupMasterKey s) "") in
    if is_some_b sourceHostID && negb canBackup && negb (MigrationRequest_Force req) then
      fail (ErrText data_loss)
    else ret (machine, targetHost, sourceHostID, canBackup).

Definition cleanupMachineIngress (machine : Machine) : M unit :=
  when (srv_kvStore s) (
    let! a := try (call (GetAccount (Machine_AccountID machine))) in
    match a with
    | Err _ => ret tt
    | Ok account => ignore (DeleteRouteSync (Account_Slug account) (Machine_Slug machine))
    end) ;;
  match srv_tunnelMgr s, Machine_TunnelID machine with
  | true, Some tunnelID =>
      ignore (remote (TunnelDelete tunnelID (dataPlaneHostname "m" (Machine_Slug machine))
                        (dataPlaneHostname "ssh" (Machine_Slug machine)))) ;;
      ignore (call (ClearMachineTunnel (Machine_ID machine)))
  | _, _ => ret tt
  end.

(** [hex.DecodeString(s.backupMasterKey)], [backup.DecryptKey], the agent's
    backup and [CreateBackupRecord]. *)
Definition createMigrationBackup (machine : Machine) (sourceHostID : Z)
    : M migrationBackupSnapshot :=
  let! sourceHost := wrap "failed to get source host" (call (GetHost sourceHostID)) in
  wrap "invalid backup master key" load ;;
  wrap "failed to decrypt backup key" load ;;
  let! gcsPath := wrap "backup VM failed"
    (remote (AgentBackupVM (Host_ID sourceHost) (Machine_ID machine)) ;; rand_hex) in
  wrap "failed to save backup record" load ;;
  let! id := rand_int in
  ret (mkBackupSnapshot (Z.of_nat id) gcsPath).

Definition finalizeStoppedSourceAfterMigrationAbort (machine : Machine) (sourceHostID : Z)
    : M unit :=
  wrap "soft stop source machine" (call (SoftStopMachine (Machine_ID machine) sourceHostID
    (Machine_VCPUs machine) (Machine_MemoryMB machine) 0)) ;;
  wrap "set home host" (call (UpdateMachineHomeHost (Machine_ID machine) (Some sourceHostID))) ;;
  wrap "release placement record" (call (ReleasePlacement (Machine_ID machine))) ;;
  cleanupMachineIngress machine.

Definition releaseMigrationSource (machine : Machine) (sourceHostID : Z)
    (releaseCapacity : bool) : M unit :=
  wrap "release migration source" (call (ReleaseMigrationSource (Machine_ID machine)
    sourceHostID (Machine_VCPUs machine) (Machine_MemoryMB machine) releaseCapacity)) ;;
  cleanupMachineIngress machine.

Definition currentMigrationStartSnapshot (machineID : string) (hostID : Z)
    : M migrationStartSnapshot :=
  let! r := try (call (GetActivePlacement machineID)) in
  ret (mkStartSnapshot hostID
         (match r with Ok p => Placement_ID p | Err _ => EmptyString end)).

Definition syncMachineRouteToKV (machineID : string) (host : Host) : M unit :=
  if negb (srv_kvStore s) then ret tt
  else
    match Host_TunnelURL host with
    | None => fail (ErrText "host has no tunnel URL")
    | Some url =>
        let! machine := wrap "failed to get machine" (call (GetMachine machineID)) in
        let! account := wrap "failed to get account"
          (call (GetAccount (Machine_AccountID machine))) in
        PutRouteSync (Account_Slug account) (Machine_Slug machine)
          (mkKVRouteEntry (Machine_ID machine) url
             (default EmptyString (Machine_ProxyToken machine)))
    end.

(** The error end of a waiting round. *)
Definition wait_failed (machineID status msg : string) : M unit :=
  ignore (call (UpdateMachineStatus machineID status (Some msg))) ;;
  fail (ErrText msg).

(** The rounds that start before the deadline, by what the agent answers. *)
Fixpoint wait_running (machineID : string) (host : Host) (placementID : string)
    (answers : list PollAnswer) (lastErr : option string) (consecutiveErrors : nat)
    : M unit :=
  match answers with
  | [] =>
      wait_failed machineID "error" (match lastErr with
        | None => "timeout waiting for VM to become running"%string
        | Some e => ("timeout waiting for VM to become running: " +:+ e)%string
        end)
  | answer :: rest =>
      emit (AgentGetVM (Host_ID host) machineID) ;;
      match answer with
      | PollError e =>
          if Nat.leb 30 (S consecutiveErrors) then
            wait_failed machineID "error" ("failed to poll VM status: " +:+ e)%string
          else wait_running machineID host placementID rest (Some e) (S consecutiveErrors)
      | PollStatus status errorMessage =>
          if String.eqb status "running" then
            let! r := try (syncMachineRouteToKV machineID host) in
            match r with
            | Err e => wait_failed machineID "error" ("KV sync failed: " +:+ Error e)%string
            | Ok _ =>
                (if String.eqb placementID "" then ret tt
                 else wrap "activate placement"
                        (let! _ := call (ActivatePlacement placementID) in ret tt)) ;;
                ignore (call (UpdateMachineStatus machineID "running" None))
            end
          else if String.eqb status "error" then
            wait_failed machineID "error"
              (if String.eqb errorMessage "" then "VM creation failed"%string else errorMessage)
          else if String.eqb status "stopped" then
            wait_failed machineID "stopped" "VM stopped unexpectedly during creation"
          else wait_running machineID host placementID rest lastErr 0
      end
  end.
Definition waitForMachineRunningOnHost (machineID : string) (host : Host)
    (placementID : string) (answers : list PollAnswer) : M unit :=
  wait_running machineID host placementID answers None 0.

(** [rounds] rounds start before the deadline. *)
Fixpoint waitForMachineStatus (machineID desiredStatus : string) (rounds : nat) : M unit :=
  match rounds with
  | O => fail (ErrText ("timed out waiting for status " +:+ desiredStatus))
  | S n =>
      let! m := wrap "failed to get machine" (call (GetMachine machineID)) in
      if String.eqb (Machine_Status m) desiredStatus then ret tt
      else if String.eqb (Machine_Status m) "error" then
        fail (ErrText "machine entered error state")
      else waitForMachineStatus machineID desiredStatus n
  end.

Definition cleanupFailedMigrationTarget (machineID : string) : M unit :=
  let! r := try (call (GetMachine machineID)) in
  match r with
  | Err _ => ret tt
  | Ok machine =>
      (match Machine_HostID machine with
       | Some hid =>
           when (rs_agentClient rs) (
             let! h := try (call (GetHost hid)) in
             match h with
             | Err _ => ret tt
             | Ok host => ignore (remote (AgentDestroyVM (Host_ID host) machineID))
             end)
       | None => ret tt
       end) ;;
      ignore (Release (rs_placement rs) machineID ReleaseHard) ;;
      cleanupMachineIngress machine
  end.

(** ** The workflow *)

(** The variable parts of the environment: what the agent answers while the
    target is awaited (first start and restart), and how many rounds the wait
    for the stop has. *)
Variables (answers1 answers2 : list PollAnswer) (rounds : nat).

Definition updateMigrationWorkflowState (workflowID status phase : string)
    (result : migrationWorkflowResult) (message : string) (details : option json) : M unit :=
  when (srv_workflows s) (
    ignore (UpdateStatus workflowID status (Some phase) (Some (summary_json workflowID result))
              None None) ;;
    ignore (AddEvent (mkEventParams workflowID (Some phase) "info" "workflow.phase" message
              details))).

(** The deferred end: [err] is the error the workflow returns. *)
Definition finalizeMigrationWorkflow (workflowID operationID : string)
    (result : migrationWorkflowResult) (err : option error) : M unit :=
  match err with
  | Some e =>
      let msg := Error e in
      updateMigrationWorkflowState workflowID StatusFailed "complete" result
        "migration failed" (Some (JObj [("error"%string, JStr msg)])) ;;
      ignore (Complete workflowID StatusFailed (Some (result_json result))
                (Some "migration_failed"%string) (Some msg)) ;;
      ignore (call (CompleteMachineOperation operationID "failed" (Some msg)))
  | None =>
      ignore (Complete workflowID StatusCompleted (Some (result_json result)) None None) ;;
      ignore (call (CompleteMachineOperation operationID "completed" None))
  end.

(** [x, err := m; if err != nil { return result, err }]. *)
Definition or_return {A} (result : migrationWorkflowResult) (m : M A)
    (k : A → M (migrationWorkflowResult * option error))
    : M (migrationWorkflowResult * option error) :=
  let! r := try m in
  match r with
  | Ok a => k a
  | Err e => ret (result, Some e)
  end.

Section Phases.
  Variable workflowID : string.
  Variable input : migrationWorkflowInput.
  Abbreviation req := (MigrationInput_Request input).
  Abbreviation machineID := (MigrationRequest_MachineID req).
  Abbreviation phase := (updateMigrationWorkflowState workflowID).

Definition step_prepare : M migrationWorkflowPlan :=
  let! v := validateMigrationRequest req in
  let '(_, _, sourceHostID, canBackup) := v in
  let! machine := call (GetMachine machineID) in
  ret (mkMigrationPlan sourceHostID
    (one_of ["running"; "provisioning"; "error"]%string (Machine_Status machine)) canBackup).

Definition step_stop_source (sourceHostID : Z) : M bool :=
  let! machine := call (GetMachine machineID) in
  if negb (String.eqb (Machine_Status machine) "running") then ret false
  else
    let! sourceHost := call (GetHost sourceHostID) in
    wrap "failed to stop machine" (remote (AgentStopVM (Host_ID sourceHost) (Machine_ID machine))) ;;
    ret true.

Definition step_backup (sourceHostID : Z) : M (option migrationBackupSnapshot) :=
  let! machine := call (GetMachine machineID) in
  let! r := try (createMigrationBackup machine sourceHostID) in
  match r with
  | Ok record => ret (Some record)
  | Err e => if MigrationRequest_Force req then ret None else fail e
  end.

Definition step_abort_restore_source (sourceHostID : Z) : M bool :=
  let! machine := wrap "abort cleanup: failed to get machine" (call (GetMachine machineID)) in
  wrap "abort cleanup" (finalizeStoppedSourceAfterMigrationAbort machine sourceHostID) ;;
  ret true.

Definition step_destroy_source (sourceHostID : Z) : M bool :=
  let! sourceHost := wrap "destroy_source_vm: failed to get host" (call (GetHost sourceHostID)) in
  ignore (remote (AgentDestroyVM (Host_ID sourceHost) machineID)) ;;
  ret true.

Definition step_release_source (sourceHostID : Z) (releaseCapacity : bool) : M bool :=
  let! machine := call (GetMachine machineID) in
  releaseMigrationSource machine sourceHostID releaseCapacity ;;
  ret true.

Definition step_start_target : M migrationStartSnapshot :=
  let! machine := call (GetMachine machineID) in
  if bool_decide (Machine_HostID machine = Some (MigrationRequest_TargetHostID req)) then
    currentMigrationStartSnapshot (Machine_ID machine) (MigrationRequest_TargetHostID req)
  else
    let! started := wrap "failed to start on target host"
      (StartWithOperation rs machine (MigrationInput_OperationID input)
         (mkStartOptions (MigrationRequest_TargetHostID req) true false)) in
    let '(host, _, _) := started in
    currentMigrationStartSnapshot (Machine_ID machine) (Host_ID host).

Definition step_wait_running (start : migrationStartSnapshot) (answers : list PollAnswer)
    : M bool :=
  let! host := call (GetHost (StartSnapshot_HostID start)) in
  waitForMachineRunningOnHost machineID host (StartSnapshot_PlacementID start) answers ;;
  ret true.

Definition step_stop_for_restore : M bool :=
  let! machine := call (GetMachine machineID) in
  if String.eqb (Machine_Status machine) "stopped" then ret false
  else
    wrap "failed to stop for restore"
      (StopWithOperation rs machine (MigrationInput_OperationID input)) ;;
    ret true.

Definition step_restore (snapshot : migrationBackupSnapshot) : M bool :=
  let! machine := call (GetMachine machineID) in
  match Machine_HostID machine with
  | None => fail (ErrText "machine has no host after stop")
  | Some hid =>
      let! restoreHost := wrap "failed to get restore host" (call (GetHost hid)) in
      wrap "invalid backup master key config" load ;;
      wrap "failed to decrypt backup key" load ;;
      wrap "restore failed" (remote (AgentRestoreVM (Host_ID restoreHost) (Machine_ID machine)
                                       (BackupSnapshot_GCSPath snapshot))) ;;
      ret true
  end.

Definition step_restart_restored : M migrationStartSnapshot :=
  let! machine := call (GetMachine machineID) in
  let! started := wrap "restore succeeded but failed to restart"
    (StartWithOperation rs machine (MigrationInput_OperationID input)
       (mkStartOptions 0 true false)) in
  let '(host, _, _) := started in
  currentMigrationStartSnapshot (Machine_ID machine) (Host_ID host).

(** The restore of the backup on the target. *)
Definition migrate_restore (snapshot : migrationBackupSnapshot)
    (result : migrationWorkflowResult) : M (migrationWorkflowResult * option error) :=
  let details := Some (JObj [("backup_id"%string, JNum (BackupSnapshot_ID snapshot))]) in
  or_return result (RunAsStep 3 step_stop_for_restore) (λ _,
  phase StatusWaiting "wait_stopped" result "waiting for machine to stop before restore" None ;;
  or_return result (RunAsStep 0 (waitForMachineStatus machineID "stopped" rounds ;; ret true))
    (λ _,
  phase StatusRunning "restore_backup" result "restoring backup on target host" details ;;
  or_return result (RunAsStep 0 (step_restore snapshot)) (λ _,
  phase StatusRunning "restart_restored" result "restarting restored machine" None ;;
  or_return result (RunAsStep 0 step_restart_restored) (λ restoredStart,
  phase StatusWaiting "wait_restored_running" result
    "waiting for restored machine to become running" None ;;
  let! waited := try (RunAsStep 0 (step_wait_running restoredStart answers2)) in
  match waited with
  | Err e => cleanupFailedMigrationTarget machineID ;; ret (result, Some e)
  | Ok _ =>
      let result := result <| MigrationResult_Status := "migrated_and_restored"%string |> in
      phase StatusRunning "complete" result "migration and restore completed" None ;;
      ret (result, None)
  end)))).

(** From the start on the target to the end. *)
Definition migrate_target (backup : option migrationBackupSnapshot)
    (result : migrationWorkflowResult) : M (migrationWorkflowResult * option error) :=
  phase StatusRunning "start_target" result "starting on target host" None ;;
  or_return result (RunAsStep 0 step_start_target) (λ targetStart,
  phase StatusWaiting "wait_target_running" result "waiting for target machine to become running"
    (Some (JObj [("host_id"%string, JNum (StartSnapshot_HostID targetStart))])) ;;
  let! waited := try (RunAsStep 0 (step_wait_running targetStart answers1)) in
  match waited, backup with
  | Err e, _ => cleanupFailedMigrationTarget machineID ;; ret (result, Some e)
  | Ok _, None =>
      let result := result <| MigrationResult_Status := "migrated"%string |> in
      phase StatusRunning "complete" result "migration completed" None ;;
      ret (result, None)
  | Ok _, Some snapshot =>
      let details := Some (JObj [("backup_id"%string, JNum (BackupSnapshot_ID snapshot))]) in
      phase StatusRunning "stop_for_restore" result "stopping target machine for restore" details ;;
      migrate_restore snapshot result
  end).

(** The release of the source, when there is one, and what follows. *)
Definition migrate_source (plan : migrationWorkflowPlan)
    (backup : option migrationBackupSnapshot) (result : migrationWorkflowResult)
    : M (migrationWorkflowResult * option error) :=
  match MigrationPlan_SourceHostID plan with
  | None => migrate_target backup result
  | Some sourceHostID =>
      phase StatusRunning "destroy_source_vm" result "destroying source VM handle" None ;;
      or_return result (RunAsStep 0 (step_destroy_source sourceHostID)) (λ _,
      phase StatusRunning "release_source" result "releasing source placement" None ;;
      or_return result (RunAsStep 3
        (step_release_source sourceHostID (MigrationPlan_ReleaseCapacity plan))) (λ _,
      migrate_target backup result))
  end.

(** The backup of the source, when it can be taken, and what follows. *)
Definition migrate_backup (plan : migrationWorkflowPlan) (result : migrationWorkflowResult)
    : M (migrationWorkflowResult * option error) :=
  match MigrationPlan_SourceHostID plan, MigrationPlan_CanBackup plan with
  | Some sourceHostID, true =>
      phase StatusRunning "backup_source" result "creating migration backup" None ;;
      let! r := try (RunAsStep 1 (step_backup sourceHostID)) in
      match r with
      | Err e =>
          (* the source may have been stopped: restore its state *)
          ignore (RunAsStep 0 (step_abort_restore_source sourceHostID)) ;;
          ret (result, Some e)
      | Ok backup =>
          let result := match backup with
            | Some b => result <| MigrationResult_BackupID := Some (BackupSnapshot_ID b) |>
            | None => result
            end in
          migrate_source plan backup result
      end
  | _, _ => migrate_source plan None result
  end.

Definition migrate_body (result : migrationWorkflowResult)
    : M (migrationWorkflowResult * option error) :=
  phase StatusRunning "prepare" result "migration started" None ;;
  or_return result (RunAsStep 3 step_prepare) (λ plan,
  match MigrationPlan_SourceHostID plan with
  | None => migrate_backup plan result
  | Some sourceHostID =>
      phase StatusRunning "stop_source" result "stopping source machine"
        (Some (JObj [("source_host_id"%string, JNum sourceHostID)])) ;;
      or_return result (RunAsStep 3 (step_stop_source sourceHostID)) (λ _,
      migrate_backup plan result)
  end).

Definition runMigrationWorkflow : M (migrationWorkflowResult * option error) :=
  let result := mkMigrationResult workflowID "" machineID
                  (MigrationRequest_TargetHostID req) None in
  let! out := migrate_body result in
  let '(result, err) := out in
  finalizeMigrationWorkflow workflowID (MigrationInput_OperationID input) result err ;;
  ret (result, err).
End Phases.

(** ** Queueing the workflow *)

(** The status of a validation error. *)
Definition validation_status (e : error) : Z :=
  if errors_is e ErrNoRows then 404
  else match e with ErrText _ => 400 | _ => 500 end.

Definition enqueueAdminMigrationWorkflow (req : adminMigrationRequest) (user : option Z)
    : M response :=
  let! v := try (validateMigrationRequest req) in
  match v with
  | Err e => writeError (validation_status e) (Error e)
  | Ok (machine, _, _, _) =>
      if negb (srv_workflows s) then writeError 503 "workflow runtime not configured"
      else
        let! wid := try NewID in
        match wid with
        | Err _ => writeError 500 "failed to generate workflow ID"
        | Ok workflowID =>
            let! o := try (call (CreateMachineOperation (mkMachineOperation "" (Machine_ID machine)
                        "migrate" "" (Some workflowID) None None 0 None))) in
            match o with
            | Err e => writeError 409 ("machine has an in-flight operation: " +:+ Error e)
            | Ok op =>
                let opID := MachineOperation_ID op in
                let input := mkMigrationInput req opID user (Machine_AccountID machine) in
                let queue_failed code msg reply :=
                  ignore (Complete workflowID StatusFailed None (Some code) (Some msg)) ;;
                  ignore (call (CompleteMachineOperation opID "failed" (Some msg))) ;;
                  writeError 500 reply in
                let! run := try (CreateRun (mkCreateRunParams workflowID KindMigration "machine"
                  (Machine_ID machine) user (Some (Machine_AccountID machine)) "high"
                  (Some (input_json input)))) in
                match run with
                | Err _ =>
                    let msg := "failed to create migration workflow"%string in
                    ignore (call (CompleteMachineOperation opID "failed" (Some msg))) ;;
                    writeError 500 msg
                | Ok run =>
                    let! ev := try (AddEvent (mkEventParams workflowID None "info"
                      "workflow.queued" "migration queued" (Some (JObj
                        [("machine_id", JStr (MigrationRequest_MachineID req));
                         ("target_host_id", JNum (MigrationRequest_TargetHostID req));
                         ("machine_op_id", JStr opID);
                         ("requested_by_id", json_id user)]%string)))) in
                    match ev with
                    | Err e => queue_failed "workflow_queue_failed"%string (Error e)
                                 "failed to queue migration workflow"%string
                    | Ok _ =>
                        let! q := try (remote (WorkflowEnqueue (WorkflowRun_ID run)
                          QueueMachineLifecycle (MigrationRequest_MachineID req))) in
                        match q with
                        | Err e => queue_failed "workflow_enqueue_failed"%string (Error e)
                                     "failed to enqueue migration workflow"%string
                        | Ok _ =>
                            writeJSON 202 (JObj [("status", JStr StatusQueued);
                              ("workflow_id", JStr workflowID);
                              ("machine_id", JStr (MigrationRequest_MachineID req));
                              ("target_host_id",
                                JNum (MigrationRequest_TargetHostID req))]%string)
                        end
                    end
                end
            end
        end
  end.

(** ** The migration in the request

    The body returns the response and the message [failMigration] recorded.  The
    poller that the first start leaves running is run before the wait that
    watches it. *)
Definition outcome : Type := response * option string.
Definition failMigration (status : Z) (msg : string) : M outcome :=
  let! r := writeError status msg in ret (r, Some msg).
(** [x, err := m; if err != nil { failMigration; writeError; return }]. *)
Definition or_fail {A} (m : M A) (msg : error → string) (k : A → M outcome) : M outcome :=
  let! r := try m in
  match r with
  | Ok a => k a
  | Err e => failMigration 500 (msg e)
  end.
Definition because (what : string) (e : error) : string := (what +:+ ": " +:+ Error e)%string.
Definition manually (backup : migrationBackupSnapshot) (what : string) (e : error) : string :=
  (because what e +:+ " (backup_id=" +:+ pretty (BackupSnapshot_ID backup) +:+
     ", restore manually)")%string.

Section Request.
  Variable req : adminMigrationRequest.
  Variable opID : string.
  Abbreviation machineID := (MigrationRequest_MachineID req).

(** Steps 3 and 4: destroy the source VM, release the source. *)
Definition sync_release (machine : Machine) (k : M outcome) : M outcome :=
  match Machine_HostID machine with
  | None => k
  | Some sourceHostID =>
      let! h := try (call (GetHost sourceHostID)) in
      (match h with
       | Ok sourceHost => ignore (remote (AgentDestroyVM (Host_ID sourceHost) (Machine_ID machine)))
       | Err _ => ret tt
       end) ;;
      or_fail (releaseMigrationSource machine sourceHostID
                 (one_of ["running"; "provisioning"; "error"]%string (Machine_Status machine)))
        (because "failed to release source host state") (λ _, k)
  end.

(** Step 6: stop, restore, restart. *)
Definition sync_restore (host : Host) (backup : migrationBackupSnapshot) : M outcome :=
  or_fail (waitForMachineStatus machineID "running" rounds)
    (manually backup "machine started but didn't reach running state") (λ _,
  or_fail (call (GetMachine machineID)) (manually backup "failed to reload machine after start")
    (λ machine,
  or_fail (StopWithOperation rs machine opID) (manually backup "failed to stop for restore") (λ _,
  or_fail (waitForMachineStatus machineID "stopped" rounds)
    (manually backup "machine didn't stop for restore") (λ _,
  or_fail (call (GetMachine machineID)) (manually backup "failed to reload machine before restore")
    (λ machine,
  match Machine_HostID machine with
  | None => failMigration 500 ("machine has no host after stop (backup_id=" +:+
              pretty (BackupSnapshot_ID backup) +:+ ", restore manually)")
  | Some hid =>
      or_fail (call (GetHost hid)) (manually backup "failed to get restore host") (λ restoreHost,
      or_fail load (λ _, "invalid backup master key config (backup_id=" +:+
        pretty (BackupSnapshot_ID backup) +:+ ", restore manually)")%string (λ _,
      or_fail load (manually backup "failed to decrypt backup key") (λ _,
      or_fail (remote (AgentRestoreVM (Host_ID restoreHost) (Machine_ID machine)
                 (BackupSnapshot_GCSPath backup))) (manually backup "restore failed") (λ _,
      (* the error of this read is dropped: a nil machine panics *)
      let! machine := call (GetMachine machineID) in
      or_fail (StartWithOperation rs machine opID (mkStartOptions 0 true false))
        (λ e, because "restore succeeded but failed to restart" e +:+ " (start manually)")%string (λ started,
      let '(restartHost, _, _) := started in
      let! p := try (call (GetActivePlacement machineID)) in
      let placementID := match p with Ok p => Placement_ID p | Err _ => EmptyString end in
      or_fail (waitForMachineRunningOnHost machineID restartHost placementID answers2)
        (λ e, because "restore succeeded but machine did not return to running" e +:+
                " (backup_id=" +:+ pretty (BackupSnapshot_ID backup) +:+
                ", inspect target host)")%string (λ _,
      let! r := writeJSON 200 (JObj [("status", JStr "migrated_and_restored");
        ("machine_id", JStr machineID); ("target_host_id", JNum (Host_ID host));
        ("backup_id", JNum (BackupSnapshot_ID backup))]%string) in
      ret (r, None)))))))
  end))))).

(** Step 5: start on the target. *)
Definition sync_start (backup : option migrationBackupSnapshot) : M outcome :=
  or_fail (call (GetMachine machineID)) (λ _, "failed to reload machine before start"%string)
    (λ machine,
  or_fail (StartWithOperation rs machine opID
             (mkStartOptions (MigrationRequest_TargetHostID req) false false))
    (λ e, because ("failed to start on target host " +:+
              pretty (MigrationRequest_TargetHostID req)) e +:+
            " (machine is stopped, can be started manually)")%string (λ started,
  let '(host, _, job) := started in
  match job with Some j => pollVMStatus rs j answers1 | None => ret tt end ;;
  match backup with
  | Some b => sync_restore host b
  | None =>
      or_fail (waitForMachineStatus machineID "running" rounds)
        (because "machine started on target but did not reach running state") (λ _,
      let! r := writeJSON 200 (JObj [("status", JStr "migrated");
        ("machine_id", JStr machineID); ("target_host_id", JNum (Host_ID host))]%string) in
      ret (r, None))
  end)).

(** Step 2: back up the source, then steps 3 to 6. *)
Definition sync_backup (machine : Machine) (canBackup stoppedDirectly : bool) : M outcome :=
  match Machine_HostID machine, canBackup with
  | Some sourceHostID, true =>
      let! b := try (createMigrationBackup machine sourceHostID) in
      match b with
      | Ok backup => sync_release machine (sync_start (Some backup))
      | Err e =>
          if MigrationRequest_Force req then sync_release machine (sync_start None)
          else
            let msg := because "backup failed" e in
            if stoppedDirectly then
              let! c := try (finalizeStoppedSourceAfterMigrationAbort machine sourceHostID) in
              failMigration 500 (msg +:+ match c with
                | Err ce => because " (machine was stopped, but failed to finalize stopped state" ce
                            +:+ ")"
                | Ok _ => " (machine has been left stopped on the source host)"
                end)
            else failMigration 500 msg
      end
  | _, _ => sync_release machine (sync_start None)
  end.

(** Step 1: stop the machine if running, then steps 2 to 6. *)
Definition sync_migrate (machine : Machine) (canBackup : bool) : M outcome :=
  if String.eqb (Machine_Status machine) "running" then
    match Machine_HostID machine with
    | None => failMigration 400 "machine is running but has no host"
    | Some sourceHostID =>
        or_fail (call (GetHost sourceHostID)) (λ _, "failed to get source host"%string)
          (λ sourceHost,
        or_fail (remote (AgentStopVM (Host_ID sourceHost) (Machine_ID machine)))
          (because "failed to stop machine") (λ _,
        sync_backup machine canBackup true))
    end
  else sync_backup machine canBackup false.
End Request.

(** The deferred completion; [None] is a panic, which it sees as a success. *)
Definition handleAdminMigrateMachine (req : adminMigrationRequest) (user : option Z)
    : M response :=
  if String.eqb (MigrationRequest_MachineID req) "" ||
     bool_decide (MigrationRequest_TargetHostID req = 0)
  then writeError 400 "machine_id and target_host_id are required"
  else if srv_workflows s then enqueueAdminMigrationWorkflow req user
  else
    let! m := try (call (GetMachine (MigrationRequest_MachineID req))) in
    match m with
    | Err _ => writeError 404 "machine not found"
    | Ok machine =>
        let! h := try (call (GetHost (MigrationRequest_TargetHostID req))) in
        match h with
        | Err _ => writeError 404 "target host not found"
        | Ok targetHost =>
            if negb (String.eqb (Host_Status targetHost) "ready") then
              writeError 400 ("target host is " +:+ Host_Status targetHost +:+ ", must be ready")
            else if bool_decide
                (Machine_HostID machine = Some (MigrationRequest_TargetHostID req)) then
              writeError 400 "machine is already on the target host"
            else
              let canBackup := is_some_b (Machine_HostID machine) &&
                Machine_BackupsEnabled machine && negb (String.eqb (srv_backupMasterKey s) "") in
              if is_some_b (Machine_HostID machine) && negb canBackup &&
                 negb (MigrationRequest_Force req) then
                writeError 400 data_loss
              else
                let! o := try (call (CreateMachineOperation
                  (new_operation (Machine_ID machine) "migrate"))) in
                match o with
                | Err e => writeError 409 ("machine has an in-flight operation: " +:+ Error e)
                | Ok op =>
                    let! out := try (sync_migrate req (MachineOperation_ID op) machine canBackup) in
                    let done state msg :=
                      ignore (call (CompleteMachineOperation (MachineOperation_ID op) state msg)) in
                    match out with
                    | Ok (r, None) => done "completed"%string None ;; ret r
                    | Ok (r, Some msg) => done "failed"%string (Some msg) ;; ret r
                    | Err e => done "completed"%string None ;; fail e
                    end
                end
        end
    end.

End Migration.
