(* ===== verification/MigrationLemmas.v ===== *)
(** * Lemmas on migration

    Where a machine is placed through the calls of a migration: frame
    conditions on its host and home host, under any faults, and the runs of a
    retried step. *)

From S2P Require Import Prelude Schema HostStore PlacementStore OperationStore.
From S2P Require Import AccountStore StoreStep RecordInv World Fleet FleetLemmas.
From S2P Require Import GoStrings.
From S2P Require Import Versions Routing Runtime RuntimeLemmas PollerLemmas Workflows.
From S2P Require Import Api Migration.

(** ** Machines that keep their host and their home *)

Definition home_columns (m : Machine) : string * option Z * option Z :=
  (Machine_ID m, Machine_HostID m, Machine_HomeHostID m).

Definition home_frame : relation DB := λ db db',
  (keyed Host_ID (db_hosts db) → keyed Host_ID (db_hosts db')) ∧
  ∀ id, home_columns <$> db_machines db' !! id = home_columns <$> db_machines db !! id.
#[export] Instance home_frame_preorder : PreOrder home_frame.
Proof.
  split; unfold home_frame; [done|]. intros db1 db2 db3 [K1 E1] [K2 E2].
  split; [auto|]. intros id. by rewrite E2.
Qed.

Lemma home_same {A} (q : Q A) :
  steps (same (λ db, (db_hosts db, db_machines db))) q → steps home_frame q.
Proof. intros H db. injection (H db) as Eh Em. split; [by rewrite Eh|by rewrite Em]. Qed.
Lemma home_reads {A} (q : Q A) : (∀ db, (q db).2 = db) → steps home_frame q.
Proof. intros H db. by rewrite H. Qed.
Lemma home_update id f :
  (∀ m, home_columns (f m) = home_columns m) → steps home_frame (update_machine id f).
Proof.
  intros Hf db. split; [done|]. intros k. cbn. rewrite lookup_alter. case_decide; [subst|done].
  destruct (db_machines db !! k); cbn; [|done]. by rewrite Hf.
Qed.
Lemma home_host id f : (∀ h, Host_ID (f h) = Host_ID h) → steps home_frame (update_host id f).
Proof. intros Hf db. split; [|done]. cbn. by apply keyed_alter. Qed.
Lemma home_GetMachine id : steps home_frame (GetMachine id).
Proof. apply home_reads. intros db. by rewrite GetMachine_run. Qed.
Lemma home_GetAccount id : steps home_frame (GetAccount id).
Proof. apply home_reads. intros db. by rewrite GetAccount_run. Qed.
Lemma home_GetHost id : steps home_frame (GetHost id).
Proof. apply home_reads. intros db. apply GetHost_db. Qed.
Lemma home_GetActive id : steps home_frame (GetActiveMachineOperation id).
Proof. apply home_reads. intros db. by rewrite GetActive_run. Qed.
Lemma home_status id status msg : steps home_frame (UpdateMachineStatus id status msg).
Proof. intros db. apply (home_update id (machine_set_status (db_now db) status msg)). done. Qed.
Lemma home_soft_stop id hid v m d : steps home_frame (SoftStopMachine id hid v m d).
Proof.
  unfold SoftStopMachine, now. go_steps; by first [apply home_host|apply home_update].
Qed.
Lemma home_version id a b : steps home_frame (UpdateMachineVersion id a b).
Proof. unfold UpdateMachineVersion, now. go_steps. by apply home_update. Qed.
Create HintDb home.
#[export] Hint Resolve home_version home_GetMachine home_GetAccount home_GetHost home_GetActive home_status
  home_soft_stop : home.

(** Every other call of the lifecycle. *)
Ltac home_call :=
  first [ solve [auto with home nocore] | apply home_update; by intros ?
        | apply home_same; by frame ].
Ltac home_go := repeat quiet_step; try home_call.

Section Frames.
Context {go_sort : GoSort} (rs : RuntimeService).

Lemma home_TeardownRoute s req : quiet home_frame (TeardownRoute s req).
Proof. unfold TeardownRoute. home_go. Qed.
Lemma home_teardown machine : quiet home_frame (teardown_route rs machine).
Proof. unfold teardown_route. home_go; apply home_TeardownRoute. Qed.
Lemma home_SetupRoute s req : quiet home_frame (SetupRoute s req).
Proof. unfold SetupRoute, persistRouteState. destruct (hostnames _ _). home_go. Qed.
Lemma home_setup_route machine : quiet home_frame (setup_route rs machine).
Proof. unfold setup_route. home_go; apply home_SetupRoute. Qed.
Lemma home_ensure_tokens machine : quiet home_frame (ensure_tokens machine).
Proof. unfold ensure_tokens. home_go. Qed.
Lemma home_latest kind channel : quiet home_frame (latestArtifactVersion kind channel).
Proof. unfold latestArtifactVersion. home_go. Qed.
Lemma home_selection machine d : quiet home_frame (resolveRuntimeSelection rs machine d).
Proof. unfold resolveRuntimeSelection. home_go. Qed.
Lemma home_auto_unpair machine host : quiet home_frame (auto_unpair rs machine host).
Proof. unfold auto_unpair. home_go. Qed.
Lemma home_stop_vm machine b : quiet home_frame (stop_vm rs machine b).
Proof. unfold stop_vm. home_go. Qed.
End Frames.

(** ** A machine at home on a host *)

(** The machine is on host [t], which is also where a restart would put it. *)
Definition at_home (mid : string) (t : Z) (db : DB) : Prop :=
  keyed Host_ID (db_hosts db) ∧
  ∃ m, db_machines db !! mid = Some m ∧ Machine_ID m = mid ∧ Machine_HostID m = Some t ∧
    (Machine_HomeHostID m = None ∨ Machine_HomeHostID m = Some t).

Lemma home_frame_at_home mid t db db' :
  home_frame db db' → at_home mid t db → at_home mid t db'.
Proof.
  intros [K E] (Hk & m & Hm & Hi & Hh & Hhome). split; [auto|]. specialize (E mid).
  rewrite Hm in E. apply fmap_Some in E as (m' & Hm' & [= E1 E2 E3]). exists m'.
  split; [done|]. by rewrite <-E1, <-E2, <-E3.
Qed.

(** Runs that keep it there, whatever their outcome. *)
Definition stays {A} (mid : string) (t : Z) (m : M A) : Prop :=
  steps (keeps (λ w, at_home mid t (w_db w))) m.
Lemma stays_quiet {A} mid t (m : M A) : quiet home_frame m → stays mid t m.
Proof. intros [H _] w Hw. eapply home_frame_at_home; [apply H|exact Hw]. Qed.
Lemma stays_bind {A B} mid t (m : M A) (k : A → M B) :
  stays mid t m → (∀ a, stays mid t (k a)) → stays mid t (bind m k).
Proof. intros Hm Hk. by apply steps_bind; [apply _|..]. Qed.
Lemma stays_try {A} mid t (m : M A) : stays mid t m → stays mid t (try m).
Proof. apply steps_try. Qed.
Lemma stays_wrap {A} mid t msg (m : M A) : stays mid t m → stays mid t (wrap msg m).
Proof. apply steps_wrap. Qed.
Lemma stays_ignore {A} mid t (m : M A) : stays mid t m → stays mid t (ignore m).
Proof. apply steps_ignore. Qed.

(** What follows a read knows the row that was read. *)
Lemma stays_read {A B} mid t (q : Q A) (k : A → M B) :
  (∀ db, (q db).2 = db) →
  (∀ a db, at_home mid t db → (q db).1 = Ok a → stays mid t (k a)) →
  stays mid t (bind (call q) k).
Proof.
  intros Hq Hk w Hw. unfold bind. pose proof (call_db q w) as Hc.
  destruct (call q w) as [[a|e] w1]; cbn.
  - destruct Hc as [[Ha Ed]|[? _]]; [|done]. rewrite Hq in Ed.
    refine (Hk a (w_db w) Hw (eq_sym Ha) w1 _). by rewrite Ed.
  - destruct Hc as [[_ ->]|[_ ->]]; [by rewrite Hq|done].
Qed.
Lemma stays_read_wrap {A B} mid t msg (q : Q A) (k : A → M B) :
  (∀ db, (q db).2 = db) →
  (∀ a db, at_home mid t db → (q db).1 = Ok a → stays mid t (k a)) →
  stays mid t (bind (wrap msg (call q)) k).
Proof.
  intros Hq Hk w Hw. pose proof (stays_read mid t q k Hq Hk w Hw) as H.
  unfold bind, wrap in *. by destruct (call q w) as [[a|e] w1].
Qed.

Definition here (mid : string) (t : Z) (m : Machine) : Prop :=
  Machine_ID m = mid ∧ Machine_HostID m = Some t ∧
  (Machine_HomeHostID m = None ∨ Machine_HomeHostID m = Some t).
Lemma here_read mid t m db : at_home mid t db → (GetMachine mid db).1 = Ok m → here mid t m.
Proof. intros (_ & m0 & Hm & H). rewrite GetMachine_run, Hm. by intros [= <-]. Qed.
Lemma host_read mid t h db : at_home mid t db → (GetHost t db).1 = Ok h → Host_ID h = t.
Proof.
  intros (Hk & _) E. pose proof (GetHost_db t db) as Ed.
  destruct (GetHost t db) as [r d] eqn:Eq. cbn in E, Ed. subst r d.
  apply GetHost_ok in Eq as (h0 & Hh0 & -> & _). exact (Hk _ _ Hh0).
Qed.

Section AtHome.
Context {go_sort : GoSort} (rs : RuntimeService).

Lemma stays_set_home mid t : stays mid t (call (UpdateMachineHomeHost mid (Some t))).
Proof.
  intros w Hw. pose proof (call_db (UpdateMachineHomeHost mid (Some t)) w) as Hc.
  destruct (call _ w) as [r w2]. cbn. destruct Hc as [[_ ->]|[_ ->]]; [|exact Hw].
  unfold UpdateMachineHomeHost, bind, get, references, update_machine, modify.
  cbn. destruct (is_some_b _ || _); cbn; [|exact Hw].
  destruct Hw as (Hk & m1 & Hm1 & ? & ? & ?). split; [done|]. cbn.
  rewrite lookup_alter_eq, Hm1. cbn. eexists. split; [reflexivity|]. cbn. auto.
Qed.

Lemma stays_release_soft config mid t : stays mid t (Release config mid ReleaseSoft).
Proof.
  unfold Release. apply stays_read_wrap; [intros; apply GetMachine_db|].
  intros m db Hdb Hm. destruct (here_read _ _ _ _ Hdb Hm) as (_ & -> & _).
  apply stays_bind; [apply stays_quiet; home_go|intros _].
  apply stays_bind; [apply stays_quiet; home_go|intros _].
  apply stays_ignore, stays_set_home.
Qed.

Lemma stays_reallocate mid t v m d : stays mid t (call (ReAllocateHostCapacity mid t v m d)).
Proof.
  intros w Hw. destruct (call _ w) as [[ip|e] w'] eqn:E; cbn.
  - apply call_ok, ReAllocate_ok in E as (h & r & _ & Hr & _ & _ & ->).
    destruct Hw as (Hk & m0 & Hm0 & ? & ? & ?). split; [by apply keyed_alter|]. cbn.
    rewrite lookup_alter_eq, Hm0. cbn. eexists. split; [reflexivity|]. cbn. auto.
  - assert (w_db w' = w_db w) as ->; [|exact Hw].
    eapply call_err_same; [|exact E]. intros ???. apply tx_err.
Qed.

Lemma stays_recover config mid t req : stays mid t (RecoverAffinity config mid req).
Proof.
  unfold RecoverAffinity. apply stays_read_wrap; [intros; apply GetMachine_db|].
  intros m db Hdb Hm. destruct (here_read _ _ _ _ Hdb Hm) as (_ & Hh & Hhome).
  assert (match Machine_HomeHostID m with Some h => Some h | None => Machine_HostID m end = Some t)
    as -> by (destruct Hhome as [->| ->]; done).
  apply stays_read_wrap; [intros; apply GetHost_db|]. intros host db' Hdb' Hg.
  apply (host_read mid) in Hg as ->; [|exact Hdb'].
  apply stays_bind; [apply stays_quiet; home_go|intros now].
  apply stays_bind; [apply stays_quiet; home_go|intros _]. cbv zeta.
  apply stays_bind; [apply stays_wrap, stays_reallocate|intros ip].
  apply stays_quiet. home_go.
Qed.

(** A restart leaves the machine where it was at home, and so does a stop. *)
Lemma stays_choose_host mid t machine opts req :
  here mid t machine → StartOptions_TargetHostID opts = 0 →
  stays mid t (choose_host rs machine opts req).
Proof.
  intros (Hi & Hh & _) Ht. unfold choose_host. rewrite Ht, Hh. cbn [negb bool_decide].
  apply stays_read_wrap; [intros; apply GetHost_db|]. intros host db _ _.
  destruct (String.eqb _ _); [apply stays_quiet; unfold requireMigration; home_go|].
  destruct (one_of _ _); [apply stays_quiet; unfold requireMigration; home_go|].
  rewrite Hi. apply stays_recover.
Qed.

Lemma stays_create_vm mid t machine op managed opts selection placement host ip :
  Machine_ID machine = mid →
  stays mid t (create_vm rs machine op managed opts true selection placement host ip).
Proof.
  intros Hi. unfold create_vm. apply stays_bind; [apply stays_quiet; home_go|intros _].
  apply stays_bind; [apply stays_quiet; home_go|intros [u|e]].
  - apply stays_quiet. home_go.
  - apply stays_bind; [rewrite Hi; apply stays_ignore, stays_release_soft|intros _].
    apply stays_bind; [apply stays_quiet|intros _; apply stays_quiet; home_go].
    destruct (Machine_TunnelID machine), (rs_routing rs); home_go.
Qed.

(** The machine a start works on keeps the columns of the row. *)
Lemma ensure_tokens_columns machine w machine' w' :
  ensure_tokens machine w = (Ok machine', w') → home_columns machine' = home_columns machine.
Proof.
  unfold ensure_tokens. destruct (Machine_GatewayToken machine), (Machine_ProxyToken machine);
    [by intros [= <- _]|..]; rewrite !bind_ok; intros (? & ? & _ & E); rewrite bind_ok in E;
    destruct E as (? & ? & _ & E); rewrite bind_ok in E; destruct E as (? & ? & _ & [= <- _]); done.
Qed.
Lemma setup_route_columns machine w machine' w' :
  setup_route rs machine w = (Ok machine', w') → home_columns machine' = home_columns machine.
Proof.
  unfold setup_route. destruct (rs_routing rs); [|by intros [= <- _]].
  rewrite bind_ok. by intros (? & ? & _ & [= <- _]).
Qed.

(** [stays_bind] with what the first part returned. *)
Lemma stays_bind_ok {A B} mid t (m : M A) (k : A → M B) :
  stays mid t m → (∀ w a w', m w = (Ok a, w') → stays mid t (k a)) → stays mid t (bind m k).
Proof.
  intros Hm Hk w Hw. unfold bind. specialize (Hm w Hw). destruct (m w) as [[a|e] w'] eqn:E; [|done].
  by eapply Hk.
Qed.

Lemma stays_start mid t machine opid opts :
  opid ≠ ""%string → here mid t machine → StartOptions_TargetHostID opts = 0 →
  stays mid t (StartWithOperation rs machine opid opts).
Proof.
  intros Ho Hhere Ht. unfold StartWithOperation, start.
  rewrite (proj2 (String.eqb_neq opid "") Ho). cbv zeta.
  apply stays_bind; [apply stays_quiet; unfold requireActiveOperation; home_go|intros op].
  apply stays_bind; [apply stays_try|intros [v|e]; apply stays_quiet; home_go].
  unfold start_body.
  apply stays_bind; [apply stays_quiet; home_go|intros _].
  apply stays_bind; [apply stays_quiet; home_go|intros _].
  apply stays_bind_ok; [apply stays_quiet, home_ensure_tokens|].
  intros w1 m1 w2 E1%ensure_tokens_columns.
  apply stays_bind_ok; [apply stays_quiet, home_setup_route|].
  intros w3 m2 w4 E2%setup_route_columns. rewrite E1 in E2. clear E1 w1 w2 w3 w4 m1.
  assert (here mid t m2) as Hm2.
  { destruct Hhere as (? & ? & ?). injection E2 as F1 F2 F3. unfold here. by rewrite F1, F2, F3. }
  clear E2 Hhere. pose proof Hm2 as (Hi & Hh & _). cbv zeta.
  apply stays_bind; [apply stays_quiet; home_go; first [apply home_latest|apply home_selection]|].
  intros sel. apply stays_bind; [by apply stays_choose_host|intros [[pl host] ip]].
  apply stays_bind; [apply stays_quiet, home_auto_unpair|intros _].
  rewrite Hh. cbn [is_some_b].
  apply stays_bind; [apply stays_quiet; home_go|intros _].
  destruct (rs_agentClient rs); [|apply stays_quiet; home_go].
  apply stays_bind; [by apply stays_create_vm|intros job; apply stays_quiet; home_go].
Qed.

Lemma stays_stop mid t machine opid :
  opid ≠ ""%string → Machine_ID machine = mid →
  stays mid t (StopWithOperation rs machine opid).
Proof.
  intros Ho Hi. unfold StopWithOperation, stop.
  rewrite (proj2 (String.eqb_neq opid "") Ho).
  apply stays_bind; [apply stays_quiet; unfold requireActiveOperation; home_go|intros _].
  unfold stop_body. rewrite Hi.
  apply stays_bind; [apply stays_quiet, home_stop_vm|intros _].
  apply stays_bind; [apply stays_wrap, stays_release_soft|intros _].
  apply stays_bind; [apply stays_quiet; apply quiet_ignore, home_teardown|intros _].
  apply stays_quiet. home_go.
Qed.

(** ** A start on a requested host *)

Definition columns_of (mid : string) (db : DB) : option (string * option Z * option Z) :=
  home_columns <$> db_machines db !! mid.

Lemma Reserve_target config id req w p host ip w' :
  keyed Host_ID (db_hosts (w_db w)) → PlacementRequest_TargetHostID req ≠ 0 →
  Reserve config id req w = (Ok (p, host, ip), w') →
  Host_ID host = PlacementRequest_TargetHostID req ∧
  keyed Host_ID (db_hosts (w_db w')) ∧
  ∀ i h home, columns_of id (w_db w) = Some (i, h, home) →
    columns_of id (w_db w') = Some (i, Some (Host_ID host), home).
Proof.
  intros Hk Ht E. pose proof (Reserve_placed config id req w p host ip w' Hk E) as Hp.
  split.
  - unfold Reserve in E. rewrite bool_decide_eq_false_2 in E by done.
    unfold placeOnSpecificHost in E. rewrite bind_ok in E. destruct E as (ip' & w1 & E1 & E).
    rewrite wrap_ok in E1. apply call_ok in E1. rewrite PlaceOnHost_run in E1.
    assert (keyed Host_ID (db_hosts (w_db w1))) as Hk1.
    { destruct (db_hosts (w_db w) !! _); [|done]. destruct (placeable _ _ _ _ _); [|done].
      destruct (first_free_ip _ _ _); [|done]. injection E1 as _ <-. by apply keyed_alter. }
    rewrite bind_try in E. destruct (call (GetHost _) w1) as [[h|e] w2] eqn:E2; cbn in E;
      [|discriminate E].
    apply call_ok, GetHost_ok in E2 as (h0 & Hh0 & -> & _). rewrite bind_try in E.
    destruct (call (ReservePlacement _ _ _ _) w2) as [[pl|e] w3]; injection E as _ <- _ _;
      exact (Hk1 _ _ Hh0).
  - destruct Hp as (db1 & E1 & E2). rewrite PlaceOnHost_run in E1.
    destruct (db_hosts (w_db w) !! _); [|done]. destruct (placeable _ _ _ _ _); [|done].
    destruct (first_free_ip _ _ _) as [ip'|]; [|done]. injection E1 as <- <-.
    assert (db_hosts (w_db w') = alter (host_use (PlacementRequest_VCPUs req)
        (PlacementRequest_MemoryMB req) (request_disk config req)) (Host_ID host)
        (db_hosts (w_db w)) ∧
      db_machines (w_db w') = alter (machine_assign (db_now (w_db w)) (Host_ID host) ip')
        id (db_machines (w_db w))) as [Eh Em].
    { destruct p as [pl|]; [|by rewrite E2].
      apply ReservePlacement_ok in E2 as (_ & _ & _ & _ & _ & _ & ->). done. }
    split; [rewrite Eh; by apply keyed_alter|]. intros i h1 home Hc. unfold columns_of in *.
    rewrite Em, lookup_alter_eq. destruct (db_machines (w_db w) !! id); [|done].
    by injection Hc as <- _ <-.
Qed.

(** Successful runs that keep every machine where it is. *)
Definition lands {A} (m : M A) (P : A → relation DB) : Prop :=
  ∀ w a w', m w = (Ok a, w') → P a (w_db w) (w_db w').
Lemma quiet_lands {A} (m : M A) : quiet home_frame m → lands m (λ _, home_frame).
Proof. intros [H _] w a w' E. specialize (H w). by rewrite E in H. Qed.

Lemma create_vm_lands machine op managed opts isRestart selection placement host ip :
  lands (create_vm rs machine op managed opts isRestart selection placement host ip)
    (λ _, home_frame).
Proof.
  unfold create_vm. intros w job w'.
  rewrite bind_ok. intros (u & w1 & E1 & E).
  apply (quiet_lands (ignore (remote (AgentDestroyVM (Host_ID host) (Machine_ID machine))))) in E1;
    [|home_go].
  rewrite bind_try in E. pose proof (proj1 (quiet_remote home_frame
    (AgentCreateVM (Host_ID host) (Machine_ID machine) ip)) w1) as E2.
  destruct (remote _ w1) as [[u2|e] w2]; cbn [fst snd] in E, E2.
  - etransitivity; [exact E1|]. etransitivity; [exact E2|]. revert E.
    match goal with |- ?m w2 = _ → _ => enough (quiet home_frame m) as Hq
      by (apply (quiet_lands _ Hq)) end.
    cbv zeta. home_go.
  - apply bind_ok in E as (? & ? & _ & E). apply bind_ok in E as (? & ? & _ & E). discriminate E.
Qed.

(** A start that puts the machine on host [t]. *)
Definition landing (mid : string) (t : Z) (out : Host * string * option PollJob)
    : relation DB := λ db db',
  keyed Host_ID (db_hosts db) → ∀ i h home, columns_of mid db = Some (i, h, home) →
  Host_ID out.1.1 = t ∧ keyed Host_ID (db_hosts db') ∧
  columns_of mid db' = Some (i, Some t, home).

Lemma lands_after {A} mid t (m : M A) k :
  quiet home_frame m →
  (∀ a w w', m w = (Ok a, w') → lands (k a) (landing mid t)) →
  lands (bind m k) (landing mid t).
Proof.
  intros Hm Hk w out w' (a & w1 & E1 & E)%bind_ok. pose proof (quiet_lands m Hm w a w1 E1) as [K F].
  intros Hkey i h home Hc. apply (Hk a w w1 E1 w1 out w' E (K Hkey) i h home).
  unfold columns_of in *. by rewrite F.
Qed.

Lemma choose_target_lands machine opts req w p host ip w' :
  StartOptions_TargetHostID opts ≠ 0 →
  PlacementRequest_TargetHostID req = StartOptions_TargetHostID opts →
  choose_host rs machine opts req w = (Ok (p, host, ip), w') →
  keyed Host_ID (db_hosts (w_db w)) →
  Host_ID host = StartOptions_TargetHostID opts ∧ keyed Host_ID (db_hosts (w_db w')) ∧
  ∀ i h home, columns_of (Machine_ID machine) (w_db w) = Some (i, h, home) →
    columns_of (Machine_ID machine) (w_db w') = Some (i, Some (Host_ID host), home).
Proof.
  intros Ht Er E Hk. unfold choose_host in E. rewrite bool_decide_eq_false_2 in E by done.
  cbn [negb] in E. rewrite wrap_ok in E. rewrite <-Er. eapply Reserve_target; [done| |exact E].
  by rewrite Er.
Qed.

Lemma start_lands machine opid opts :
  opid ≠ ""%string → StartOptions_TargetHostID opts ≠ 0 →
  lands (StartWithOperation rs machine opid opts)
    (landing (Machine_ID machine) (StartOptions_TargetHostID opts)).
Proof.
  intros Ho Ht. unfold StartWithOperation, start.
  rewrite (proj2 (String.eqb_neq opid "") Ho). cbv zeta.
  apply lands_after; [unfold requireActiveOperation; home_go|intros op _ _ _].
  intros w v w' E. rewrite bind_try in E.
  destruct (start_body _ _ _ _ _ w) as [[v'|e] w2] eqn:E2; cbn in E; [|discriminate E].
  injection E as -> <-. revert w v w2 E2. fold (lands (start_body rs machine op false opts)
    (landing (Machine_ID machine) (StartOptions_TargetHostID opts))). unfold start_body.
  apply lands_after; [home_go|intros _ _ _ _]. apply lands_after; [home_go|intros _ _ _ _].
  apply lands_after; [apply home_ensure_tokens|]. intros m1 w1 w2 E1%ensure_tokens_columns.
  apply lands_after; [apply home_setup_route|]. intros m2 w3 w4 E2%setup_route_columns.
  rewrite E1 in E2. injection E2 as Ei _ _. clear E1 m1 w1 w2 w3 w4. rewrite <-Ei. cbv zeta.
  apply lands_after; [home_go; first [apply home_latest|apply home_selection]|].
  intros sel _ _ _ w out w' E Hk i h home Hc.
  apply bind_ok in E as ([[p host] ip] & w1 & E1 & E).
  eapply choose_target_lands in E1 as (Et & Hk1 & Hc1); [|done|by destruct sel|done].
  specialize (Hc1 i h home Hc). rewrite Et in Hc1.
  enough (out.1.1 = host ∧ home_frame (w_db w1) (w_db w')) as [-> [K F]].
  { split; [done|]. split; [auto|]. unfold columns_of in *. by rewrite F. }
  apply bind_ok in E as (u & w2 & E2%quiet_lands & E); [|apply home_auto_unpair].
  apply bind_ok in E as (u2 & w3 & E3%quiet_lands & E);
    [|destruct (is_some_b (Machine_HostID m2)); home_go].
  assert (home_frame (w_db w1) (w_db w3)) as F by (by etransitivity).
  destruct (rs_agentClient rs).
  - apply bind_ok in E as (job & w4 & E4%create_vm_lands & [= <- <-]). cbn.
    split; [done|by etransitivity].
  - by injection E as <- <-.
Qed.
End AtHome.

(** ** Retried steps *)

Section Steps.
Context `{StepRunner}.

(** Runs that fail relate the databases by [R]. *)
Definition fails {A} (m : M A) (R : relation DB) : Prop :=
  ∀ w e w', m w = (Err e, w') → R (w_db w) (w_db w').

Lemma attempt_lands {A} n (m : M A) (P : A → relation DB) (R : relation DB) :
  (∀ a db1 db2 db3, R db1 db2 → P a db2 db3 → P a db1 db3) →
  fails m R → lands m P → lands (attempt n m) P.
Proof.
  intros HRP Hf Hl. induction n as [|n IH]; cbn [attempt]; [exact Hl|].
  intros w a w' E. rewrite bind_try in E.
  destruct (m w) as [[a1|e] w1] eqn:E1; cbn [fst snd] in E.
  - injection E as <- <-. by apply Hl.
  - eapply HRP; [by eapply Hf|by apply IH].
Qed.
Lemma attempt_fails {A} n (m : M A) (R : relation DB) `{!PreOrder R} :
  fails m R → fails (attempt n m) R.
Proof.
  intros Hf. induction n as [|n IH]; cbn [attempt]; [exact Hf|].
  intros w e w' E. rewrite bind_try in E.
  destruct (m w) as [[a1|e1] w1] eqn:E1; cbn [fst snd] in E; [discriminate E|].
  etransitivity; [by eapply Hf|by eapply IH].
Qed.
Lemma RunAsStep_ok {A} n (m : M A) w a w' :
  RunAsStep n m w = (Ok a, w') ↔ attempt (step_attempts n) m w = (Ok a, w').
Proof.
  unfold RunAsStep. rewrite bind_try.
  destruct (attempt _ m w) as [[b|e] w1]; cbn; naive_solver.
Qed.
Lemma RunAsStep_err {A} n (m : M A) w e w' :
  RunAsStep n m w = (Err e, w') → ∃ e', attempt (step_attempts n) m w = (Err e', w').
Proof.
  unfold RunAsStep. rewrite bind_try.
  destruct (attempt _ m w) as [[b|e1] w1]; cbn; [done|]. intros [= _ <-]. by exists e1.
Qed.
Lemma RunAsStep_lands {A} n (m : M A) P R :
  (∀ a db1 db2 db3, R db1 db2 → P a db2 db3 → P a db1 db3) →
  fails m R → lands m P → lands (RunAsStep n m) P.
Proof. intros HRP Hf Hl w a w' E%RunAsStep_ok. by eapply (attempt_lands _ m P R). Qed.

Lemma attempt_steps {A} n (m : M A) R `{!PreOrder R} : steps R m → steps R (attempt n m).
Proof.
  intros Hm. induction n; cbn [attempt]; [done|].
  apply steps_bind; [done|by apply steps_try|]. intros [a|e]; [by apply steps_ret|done].
Qed.
Lemma RunAsStep_steps {A} n (m : M A) R `{!PreOrder R} : steps R m → steps R (RunAsStep n m).
Proof.
  intros Hm. apply steps_bind; [done|by apply steps_try, attempt_steps|].
  intros [a|e]; [by apply steps_ret|by apply steps_fail].
Qed.
Lemma quiet_RunAsStep {A} n (m : M A) R `{!PreOrder R} : quiet R m → quiet R (RunAsStep n m).
Proof. intros [H1 H2]. split; apply RunAsStep_steps; try apply _; done. Qed.
Lemma stays_RunAsStep {A} mid t n (m : M A) : stays mid t m → stays mid t (RunAsStep n m).
Proof. apply RunAsStep_steps, _. Qed.
Lemma quiet_fails {A} (m : M A) R : quiet R m → fails m R.
Proof. intros [Hq _] w e w' E. specialize (Hq w). by rewrite E in Hq. Qed.
End Steps.

(** ** The parts of a migration *)

Section Parts.
Context {go_sort : GoSort} `{StepRunner} (s : Server).

Lemma home_snapshot id t : quiet home_frame (currentMigrationStartSnapshot id t).
Proof. unfold currentMigrationStartSnapshot. home_go. Qed.
Lemma home_ingress machine : quiet home_frame (cleanupMachineIngress s machine).
Proof. unfold cleanupMachineIngress. home_go. Qed.
Lemma home_phase wid status phase result msg details :
  quiet home_frame (updateMigrationWorkflowState s wid status phase result msg details).
Proof. unfold updateMigrationWorkflowState, UpdateStatus, AddEvent. home_go. Qed.
Lemma home_validate req : quiet home_frame (validateMigrationRequest s req).
Proof. unfold validateMigrationRequest, find_row. home_go. Qed.
Lemma home_backup machine src : quiet home_frame (createMigrationBackup machine src).
Proof. unfold createMigrationBackup. home_go. Qed.
Lemma home_sync mid host : quiet home_frame (syncMachineRouteToKV s mid host).
Proof. unfold syncMachineRouteToKV. home_go. Qed.
Lemma home_wait_failed mid status msg : quiet home_frame (wait_failed mid status msg).
Proof. unfold wait_failed. home_go. Qed.
Lemma home_wait mid host pid answers last n :
  quiet home_frame (wait_running s mid host pid answers last n).
Proof.
  revert last n. induction answers as [|a answers IH]; intros last n; cbn [wait_running].
  - apply home_wait_failed.
  - apply quiet_bind; [apply _|home_go|intros _]. destruct a as [status em|e].
    + destruct (String.eqb status "running").
      { apply quiet_bind; [apply _|apply quiet_try, home_sync|intros [u|e]].
        - home_go. 
        - apply home_wait_failed. }
      destruct (String.eqb status "error"); [apply home_wait_failed|].
      destruct (String.eqb status "stopped"); [apply home_wait_failed|apply IH].
    + destruct (Nat.leb 30 (S n)); [apply home_wait_failed|apply IH].
Qed.
Lemma home_wait_status mid status n : quiet home_frame (waitForMachineStatus mid status n).
Proof. induction n; cbn [waitForMachineStatus]; home_go. Qed.
End Parts.

(** ** Migration and the operations table

    A migration runs under the operation its request recorded: its starts and
    stops record none of their own. *)
Section MigrationOperations.
Context {go_sort : GoSort} `{StepRunner} (s : Server).

Lemma ops_create_vm machine op opts isRestart selection placement host ip :
  quiet (same db_operations)
    (create_vm (srv_machines s) machine op false opts isRestart selection placement host ip).
Proof. unfold create_vm. cbn [when]. quiet_go. Qed.

Lemma ops_start machine opid opts :
  opid ≠ ""%string →
  quiet (same db_operations) (StartWithOperation (srv_machines s) machine opid opts).
Proof.
  intros Ho. unfold StartWithOperation, start. rewrite (proj2 (String.eqb_neq opid "") Ho).
  cbv zeta. apply quiet_bind; [apply _|unfold requireActiveOperation; quiet_go|intros op].
  apply quiet_bind; [apply _|apply quiet_try|intros [v|e]; cbn [when]; quiet_go].
  unfold start_body.
  quiet_go; first [apply ops_ensure_tokens|apply ops_setup_route|apply ops_latest
    |apply ops_selection|apply ops_choose_host|apply ops_auto_unpair|apply ops_create_vm].
Qed.
Lemma ops_stop machine opid :
  opid ≠ ""%string →
  quiet (same db_operations) (StopWithOperation (srv_machines s) machine opid).
Proof.
  intros Ho. unfold StopWithOperation, stop. rewrite (proj2 (String.eqb_neq opid "") Ho).
  apply quiet_bind; [apply _|unfold requireActiveOperation; quiet_go|intros _].
  apply ops_stop_body.
Qed.

Lemma ops_phase wid status phase result msg details :
  quiet (same db_operations) (updateMigrationWorkflowState s wid status phase result msg details).
Proof. unfold updateMigrationWorkflowState, UpdateStatus, AddEvent. quiet_go. Qed.
Lemma ops_ingress machine : quiet (same db_operations) (cleanupMachineIngress s machine).
Proof. unfold cleanupMachineIngress. quiet_go. Qed.
Lemma ops_validate req : quiet (same db_operations) (validateMigrationRequest s req).
Proof. unfold validateMigrationRequest, find_row. quiet_go. Qed.
Lemma ops_snapshot id t : quiet (same db_operations) (currentMigrationStartSnapshot id t).
Proof. unfold currentMigrationStartSnapshot. quiet_go. Qed.
Lemma ops_wait_failed mid status msg : quiet (same db_operations) (wait_failed mid status msg).
Proof. unfold wait_failed. quiet_go. Qed.
Lemma ops_sync mid host : quiet (same db_operations) (syncMachineRouteToKV s mid host).
Proof. unfold syncMachineRouteToKV. quiet_go. Qed.
Lemma ops_wait mid host pid answers last n :
  quiet (same db_operations) (wait_running s mid host pid answers last n).
Proof.
  revert last n. induction answers as [|a answers IH]; intros last n; cbn [wait_running].
  - apply ops_wait_failed.
  - apply quiet_bind; [apply _|quiet_go|intros _]. destruct a as [status em|e].
    + destruct (String.eqb status "running").
      { apply quiet_bind; [apply _|apply quiet_try, ops_sync|intros [u|e]].
        - quiet_go.
        - apply ops_wait_failed. }
      destruct (String.eqb status "error"); [apply ops_wait_failed|].
      destruct (String.eqb status "stopped"); [apply ops_wait_failed|apply IH].
    + destruct (Nat.leb 30 (S n)); [apply ops_wait_failed|apply IH].
Qed.
Lemma ops_wait_status mid status n :
  quiet (same db_operations) (waitForMachineStatus mid status n).
Proof. induction n; cbn [waitForMachineStatus]; quiet_go; apply IHn. Qed.
Lemma ops_cleanup mid : quiet (same db_operations) (cleanupFailedMigrationTarget s mid).
Proof. unfold cleanupFailedMigrationTarget. quiet_go; apply ops_ingress. Qed.
End MigrationOperations.
#[export] Hint Resolve ops_phase ops_ingress ops_validate ops_snapshot ops_wait ops_wait_status
  ops_cleanup quiet_RunAsStep : quiet.
