(* ===== verification/MigrationSpec.v ===== *)
(** * What a migration guarantees

    Theorems on api/admin_migrate_workflow.go: the source is freed once, a
    migration that reports success has moved the machine, every migration gives
    the machine back, and what an aborted one gets wrong. *)

From S2P Require Import Prelude Schema HostStore PlacementStore OperationStore.
From S2P Require Import AccountStore StoreStep TableInv RecordInv Scenario World Fleet.
From S2P Require Import FleetLemmas.
From S2P Require Import GoStrings Versions Routing Runtime RuntimeLemmas PollerLemmas.
From S2P Require Import RuntimeSpec.
From S2P Require Import Workflows Api Migration MigrationLemmas.

Section Spec.
Context {go_sort : GoSort} `{StepRunner} (s : Server).
Context (answers1 answers2 : list PollAnswer) (rounds : nat).
Context (wid : string) (input : migrationWorkflowInput).
Abbreviation req := (MigrationInput_Request input).
Abbreviation mid := (MigrationRequest_MachineID req).
Abbreviation target := (MigrationRequest_TargetHostID req).
Abbreviation opid := (MigrationInput_OperationID input).

(** ** The release of the source *)

(** What a release of the source does: the counters freed once, the machine
    taken off. *)
Definition source_freed (src : Z) (releaseCapacity : bool) : relation DB := λ db db',
  ∀ m, db_machines db !! mid = Some m → Machine_ID m = mid → Machine_HostID m = Some src →
    db_hosts db' = (if releaseCapacity
                    then alter (host_free_cpu (Machine_VCPUs m) (Machine_MemoryMB m)) src
                           (db_hosts db) else db_hosts db) ∧
    ∃ m', db_machines db' !! mid = Some m' ∧ Machine_HostID m' = None ∧
      Machine_VMIP m' = None ∧ Machine_HomeHostID m' = None ∧ Machine_ID m' = mid.

(** Nothing that matters to a release changes. *)
Definition untouched : relation DB := λ db db',
  db_hosts db' = db_hosts db ∧ db_machines db' = db_machines db.
#[export] Instance untouched_preorder : PreOrder untouched.
Proof. split; unfold untouched; [done|]. intros db1 db2 db3 [? ?] [? ?]. split; congruence. Qed.

Lemma ReleaseMigrationSource_run src v mem b db m :
  db_machines db !! mid = Some m → Machine_HostID m = Some src →
  ReleaseMigrationSource mid src v mem b db = (Ok tt,
    db <| db_hosts ::= if b then alter (host_free_cpu v mem) src else id |>
       <| db_machines ::= alter (λ m, machine_unassign (db_now db) m
            <| Machine_HomeHostID := None |>) mid |>
       <| db_placements ::= update_where
            (λ p, String.eqb (Placement_MachineID p) mid && placement_active p)
            (placement_release (db_now db)) |>).
Proof.
  intros Hm Hh. destruct db as [tt0 n hosts]. cbn in Hm.
  unfold ReleaseMigrationSource, tx, bind, now, gets, get, wrap, query_row, of_res. cbn.
  rewrite Hm. cbn. rewrite bool_decide_eq_true_2 by done. by destruct b.
Qed.

Lemma route_ingress machine : quiet route_frame (cleanupMachineIngress s machine).
Proof.
  unfold cleanupMachineIngress. repeat quiet_step; [apply route_GetAccount|].
  by apply route_frame_alter.
Qed.
Lemma ingress_ok machine w : (cleanupMachineIngress s machine w).1 = Ok tt.
Proof.
  unfold cleanupMachineIngress. unfold bind at 1.
  assert (∀ b : bool, (when b (let! a := try (call (GetAccount (Machine_AccountID machine))) in
    match a with Err _ => ret tt | Ok account =>
      ignore (DeleteRouteSync (Account_Slug account) (Machine_Slug machine)) end) w).1 = Ok tt)
    as Hok by (intros []; cbn [when]; [rewrite bind_try; by destruct (call _ w).1|done]).
  specialize (Hok (srv_kvStore s)). destruct (when _ _ w) as [r w1]. cbn in Hok. subst r.
  by destruct (srv_tunnelMgr s), (Machine_TunnelID machine).
Qed.

Lemma step_release_fails src b : fails (step_release_source s input src b) untouched.
Proof.
  intros w e w'. unfold step_release_source. rewrite bind_err.
  intros [E|(m & w1 & E1 & E)].
  - assert (w_db w' = w_db w) as ->; [|done]. eapply call_err_same; [|exact E].
    intros db e1 db' Eq. pose proof (GetMachine_db mid db) as Ed. by rewrite Eq in Ed.
  - apply call_ok in E1. pose proof (GetMachine_db mid (w_db w)) as Ed. rewrite E1 in Ed.
    cbn in Ed. rewrite <-Ed. rewrite bind_err in E. destruct E as [E|(u & w2 & _ & E)]; [|done].
    unfold releaseMigrationSource in E. rewrite bind_err in E.
    destruct E as [E|(u & w2 & _ & E)].
    + unfold wrap in E. destruct (call _ w1) as [[u|e1] w2] eqn:Ec; [done|]. injection E as _ <-.
      assert (w_db w2 = w_db w1) as ->; [|done]. eapply call_err_same; [|exact Ec].
      intros db e2 db'. apply tx_err.
    + pose proof (ingress_ok m w2) as Hok. rewrite E in Hok. done.
Qed.

Lemma step_release_lands src b :
  lands (step_release_source s input src b) (λ _, source_freed src b).
Proof.
  intros w u w'. unfold step_release_source. rewrite bind_ok. intros (m & w1 & E1 & E).
  apply call_ok in E1. rewrite GetMachine_run in E1. intros m0 Hm Hi Hh. rewrite Hm in E1.
  injection E1 as <- Ed. rewrite bind_ok in E. destruct E as (u1 & w2 & E & [= <- <-]).
  unfold releaseMigrationSource in E. rewrite bind_ok in E. destruct E as (u2 & w3 & E2 & E3).
  rewrite wrap_ok in E2. apply call_ok in E2. rewrite Hi, <-Ed in E2.
  rewrite (ReleaseMigrationSource_run src _ _ _ _ m0 Hm Hh) in E2. injection E2 as _ Ed3.
  pose proof (proj1 (route_ingress m0) w3) as (_ & Eh & _ & Ec).
  pose proof (proj2 (proj1 (home_ingress s m0) w3) mid) as Em. rewrite E3 in Eh, Ec, Em.
  cbn in Eh, Ec, Em. rewrite Eh, <-Ed3. split; [by destruct b|]. specialize (Ec mid).
  rewrite <-Ed3 in Ec, Em. cbn in Ec, Em. rewrite lookup_alter_eq, Hm in Ec, Em.
  cbn in Ec, Em. apply fmap_Some in Ec as (m' & Hm' & [= _ Eho Evm]).
  rewrite Hm' in Em. injection Em as Ei _ Eho'. exists m'. repeat split; congruence.
Qed.

Lemma source_freed_after src b (u : bool) db1 db2 db3 :
  untouched db1 db2 → source_freed src b db2 db3 → source_freed src b db1 db3.
Proof. unfold source_freed. by intros [-> ->]. Qed.

(** C15: the step that releases the source may be retried: whatever calls fail and
    however often DBOS runs it again, when it succeeds the machine's share of
    the source host has been freed exactly once (not at all for a machine whose
    stop had freed it) and the machine is on no host, and when it fails hosts and
    machines are as they were. *)
Theorem migration_frees_source_once (src : Z) (releaseCapacity : bool) (retries : nat)
    (w : World) (m : Machine) :
  db_machines (w_db w) !! mid = Some m → Machine_ID m = mid → Machine_HostID m = Some src →
  let '(r, w') := RunAsStep retries (step_release_source s input src releaseCapacity) w in
  match r with
  | Ok _ =>
      db_hosts (w_db w') = (if releaseCapacity
        then alter (host_free_cpu (Machine_VCPUs m) (Machine_MemoryMB m)) src (db_hosts (w_db w))
        else db_hosts (w_db w)) ∧
      ∃ m', db_machines (w_db w') !! mid = Some m' ∧ Machine_HostID m' = None ∧
        Machine_VMIP m' = None ∧ Machine_HomeHostID m' = None ∧ Machine_ID m' = mid
  | Err _ => db_hosts (w_db w') = db_hosts (w_db w) ∧ db_machines (w_db w') = db_machines (w_db w)
  end.
Proof.
  intros Hm Hi Hh. destruct (RunAsStep _ _ w) as [[u|e] w'] eqn:E.
  - eapply (RunAsStep_lands retries _ _ untouched (source_freed_after src releaseCapacity)
      (step_release_fails src releaseCapacity) (step_release_lands src releaseCapacity));
      [exact E|exact Hm|exact Hi|exact Hh].
  - apply RunAsStep_err in E as (e' & E).
    exact (attempt_fails _ _ untouched (step_release_fails src releaseCapacity) _ _ _ E).
Qed.

(** ** A migration that reports success *)

Abbreviation phase := (updateMigrationWorkflowState s wid).

Lemma or_return_ok {A} result (m : M A) k w r w' :
  or_return result m k w = (Ok (r, None), w') →
  ∃ a w1, m w = (Ok a, w1) ∧ k a w1 = (Ok (r, None), w').
Proof.
  unfold or_return. rewrite bind_try. destruct (m w) as [[a|e] w1]; cbn; [|done]. eauto.
Qed.

(** The parts after the start leave the machine at home on the target. *)
Lemma quiet_wait_running start answers :
  quiet home_frame (step_wait_running s input start answers).
Proof. unfold step_wait_running. home_go; apply home_wait. Qed.

Lemma stays_stop_for_restore t : opid ≠ ""%string → stays mid t (step_stop_for_restore s input).
Proof.
  intros Ho. unfold step_stop_for_restore. apply stays_read; [intros; apply GetMachine_db|].
  intros m db Hdb Hm. destruct (here_read _ _ _ _ Hdb Hm) as (Hi & _).
  destruct (String.eqb _ _); [apply stays_quiet; home_go|].
  apply stays_bind; [by apply stays_wrap, stays_stop|intros _; apply stays_quiet; home_go].
Qed.
Lemma stays_restore t snapshot : stays mid t (step_restore input snapshot).
Proof. apply stays_quiet. unfold step_restore. home_go. Qed.
Lemma stays_restart t : opid ≠ ""%string → stays mid t (step_restart_restored s input).
Proof.
  intros Ho. unfold step_restart_restored. apply stays_read; [intros; apply GetMachine_db|].
  intros m db Hdb Hm. pose proof (here_read _ _ _ _ Hdb Hm) as Hh.
  apply stays_bind; [by apply stays_wrap, stays_start|intros [[host ip] job]].
  apply stays_quiet, home_snapshot.
Qed.

(** The machine is on the target. *)
Definition on_target (db : DB) : Prop :=
  ∃ home, columns_of mid db = Some (mid, Some target, home).
Lemma at_home_on_target db : at_home mid target db → on_target db.
Proof.
  intros (_ & m & Hm & Hi & Hh & _). exists (Machine_HomeHostID m). unfold columns_of.
  rewrite Hm. cbn. unfold home_columns. by rewrite Hi, Hh.
Qed.
Lemma on_target_frame db db' : home_frame db db' → on_target db → on_target db'.
Proof. intros [_ F] [home Hc]. exists home. unfold columns_of in *. by rewrite F. Qed.
Lemma columns_at_home db home :
  keyed Host_ID (db_hosts db) → columns_of mid db = Some (mid, Some target, home) →
  home = None ∨ home = Some target → at_home mid target db.
Proof.
  intros Hk Hc Hhome. apply fmap_Some in Hc as (m & Hm & [= Ei Eh Eho]). split; [done|].
  exists m. rewrite <-Eh, <-Eho. by repeat split.
Qed.

(** A successful start puts it there. *)
Lemma step_start_target_lands :
  opid ≠ ""%string → target ≠ 0 →
  lands (step_start_target s input) (λ _ db db', keyed Host_ID (db_hosts db) →
    ∀ h home, columns_of mid db = Some (mid, h, home) →
    keyed Host_ID (db_hosts db') ∧ columns_of mid db' = Some (mid, Some target, home)).
Proof.
  intros Ho Ht w start w'. unfold step_start_target. rewrite bind_ok. intros (m & w1 & E1 & E) Hk h home Hc.
  pose proof (quiet_lands _ (quiet_call _ _ (home_GetMachine mid)) w m w1 E1) as [K F].
  apply call_ok in E1. rewrite GetMachine_run in E1.
  pose proof Hc as Hc'. apply fmap_Some in Hc' as (m0 & Hm0 & [= Ei Eh Eho]). rewrite Hm0 in E1.
  injection E1 as <- _. specialize (K Hk). unfold columns_of in Hc. rewrite <-F in Hc.
  case_bool_decide as Hb.
  - apply (quiet_lands _ (home_snapshot _ _)) in E as [K2 F2]. split; [auto|].
    unfold columns_of. rewrite F2, Hc. congruence.
  - rewrite bind_ok in E. destruct E as ([[host ip] job] & w2 & E2 & E3). rewrite wrap_ok in E2.
    pose proof (start_lands (srv_machines s) m0 opid (mkStartOptions target true false) Ho Ht
      w1 _ w2 E2 K mid h home) as H2. rewrite <-Ei in H2. destruct (H2 Hc) as (_ & K2 & C2).
    apply (quiet_lands _ (home_snapshot _ _)) in E3 as [K3 F3]. split; [auto|].
    unfold columns_of in *. by rewrite F3.
Qed.

Lemma RunAsStep_zero {A} (m : M A) w a w' : RunAsStep 0 m w = (Ok a, w') → m w = (Ok a, w').
Proof.
  rewrite RunAsStep_ok. pose proof (step_attempts_le 0) as Hle.
  destruct (step_attempts 0); [done|lia].
Qed.
Lemma stays_world {A} t (m : M A) w a w' :
  stays mid t m → m w = (a, w') → at_home mid t (w_db w) → at_home mid t (w_db w').
Proof. intros Hs E Hw. specialize (Hs w Hw). by rewrite E in Hs. Qed.

Lemma bind_stays {A B} t (m : M A) (k : A → M B) w b w' :
  stays mid t m → at_home mid t (w_db w) → bind m k w = (Ok b, w') →
  ∃ a w1, at_home mid t (w_db w1) ∧ k a w1 = (Ok b, w').
Proof.
  intros Hs Hw (a & w1 & E1 & E)%bind_ok. exists a, w1. split; [|done].
  eapply stays_world; [exact Hs|exact E1|exact Hw].
Qed.
Lemma or_return_stays {A} t result (m : M A) k w r w' :
  stays mid t m → at_home mid t (w_db w) → or_return result m k w = (Ok (r, None), w') →
  ∃ a w1, at_home mid t (w_db w1) ∧ k a w1 = (Ok (r, None), w').
Proof.
  intros Hs Hw (a & w1 & E1 & E)%or_return_ok. exists a, w1. split; [|done].
  eapply stays_world; [exact Hs|exact E1|exact Hw].
Qed.
Lemma stays_phase t status ph result msg details :
  stays mid t (phase status ph result msg details).
Proof. apply stays_quiet, home_phase. Qed.

(** A wait that fails ends the workflow with its error. *)
Lemma waited_ok {A} (m : M A) (k : A → M (migrationWorkflowResult * option error)) result w r w' :
  bind (try m) (λ x, match x with
    | Err e => cleanupFailedMigrationTarget s mid ;; ret (result, Some e)
    | Ok a => k a end) w = (Ok (r, None), w') →
  ∃ a w1, m w = (Ok a, w1) ∧ k a w1 = (Ok (r, None), w').
Proof.
  rewrite bind_try. destruct (m w) as [[a|e] w1]; cbn [fst snd]; [eauto|].
  by intros (? & ? & _ & E)%bind_ok.
Qed.

(** The restore, once the machine is at home on the target. *)
Lemma migrate_restore_success snapshot result w r w' :
  opid ≠ ""%string → at_home mid target (w_db w) →
  migrate_restore s answers2 rounds wid input snapshot result w = (Ok (r, None), w') →
  at_home mid target (w_db w') ∧
  r = result <| MigrationResult_Status := "migrated_and_restored"%string |>.
Proof.
  intros Ho Hw E. unfold migrate_restore in E. cbv zeta in E.
  apply (or_return_stays target) in E as (? & w1 & H1 & E);
    [|apply stays_RunAsStep; by apply stays_stop_for_restore|exact Hw].
  apply (bind_stays target) in E as (? & w2 & H2 & E); [|apply stays_phase|exact H1].
  apply (or_return_stays target) in E as (? & w3 & H3 & E);
    [|apply stays_RunAsStep, stays_quiet; home_go; apply home_wait_status|exact H2].
  apply (bind_stays target) in E as (? & w4 & H4 & E); [|apply stays_phase|exact H3].
  apply (or_return_stays target) in E as (? & w5 & H5 & E);
    [|apply stays_RunAsStep, stays_restore|exact H4].
  apply (bind_stays target) in E as (? & w6 & H6 & E); [|apply stays_phase|exact H5].
  apply (or_return_stays target) in E as (st & w7 & H7 & E);
    [|apply stays_RunAsStep; by apply stays_restart|exact H6].
  apply (bind_stays target) in E as (? & w8 & H8 & E); [|apply stays_phase|exact H7].
  apply waited_ok in E as (b & w9 & E9 & E).
  assert (at_home mid target (w_db w9)) as H9.
  { eapply stays_world; [|exact E9|exact H8]. apply stays_RunAsStep, stays_quiet, quiet_wait_running. }
  apply (bind_stays target) in E as (? & w10 & H10 & E); [|apply stays_phase|exact H9].
  by injection E as <- <-.
Qed.

Lemma migrate_target_success backup result w r w' h home :
  opid ≠ ""%string → target ≠ 0 → keyed Host_ID (db_hosts (w_db w)) →
  columns_of mid (w_db w) = Some (mid, h, home) →
  (is_some_b backup = true → home = None ∨ home = Some target) →
  migrate_target s answers1 answers2 rounds wid input backup result w = (Ok (r, None), w') →
  on_target (w_db w') ∧
  r = result <| MigrationResult_Status := if is_some_b backup then "migrated_and_restored"%string
                                          else "migrated"%string |>.
Proof.
  intros Ho Ht Hk Hc Hhome. unfold migrate_target. rewrite bind_ok. intros (? & w1 & E1 & E).
  apply (quiet_lands _ (home_phase _ _ _ _ _ _ _)) in E1 as [K1 F1].
  apply or_return_ok in E as (st & w2 & E2 & E). apply RunAsStep_zero in E2.
  destruct (step_start_target_lands Ho Ht w1 st w2 E2 (K1 Hk) h home) as [K2 C2];
    [unfold columns_of in *; by rewrite F1|].
  rewrite bind_ok in E. destruct E as (? & w3 & E3 & E).
  apply (quiet_lands _ (home_phase _ _ _ _ _ _ _)) in E3 as [K3 F3].
  rewrite bind_try in E. pose proof (quiet_wait_running st answers1) as Hq.
  apply (quiet_RunAsStep 0) in Hq; [|apply _]. destruct Hq as [Hq _]. specialize (Hq w3).
  destruct (RunAsStep 0 (step_wait_running s input st answers1) w3) as [[u|e] w4]; cbn [fst snd] in E, Hq.
  2:{ by apply bind_ok in E as (? & ? & _ & E). }
  destruct Hq as [K4 F4].
  assert (columns_of mid (w_db w4) = Some (mid, Some target, home)) as C4
    by (unfold columns_of in *; by rewrite F4, F3).
  destruct backup as [snapshot|].
  - apply (bind_stays target) in E as (? & w5 & H5 & E); [|apply stays_phase|].
    + apply migrate_restore_success in E as [Hh ->]; [|done|exact H5].
      split; [by apply at_home_on_target|done].
    + eapply columns_at_home; [auto|exact C4|by apply Hhome].
  - rewrite bind_ok in E. destruct E as (? & w5 & E5 & [= <- <-]).
    apply (quiet_lands _ (home_phase _ _ _ _ _ _ _)) in E5. split; [|done].
    eapply on_target_frame; [exact E5|]. by exists home.
Qed.

(** The same before the release of the source: the plan has the machine's host. *)
Lemma migrate_source_success plan backup result w r w' home :
  opid ≠ ""%string → target ≠ 0 → keyed Host_ID (db_hosts (w_db w)) →
  columns_of mid (w_db w) = Some (mid, MigrationPlan_SourceHostID plan, home) →
  (is_some_b backup = true → is_some_b (MigrationPlan_SourceHostID plan) = true) →
  migrate_source s answers1 answers2 rounds wid input plan backup result w = (Ok (r, None), w') →
  on_target (w_db w') ∧
  r = result <| MigrationResult_Status := if is_some_b backup then "migrated_and_restored"%string
                                          else "migrated"%string |>.
Proof.
  intros Ho Ht Hk Hc Hb E. unfold migrate_source in E.
  destruct (MigrationPlan_SourceHostID plan) as [src|].
  - apply bind_ok in E as (? & w1 & [K1 F1]%(quiet_lands _ (home_phase _ _ _ _ _ _ _)) & E).
    apply or_return_ok in E as (? & w2 & E2 & E).
    assert (quiet home_frame (RunAsStep 0 (step_destroy_source input src))) as Hq
      by (apply quiet_RunAsStep; [apply _|]; unfold step_destroy_source; home_go).
    apply (quiet_lands _ Hq) in E2 as [K2 F2].
    apply bind_ok in E as (? & w3 & [K3 F3]%(quiet_lands _ (home_phase _ _ _ _ _ _ _)) & E).
    apply or_return_ok in E as (? & w4 & E4 & E).
    pose proof (RunAsStep_lands _ _ _ untouched
      (source_freed_after src (MigrationPlan_ReleaseCapacity plan))
      (step_release_fails src _) (step_release_lands src _) _ _ _ E4) as Hfreed.
    assert (columns_of mid (w_db w3) = Some (mid, Some src, home)) as C3
      by (unfold columns_of in *; by rewrite F3, F2, F1).
    apply fmap_Some in C3 as (m & Hm & [= Ei Eh _]).
    destruct (Hfreed m Hm (eq_sym Ei) (eq_sym Eh)) as [Ehosts (m' & Hm' & Eh' & _ & Eho' & Ei')].
    eapply (migrate_target_success _ _ _ _ _ None None); [done..| | |by left|exact E].
    + rewrite Ehosts. destruct (MigrationPlan_ReleaseCapacity plan); [apply keyed_alter|]; auto.
    + unfold columns_of. rewrite Hm'. cbn. unfold home_columns. by rewrite Ei', Eh', Eho'.
  - eapply (migrate_target_success _ _ _ _ _ None home); [done..|exact Hc| |exact E].
    intros Hs. by specialize (Hb Hs).
Qed.

(** The plan is what the row says. *)
Lemma find_row_ok {A} msg (q : Q A) w a w' :
  find_row msg q w = (Ok a, w') → call q w = (Ok a, w').
Proof.
  unfold find_row. rewrite bind_try. destruct (call q w) as [[b|e] w1]; cbn; [done|].
  by destruct (errors_is e ErrNoRows).
Qed.
Lemma home_prepare : quiet home_frame (step_prepare s input).
Proof. unfold step_prepare. home_go. apply home_validate. Qed.
Definition planned (plan : migrationWorkflowPlan) : relation DB := λ db db',
  home_frame db db' ∧
  ∀ h home, columns_of mid db = Some (mid, h, home) → MigrationPlan_SourceHostID plan = h.
Lemma prepare_lands : lands (step_prepare s input) planned.
Proof.
  intros w plan w' E. split; [by apply (quiet_lands _ home_prepare) in E|]. intros h home Hc.
  unfold step_prepare in E. apply bind_ok in E as ([[[m th] src] b] & w1 & E1 & E).
  apply bind_ok in E as (m2 & w2 & _ & [= <- _]). cbn. unfold validateMigrationRequest in E1.
  apply bind_ok in E1 as (m1 & w3 & E3%find_row_ok%call_ok & E1).
  apply bind_ok in E1 as (t1 & w4 & _ & E1). rewrite GetMachine_run in E3.
  apply fmap_Some in Hc as (m0 & Hm0 & [= _ -> _]). rewrite Hm0 in E3. injection E3 as -> _.
  split_run; by unfold ret in *; simplify_eq.
Qed.
Lemma planned_after plan db1 db2 db3 : home_frame db1 db2 → planned plan db2 db3 → planned plan db1 db3.
Proof.
  intros H12 [H23 Hp]. split; [by etransitivity|]. intros h home Hc. eapply Hp.
  destruct H12 as [_ F]. unfold columns_of in *. by rewrite F.
Qed.

Lemma migrate_backup_success plan result w r w' home :
  opid ≠ ""%string → target ≠ 0 → keyed Host_ID (db_hosts (w_db w)) →
  columns_of mid (w_db w) = Some (mid, MigrationPlan_SourceHostID plan, home) →
  migrate_backup s answers1 answers2 rounds wid input plan result w = (Ok (r, None), w') →
  on_target (w_db w') ∧
  (∃ b, r = result <| MigrationResult_BackupID := Some b |>
              <| MigrationResult_Status := "migrated_and_restored"%string |>) ∨
  on_target (w_db w') ∧ r = result <| MigrationResult_Status := "migrated"%string |>.
Proof.
  intros Ho Ht Hk Hc E. unfold migrate_backup in E.
  assert (migrate_source s answers1 answers2 rounds wid input plan None result w
            = (Ok (r, None), w') →
    on_target (w_db w') ∧ r = result <| MigrationResult_Status := "migrated"%string |>) as Hnone
    by (intros E1; eapply migrate_source_success in E1; [exact E1|done..]).
  destruct (MigrationPlan_SourceHostID plan) as [src|] eqn:Es; [|auto].
  destruct (MigrationPlan_CanBackup plan); [|auto]. clear Hnone.
  apply bind_ok in E as (? & w1 & [K1 F1]%(quiet_lands _ (home_phase _ _ _ _ _ _ _)) & E).
  rewrite bind_try in E.
  assert (quiet home_frame (RunAsStep 1 (step_backup input src))) as [Hq _].
  { apply quiet_RunAsStep; [apply _|]. unfold step_backup. home_go. apply home_backup. }
  specialize (Hq w1). destruct (RunAsStep 1 (step_backup input src) w1) as [[b|e] w2];
    cbn [fst snd] in E, Hq; [|by apply bind_ok in E as (? & ? & _ & E)]. destruct Hq as [K2 F2].
  eapply migrate_source_success in E as [Hon ->]; [|done|done|auto| |by rewrite Es].
  2:{ unfold columns_of in *. by rewrite Es, F2, F1. }
  destruct b as [b|]; [left|right]; split; eauto.
Qed.

Lemma home_finalize opid' result err :
  quiet home_frame (finalizeMigrationWorkflow s wid opid' result err).
Proof.
  unfold finalizeMigrationWorkflow, Complete. home_go; apply home_phase.
Qed.

(** C13: a migration that reports success has moved the machine: whatever calls
    failed on the way and however DBOS retried the steps, the machine is then on
    the target host, and the result says whether a backup was restored. *)
Theorem migration_success_moves (w : World) (h home : option Z) :
  opid ≠ ""%string → target ≠ 0 → keyed Host_ID (db_hosts (w_db w)) →
  columns_of mid (w_db w) = Some (mid, h, home) →
  let '(r, w') := runMigrationWorkflow s answers1 answers2 rounds wid input w in
  match r with
  | Ok (result, None) =>
      (∃ home', columns_of mid (w_db w') = Some (mid, Some target, home')) ∧
      (∃ b, result = mkMigrationResult wid "migrated_and_restored" mid target (Some b)) ∨
      (∃ home', columns_of mid (w_db w') = Some (mid, Some target, home')) ∧
      result = mkMigrationResult wid "migrated" mid target None
  | _ => True
  end.
Proof.
  intros Ho Ht Hk Hc. destruct (runMigrationWorkflow _ _ _ _ _ _ w) as [[[result [e|]]|e] w'] eqn:E;
    [done| |done]. unfold runMigrationWorkflow in E.
  apply bind_ok in E as ([r0 err] & w1 & E1 & E).
  apply bind_ok in E as (? & w2 & Ef%(quiet_lands _ (home_finalize _ _ _)) & [= -> -> <-]).
  enough (on_target (w_db w1) ∧ (∃ b, result = mkMigrationResult wid "migrated_and_restored" mid target (Some b)) ∨
    on_target (w_db w1) ∧ result = mkMigrationResult wid "migrated" mid target None) as Hend.
  { destruct Hend as [[Hon Hr]|[Hon Hr]]; [left|right]; (split; [|done]);
      by eapply on_target_frame. }
  unfold migrate_body in E1.
  apply bind_ok in E1 as (? & w3 & [K3 F3]%(quiet_lands _ (home_phase _ _ _ _ _ _ _)) & E1).
  apply or_return_ok in E1 as (plan & w4 & E4 & E1).
  apply (RunAsStep_lands _ _ _ home_frame planned_after
    (quiet_fails _ _ home_prepare) prepare_lands) in E4 as [[K4 F4] Hp].
  assert (columns_of mid (w_db w4) = Some (mid, MigrationPlan_SourceHostID plan, home)) as C4.
  { rewrite (Hp h home); unfold columns_of in *; by rewrite ?F4, F3. }
  enough (∃ w5, home_frame (w_db w4) (w_db w5) ∧
    migrate_backup s answers1 answers2 rounds wid input plan
      (mkMigrationResult wid "" mid target None) w5 = (Ok (result, None), w1))
    as (w5 & [K5 F5] & E5).
  { eapply migrate_backup_success in E5 as [[? [b ->]]|[? ->]]; [left|right|done|done|auto|]; eauto.
    unfold columns_of in *. by rewrite F5. }
  destruct (MigrationPlan_SourceHostID plan) as [src|]; [|by exists w4].
  apply bind_ok in E1 as (? & w5 & F5%(quiet_lands _ (home_phase _ _ _ _ _ _ _)) & E1).
  apply or_return_ok in E1 as (? & w6 & E6 & E1).
  assert (quiet home_frame (RunAsStep 3 (step_stop_source input src))) as Hq
    by (apply quiet_RunAsStep; [apply _|]; unfold step_stop_source; home_go).
  apply (quiet_lands _ Hq) in E6. exists w6. split; [by etransitivity|done].
Qed.

(** ** Every migration ends and gives the machine back *)

Lemma returns_or {A} result (m : M A) k : (∀ a, returns (k a)) → returns (or_return result m k).
Proof. intros Hk. apply returns_try. by intros [a|e]. Qed.
Lemma returns_phase status ph result msg details : returns (phase status ph result msg details).
Proof. unfold updateMigrationWorkflowState. by destruct (srv_workflows s). Qed.
Lemma returns_cleanup : returns (cleanupFailedMigrationTarget s mid).
Proof.
  apply returns_try. intros [m|e]; [|done]. apply returns_bind.
  - destruct (Machine_HostID m); [|done]. unfold when. destruct (rs_agentClient _); [|done].
    apply returns_try. by intros [h|e].
  - intros _. apply returns_bind; [done|]. intros _ w. by rewrite ingress_ok.
Qed.

#[local] Hint Resolve returns_phase returns_cleanup : returns.
Ltac migration_returns := repeat first [apply returns_or; intros ? | returns_step].

Lemma returns_body result : returns (migrate_body s answers1 answers2 rounds wid input result).
Proof.
  unfold migrate_body, migrate_backup, migrate_source, migrate_target, migrate_restore.
  migration_returns.
Qed.

(** The body records and completes no operation. *)
Lemma ops_or_return {A} result (m : M A) k :
  quiet (same db_operations) m → (∀ a, quiet (same db_operations) (k a)) →
  quiet (same db_operations) (or_return result m k).
Proof.
  intros Hm Hk. unfold or_return. apply quiet_bind; [apply _|by apply quiet_try|].
  intros [a|e]; [apply Hk|apply quiet_ret, _].
Qed.
Ltac ops_go :=
  repeat first [apply ops_or_return; [|intros ?] | apply quiet_RunAsStep; [apply _|] | quiet_step];
  try (by frame).
Lemma ops_backup machine src : quiet (same db_operations) (createMigrationBackup machine src).
Proof. unfold createMigrationBackup. quiet_go. Qed.
Lemma ops_migrate_body result :
  opid ≠ ""%string →
  quiet (same db_operations) (migrate_body s answers1 answers2 rounds wid input result).
Proof.
  intros Ho. unfold migrate_body, migrate_backup, migrate_source, migrate_target, migrate_restore.
  unfold step_prepare, step_stop_source, step_backup, step_abort_restore_source,
    step_destroy_source, step_release_source, step_start_target, step_wait_running,
    step_stop_for_restore, step_restore, step_restart_restored,
    finalizeStoppedSourceAfterMigrationAbort, releaseMigrationSource, waitForMachineRunningOnHost.
  ops_go; first [by apply ops_start|by apply ops_stop|apply ops_backup].
Qed.

(** The end of the workflow: its run and the operation are completed. *)
Lemma finish_settles state status out code msg w :
  one_of ["pending"; "in_progress"]%string state = false ∧ workflow_status_ok status = true →
  in_flight mid opid w →
  let w' := (call (CompleteMachineOperation opid state msg)
               (call (CompleteWorkflowRun wid status out code msg) w).2).2 in
  active_operations (w_db w') mid = [] ∧
  ∀ run, db_workflow_runs (w_db w') !! wid = Some run → WorkflowRun_Status run = status.
Proof.
  intros [Hs Hst] [Hf Ha]. cbv zeta.
  assert (CompleteWorkflowRun wid status out code msg (w_db w) =
    (Ok tt, (w_db w) <| db_workflow_runs ::= alter (λ r,
       r <| WorkflowRun_Status := status |> <| WorkflowRun_OutputJSON := out |>
         <| WorkflowRun_ErrorCode := code |> <| WorkflowRun_ErrorMessage := msg |>
         <| WorkflowRun_StartedAt ::= λ s, Some (default (db_now (w_db w)) s) |>
         <| WorkflowRun_CompletedAt := Some (db_now (w_db w)) |>
         <| WorkflowRun_UpdatedAt := db_now (w_db w) |>) wid |>)) as E.
  { unfold CompleteWorkflowRun, check_run_status, bind, now, gets, get, modify. cbn.
    by rewrite Hst, andb_false_r. }
  rewrite (call_free (CompleteWorkflowRun _ _ _ _ _)), E by done.
  rewrite call_free by done. cbn [fst snd w_db set].
  split; [by apply complete_clears|]. intros run. rewrite CompleteMachineOperation_final by done.
  cbn. rewrite lookup_alter_eq. destruct (_ !! wid); [|done]. by intros [= <-].
Qed.

(** C14: every migration ends and gives the machine back: whatever the agent
    answers, the workflow returns a result, and without faults no operation of
    the machine is then in flight, and the workflow's run, when it is recorded,
    is completed or failed as the result says. *)
Theorem migration_settles (w : World) :
  fault_free w → opid ≠ ""%string → only_active mid opid (w_db w) →
  let '(r, w') := runMigrationWorkflow s answers1 answers2 rounds wid input w in
  match r with
  | Ok (_, err) =>
      active_operations (w_db w') mid = [] ∧
      ∀ run, db_workflow_runs (w_db w') !! wid = Some run →
        WorkflowRun_Status run = match err with None => "completed" | Some _ => "failed" end%string
  | Err _ => False
  end.
Proof.
  intros Hf Ho Hactive. unfold runMigrationWorkflow. cbv zeta. unfold bind at 1.
  set (result := mkMigrationResult _ _ _ _ _).
  pose proof (returns_body result w) as Hok.
  pose proof (quiet_in_flight mid opid _ (ops_migrate_body result Ho) w (conj Hf Hactive)) as Hw.
  destruct (migrate_body _ _ _ _ _ _ _ w) as [[[res err]|e] w1]; [|done]. clear Hok.
  unfold finalizeMigrationWorkflow. destruct err as [e|].
  - pose proof (quiet_in_flight mid opid _ (ops_phase s wid StatusFailed "complete" res
      "migration failed" (Some (JObj [("error"%string, JStr (Error e))]))) w1 Hw) as Hw2.
    unfold bind at 1 2. pose proof (returns_phase StatusFailed "complete" res
      "migration failed" (Some (JObj [("error"%string, JStr (Error e))])) w1) as Hok.
    destruct (phase _ _ _ _ _ w1) as [[u|e2] w2]; [|done].
    cbn in Hw2. eapply finish_settles; [|exact Hw2]; done.
  - eapply finish_settles; [|exact Hw]; done.
Qed.
End Spec.

(** ** A concrete migration *)

(** Host 8 joins host 2, on which the machines id-4 and id-5 run; a migration of
    machine id-4 is queued as operation id-9 and workflow wf_1. *)
Definition ops_two_hosts : list store_op :=
  [ OpCreateHost (blank_host <| Host_VMName := "host-b"%string |>
      <| Host_TunnelURL := Some "host-b.example.com"%string |>);
    OpUpdateHostHeartbeat 8 "203.0.113.8" "1.0" "r1" "b1" "o1" None;
    OpUpdateHostStatus 8 "ready"; OpPlaceOnHost 2 "id-5" 2 4096 8192;
    OpUpdateMachineStatus "id-5" "running" None ].
Definition db_two_hosts : DB := exec_all ops_two_hosts db_running.
Definition ops_migrate : list store_op :=
  [ OpCreateWorkflowRun ((workflow_run "wf_1") <| WorkflowRun_Kind := KindMigration |>
      <| WorkflowRun_Status := StatusQueued |>);
    OpCreateMachineOperation (mkMachineOperation "" "id-4" "migrate" "" (Some "wf_1"%string)
      None None 0 None) ].
Definition db_migrate : DB := exec_all ops_migrate db_two_hosts.
Lemma db_two_hosts_reachable : reachable db_two_hosts.
Proof.
  apply exec_all_reachable; [apply db_running_reachable|]. cbn -[exec]. repeat split; lia.
Qed.
Lemma db_migrate_reachable : reachable db_migrate.
Proof. apply exec_all_reachable; [apply db_two_hosts_reachable|by repeat split]. Qed.

Definition server0 : Server := api_server runtime0 true true false "00ff" "example.com".
Definition input0 : migrationWorkflowInput :=
  mkMigrationInput (mkMigrationRequest "id-4" 8 false) "id-9" None 1.
Definition world_migrate : World :=
  (world db_migrate) <| w_rand := ["a"; "b"; "c"; "d"; "e"; "f"; "g"]%string |>.
Abbreviation run_migrate := (runMigrationWorkflow (go_sort:=go_sort_merge) server0
  [PollStatus "starting" ""; PollStatus "running" ""] [PollStatus "running" ""] 3
  "wf_1" input0 world_migrate).

(** The release of the source fails twice, and succeeds. *)
Definition world_release : World :=
  world_migrate <| w_faults := [false; true; true; false; false] |>.
Lemma migration_frees_source_once_witness :
  let '(r, w') := RunAsStep 3 (step_release_source server0 input0 2 true) world_release in
  is_ok r = true ∧
  db_hosts (w_db w') = alter (host_free_cpu 2 4096) 2 (db_hosts (w_db world_release)).
Proof.
  pose proof (migration_frees_source_once server0 input0 2 true 3 world_release
    (machine_of db_migrate "id-4")) as H.
  specialize (H ltac:(vm_compute; reflexivity) ltac:(vm_compute; reflexivity)
    ltac:(vm_compute; reflexivity)).
  assert (Machine_VCPUs (machine_of db_migrate "id-4") = 2) as Ev by (vm_compute; reflexivity).
  assert (Machine_MemoryMB (machine_of db_migrate "id-4") = 4096) as Em by (vm_compute; reflexivity).
  rewrite Ev, Em in H.
  assert (is_ok (RunAsStep 3 (step_release_source server0 input0 2 true) world_release).1 = true)
    as E by (vm_compute; reflexivity).
  destruct (RunAsStep _ _ _) as [[b|e] w']; [|discriminate E]. split; [reflexivity|].
  exact (proj1 H).
Defined.

Lemma world_migrate_columns :
  columns_of "id-4" (w_db world_migrate) = Some ("id-4"%string, Some 2, None).
Proof. vm_compute. reflexivity. Qed.
Lemma run_migrate_result :
  run_migrate.1 = Ok (mkMigrationResult "wf_1" "migrated_and_restored" "id-4" 8 (Some 0), None).
Proof. vm_compute. reflexivity. Qed.

Lemma migration_success_moves_witness :
  ∃ home, columns_of "id-4" (w_db run_migrate.2) = Some ("id-4"%string, Some 8, home).
Proof.
  pose proof (migration_success_moves (go_sort:=go_sort_merge) server0
    [PollStatus "starting" ""; PollStatus "running" ""] [PollStatus "running" ""] 3
    "wf_1" input0 world_migrate (Some 2) None ltac:(intros E; discriminate E)
    ltac:(intros E; discriminate E) (proj1 (reachable_keyed _ db_migrate_reachable))
    world_migrate_columns) as H.
  pose proof run_migrate_result as E.
  destruct (runMigrationWorkflow _ _ _ _ _ _ _) as [r w'].
  cbn [fst snd] in E |- *. rewrite E in H. destruct H as [[H _]|[H _]]; exact H.
Defined.

Lemma migration_settles_witness :
  active_operations (w_db world_migrate) "id-4" ≠ [] ∧
  active_operations (w_db run_migrate.2) "id-4" = [].
Proof.
  split; [vm_compute; discriminate|].
  pose proof (migration_settles (go_sort:=go_sort_merge) server0
    [PollStatus "starting" ""; PollStatus "running" ""] [PollStatus "running" ""] 3
    "wf_1" input0 world_migrate eq_refl) as H.
  specialize (H ltac:(intros E; discriminate E)).
  assert (only_active "id-4" "id-9" (w_db world_migrate)) as Ha.
  { apply only_active_sole; [exact (proj1 (reachable_operations_unique _ db_migrate_reachable))|].
    vm_compute. reflexivity. }
  specialize (H Ha).
  destruct (runMigrationWorkflow _ _ _ _ _ _ _) as [[[res err]|e] w']; [exact (proj1 H)|destruct H].
Defined.

(** ** What an aborted migration gets wrong *)

(** Machine id-4 is stopped before its migration starts, and both attempts at
    its backup fail. *)
Definition db_migrate_stopped : DB :=
  exec_all ops_migrate (exec_all [OpSoftStopMachine "id-4" 2 2 4096 8192] db_two_hosts).
Definition world_abort : World :=
  (world db_migrate_stopped) <| w_faults := repeat false 10 ++ [true; true] |>.
Definition run_abort : res (migrationWorkflowResult * option error) * World :=
  runMigrationWorkflow (go_sort:=go_sort_merge) server0 [] [] 0 "wf_1" input0 world_abort.

(** The abort of a migration stops the source machine in the database
    whether the workflow had stopped it or not: from a reachable database in
    which the machine is already stopped, its share is freed a second time, and
    the host's counters say that it is empty while another machine runs on it. *)
Lemma aborted_migration_frees_twice :
  reachable (w_db world_abort) ∧
  Machine_Status (machine_of (w_db world_abort) "id-4") = "stopped"%string ∧
  Machine_Status (machine_of (w_db run_abort.2) "id-5") = "running"%string ∧
  Machine_HostID (machine_of (w_db run_abort.2) "id-5") = Some 2 ∧
  used_vcpus 2 (w_db world_abort) = Some 2 ∧ used_vcpus 2 (w_db run_abort.2) = Some 0.
Proof.
  split.
  { apply exec_all_reachable; [apply exec_all_reachable; [apply db_two_hosts_reachable|]|].
    - cbn -[exec]. repeat split; lia.
    - by repeat split. }
  repeat split; vm_compute; reflexivity.
Qed.
