(* ===== verification/Machines.v ===== *)
(** * The machines API: api/machines.go, api/sizes.go, api/admin_machines.go

    Machines are created, resized, started, stopped, deleted, given pinned
    versions or a channel, and upgraded in place with a health gate and a roll
    back.  A handler takes the account of the path and the claims of the caller,
    which the account middleware has checked.  Encrypted values and signed
    tokens are opaque: they come from the random source, whose errors are the
    errors of the encryption.  The ten minutes that an applied change has do not
    expire; the rounds of its waiting loops are lists of answers. *)

From S2P Require Import Prelude Schema HostStore PlacementStore OperationStore.
From S2P Require Import AccountStore CatalogStore World Fleet GoStrings Versions.
From S2P Require Import Routing Runtime Workflows Api Members BrowserVMs Migration.

(** ** Values *)

Definition json_str (v : option string) : option json := JStr <$> v.
Definition json_num (v : option Z) : option json := JNum <$> v.
Definition machine_json (m : Machine) : json :=
  JObj ([("id", JStr (Machine_ID m)); ("account_id", JNum (Machine_AccountID m))]%string ++
    omitempty "workspace_id" (json_str (Machine_WorkspaceID m)) ++
    [("kind", JStr (Machine_Kind m)); ("name", JStr (Machine_Name m));
     ("slug", JStr (Machine_Slug m))]%string ++
    omitempty "preferred_region" (json_str (Machine_PreferredRegion m)) ++
    [("status", JStr (Machine_Status m))]%string ++
    omitempty "status_message" (json_str (Machine_StatusMessage m)) ++
    [("vcpus", JNum (Machine_VCPUs m)); ("memory_mb", JNum (Machine_MemoryMB m))]%string ++
    omitempty "host_id" (json_num (Machine_HostID m)) ++
    omitempty "vm_ip" (json_str (Machine_VMIP m)) ++
    omitempty "tunnel_hostname" (json_str (Machine_TunnelHostname m)) ++
    omitempty "custom_domain" (json_str (Machine_CustomDomain m)) ++
    omitempty "gateway_token" (json_str (Machine_GatewayToken m)) ++
    omitempty "proxy_token" (json_str (Machine_ProxyToken m)) ++
    omitempty "workspace_integration_tokens_valid_after"
      (json_num (Machine_WorkspaceIntegrationTokensValidAfter m)) ++
    omitempty "provision_step" (json_str (Machine_ProvisionStep m)) ++
    omitempty "provisioning_started_at" (json_num (Machine_ProvisioningStartedAt m)) ++
    omitempty "provisioning_completed_at" (json_num (Machine_ProvisioningCompletedAt m)) ++
    omitempty "budget_microcents" (json_num (Machine_BudgetMicrocents m)) ++
    [("created_at", JNum (Machine_CreatedAt m))]%string ++
    omitempty "started_at" (json_num (Machine_StartedAt m)) ++
    omitempty "stopped_at" (json_num (Machine_StoppedAt m)) ++
    [("data_volume_gb", JNum (Machine_DataVolumeGB m))]%string ++
    omitempty "desired_rootfs_version" (json_str (Machine_DesiredRootfsVersion m)) ++
    omitempty "desired_openclaw_version" (json_str (Machine_DesiredOpenclawVersion m)) ++
    omitempty "desired_channel" (json_str (Machine_DesiredChannel m)) ++
    omitempty "resolved_rootfs_version" (json_str (Machine_ResolvedRootfsVersion m)) ++
    omitempty "resolved_openclaw_version" (json_str (Machine_ResolvedOpenclawVersion m)) ++
    omitempty "actual_rootfs_version" (json_str (Machine_ActualRootfsVersion m)) ++
    omitempty "actual_openclaw_version" (json_str (Machine_ActualOpenclawVersion m)) ++
    omitempty "version_source" (json_str (Machine_VersionSource m)) ++
    omitempty "runtime_source" (json_str (Machine_RuntimeSource m)) ++
    omitempty "rootfs_snapshot" (json_str (Machine_RootfsSnapshot m)) ++
    omitempty "openclaw_version" (json_str (Machine_OpenclawVersion m)) ++
    omitempty "last_started_at" (json_num (Machine_LastStartedAt m)) ++
    omitempty "tunnel_id" (json_str (Machine_TunnelID m)) ++
    omitempty "home_host_id" (json_num (Machine_HomeHostID m)) ++
    [("storage_mode", JStr (Machine_StorageMode m));
     ("backups_enabled", JBool (Machine_BackupsEnabled m))]%string ++
    omitempty "browser_vm_id" (json_str (Machine_BrowserVMID m))).

Record MachineSize : Type := mkMachineSize {
  MachineSize_ID : string;
  MachineSize_Label : string;
  MachineSize_VCPUs : Z;
  MachineSize_MemoryMB : Z;
  MachineSize_SwapMB : Z;
  MachineSize_DiskGB : Z;
  MachineSize_Description : string;
  MachineSize_IsDefault : bool
}.
Definition size_json (z : MachineSize) : json :=
  JObj ([("id", JStr (MachineSize_ID z)); ("label", JStr (MachineSize_Label z));
    ("vcpus", JNum (MachineSize_VCPUs z)); ("memory_mb", JNum (MachineSize_MemoryMB z));
    ("swap_mb", JNum (MachineSize_SwapMB z)); ("disk_gb", JNum (MachineSize_DiskGB z));
    ("description", JStr (MachineSize_Description z))]%string ++
    if MachineSize_IsDefault z then [("is_default"%string, JBool true)] else []).
Definition standard_size : MachineSize :=
  mkMachineSize "standard" "Standard" 2 6144 1024 20 "2 vCPUs, 6 GB RAM, 20 GB disk" true.
Definition MachineSizes : list MachineSize :=
  [mkMachineSize "basic" "Basic" 1 3072 1024 10 "1 vCPU, 3 GB RAM, 10 GB disk" false;
   standard_size;
   mkMachineSize "pro" "Pro" 4 12288 1024 50 "4 vCPUs, 12 GB RAM, 50 GB disk" false].
Definition LookupSize (id : string) : option MachineSize :=
  find (λ z, String.eqb (MachineSize_ID z) id) MachineSizes.
Definition DefaultSize : MachineSize :=
  default standard_size (find MachineSize_IsDefault MachineSizes).
Definition handleListSizes : M response := writeJSON 200 (JArr (size_json <$> MachineSizes)).

Definition validRegions : list string :=
  ["us-west1"; "us-central1"; "us-east1"; "europe-west1"; "europe-west4"; "asia-east1";
   "asia-southeast1"; "external"; "us-west"; "us-central"; "us-east"; "eu-west"; "eu-central";
   "eu-north"; "asia-east"; "asia-south"; "asia-southeast"]%string.
Definition isValidRegionCode (code : string) : bool := one_of validRegions code.
Definition isValidMachineChannel (channel : string) : bool :=
  one_of ["stable"; "rc"; "dev"]%string channel.
Definition isValidRuntimeSource (source : string) : bool := one_of ["artifact"%string] source.

Definition normalizeOptionalString (raw : string) : option string :=
  let trimmed := TrimSpace raw in if String.eqb trimmed "" then None else Some trimmed.
(** [None]: present but empty. *)
Definition normalizePresentString (raw : option string) : option (option string) :=
  match raw with
  | None => Some None
  | Some raw =>
      let trimmed := TrimSpace raw in
      if String.eqb trimmed "" then None else Some (Some trimmed)
  end.
Definition deriveMachineVersionSource (rootfsVersion openclawVersion channel : option string)
    : string :=
  if is_some_b rootfsVersion || is_some_b openclawVersion then "pinned"
  else if is_some_b channel then "channel" else "default".

(** rootfs/openclaw_fetcher.go: letters, digits, and within the string dots,
    underscores and dashes; 128 characters at most. *)
Definition version_edge (c : ascii) : bool :=
  let n := Ascii.nat_of_ascii c in
  is_digit c || (Nat.leb 65 n && Nat.leb n 90) || (Nat.leb 97 n && Nat.leb n 122).
Definition version_char (c : ascii) : bool :=
  version_edge c || existsb (Nat.eqb (Ascii.nat_of_ascii c)) [46; 95; 45]%nat.
Fixpoint version_tail (s : string) : bool :=
  match s with
  | EmptyString => true
  | String c EmptyString => version_edge c
  | String c s' => version_char c && version_tail s'
  end.
Definition openClawVersionRe (s : string) : bool :=
  match s with
  | EmptyString => false
  | String c s' => version_edge c && version_tail s' && Nat.leb (String.length s') 127
  end.
Definition ValidateOpenClawVersion (version : string) : res unit :=
  let version := TrimSpace version in
  if String.eqb version "" then Err (ErrText "openclaw version is required")
  else if Contains version ".." then Err (ErrText "invalid openclaw version")
  else if negb (openClawVersionRe version) then Err (ErrText "invalid openclaw version")
  else Ok tt.

(** An optional value that is validated when it is present. *)
Definition valid_opt (what : string) (validate : string → res unit) (v : option string)
    : res unit :=
  match v with
  | None => Ok tt
  | Some x => match validate x with
              | Ok _ => Ok tt
              | Err e => Err (ErrText ("invalid " +:+ what +:+ ": " +:+ Error e))
              end
  end.
Definition or_bad_request {A} (r : res A) (k : A → M response) : M response :=
  match r with Ok a => k a | Err e => writeError 400 (Error e) end.

(** hex.DecodeString of a key of 32 bytes, as aes.NewCipher needs it; a key of 16 or
    24 bytes is accepted too. *)
Definition is_hex (c : ascii) : bool :=
  let n := Ascii.nat_of_ascii c in
  is_digit c || (Nat.leb 65 n && Nat.leb n 70) || (Nat.leb 97 n && Nat.leb n 102).
Definition hex_decodes (s : string) : bool := all_chars is_hex s && Nat.even (String.length s).
Definition cipher_key (s : string) : bool :=
  existsb (Nat.eqb (String.length s)) [32; 48; 64]%nat.

(** ** Requests *)

Record create_machine_body : Type := mkCreateMachineBody {
  CreateMachine_Name : string;
  CreateMachine_Kind : string;
  CreateMachine_Size : string;
  CreateMachine_PreferredRegion : string;
  CreateMachine_RootfsVersion : string;
  CreateMachine_OpenclawVersion : string;
  CreateMachine_HermesVersion : string;
  CreateMachine_Channel : string;
  CreateMachine_RuntimeSource : option string;
  CreateMachine_AutoStart : bool;
  CreateMachine_Secrets : gmap string string
}.
Record update_machine_body : Type := mkUpdateMachineBody {
  UpdateMachine_Name : string;
  UpdateMachine_VCPUs : Z;
  UpdateMachine_MemoryMB : Z;
  UpdateMachine_CustomDomain : option string;
  UpdateMachine_BackupsEnabled : option bool;
  UpdateMachine_RootfsVersion : option string;
  UpdateMachine_OpenclawVersion : option string;
  UpdateMachine_Channel : option string;
  UpdateMachine_RuntimeSource : option string
}.
(** The body of the upgrades and roll backs of a rootfs and of OpenClaw. *)
Record change_body : Type := mkChangeBody {
  Change_Version : string;
  Change_ApplyNow : bool;
  Change_RuntimeSource : option string
}.
Record runtime_upgrade_body : Type := mkRuntimeUpgradeBody {
  RuntimeUpgrade_RootfsVersion : string;
  RuntimeUpgrade_OpenclawVersion : string;
  RuntimeUpgrade_RuntimeSource : string
}.

(** What the agent answers while a restart is awaited: the polls of the VM and the
    checks of the gateway. *)
Record restart_answers : Type := mkRestartAnswers {
  Restart_polls : list PollAnswer;
  Restart_healths : list bool
}.

Record runtimeChangeResponse : Type := mkRuntimeChangeResponse {
  RuntimeChange_Status : string;
  RuntimeChange_TargetVersion : string;
  RuntimeChange_RolledBackToVersion : string;
  RuntimeChange_Error : string;
  RuntimeChange_Machine : option Machine
}.
Definition runtime_change_json (r : runtimeChangeResponse) : json :=
  JObj ([("status", JStr (RuntimeChange_Status r));
         ("target_version", JStr (RuntimeChange_TargetVersion r))]%string ++
    omitempty_str "rolled_back_to_version" (RuntimeChange_RolledBackToVersion r) ++
    omitempty_str "error" (RuntimeChange_Error r) ++
    omitempty "machine" (machine_json <$> RuntimeChange_Machine r)).
Definition write_change (status : Z) (r : runtimeChangeResponse) : M response :=
  writeJSON status (runtime_change_json r).

(** ** Pinned versions *)

Definition pin (runtimeSource : string) (m : Machine) : Machine :=
  m <| Machine_DesiredChannel := None |> <| Machine_VersionSource := Some "pinned"%string |>
    <| Machine_RuntimeSource := Some (TrimSpace runtimeSource) |>.
Definition applyPinnedOpenClawVersion (version runtimeSource : string) (m : Machine) : Machine :=
  pin runtimeSource (m <| Machine_DesiredOpenclawVersion := Some (TrimSpace version) |>).
Definition applyPinnedRootfsVersion (version runtimeSource : string) (m : Machine) : Machine :=
  pin runtimeSource (m <| Machine_DesiredRootfsVersion := Some (TrimSpace version) |>).

Fixpoint firstMachineString (values : list (option string)) : string :=
  match values with
  | [] => EmptyString
  | None :: rest => firstMachineString rest
  | Some v :: rest =>
      let trimmed := TrimSpace v in
      if String.eqb trimmed "" then firstMachineString rest else trimmed
  end.
Definition currentMachineOpenClawVersion (m : Machine) : string :=
  firstMachineString [Machine_ResolvedOpenclawVersion m; Machine_OpenclawVersion m;
                      Machine_DesiredOpenclawVersion m].
Definition currentMachineRootfsVersion (m : Machine) : string :=
  firstMachineString [Machine_ResolvedRootfsVersion m; Machine_RootfsSnapshot m;
                      Machine_DesiredRootfsVersion m].
Definition currentMachineRuntimeSource (m : Machine) : string :=
  firstMachineString [Machine_RuntimeSource m; Some "artifact"%string].
(** Another version is queued. *)
Definition hasPendingChange (desired : option string) (targetVersion : string) : bool :=
  match desired with
  | None => false
  | Some v => negb (String.eqb (TrimSpace v) "") && negb (String.eqb (TrimSpace v) targetVersion)
  end.
Definition majorVersion (v : string) : string :=
  match split_first "-"%char v with
  | Some (EmptyString, _) | None => v
  | Some (major, _) => major
  end.

(** The runtime source of a request that changes versions. *)
Definition change_source (raw : option string) : res string :=
  match normalizePresentString raw with
  | None => Err (ErrText "runtime_source must be: artifact")
  | Some source =>
      let source := default "artifact"%string source in
      if isValidRuntimeSource source then Ok source
      else Err (ErrText "runtime_source must be: artifact")
  end.

Section Machines.
  Context {go_sort : GoSort}.
  Variable s : Server.
  Abbreviation rs := (srv_machines s).
  Abbreviation agentClient := (rs_agentClient (srv_machines s)).

Definition log (action : string) (claims : Claims) (accountID : Z) (machineID : string) : M unit :=
  emit (MachineLog action (Some (Claims_UserID claims)) accountID machineID None).

(** ** Creating *)

(** A request's selection of versions, checked. *)
Record selection : Type := mkSelection {
  sel_rootfs : option string;
  sel_openclaw : option string;
  sel_channel : option string
}.
Definition channel_conflict (channel rootfs openclaw : option string) : res unit :=
  if is_some_b channel && (is_some_b rootfs || is_some_b openclaw) then
    Err (ErrText "channel cannot be combined with pinned rootfs_version/openclaw_version")
  else Ok tt.
Definition channel_valid (channel : option string) : res unit :=
  match channel with
  | Some c => if isValidMachineChannel c then Ok tt
              else Err (ErrText "channel must be one of: stable, rc, dev")
  | None => Ok tt
  end.

Definition create_kind (req : create_machine_body) : string :=
  NormalizeMachineKind (ToLower (TrimSpace (CreateMachine_Kind req))).
Definition create_selection (req : create_machine_body) : selection :=
  let openclaw := normalizeOptionalString (CreateMachine_OpenclawVersion req) in
  mkSelection (normalizeOptionalString (CreateMachine_RootfsVersion req))
    (if String.eqb (create_kind req) MachineKindHermes && negb (is_some_b openclaw)
     then normalizeOptionalString (CreateMachine_HermesVersion req) else openclaw)
    (normalizeOptionalString (CreateMachine_Channel req)).

(** What the handler builds the row from, or the first error it reports. *)
Definition checked_create (accountID : Z) (workspaceID : option string)
    (req : create_machine_body) : res (string → Machine) :=
  let machineKind := create_kind req in
  let preferredRegion := ToLower (TrimSpace (CreateMachine_PreferredRegion req)) in
  let sel := create_selection req in
  if negb (ValidMachineKind machineKind) then
    Err (ErrText "kind must be one of: openclaw, hermes")
  else if negb (String.eqb preferredRegion "") && negb (isValidRegionCode preferredRegion) then
    Err (ErrText "invalid preferred_region format")
  else
    match normalizePresentString (CreateMachine_RuntimeSource req) with
    | None => Err (ErrText "runtime_source must be: artifact")
    | Some runtimeSource =>
        match channel_valid (sel_channel sel),
              channel_conflict (sel_channel sel) (sel_rootfs sel) (sel_openclaw sel),
              valid_opt "rootfs_version" validateRootfsVersion (sel_rootfs sel),
              valid_opt "openclaw_version" ValidateOpenClawVersion (sel_openclaw sel) with
        | Err e, _, _, _ | Ok _, Err e, _, _ | Ok _, Ok _, Err e, _ | Ok _, Ok _, Ok _, Err e => Err e
        | Ok _, Ok _, Ok _, Ok _ =>
            let runtimeSource := default "artifact"%string runtimeSource in
            if negb (isValidRuntimeSource runtimeSource) then
              Err (ErrText "runtime_source must be: artifact")
            else
              match (if String.eqb (CreateMachine_Size req) "" then Some DefaultSize
                     else LookupSize (CreateMachine_Size req)) with
              | None => Err (ErrText "unknown size — use GET /api/sizes for valid options")
              | Some size =>
                  Ok (λ slug, mkMachine "" accountID workspaceID machineKind
                    (CreateMachine_Name req) slug
                    (if String.eqb preferredRegion "" then None else Some preferredRegion)
                    "stopped" None (MachineSize_VCPUs size) (MachineSize_MemoryMB size) None None
                    None None None None None None None None None 0 None None
                    (MachineSize_DiskGB size) (sel_rootfs sel) (sel_openclaw sel) (sel_channel sel)
                    None None None None
                    (Some (deriveMachineVersionSource (sel_rootfs sel) (sel_openclaw sel)
                             (sel_channel sel)))
                    (Some runtimeSource) None None None None None EmptyString None "" false None
                    None)
              end
        end
    end.

(** Three slugs are tried. *)
Fixpoint machine_attempts (attempts : nat) (row : string → Machine) (k : Machine → M response)
    : M response :=
  match attempts with
  | O => writeError 409 "failed to generate unique slug, please try again"
  | S attempts' =>
      let! slug := generateShortID in
      let! r := try (call (CreateMachine (row slug))) in
      match r with
      | Ok machine => k machine
      | Err e =>
          if errors_is e ErrConflict then machine_attempts attempts' row k
          else writeError 500 "failed to create machine"
      end
  end.

(** The key that a machine's backups are encrypted with, itself encrypted. *)
Definition new_backup_key : M string :=
  wrap "generate" (let! _ := rand_hex in ret tt) ;;
  (if hex_decodes (srv_backupMasterKey s) then ret tt else fail (ErrText "master key")) ;;
  (if cipher_key (srv_backupMasterKey s) then rand_hex else fail (ErrText "invalid key size")).

(** The plugins, the backups and the secrets of a new machine, whose errors are
    only logged. *)
Definition enable_default_plugins (machine : Machine) : M unit :=
  when (String.eqb (Machine_Kind machine) MachineKindOpenClaw)
    (for_each ["memory-core"; "opik-openclaw"; "composio"]%string (λ plugin,
       ignore (call (EnableMachinePlugin (Machine_ID machine) plugin None)))).
Definition enable_default_backups (machine : Machine) : M Machine :=
  if String.eqb (srv_backupMasterKey s) "" then ret machine
  else
    let! r := try (let! key := new_backup_key in call (EnableBackups (Machine_ID machine) key)) in
    ret (match r with Ok _ => machine <| Machine_BackupsEnabled := true |> | Err _ => machine end).
Definition store_secrets (machine : Machine) (secrets : gmap string string) : M unit :=
  when (negb (String.eqb (srv_secretKey s) ""))
    (for_each (map_to_list secrets) (λ '(key, _),
       ignore (let! encrypted := rand_hex in
               call (SetSecret (Machine_ID machine) key encrypted)))).

Definition machine_created (claims : Claims) (accountID : Z) (req : create_machine_body)
    (machine : Machine) : M response :=
  enable_default_plugins machine ;;
  let! machine := enable_default_backups machine in
  store_secrets machine (CreateMachine_Secrets req) ;;
  log "machine.created" claims accountID (Machine_ID machine) ;;
  if negb (CreateMachine_AutoStart req) then writeJSON 201 (machine_json machine)
  else
    let! r := try (Start rs machine no_options) in
    match r with
    | Err e =>
        log "machine.start_failed" claims accountID (Machine_ID machine) ;;
        writeJSON 201 (match machine_json machine with
          | JObj fields => JObj (fields ++ omitempty_str "start_error" (Error e))
          | j => j
          end)
    | Ok _ => writeJSON 201 (machine_json (machine <| Machine_Status := "provisioning"%string |>))
    end.
Definition create_in (claims : Claims) (accountID : Z) (body : option create_machine_body)
    (workspaceID : option string) : M response :=
  decoded body (λ req,
  or_bad_request (checked_create accountID workspaceID req) (λ row,
  machine_attempts 3 row (machine_created claims accountID req))).
Definition handleCreateMachine (claims : Claims) (accountID : Z) (workspaceID : string)
    (body : option create_machine_body) : M response :=
  let rawWorkspaceID := TrimSpace workspaceID in
  if String.eqb rawWorkspaceID "" then create_in claims accountID body None
  else
    or_error (call (GetWorkspace accountID rawWorkspaceID)) 404 "workspace not found"
      (λ workspace, create_in claims accountID body (Some (Workspace_ID workspace))).

(** ** Reading and changing *)

Definition handleListMachines (accountID : Z) : M response :=
  or_its_error (call (ListMachinesByAccount accountID)) 500 (λ machines,
  writeJSON 200 (JArr (machine_json <$> machines))).
Definition handleGetMachine (accountID : Z) (id : string) : M response :=
  owned_machine accountID id (λ machine, writeJSON 200 (machine_json machine)).

(** The checks fail open: an unknown release is compatible. *)
Definition checkOpenClawRootfsPairCompat (openclawVersion rootfsVersion : string)
    : M (option IncompatibleRootfsError) :=
  if String.eqb rootfsVersion "" then ret None
  else
    let! release := or_nil (call (GetArtifactRelease "openclaw" openclawVersion)) in
    match release with
    | None => ret None
    | Some r =>
        match ArtifactRelease_MinRootfsVersion r with
        | None => ret None
        | Some minVer =>
            if String.eqb rootfsVersion minVer then ret None
            else
              let! minRow := or_nil (call (GetArtifactRelease "rootfs" minVer)) in
              match minRow with
              | None => ret None
              | Some minRow =>
                  let! curRow := or_nil (call (GetArtifactRelease "rootfs" rootfsVersion)) in
                  match curRow with
                  | None => ret None
                  | Some curRow =>
                      ret (CheckOpenClawRootfsCompat release rootfsVersion
                             (ArtifactRelease_CreatedAt minRow) (ArtifactRelease_CreatedAt curRow))
                  end
              end
        end
    end.
Definition checkOpenClawPinCompat (openclawVersion : string) (m : Machine)
    : M (option IncompatibleRootfsError) :=
  let currentRootfs := default EmptyString (Machine_ActualRootfsVersion m) in
  checkOpenClawRootfsPairCompat openclawVersion
    (if String.eqb currentRootfs "" then default EmptyString (Machine_ResolvedRootfsVersion m)
     else currentRootfs).
Definition incompatible (e : IncompatibleRootfsError) : string :=
  ("OpenClaw " +:+ IncompatibleRootfsError_OpenclawVersion e +:+ " requires rootfs " +:+
   IncompatibleRootfsError_MinRootfsVersion e +:+ " or newer; machine is on " +:+
   IncompatibleRootfsError_CurrentRootfsVersion e +:+
   ". Upgrade rootfs first, or upgrade both together.")%string.
Definition compatible (check : M (option IncompatibleRootfsError)) (k : M response) : M response :=
  let! e := check in
  match e with Some e => writeError 422 (incompatible e) | None => k end.

(** Name, size and domain. *)
Definition resized (req : update_machine_body) (m : Machine) : res Machine :=
  let vcpus := UpdateMachine_VCPUs req in
  let memory := UpdateMachine_MemoryMB req in
  if bool_decide (0 < vcpus) && (bool_decide (vcpus < 1) || bool_decide (8 < vcpus)) then
    Err (ErrText "vcpus must be between 1 and 8")
  else if bool_decide (0 < memory) && (bool_decide (memory < 2048) || bool_decide (8192 < memory)) then
    Err (ErrText "memory_mb must be between 2048 and 8192")
  else
    Ok (m <| Machine_Name ::= λ old, if String.eqb (UpdateMachine_Name req) "" then old
                                     else UpdateMachine_Name req |>
          <| Machine_VCPUs ::= λ old, if bool_decide (0 < vcpus) then vcpus else old |>
          <| Machine_MemoryMB ::= λ old, if bool_decide (0 < memory) then memory else old |>
          <| Machine_CustomDomain ::= λ old, match UpdateMachine_CustomDomain req with
                                             | Some d => Some d | None => old end |>).

Definition requested (raw : option string) : option string :=
  match raw with Some v => normalizeOptionalString v | None => None end.
Definition update_selection (req : update_machine_body) : res selection :=
  let sel := mkSelection (requested (UpdateMachine_RootfsVersion req))
    (requested (UpdateMachine_OpenclawVersion req)) (requested (UpdateMachine_Channel req)) in
  match channel_conflict (sel_channel sel) (sel_rootfs sel) (sel_openclaw sel),
        valid_opt "rootfs_version" validateRootfsVersion (sel_rootfs sel),
        valid_opt "openclaw_version" ValidateOpenClawVersion (sel_openclaw sel) with
  | Err e, _, _ | Ok _, Err e, _ | Ok _, Ok _, Err e => Err e
  | Ok _, Ok _, Ok _ => Ok sel
  end.

(** The fields of the selection that are in the request replace the machine's; a
    channel clears the pins and a pin clears the channel. *)
Definition select_versions (req : update_machine_body) (sel : selection) (m : Machine) : Machine :=
  let pinned := is_some_b (sel_rootfs sel) || is_some_b (sel_openclaw sel) in
  let clear_pins v := if is_some_b (sel_channel sel) then None else v in
  m <| Machine_DesiredRootfsVersion ::= λ old,
         if is_some_b (UpdateMachine_RootfsVersion req) then sel_rootfs sel else clear_pins old |>
    <| Machine_DesiredOpenclawVersion ::= λ old,
         if is_some_b (UpdateMachine_OpenclawVersion req) then sel_openclaw sel else clear_pins old |>
    <| Machine_DesiredChannel ::= λ old,
         if is_some_b (UpdateMachine_Channel req) then sel_channel sel
         else if pinned then None else old |>.
Definition selected (req : update_machine_body) (sel : selection) (m : Machine) : res Machine :=
  let m := select_versions req sel m in
  match (match UpdateMachine_RuntimeSource req with
         | None => Some (Machine_RuntimeSource m)
         | Some raw => normalizePresentString (Some raw)
         end) with
  | None => Err (ErrText "runtime_source must be: artifact")
  | Some source =>
      match channel_valid (Machine_DesiredChannel m),
            channel_conflict (Machine_DesiredChannel m) (Machine_DesiredRootfsVersion m)
              (Machine_DesiredOpenclawVersion m) with
      | Err e, _ | Ok _, Err e => Err e
      | Ok _, Ok _ =>
          let source := default "artifact"%string source in
          if negb (isValidRuntimeSource source) then Err (ErrText "runtime_source must be: artifact")
          else
            let m := m <| Machine_RuntimeSource := Some source |> in
            Ok (if is_some_b (UpdateMachine_RootfsVersion req) ||
                   is_some_b (UpdateMachine_OpenclawVersion req) ||
                   is_some_b (UpdateMachine_Channel req)
                then m <| Machine_VersionSource := Some (deriveMachineVersionSource
                         (Machine_DesiredRootfsVersion m) (Machine_DesiredOpenclawVersion m)
                         (Machine_DesiredChannel m)) |>
                else m)
      end
  end.

(** A machine that has had backups keeps its key. *)
Definition with_backup_key (m : Machine) (k : string → M response) : M response :=
  let key := default EmptyString (Machine_BackupKey m) in
  if negb (String.eqb key "") then k key
  else
    or_error rand_hex 500 "failed to generate backup key" (λ _,
    if negb (hex_decodes (srv_backupMasterKey s)) then writeError 500 "backup not configured"
    else
      or_error (if cipher_key (srv_backupMasterKey s) then rand_hex
                else fail (ErrText "invalid key size")) 500 "failed to encrypt backup key" k).
Definition switch_backups (enabled : option bool) (id : string) (m : Machine)
    (k : Machine → M response) : M response :=
  match enabled with
  | Some true =>
      if Machine_BackupsEnabled m then k m
      else
        with_backup_key m (λ key,
        or_error (call (EnableBackups id key)) 500 "failed to enable backups" (λ _,
        k (m <| Machine_BackupsEnabled := true |>)))
  | Some false =>
      or_error (call (DisableBackups id)) 500 "failed to disable backups" (λ _,
      k (m <| Machine_BackupsEnabled := false |>))
  | None => k m
  end.

Definition handleUpdateMachine (accountID : Z) (id : string) (body : option update_machine_body)
    : M response :=
  owned_machine accountID id (λ machine,
  decoded body (λ req,
  or_bad_request (resized req machine) (λ machine,
  or_bad_request (update_selection req) (λ sel,
  compatible (match sel_openclaw sel, sel_rootfs sel with
              | Some openclaw, None => checkOpenClawPinCompat openclaw machine
              | _, _ => ret None
              end) (
  or_bad_request (selected req sel machine) (λ machine,
  switch_backups (UpdateMachine_BackupsEnabled req) id machine (λ machine,
  or_its_error (call (UpdateMachine machine)) 500 (λ _,
  writeJSON 200 (machine_json machine))))))))).

(** ** Releases *)

Definition releaseArtifactKind (hermes other machineKind : string) : string :=
  if String.eqb (NormalizeMachineKind machineKind) MachineKindHermes then hermes else other.
Definition rootfsReleaseArtifactKind : string → string := releaseArtifactKind "hermes-rootfs" "rootfs".
Definition runtimeReleaseArtifactKind : string → string := releaseArtifactKind "hermes" "openclaw".

Definition release_item (version : string) (r : ArtifactRelease) : json :=
  JObj [("version", JStr version); ("exact_version", JStr (ArtifactRelease_Version r));
        ("channel", JStr (ArtifactRelease_Channel r));
        ("created_at", JNum (ArtifactRelease_CreatedAt r))]%string.
(** The newest release of each major version. *)
Fixpoint latest_majors (major : ArtifactRelease → string) (seen : list string)
    (releases : list ArtifactRelease) : list json :=
  match releases with
  | [] => []
  | r :: rest =>
      if existsb (String.eqb (major r)) seen then latest_majors major seen rest
      else release_item (major r) r :: latest_majors major (major r :: seen) rest
  end.
Definition list_releases (channel kind : string) (artifactKind : string → string)
    (items : string → list ArtifactRelease → list json) : M response :=
  let channel := if String.eqb channel "" then "stable"%string else channel in
  let machineKind := NormalizeMachineKind kind in
  if negb (ValidMachineKind machineKind) then writeError 400 "invalid machine kind"
  else
    or_its_error (call (ListArtifactReleases (artifactKind machineKind) channel 50)) 500
      (λ releases, writeJSON 200 (JArr (items (artifactKind machineKind) releases))).
(** A nil slice, which is encoded as null, is an empty list here. *)
Definition handleListOpenClawReleases (channel kind : string) : M response :=
  list_releases channel kind runtimeReleaseArtifactKind (λ artifactKind,
    latest_majors (λ r, if String.eqb artifactKind "openclaw"
                        then majorVersion (ArtifactRelease_Version r)
                        else ArtifactRelease_Version r) []).
Definition handleListRootfsReleases (channel kind : string) : M response :=
  list_releases channel kind rootfsReleaseArtifactKind (λ _ releases,
    (λ r, release_item (ArtifactRelease_Version r) r) <$> releases).

(** ** Restarts behind a health gate *)

(** api/machine_config.go: the rounds that start before the deadline. *)
Fixpoint await_gateway (host : Host) (machineID : string) (healths : list bool) : M unit :=
  match healths with
  | [] => fail (ErrText "gateway not healthy")
  | healthy :: rest =>
      emit (AgentGatewayHealth (Host_ID host) machineID) ;;
      if healthy then ret tt else await_gateway host machineID rest
  end.
Definition waitForGatewayHealth (machine : Machine) (healths : list bool) : M unit :=
  match Machine_HostID machine, Machine_ProxyToken machine with
  | Some hostID, Some _ =>
      if agentClient then
        let! host := wrap "get host" (call (GetHost hostID)) in
        await_gateway host (Machine_ID machine) healths
      else fail (ErrText "machine not ready for gateway health check")
  | _, _ => fail (ErrText "machine not ready for gateway health check")
  end.

(** A machine and an error, as the Go functions return them. *)
Definition outcome : Type := option Machine * option error.
Definition fails_with (m : option Machine) (e : error) : M outcome := ret (m, Some e).
(** [x, err := m; if err != nil { return old, err }]. *)
Definition or_returns {A} (m : M A) (old : option Machine) (msg : string) (k : A → M outcome)
    : M outcome :=
  let! r := try m in
  match r with Ok a => k a | Err e => fails_with old (ErrWrap msg e) end.

Definition restartMachineWithOpenClawHealthGate (machine : Machine) (operationID : string)
    (answers : restart_answers) : M outcome :=
  match Machine_HostID machine with
  | None => fails_with None (ErrText "machine has no host assignment")
  | Some _ =>
      let! r := try (UpgradeWithOperation rs machine operationID) in
      match r with
      | Err e =>
          if errors_is e ErrUpgradeRestoredPreviousVM then
            let! reloaded := try (call (GetMachine (Machine_ID machine))) in
            match reloaded with
            | Err _ => fails_with None (ErrWrap "upgrade runtime in place (and reload failed)" e)
            | Ok updatedMachine =>
                fails_with (Some updatedMachine) (ErrWrap "upgrade runtime in place" e)
            end
          else fails_with None (ErrWrap "upgrade runtime in place" e)
      | Ok (host, _) =>
          let! placement := or_nil (call (GetActivePlacement (Machine_ID machine))) in
          let placementID := match placement with Some p => Placement_ID p | None => EmptyString end in
          let! r := try (waitForMachineRunningOnHost s (Machine_ID machine) host placementID
                           (Restart_polls answers)) in
          match r with
          | Err e => fails_with None e
          | Ok _ =>
              or_returns (call (GetMachine (Machine_ID machine))) None
                "reload machine after openclaw change" (λ updatedMachine,
              or_returns (waitForGatewayHealth updatedMachine (Restart_healths answers)) None
                "gateway health gate failed" (λ _, ret (Some updatedMachine, None)))
          end
      end
  end.

(** The versions that run become the machine's, and the pin follows. *)
Definition persist_change (machineID rootfsVersion openclawVersion version_msg desired_msg : string)
    (apply : Machine → Machine) : M Machine :=
  wrap version_msg (call (UpdateMachineVersion machineID rootfsVersion openclawVersion)) ;;
  let! machine := wrap "reload machine after version update" (call (GetMachine machineID)) in
  wrap desired_msg (call (UpdateMachine (apply machine))) ;;
  ret (apply machine).
Definition persistPinnedMachineOpenClawChange (machineID rootfsVersion targetVersion
    runtimeSource : string) : M Machine :=
  persist_change machineID rootfsVersion targetVersion "persist resolved openclaw version"
    "persist desired openclaw selection" (applyPinnedOpenClawVersion targetVersion runtimeSource).
Definition persistPinnedMachineRootfsChange (machineID targetVersion openClawVersion
    runtimeSource : string) : M Machine :=
  persist_change machineID targetVersion openClawVersion "persist resolved rootfs version"
    "persist desired rootfs selection" (applyPinnedRootfsVersion targetVersion runtimeSource).

(** [completeOp]. *)
Definition complete_op (op : MachineOperation) (state : string) (e : option error) : M unit :=
  ignore (call (CompleteMachineOperation (MachineOperation_ID op) state (Error <$> e))).

(** ** Changing the versions of a machine *)

(** What the three handlers check before they take the machine's operation. *)
Definition change_request (accountID : Z) (id : string) (body : option change_body)
    (validate : string → res unit) (check : string → Machine → M (option IncompatibleRootfsError))
    (k : change_body → string → string → M response) : M response :=
  owned_machine accountID id (λ machine,
  decoded body (λ req,
  let targetVersion := TrimSpace (Change_Version req) in
  or_bad_request (validate targetVersion) (λ _,
  compatible (check targetVersion machine) (
  or_bad_request (change_source (Change_RuntimeSource req)) (λ runtimeSource,
  k req targetVersion runtimeSource))))).
Definition no_check (targetVersion : string) (machine : Machine)
    : M (option IncompatibleRootfsError) := ret None.

(** The operation is the lock; the machine is read again under it. *)
Definition locked_machine (accountID : Z) (id kind : string)
    (k : MachineOperation → Machine → M response) : M response :=
  or_its_error (call (CreateMachineOperation (new_operation id kind))) 409 (λ updateOp,
  let! r := try (call (GetMachine id)) in
  match r with
  | Err e => complete_op updateOp "failed" (Some e) ;; writeError 404 "machine not found"
  | Ok lockedMachine =>
      if bool_decide (Machine_AccountID lockedMachine = accountID) then k updateOp lockedMachine
      else
        complete_op updateOp "failed"
          (Some (ErrText "machine does not belong to this account")) ;;
        writeError 403 "machine does not belong to this account"
  end).

(** [logMachineOpenClawActivity], [logMachineRootfsActivity]. *)
Definition logMachineChange (action : string) (success : bool) (claims : Claims) (accountID : Z)
    (machineID : string) : M unit :=
  log (if success then action else action +:+ "_failed")%string claims accountID machineID.
Definition rootfs_action : string := "machine.rootfs_updated".
Definition openclaw_action (rollback : bool) : string :=
  if rollback then "machine.openclaw_rolled_back" else "machine.openclaw_updated".

(** The ends of the handlers: nothing to do, queued for the next start, applied. *)
Definition already_using (op : MachineOperation) (logged : M unit) (status targetVersion : string)
    (lockedMachine : Machine) : M response :=
  complete_op op "completed" None ;;
  logged ;;
  write_change 200 (mkRuntimeChangeResponse status targetVersion "" "" (Some lockedMachine)).
Definition queue_change (op : MachineOperation) (logged : M unit) (targetVersion : string)
    (pendingMachine : Machine) : M response :=
  let! r := try (call (UpdateMachine pendingMachine)) in
  match r with
  | Err e => complete_op op "failed" (Some e) ;; writeError 500 (Error e)
  | Ok _ =>
      complete_op op "completed" None ;;
      logged ;;
      write_change 200 (mkRuntimeChangeResponse "pending_restart" targetVersion "" ""
                          (Some pendingMachine))
  end.
Definition applied (op : MachineOperation) (persist : M Machine) (logged : M unit)
    (status targetVersion rolledBackTo : string) : M response :=
  let! r := try persist in
  match r with
  | Err e => complete_op op "failed" (Some e) ;; writeError 500 (Error e)
  | Ok persistedMachine =>
      complete_op op "completed" None ;;
      logged ;;
      write_change 200 (mkRuntimeChangeResponse status targetVersion rolledBackTo ""
                          (Some persistedMachine))
  end.
Definition already_restored (logged : M unit) (targetVersion previousVersion what : string)
    (e : error) (machine : Machine) : M response :=
  logged ;;
  write_change 409 (mkRuntimeChangeResponse "rolled_back" targetVersion previousVersion
    (what +:+ " failed and the previous VM was already restored: " +:+ Error e)%string
    (Some machine)).
(** [completeOp(failed, applyErr)], and whether the agent restored the old VM. *)
Definition apply_failed (op : MachineOperation) (e : error) (restored failed : M response)
    : M response :=
  complete_op op "failed" (Some e) ;;
  if errors_is e ErrUpgradeRestoredPreviousVM then restored else failed.

Definition nothing_to_change (previousVersion targetVersion runtimeSource : string)
    (desired : option string) (machine : Machine) : bool :=
  negb (String.eqb previousVersion "") && String.eqb targetVersion previousVersion &&
  String.eqb runtimeSource (currentMachineRuntimeSource machine) &&
  negb (hasPendingChange desired targetVersion).
Definition running_b (m : Machine) : bool := String.eqb (Machine_Status m) "running".

(** The end of the rootfs handlers, which have no roll back of their own. *)
Definition apply_rootfs (claims : Claims) (accountID : Z) (req : change_body)
    (answers : restart_answers) (op : MachineOperation) (lockedMachine : Machine)
    (targetVersion runtimeSource success rolledBackTo failure failedTo what : string)
    : M response :=
  let previousRootfsVersion := currentMachineRootfsVersion lockedMachine in
  let previousOpenClawVersion := currentMachineOpenClawVersion lockedMachine in
  let pendingMachine := applyPinnedRootfsVersion targetVersion runtimeSource lockedMachine in
  let id := Machine_ID lockedMachine in
  let logged ok := logMachineChange rootfs_action ok claims accountID id in
  if negb (Change_ApplyNow req) || negb (running_b lockedMachine) then
    queue_change op (logged true) targetVersion pendingMachine
  else
    let! r := restartMachineWithOpenClawHealthGate pendingMachine (MachineOperation_ID op) answers in
    let '(updatedMachine, applyErr) := r in
    match applyErr with
    | None =>
        applied op (persistPinnedMachineRootfsChange id targetVersion previousOpenClawVersion
                      runtimeSource) (logged true) success targetVersion rolledBackTo
    | Some e =>
        apply_failed op e
          (already_restored (logged false) targetVersion previousRootfsVersion what e
             (default lockedMachine updatedMachine))
          (logged false ;;
           write_change 409 (mkRuntimeChangeResponse failure targetVersion failedTo
             (what +:+ " failed: " +:+ Error e)%string (Some lockedMachine)))
    end.

Definition handleUpgradeMachineRootfs (claims : Claims) (accountID : Z) (id : string)
    (body : option change_body) (answers : restart_answers) : M response :=
  change_request accountID id body validateRootfsVersion no_check
    (λ req targetVersion runtimeSource,
  locked_machine accountID id "rootfs_update" (λ updateOp lockedMachine,
  if nothing_to_change (currentMachineRootfsVersion lockedMachine) targetVersion runtimeSource
       (Machine_DesiredRootfsVersion lockedMachine) lockedMachine then
    already_using updateOp (logMachineChange rootfs_action true claims accountID id) "updated"
      targetVersion lockedMachine
  else
    apply_rootfs claims accountID req answers updateOp lockedMachine targetVersion runtimeSource
      "updated" "" "failed" "" "rootfs upgrade")).

Definition handleRollbackMachineRootfs (claims : Claims) (accountID : Z) (id : string)
    (body : option change_body) (answers : restart_answers) : M response :=
  change_request accountID id body validateRootfsVersion no_check
    (λ req targetVersion runtimeSource,
  locked_machine accountID id "rootfs_rollback" (λ updateOp lockedMachine,
  apply_rootfs claims accountID req answers updateOp lockedMachine targetVersion runtimeSource
    "rolled_back" targetVersion "rollback_failed" (currentMachineRootfsVersion lockedMachine)
    "rootfs rollback")).

(** Under an operation of its own. *)
Definition rollbackMachineOpenClawVersion (machineID rootfsVersion version runtimeSource : string)
    (answers : restart_answers) : M outcome :=
  if String.eqb (TrimSpace version) "" then
    fails_with None (ErrText "no rollback version available")
  else
    or_returns (call (GetMachine machineID)) None "reload machine for rollback" (λ machine,
    match Machine_HostID machine with
    | None => fails_with (Some machine) (ErrText "machine has no host assignment for rollback")
    | Some _ =>
        or_returns (call (CreateMachineOperation (new_operation (Machine_ID machine)
                            "openclaw_rollback"))) (Some machine) "create rollback operation"
          (λ rollbackOp,
        let pendingMachine := applyPinnedOpenClawVersion version runtimeSource machine in
        let! r := restartMachineWithOpenClawHealthGate pendingMachine
                    (MachineOperation_ID rollbackOp) answers in
        match r.2 with
        | Some restartErr =>
            complete_op rollbackOp "failed" (Some restartErr) ;;
            fails_with (Some machine) (ErrWrap "restart rollback target" restartErr)
        | None =>
            let! r := try (persistPinnedMachineOpenClawChange (Machine_ID machine) rootfsVersion
                             version runtimeSource) in
            match r with
            | Err e =>
                complete_op rollbackOp "failed" (Some e) ;;
                fails_with (Some machine) (ErrWrap "persist rollback selection" e)
            | Ok persistedMachine =>
                complete_op rollbackOp "completed" None ;;
                ret (Some persistedMachine, None)
            end
        end)
    end).

Definition rolled_back_or_broken (claims : Claims) (accountID : Z) (rollback : bool)
    (targetVersion previousVersion what : string) (lockedMachine : Machine) (applyErr : error)
    (rolledBack : M outcome) : M response :=
  let id := Machine_ID lockedMachine in
  let! r := rolledBack in
  let '(rolledBackMachine, rollbackErr) := r in
  match rollbackErr with
  | Some rollbackErr =>
      ignore (call (UpdateMachineStatus id "error" (Some (what +:+ " to " +:+ targetVersion +:+
        " failed and rollback to " +:+ previousVersion +:+
        " also failed — manual intervention required")%string))) ;;
      logMachineChange (openclaw_action rollback) false claims accountID id ;;
      write_change 500 (mkRuntimeChangeResponse "rollback_failed" targetVersion previousVersion
        (what +:+ " failed: " +:+ Error applyErr +:+ "; rollback failed: " +:+ Error rollbackErr)
        rolledBackMachine)%string
  | None =>
      logMachineChange (openclaw_action rollback) false claims accountID id ;;
      write_change 409 (mkRuntimeChangeResponse "rolled_back" targetVersion previousVersion
        (what +:+ " failed health gate: " +:+ Error applyErr)%string rolledBackMachine)
  end.

Definition handleApplyMachineOpenClawChange (rollback : bool) (claims : Claims) (accountID : Z)
    (id : string) (body : option change_body) (answers rollback_answers : restart_answers)
    : M response :=
  change_request accountID id body ValidateOpenClawVersion
    (if rollback then no_check else checkOpenClawPinCompat)
    (λ req targetVersion runtimeSource,
  let successStatus := if rollback then "rolled_back"%string else "updated"%string in
  let what := if rollback then "openclaw rollback"%string else "openclaw upgrade"%string in
  locked_machine accountID id (if rollback then "openclaw_rollback" else "openclaw_update")
    (λ updateOp lockedMachine,
  let previousVersion := currentMachineOpenClawVersion lockedMachine in
  let previousRuntimeSource := currentMachineRuntimeSource lockedMachine in
  let previousRootfsVersion := currentMachineRootfsVersion lockedMachine in
  let logged ok := logMachineChange (openclaw_action rollback) ok claims accountID id in
  if nothing_to_change previousVersion targetVersion runtimeSource
       (Machine_DesiredOpenclawVersion lockedMachine) lockedMachine then
    already_using updateOp (logged true) successStatus targetVersion lockedMachine
  else
    let pendingMachine := applyPinnedOpenClawVersion targetVersion runtimeSource lockedMachine in
    if negb (Change_ApplyNow req) || negb (running_b lockedMachine) then
      queue_change updateOp (logged true) targetVersion pendingMachine
    else
      let! r := restartMachineWithOpenClawHealthGate pendingMachine
                  (MachineOperation_ID updateOp) answers in
      let '(updatedMachine, applyErr) := r in
      match applyErr with
      | None =>
          applied updateOp (persistPinnedMachineOpenClawChange id previousRootfsVersion
                              targetVersion runtimeSource) (logged true) successStatus
            targetVersion ""
      | Some e =>
          apply_failed updateOp e
            (already_restored (logged false) targetVersion previousVersion what e
               (default lockedMachine updatedMachine))
            (rolled_back_or_broken claims accountID rollback targetVersion previousVersion what
               lockedMachine e (rollbackMachineOpenClawVersion id previousRootfsVersion
                  previousVersion previousRuntimeSource rollback_answers))
      end)).

(** Both versions at once; neither an operation nor a restart. *)
Definition handleRuntimeUpgrade (accountID : Z) (id : string)
    (body : option runtime_upgrade_body) : M response :=
  owned_machine accountID id (λ machine,
  decoded body (λ req,
  let rootfsVersion := TrimSpace (RuntimeUpgrade_RootfsVersion req) in
  let openclawVersion := TrimSpace (RuntimeUpgrade_OpenclawVersion req) in
  if String.eqb rootfsVersion "" then writeError 400 "rootfs_version is required"
  else if String.eqb openclawVersion "" then writeError 400 "openclaw_version is required"
  else
    or_bad_request (valid_opt "rootfs_version" validateRootfsVersion (Some rootfsVersion)) (λ _,
    or_bad_request (valid_opt "openclaw_version" ValidateOpenClawVersion (Some openclawVersion))
      (λ _,
    compatible (checkOpenClawRootfsPairCompat openclawVersion rootfsVersion) (
    let runtimeSource := TrimSpace (RuntimeUpgrade_RuntimeSource req) in
    let machineSource := default EmptyString (Machine_RuntimeSource machine) in
    let runtimeSource :=
      if negb (String.eqb runtimeSource "") then runtimeSource
      else if String.eqb machineSource "" then "artifact"%string else machineSource in
    if negb (isValidRuntimeSource runtimeSource) then
      writeError 400 "runtime_source must be: artifact"
    else
      let machine := applyPinnedOpenClawVersion openclawVersion runtimeSource
                       (applyPinnedRootfsVersion rootfsVersion runtimeSource machine) in
      or_its_error (call (UpdateMachine machine)) 500 (λ _,
      write_change 200 (mkRuntimeChangeResponse "pending_restart" openclawVersion "" ""
                          (Some machine)))))))).

(** ** Running a machine *)

Definition machine_status (status : string) : M response :=
  writeJSON 200 (JObj [("status"%string, JStr status)]).
(** The answer of a start: the poller follows it in a goroutine of its own. *)
Definition started (machine : Machine) (host : Host) (vmIP : string) : M response :=
  writeJSON 200 (JObj [
    ("status", JStr (if is_some_b (Machine_HostID machine) then "starting" else "provisioning"));
    ("host_id", JNum (Host_ID host)); ("vm_ip", JStr vmIP)]%string).

Definition handleDeleteMachine (claims : Claims) (accountID : Z) (id : string) : M response :=
  owned_machine accountID id (λ machine,
  when (srv_composio s) (ignore (remote (ComposioDelete (Machine_ID machine)))) ;;
  or_its_error (Delete rs machine) 500 (λ _,
  log "machine.deleted" claims accountID (Machine_ID machine) ;;
  noContent)).

Definition no_host_available : string :=
  "No host available to run this machine. Register or enroll a host (Admin → Hosts) with enough free capacity, then try again.".
Definition handleStartMachine (claims : Claims) (accountID : Z) (id : string) : M response :=
  owned_machine accountID id (λ machine,
  if running_b machine then writeError 409 "machine already running"
  else
    let! r := try (Start rs machine no_options) in
    match r with
    | Err e =>
        log "machine.start_failed" claims accountID (Machine_ID machine) ;;
        if errors_is e ErrNoEligibleHost then writeError 409 no_host_available
        else writeError 503 (Error e)
    | Ok (host, vmIP, _) =>
        emit (MachineLog "machine.started" (Some (Claims_UserID claims)) accountID
                (Machine_ID machine) (Some (Host_ID host))) ;;
        started machine host vmIP
    end).

Definition handleStopMachine (claims : Claims) (accountID : Z) (id : string) : M response :=
  owned_machine accountID id (λ machine,
  let! r := try (Stop rs machine) in
  match r with
  | Err e =>
      log "machine.stop_failed" claims accountID (Machine_ID machine) ;;
      writeError 500 (Error e)
  | Ok _ =>
      log "machine.stopped" claims accountID (Machine_ID machine) ;;
      machine_status "stopped"
  end).

(** The agent of the machine's host, when there is one. *)
Definition on_machine_host (machine : Machine) (request : Z → event) (failed : string)
    (k : M response) : M response :=
  match Machine_HostID machine with
  | Some hostID =>
      if agentClient then
        or_error (call (GetHost hostID)) 500 "failed to resolve host" (λ host,
        or_error (remote (request (Host_ID host))) 502 failed (λ _, k))
      else k
  | None => k
  end.
Definition handleSetCDPTarget (claims : Claims) (accountID : Z) (id : string)
    (body : option string) : M response :=
  owned_machine accountID id (λ machine,
  if negb (running_b machine) then writeError 409 "machine is not running"
  else
    let target := default EmptyString body in
    if String.eqb target "" then writeError 400 "target is required"
    else
      on_machine_host machine (λ h, AgentSetCDPTarget h (Machine_ID machine) target)
        "failed to set CDP target on agent" (
      log "machine.cdp_target_set" claims accountID id ;;
      machine_status "ok")).
Definition handleResetCDPTarget (claims : Claims) (accountID : Z) (id : string) : M response :=
  owned_machine accountID id (λ machine,
  on_machine_host machine (λ h, AgentResetCDPTarget h (Machine_ID machine))
    "failed to reset CDP target on agent" (
  log "machine.cdp_target_reset" claims accountID id ;;
  machine_status "ok")).

(** auth.IssueMachineToken: five minutes. *)
Definition machine_token_ttl : Z := seconds 300.
Definition handleGetMachineToken (accountID : Z) (id : string) : M response :=
  owned_machine accountID id (λ machine,
  if negb (running_b machine) then writeError 409 "machine is not running"
  else if String.eqb (default EmptyString (Machine_SigningKey machine)) "" then
    writeError 503 "machine signing key not available"
  else
    let! t := gets (λ w, db_now (w_db w)) in
    or_error rand_hex 500 "failed to issue token" (λ token,
    writeJSON 200 (JObj [("token", JStr token); ("expires_at", JNum (t + machine_token_ttl));
      ("hostname", JStr (dataPlaneHostname s "m" (Machine_Slug machine)))]%string))).

(** The data volume goes back to its last snapshot.  No operation is taken. *)
Definition handleRollbackMachine (accountID : Z) (id : string) : M response :=
  owned_machine accountID id (λ machine,
  match Machine_HostID machine with
  | Some hostID =>
      if agentClient then
        when (running_b machine) (
          (let! host := or_nil (call (GetHost hostID)) in
           match host with
           | Some host => ignore (remote (AgentStopVM (Host_ID host) (Machine_ID machine)))
           | None => ret tt
           end) ;;
          (match srv_placement s with
           | Some placement => ignore (Release placement (Machine_ID machine) ReleaseSoft)
           | None => ret tt
           end) ;;
          ignore (CleanupMachineRouteAndTunnel rs (Machine_ID machine))) ;;
        or_error (call (GetHost hostID)) 500 "failed to get host" (λ host,
        or_its_error (remote (AgentRollbackVM (Host_ID host) (Machine_ID machine))) 404 (λ _,
        machine_status "rolled_back"))
      else writeError 400 "machine has no host assignment"
  | None => writeError 400 "machine has no host assignment"
  end).

(** ** Administrators (admin_machines.go) *)

Definition admin_machine (machineID : string) (k : Machine → M response) : M response :=
  if String.eqb machineID "" then writeError 400 "machine id required"
  else or_error (call (GetMachine machineID)) 404 "machine not found" k.

(** The operation of a machine is expired whoever holds it. *)
Definition expire_operation (machineID : string) : M unit :=
  let! op := or_nil (call (GetActiveMachineOperation machineID)) in
  match op with
  | Some op => ignore (call (CompleteMachineOperation (MachineOperation_ID op) "failed"
                               (Some "force-reset by admin"%string)))
  | None => ret tt
  end.
Definition host_available (machine : Machine) : M bool :=
  match Machine_HostID machine with
  | Some hostID =>
      let! h := or_nil (call (GetHost hostID)) in
      ret (match h with
           | Some h => negb (String.eqb (Host_Status h) "destroyed") | None => false end)
  | None => ret false
  end.
Definition reset_unprovisioned (machine : Machine) : M unit :=
  let machineID := Machine_ID machine in
  (match Machine_HostID machine, srv_placement s with
   | Some _, Some placement => ignore (Release placement machineID ReleaseHard)
   | _, _ => ret tt
   end) ;;
  match srv_tunnelMgr s, Machine_TunnelID machine with
  | true, Some tunnelID =>
      ignore (remote (TunnelDelete tunnelID (dataPlaneHostname s "m" (Machine_Slug machine))
                        (dataPlaneHostname s "ssh" (Machine_Slug machine)))) ;;
      ignore (call (ClearMachineTunnel machineID))
  | _, _ => ret tt
  end.
Definition handleAdminResetMachine (machineID : string) : M response :=
  admin_machine machineID (λ machine,
  if running_b machine then writeError 400 "cannot reset a running machine — stop it first"
  else if String.eqb (Machine_Status machine) "stopped" then machine_status "stopped"
  else
    expire_operation machineID ;;
    if is_some_b (Machine_ProvisioningCompletedAt machine) then
      let! available := host_available machine in
      if available then
        or_its_error (call (UpdateMachineStatus machineID "stopped" None)) 500 (λ _,
        machine_status "stopped")
      else
        let msg := "migration required; host unavailable"%string in
        ignore (call (UpdateMachineStatus machineID "error" (Some msg))) ;;
        writeJSON 409 (JObj [("status", JStr "error"); ("message", JStr msg)]%string)
    else
      reset_unprovisioned machine ;;
      or_its_error (call (UnassignMachineFromHost machineID)) 500 (λ _, machine_status "stopped")).

Definition handleAdminStartMachine (machineID : string) : M response :=
  admin_machine machineID (λ machine,
  if running_b machine then writeError 409 "machine already running"
  else
    or_its_error (Start rs machine no_options) 503 (λ '(host, vmIP, _),
    started machine host vmIP)).
Definition handleAdminStopMachine (machineID : string) : M response :=
  admin_machine machineID (λ machine,
  or_its_error (Stop rs machine) 500 (λ _, machine_status "stopped")).
Definition handleAdminClearMigration (machineID : string) : M response :=
  admin_machine machineID (λ machine,
  if running_b machine then writeError 409 "machine is running"
  else
    or_its_error (call (UpdateMachineStatus machineID "stopped" None)) 500 (λ _,
    emit (ActivityLog "machine.migration_cleared" None (Some machineID)) ;;
    machine_status "stopped")).
Definition handleAdminFlagMigration (machineID : string) : M response :=
  admin_machine machineID (λ machine,
  if running_b machine then writeError 409 "cannot flag a running machine — stop it first"
  else
    let msg := "migration required: flagged by admin"%string in
    or_its_error (call (UpdateMachineStatus machineID "error" (Some msg))) 500 (λ _,
    emit (ActivityLog "machine.migration_flagged" None (Some machineID)) ;;
    writeJSON 200 (JObj [("status", JStr "error"); ("message", JStr msg)]%string))).
Definition handleAdminListMachines : M response :=
  or_its_error (call ListAllMachines) 500 (λ machines,
  writeJSON 200 (JArr (machine_json <$> machines))).

(** ** Routes (server.go) *)

Inductive machine_request : Type :=
| GetMachines
| PostMachine (workspaceID : string) (body : option create_machine_body)
| GetMachineByID (id : string)
| PutMachine (id : string) (body : option update_machine_body)
| DeleteMachineByID (id : string)
| PostStartMachine (id : string)
| PostStopMachine (id : string)
| PostCDPTarget (id : string) (body : option string)
| DeleteCDPTarget (id : string)
| PostRootfsUpgrade (id : string) (body : option change_body) (answers : restart_answers)
| PostRootfsRollback (id : string) (body : option change_body) (answers : restart_answers)
| PostOpenClawChange (rollback : bool) (id : string) (body : option change_body)
    (answers rollback_answers : restart_answers)
| PostRuntimeUpgrade (id : string) (body : option runtime_upgrade_body)
| PostRollback (id : string)
| GetMachineToken (id : string)
| GetOpenClawReleases (channel kind : string)
| GetRootfsReleases (channel kind : string).

Definition serve_machine (claims : option Claims) (accountId : string) (r : machine_request)
    : M response :=
  AccountMiddleware accountId claims (λ accountID c member,
  match r with
  | GetMachines => handleListMachines accountID
  | PostMachine workspaceID body => handleCreateMachine c accountID workspaceID body
  | GetMachineByID id => handleGetMachine accountID id
  | PutMachine id body => handleUpdateMachine accountID id body
  | DeleteMachineByID id =>
      requireRole ["owner"; "admin"]%string member (handleDeleteMachine c accountID id)
  | PostStartMachine id => handleStartMachine c accountID id
  | PostStopMachine id => handleStopMachine c accountID id
  | PostCDPTarget id body => handleSetCDPTarget c accountID id body
  | DeleteCDPTarget id => handleResetCDPTarget c accountID id
  | PostRootfsUpgrade id body answers => handleUpgradeMachineRootfs c accountID id body answers
  | PostRootfsRollback id body answers => handleRollbackMachineRootfs c accountID id body answers
  | PostOpenClawChange rollback id body answers rollback_answers =>
      handleApplyMachineOpenClawChange rollback c accountID id body answers rollback_answers
  | PostRuntimeUpgrade id body => handleRuntimeUpgrade accountID id body
  | PostRollback id => handleRollbackMachine accountID id
  | GetMachineToken id => handleGetMachineToken accountID id
  | GetOpenClawReleases channel kind => handleListOpenClawReleases channel kind
  | GetRootfsReleases channel kind => handleListRootfsReleases channel kind
  end).

Inductive admin_machine_request : Type :=
| PostAdminReset (machineId : string)
| PostAdminStart (machineId : string)
| PostAdminStop (machineId : string)
| PostAdminClearMigration (machineId : string)
| PostAdminFlagMigration (machineId : string)
| GetAdminMachines.
Definition serve_admin_machine (claims : option Claims) (r : admin_machine_request) : M response :=
  requireSuperuser s claims (
  match r with
  | PostAdminReset id => handleAdminResetMachine id
  | PostAdminStart id => handleAdminStartMachine id
  | PostAdminStop id => handleAdminStopMachine id
  | PostAdminClearMigration id => handleAdminClearMigration id
  | PostAdminFlagMigration id => handleAdminFlagMigration id
  | GetAdminMachines => handleAdminListMachines
  end).
End Machines.
