(* ===== verification/MachinesLemmas.v ===== *)
(** * One machine at a time: what the machines API may write

    A request about a machine touches the row of that machine and asks agents
    about its VM only.  [touches P K mid] relates the worlds before and after a
    run: the other machines' rows are the same, the row of [mid] has changed by
    [K] or is gone, the calls in between name no other machine, and every row
    still satisfies [P]. *)

From S2P Require Import Prelude Schema HostStore PlacementStore OperationStore.
From S2P Require Import AccountStore CatalogStore StoreStep TableInv World Fleet.
From S2P Require Import FleetLemmas.
From S2P Require Import GoStrings Versions Routing Runtime RuntimeLemmas Workflows Api.
From S2P Require Import Members.
From S2P Require Import MembersLemmas BrowserVMs Migration Machines.

(** ** The relation *)

(** The machine a call to an agent or to a client is about. *)
Definition event_machine (e : event) : option string :=
  match e with
  | AgentStopVM _ m | AgentDestroyVM _ m | AgentCreateVM _ m _ | AgentUpgradeVM _ m _
  | AgentGetVM _ m | AgentResetCDPTarget _ m | AgentDeleteBackups _ m | AgentBackupVM _ m
  | AgentRestoreVM _ m _ | PushBrowserConfig m _ | AgentConfigBatch _ m _
  | AgentRestartGateway _ m | AgentSetCDPTarget _ m _ | AgentRollbackVM _ m
  | AgentGatewayHealth _ m | ComposioDelete m | OnRunning m _ => Some m
  | _ => None
  end.
Definition about (mid : string) (e : event) : Prop := ∀ m, event_machine e = Some m → m = mid.

(** What the lifecycle leaves of a row: its key, its account and the selection of
    its versions; a row that has no version source becomes a legacy one. *)
Definition selection_columns (m : Machine) :=
  (Machine_ID m, Machine_AccountID m, Machine_DesiredRootfsVersion m,
   Machine_DesiredOpenclawVersion m, Machine_DesiredChannel m, Machine_RuntimeSource m).
Definition kept (m m' : Machine) : Prop :=
  selection_columns m' = selection_columns m ∧
  (Machine_VersionSource m' = Machine_VersionSource m ∨
   Machine_VersionSource m = None ∧ Machine_VersionSource m' = Some "legacy"%string).
#[export] Instance kept_preorder : PreOrder kept.
Proof.
  split; unfold kept; [by intros ?; auto|]. intros m1 m2 m3 [E1 H1] [E2 H2].
  split; [congruence|]. destruct H1 as [H1|[? H1]], H2 as [H2|[? H2]]; rewrite ?H2, ?H1; auto;
    first [congruence | right; split; congruence].
Qed.
Lemma kept_same m m' :
  selection_columns m' = selection_columns m → Machine_VersionSource m' = Machine_VersionSource m →
  kept m m'.
Proof. split; auto. Qed.

(** The selection of versions of [m] is that of [m']. *)
Definition same_selection (m m' : Machine) : Prop :=
  Machine_DesiredRootfsVersion m' = Machine_DesiredRootfsVersion m ∧
  Machine_DesiredOpenclawVersion m' = Machine_DesiredOpenclawVersion m ∧
  Machine_DesiredChannel m' = Machine_DesiredChannel m ∧
  (Machine_VersionSource m' = Machine_VersionSource m ∨
   Machine_VersionSource m = None ∧ Machine_VersionSource m' = Some "legacy"%string).
Lemma kept_selection m m' : kept m m' → same_selection m m'.
Proof. intros [E H]. injection E. by repeat split. Qed.
(** UpdateMachine's SET clause. *)
Definition overwrite (m r : Machine) : Machine :=
  r <| Machine_Name := Machine_Name m |> <| Machine_VCPUs := Machine_VCPUs m |>
    <| Machine_MemoryMB := Machine_MemoryMB m |>
    <| Machine_CustomDomain := Machine_CustomDomain m |>
    <| Machine_DesiredRootfsVersion := Machine_DesiredRootfsVersion m |>
    <| Machine_DesiredOpenclawVersion := Machine_DesiredOpenclawVersion m |>
    <| Machine_DesiredChannel := Machine_DesiredChannel m |>
    <| Machine_VersionSource := Machine_VersionSource m |>
    <| Machine_RuntimeSource := Machine_RuntimeSource m |>.

(** Rows satisfying [P], under their keys. *)
Definition rows_ok (P : Machine → Prop) (db : DB) : Prop :=
  ∀ id m, db_machines db !! id = Some m → Machine_ID m = id ∧ P m.

Record touched (P : Machine → Prop) (K : relation Machine) (mid : string) (w w' : World) : Prop := {
  touched_ok : rows_ok P (w_db w');
  touched_others : ∀ id, id ≠ mid → db_machines (w_db w') !! id = db_machines (w_db w) !! id;
  touched_row : ∀ m', db_machines (w_db w') !! mid = Some m' →
    ∃ m, db_machines (w_db w) !! mid = Some m ∧ K m m';
  touched_calls : ∃ t, w_trace w' = t ++ w_trace w ∧ Forall (about mid) t
}.
Definition touches (P : Machine → Prop) (K : relation Machine) (mid : string) : relation World :=
  λ w w', rows_ok P (w_db w) → touched P K mid w w'.
#[export] Instance touches_preorder P K `{!PreOrder K} mid : PreOrder (touches P K mid).
Proof.
  split.
  - intros w Hw. split; [done|done| |by exists []]. intros m Hm. by exists m.
  - intros w1 w2 w3 H1 H2 Hw. destruct (H1 Hw) as [O1 A1 R1 (t1 & T1 & F1)].
    destruct (H2 O1) as [O2 A2 R2 (t2 & T2 & F2)]. split; [done| | |].
    + intros id Hne. by rewrite A2, A1.
    + intros m3 (m2 & Hm2 & K2)%R2. apply R1 in Hm2 as (m1 & Hm1 & K1).
      exists m1. split; [done|]. by transitivity m2.
    + exists (t2 ++ t1). rewrite T2, T1, app_assoc. split; [done|]. by apply Forall_app.
Qed.

(** What a request of account [a] may do: the machines of the other accounts stay as
    they are, and the calls are not about them. *)
Record confined_to (P : Machine → Prop) (a : Z) (w w' : World) : Prop := {
  confined_ok : rows_ok P (w_db w');
  confined_others : ∀ id m, Machine_AccountID m ≠ a →
    db_machines (w_db w) !! id = Some m ↔ db_machines (w_db w') !! id = Some m;
  confined_calls : ∃ t, w_trace w' = t ++ w_trace w ∧
    Forall (λ e, ∀ id m, event_machine e = Some id → db_machines (w_db w) !! id = Some m →
                         Machine_AccountID m = a) t
}.
Definition confined (P : Machine → Prop) (a : Z) : relation World :=
  λ w w', rows_ok P (w_db w) → confined_to P a w w'.
#[export] Instance confined_preorder P a : PreOrder (confined P a).
Proof.
  split.
  - intros w Hw. split; [done|done|by exists []].
  - intros w1 w2 w3 H1 H2 Hw. destruct (H1 Hw) as [O1 A1 (t1 & T1 & F1)].
    destruct (H2 O1) as [O2 A2 (t2 & T2 & F2)]. split; [done| |].
    + intros id m Hm. by rewrite A1, A2.
    + exists (t2 ++ t1). rewrite T2, T1, app_assoc. split; [done|]. apply Forall_app.
      split; [|done]. eapply Forall_impl; [exact F2|]. intros e He id m Ee Em.
      destruct (decide (Machine_AccountID m = a)) as [|Hne]; [done|].
      eapply He; [done|]. by apply A1.
Qed.

Lemma confined_same P a w w' :
  w_db w' = w_db w → w_trace w' = w_trace w → confined P a w w'.
Proof. intros Ed Et Hw. split; rewrite ?Ed, ?Et; [done|done|by exists []]. Qed.
Lemma call_reads {A} (q : Q A) w :
  (∀ db, (q db).2 = db) →
  w_db (call q w).2 = w_db w ∧ w_trace (call q w).2 = w_trace w.
Proof.
  intros Hq. unfold call, bind, pop_fault. destruct (w_faults w) as [|[] fs]; cbn; [|done|];
    specialize (Hq (w_db w)); by destruct (q (w_db w)) as [r db]; cbn in *; subst.
Qed.

(** The part of it that a store operation has to show. *)
Definition touches_db (P : Machine → Prop) (K : relation Machine) (mid : string) : relation DB :=
  λ db db', rows_ok P db → rows_ok P db' ∧
    (∀ id, id ≠ mid → db_machines db' !! id = db_machines db !! id) ∧
    (∀ m', db_machines db' !! mid = Some m' →
       ∃ m, db_machines db !! mid = Some m ∧ K m m').

Section Touches.
Context (P : Machine → Prop) (K : relation Machine) `{!PreOrder K} (mid : string).
Abbreviation R := (touches P K mid).

#[export] Instance touches_db_preorder : PreOrder (touches_db P K mid).
Proof.
  split.
  - intros db Hdb. split; [done|]. split; [done|]. intros m Hm. by exists m.
  - intros d1 d2 d3 H1 H2 Hd. destruct (H1 Hd) as (O1 & A1 & R1).
    destruct (H2 O1) as (O2 & A2 & R2). split; [done|]. split.
    + intros id Hne. by rewrite A2, A1.
    + intros m3 (m2 & Hm2 & K2)%R2. apply R1 in Hm2 as (m1 & Hm1 & K1).
      exists m1. split; [done|]. by transitivity m2.
Qed.

(** *** Calls *)

Lemma touches_quiet {A} (m : M A) :
  (∀ w, w_db (m w).2 = w_db w ∧ w_trace (m w).2 = w_trace w) → steps R m.
Proof.
  intros H w Hw. destruct (H w) as [Ed Et]. split; rewrite ?Ed, ?Et; [done|done| |by exists []].
  intros m' Hm. by exists m'.
Qed.
Lemma touches_emit e : about mid e → steps R (emit e).
Proof.
  intros He w Hw. split; [done|done| |].
  - intros m Hm. by exists m.
  - exists [e]. split; [done|]. by apply Forall_singleton.
Qed.
Lemma touches_load : steps R load.
Proof. apply touches_quiet. intros w. unfold load, bind, pop_fault. by destruct (w_faults w) as [|[]]. Qed.
Lemma touches_remote e : about mid e → steps R (remote e).
Proof. intros He. apply steps_bind; [apply _|by apply touches_emit|intros _; apply touches_load]. Qed.
Lemma touches_rand_hex : steps R rand_hex.
Proof. apply touches_quiet. intros w. unfold rand_hex. by destruct (w_rand w). Qed.
Lemma touches_rand_int : steps R rand_int.
Proof. apply touches_quiet. intros w. unfold rand_int. by destruct (w_ints w). Qed.
Lemma touches_kv key f : steps R (pop_fault) → steps R (kv_put key f) ∧ steps R (kv_del key).
Proof.
  intros Hp. split; (apply steps_bind; [apply _|done|]); intros []; try apply steps_fail, _;
    by apply touches_quiet.
Qed.
Lemma touches_pop_fault : steps R pop_fault.
Proof. apply touches_quiet. intros w. unfold pop_fault. by destruct (w_faults w). Qed.
Lemma touches_kv_put key v : steps R (kv_put key v).
Proof. by apply touches_kv, touches_pop_fault. Qed.
Lemma touches_kv_del key : steps R (kv_del key).
Proof. apply (touches_kv key (KVRevoked 0)), touches_pop_fault. Qed.
Lemma touches_with_retry attempts (f : M unit) e : steps R f → steps R (with_retry attempts f e).
Proof. intros Hf. revert e. induction attempts; intros e; cbn; go_steps; auto. Qed.

Lemma touches_call {A} (q : Q A) : steps (touches_db P K mid) q → steps R (call q).
Proof.
  intros Hq w Hw. pose proof (call_trace q w) as Et.
  pose proof (call_db q w) as H. destruct (call q w) as [r w']. cbn in *.
  destruct H as [[_ Hd]|[_ Hd]].
  - destruct (Hq (w_db w) Hw) as (O & A' & R'). rewrite <- Hd in O, A', R'.
    split; [done|done|done|]. exists []. by rewrite Et.
  - split; rewrite ?Hd; [done|done| |exists []; by rewrite Et]. intros m Hm. by exists m.
Qed.
Lemma touches_same {A} (q : Q A) : steps (same db_machines) q → steps (touches_db P K mid) q.
Proof.
  intros H db Hdb. unfold rows_ok. rewrite (H db). split; [done|]. split; [done|].
  intros m Hm. by exists m.
Qed.
Lemma touches_reads {A} (q : Q A) : (∀ db, (q db).2 = db) → steps (touches_db P K mid) q.
Proof. intros H. apply touches_same. intros db. unfold same. by rewrite H. Qed.
Lemma touches_update f :
  (∀ m, Machine_ID (f m) = Machine_ID m) → (∀ m, P m → P (f m)) → (∀ m, P m → K m (f m)) →
  steps (touches_db P K mid) (update_machine mid f).
Proof.
  intros Hi HP HK db Hdb. cbn. split; [|split].
  - intros id m. cbn. destruct (decide (id = mid)) as [->|].
    + rewrite lookup_alter_eq. intros (m0 & E & ->)%fmap_Some.
      apply Hdb in E as [E1 E2]. rewrite Hi. auto.
    + rewrite lookup_alter_ne by done. apply Hdb.
  - intros id Hne. cbn. by rewrite lookup_alter_ne.
  - intros m'. cbn. rewrite lookup_alter_eq. intros (m0 & E & ->)%fmap_Some.
    exists m0. split; [done|]. apply HK. by apply Hdb in E as [].
Qed.
Lemma touches_delete : steps (touches_db P K mid) (DeleteMachine mid).
Proof.
  intros db Hdb. unfold DeleteMachine, bind, get.
  destruct (db_machines db !! mid) as [m|] eqn:E; cbn;
    [|split; [done|]; split; [done|]; intros m'; by rewrite E].
  split; [|split].
  - intros id m'. cbn. rewrite lookup_delete_Some. intros [_ ?]. by apply Hdb.
  - intros id Hne. cbn. by rewrite lookup_delete_ne.
  - intros m'. cbn. by rewrite lookup_delete_eq.
Qed.

(** *** What a read returns *)

Lemma steps_bind_ok {A B} (m : M A) (k : A → M B) :
  steps R m → (∀ w a w', m w = (Ok a, w') → steps R (k a)) → steps R (bind m k).
Proof.
  intros Hm Hk w. unfold bind. specialize (Hm w). destruct (m w) as [[a|e] w'] eqn:E; [|done].
  transitivity w'; [done|]. by eapply Hk.
Qed.
(** Of a row of [mid], when the rows are well formed. *)
Lemma touches_read_at {B} id (k : res Machine → M B) :
  (∀ machine, Machine_ID machine = id → P machine → steps R (k (Ok machine))) →
  (∀ e, steps R (k (Err e))) →
  steps R (bind (try (call (GetMachine id))) k).
Proof.
  intros Hok He w Hw. rewrite bind_try.
  assert (R w (call (GetMachine id) w).2) as H1
    by (apply touches_call, touches_reads; intros db; apply GetMachine_db).
  pose proof (call_db (GetMachine id) w) as Hd.
  destruct (call (GetMachine id) w) as [[machine|e] w1] eqn:E; cbn in *.
  - refine ((_ : R w (k (Ok machine) w1).2) Hw). transitivity w1; [done|]. apply Hok.
    all: apply call_ok in E; rewrite GetMachine_run in E;
      destruct (db_machines (w_db w) !! id) as [m|] eqn:Em; [|done];
      injection E as <-; by apply Hw in Em as [].
  - refine ((_ : R w (k (Err e) w1).2) Hw). transitivity w1; [done|]. apply He.
Qed.
Lemma bind_wrap {A B} msg (m : M A) (k : A → M B) w :
  bind (wrap msg m) k w =
  bind (try m) (λ r, match r with Ok a => k a | Err e => fail (ErrWrap msg e) end) w.
Proof. unfold bind, wrap, try. by destruct (m w) as [[]]. Qed.
Lemma touches_read_wrap {B} id msg (k : Machine → M B) :
  (∀ machine, Machine_ID machine = id → P machine → steps R (k machine)) →
  steps R (bind (wrap msg (call (GetMachine id))) k).
Proof.
  intros Hk w. rewrite bind_wrap. apply (touches_read_at id
    (λ r, match r with Ok a => k a | Err e => fail (ErrWrap msg e) end)); [done|].
  intros e. apply steps_fail, _.
Qed.
End Touches.

(** Along the structure of a run, down to its database calls. *)
Create HintDb touch.
Ltac about := solve [intros ? H; cbn in H; congruence].
Ltac touch_step :=
  match goal with
  | |- steps _ (bind (try (call (GetMachine _))) _) =>
      apply touches_read_at; [typeclasses eauto|intros ? ? ?|intros ?]
  | |- steps _ (bind (wrap _ (call (GetMachine _))) _) =>
      apply touches_read_wrap; [typeclasses eauto|intros ? ? ?]
  | |- steps _ (emit _) => apply touches_emit; [typeclasses eauto|about]
  | |- steps _ (remote _) => apply touches_remote; [typeclasses eauto|about]
  | |- steps _ load => apply touches_load; typeclasses eauto
  | |- steps _ rand_hex => apply touches_rand_hex; typeclasses eauto
  | |- steps _ rand_int => apply touches_rand_int; typeclasses eauto
  | |- steps _ pop_fault => apply touches_pop_fault; typeclasses eauto
  | |- steps _ (kv_put _ _) => apply touches_kv_put; typeclasses eauto
  | |- steps _ (kv_del _) => apply touches_kv_del; typeclasses eauto
  | |- steps _ (with_retry _ _ _) => apply touches_with_retry; [typeclasses eauto|]
  | |- steps _ (writeJSON _ _) => apply steps_ret; typeclasses eauto
  | |- steps _ (writeError _ _) => apply steps_ret; typeclasses eauto
  | |- steps _ (call _) =>
      apply touches_call; [typeclasses eauto|];
      first [ solve [auto with touch nocore]
            | apply touches_same; first [typeclasses eauto | solve [by frame]] ]
  | |- steps _ _ => solve [auto with touch nocore]
  | _ => go_step
  end.
Ltac touch_go := repeat touch_step.

Section Lifecycle.
Context {go_sort : GoSort} (s : Server).
Context (P : Machine → Prop) (K : relation Machine) `{!PreOrder K} (mid : string).
Hypothesis HK : ∀ m m', kept m m' → K m m'.
Hypothesis HP : ∀ m m', kept m m' → P m → P m'.
Abbreviation rs := (srv_machines s).
Abbreviation R := (touches P K mid).
Abbreviation D := (touches_db P K mid).

Lemma touch_update f : (∀ m, kept m (f m)) → steps D (update_machine mid f).
Proof.
  intros Hf. apply touches_update; [|by eauto..]. intros m. destruct (Hf m) as [E _].
  by injection E.
Qed.
Ltac touch_row :=
  go_steps; first [ apply touch_update; intros ?; apply kept_same; solve [done | by case_match]
                  | apply touches_same; solve [by frame] ].

Lemma touch_tokens g p : steps D (SetMachineTokens mid g p).
Proof. unfold SetMachineTokens. touch_row. Qed.
Lemma touch_tunnel t k : steps D (UpdateMachineTunnel mid t k).
Proof. unfold UpdateMachineTunnel. touch_row. Qed.
Lemma touch_clear_tunnel : steps D (ClearMachineTunnel mid).
Proof. unfold ClearMachineTunnel. touch_row. Qed.
Lemma touch_status status msg : steps D (UpdateMachineStatus mid status msg).
Proof. unfold UpdateMachineStatus. touch_row. Qed.
Lemma touch_unassign : steps D (UnassignMachineFromHost mid).
Proof. unfold UnassignMachineFromHost. touch_row. Qed.
Lemma touch_unpair : steps D (UnpairBrowserVM mid).
Proof. unfold UnpairBrowserVM. touch_row. Qed.
Lemma touch_home h : steps D (UpdateMachineHomeHost mid h).
Proof. unfold UpdateMachineHomeHost. touch_row. Qed.
Lemma touch_backups key : steps D (EnableBackups mid key).
Proof. unfold EnableBackups. touch_row. Qed.
Lemma touch_no_backups : steps D (DisableBackups mid).
Proof. unfold DisableBackups. touch_row. Qed.
Lemma touch_soft_stop h v m d : steps D (SoftStopMachine mid h v m d).
Proof. unfold SoftStopMachine. touch_row. Qed.
Lemma touch_version a b : steps D (UpdateMachineVersion mid a b).
Proof.
  unfold UpdateMachineVersion, now. go_steps. apply touch_update. intros m. split; [done|]. cbn.
  destruct (Machine_VersionSource m); auto.
Qed.
Lemma touch_place h v m d : steps D (PlaceOnHost h mid v m d).
Proof. unfold PlaceOnHost. touch_row. Qed.
Lemma touch_reallocate h v m d : steps D (ReAllocateHostCapacity mid h v m d).
Proof. unfold ReAllocateHostCapacity. touch_row. Qed.
Lemma touch_delete : steps D (DeleteMachine mid).
Proof. by apply touches_delete. Qed.
#[local] Hint Resolve touch_tokens touch_tunnel touch_clear_tunnel touch_status touch_unassign
  touch_unpair touch_home touch_soft_stop touch_version touch_place touch_reallocate
  touch_delete touch_backups touch_no_backups : touch.

(** *** Services *)

Lemma touch_put a m e : steps R (PutRouteSync a m e).
Proof. unfold PutRouteSync, putWithRetry. touch_go. Qed.
Lemma touch_del a m : steps R (DeleteRouteSync a m).
Proof. unfold DeleteRouteSync, delWithRetry. touch_go. Qed.
#[local] Hint Resolve touch_put touch_del : touch.
Lemma touch_SetupRoute routing req : SetupRequest_MachineID req = mid → steps R (SetupRoute routing req).
Proof.
  intros E. unfold SetupRoute, persistRouteState, CreateVMTunnel. rewrite E.
  destruct (hostnames _ _). touch_go.
Qed.
Lemma touch_TeardownRoute routing req :
  TeardownRequest_MachineID req = mid → steps R (TeardownRoute routing req).
Proof. intros E. unfold TeardownRoute. rewrite E. touch_go. Qed.
Lemma touch_teardown machine : Machine_ID machine = mid → steps R (teardown_route rs machine).
Proof. intros E. unfold teardown_route. touch_go; by apply touch_TeardownRoute. Qed.
Lemma touch_ensure_tokens machine : Machine_ID machine = mid → steps R (ensure_tokens machine).
Proof. intros E. unfold ensure_tokens. rewrite E. touch_go. Qed.
Lemma touch_setup_route machine : Machine_ID machine = mid → steps R (setup_route rs machine).
Proof. intros E. unfold setup_route. touch_go. by apply touch_SetupRoute. Qed.
Lemma touch_requireMigration {A} machine reason :
  Machine_ID machine = mid → steps R (@requireMigration A machine reason).
Proof. intros E. unfold requireMigration. rewrite E. touch_go. Qed.
Lemma touch_latest kind channel : steps R (latestArtifactVersion kind channel).
Proof. unfold latestArtifactVersion. touch_go. Qed.
Lemma touch_selection machine d : steps R (resolveRuntimeSelection rs machine d).
Proof. unfold resolveRuntimeSelection. touch_go. Qed.
Lemma touch_active opid : steps R (requireActiveOperation mid opid).
Proof. unfold requireActiveOperation. touch_go. Qed.

Lemma touch_shuffle {A} i (l : list A) : steps R (shuffle_from i l).
Proof. revert l. induction i; intros l; cbn [shuffle_from]; touch_go; auto. Qed.
Lemma touch_rank config hosts : steps R (rank config hosts).
Proof. unfold rank. touch_go; apply touch_shuffle. Qed.
Lemma touch_try_hosts req d hosts : steps R (try_hosts mid req d hosts).
Proof. induction hosts; cbn [try_hosts]; touch_go; auto. Qed.
Lemma touch_Reserve config req : steps R (Reserve config mid req).
Proof.
  unfold Reserve, placeAutoSelect, placeOnSpecificHost.
  touch_go; first [apply touch_rank | apply touch_try_hosts].
Qed.
Lemma touch_Recover config req : steps R (RecoverAffinity config mid req).
Proof. unfold RecoverAffinity. touch_go. Qed.
Lemma touch_Release config mode : steps R (Release config mid mode).
Proof. unfold Release. touch_go. Qed.
#[local] Hint Resolve touch_latest touch_selection touch_active touch_Reserve touch_Recover
  touch_Release : touch.

(** *** The lifecycle *)

Lemma ensure_tokens_id machine w machine' w' :
  ensure_tokens machine w = (Ok machine', w') →
  Machine_ID machine' = Machine_ID machine.
Proof.
  unfold ensure_tokens. destruct (Machine_GatewayToken machine), (Machine_ProxyToken machine);
    [by intros [= <- _]|..]; rewrite !bind_ok; intros (? & ? & _ & E); rewrite bind_ok in E;
    destruct E as (? & ? & _ & E); rewrite bind_ok in E; destruct E as (? & ? & _ & [= <- _]); done.
Qed.
Lemma setup_route_id machine w machine' w' :
  setup_route rs machine w = (Ok machine', w') → Machine_ID machine' = Machine_ID machine.
Proof.
  unfold setup_route. destruct (rs_routing rs); [|by intros [= <- _]].
  rewrite bind_ok. by intros (? & ? & _ & [= <- _]).
Qed.
Lemma touch_choose_host machine opts req :
  Machine_ID machine = mid → steps R (choose_host rs machine opts req).
Proof.
  intros E. unfold choose_host. rewrite E. touch_go; by apply touch_requireMigration.
Qed.
Lemma touch_auto_unpair machine host :
  Machine_ID machine = mid → steps R (auto_unpair rs machine host).
Proof. intros E. unfold auto_unpair. rewrite E. touch_go. Qed.
Lemma touch_create_vm machine op managed opts restart sel placement host ip :
  Machine_ID machine = mid →
  steps R (create_vm rs machine op managed opts restart sel placement host ip).
Proof. intros E. unfold create_vm. rewrite E. cbv zeta. touch_go. Qed.
Lemma touch_start_body machine op managed opts :
  Machine_ID machine = mid → steps R (start_body rs machine op managed opts).
Proof.
  intros E. unfold start_body. do 2 (touch_step; [touch_go|]).
  apply steps_bind_ok; [apply _|by apply touch_ensure_tokens|intros w1 m1 w2 E1%ensure_tokens_id].
  apply steps_bind_ok; [apply _|apply touch_setup_route; congruence|].
  intros w3 m2 w4 E2%setup_route_id. assert (Machine_ID m2 = mid) as Em by congruence.
  clear dependent m1 machine w1 w2. cbv zeta. touch_step; [touch_go|].
  apply steps_bind; [apply _|by apply touch_choose_host|intros [[placement host] ip]].
  touch_step; [by apply touch_auto_unpair|]. rewrite Em. touch_step; [touch_go|].
  touch_go. by apply touch_create_vm.
Qed.
Lemma touch_Start machine opts : Machine_ID machine = mid → steps R (Start rs machine opts).
Proof.
  intros E. unfold Start, start. rewrite E. touch_go; by apply touch_start_body.
Qed.
Lemma touch_stop_vm machine b : Machine_ID machine = mid → steps R (stop_vm rs machine b).
Proof. intros E. unfold stop_vm. rewrite E. touch_go. Qed.
Lemma touch_stop_body machine : Machine_ID machine = mid → steps R (stop_body rs machine).
Proof.
  intros E. unfold stop_body. rewrite E.
  touch_go; first [by apply touch_stop_vm | by apply touch_teardown].
Qed.
Lemma touch_finish op body : steps R body → steps R (finish_operation op body).
Proof. intros H. unfold finish_operation. touch_go. Qed.
Lemma touch_Stop machine : Machine_ID machine = mid → steps R (Stop rs machine).
Proof.
  intros E. unfold Stop, stop. rewrite E. touch_go;
    try apply touch_finish; by apply touch_stop_body.
Qed.
Lemma touch_delete_body machine : Machine_ID machine = mid → steps R (delete_body rs machine).
Proof.
  intros E. unfold delete_body. rewrite E. touch_go; by apply touch_teardown.
Qed.
Lemma touch_Delete machine : Machine_ID machine = mid → steps R (Delete rs machine).
Proof.
  intros E. unfold Delete. rewrite E. touch_go. by apply touch_finish, touch_delete_body.
Qed.
Lemma touch_Upgrade machine opid :
  Machine_ID machine = mid → steps R (UpgradeWithOperation rs machine opid).
Proof.
  intros E. unfold UpgradeWithOperation. rewrite E.
  destruct (Machine_HostID machine) as [hid|]; [|touch_go].
  destruct (String.eqb _ _); [touch_go|]. cbv zeta.
  touch_step; [touch_go|]. touch_step; [touch_go|].
  destruct (one_of _ _); [touch_go|]. do 2 (touch_step; [touch_go|]).
  apply steps_bind_ok; [apply _|by apply touch_ensure_tokens|intros w1 m1 w2 E1%ensure_tokens_id].
  apply steps_bind_ok; [apply _| |].
  { destruct (String.eqb _ _); [apply touch_setup_route; congruence|touch_go]. }
  intros w3 m2 w4 E2. assert (Machine_ID m2 = mid) as Em.
  { destruct (String.eqb _ _); [apply setup_route_id in E2; congruence|].
    injection E2 as -> _. congruence. }
  rewrite Em. touch_go.
Qed.
Lemma touch_cleanup_route : steps R (CleanupMachineRouteAndTunnel rs mid).
Proof.
  unfold CleanupMachineRouteAndTunnel. apply touches_read_wrap; [apply _|]. intros machine E _.
  touch_go. by apply touch_teardown.
Qed.

(** *** Restarts *)

Lemma touch_sync host : steps R (syncMachineRouteToKV s mid host).
Proof. unfold syncMachineRouteToKV. touch_go. Qed.
Lemma touch_wait_failed status msg : steps R (wait_failed mid status msg).
Proof. unfold wait_failed. touch_go. Qed.
Lemma touch_wait host placementID answers :
  steps R (waitForMachineRunningOnHost s mid host placementID answers).
Proof.
  unfold waitForMachineRunningOnHost. generalize (@None string) as last, 0%nat as n.
  induction answers as [|answer rest IH]; intros last n; cbn [wait_running].
  - by apply touch_wait_failed.
  - touch_go; first [by apply touch_wait_failed | apply touch_sync | apply IH].
Qed.
Lemma touch_await host healths : steps R (await_gateway host mid healths).
Proof. induction healths as [|[] rest IH]; cbn [await_gateway]; touch_go; apply IH. Qed.
Lemma touch_health machine healths :
  Machine_ID machine = mid → steps R (waitForGatewayHealth s machine healths).
Proof. intros E. unfold waitForGatewayHealth. rewrite E. touch_go; apply touch_await. Qed.
Lemma touch_restart machine opid answers :
  Machine_ID machine = mid →
  steps R (restartMachineWithOpenClawHealthGate s machine opid answers).
Proof.
  intros E. unfold restartMachineWithOpenClawHealthGate, or_returns, fails_with, or_nil. rewrite E.
  touch_go; first [by apply touch_Upgrade | apply touch_wait | apply touch_health; congruence].
Qed.

(** *** Changes of a selection *)

Hypothesis HKu : ∀ m r, K r (overwrite m r).
Hypothesis HPs : ∀ m m', same_selection m m' → P m → P m'.
Hypothesis HPo : ∀ m v source, P m → P (applyPinnedOpenClawVersion v source m).
Hypothesis HPr : ∀ m v source,
  validateRootfsVersion v = Ok tt → P m → P (applyPinnedRootfsVersion v source m).

Lemma touch_write m : Machine_ID m = mid → P m → steps D (UpdateMachine m).
Proof.
  intros E Hm. unfold UpdateMachine. rewrite E. go_steps.
  apply (touches_update P K mid (overwrite m)); [done| |by intros; apply HKu].
  intros r _. apply (HPs m); [|done]. repeat split; auto.
Qed.
Lemma touch_persist rootfs openclaw m1 m2 apply_ :
  (∀ m, Machine_ID (apply_ m) = Machine_ID m) → (∀ m, P m → P (apply_ m)) →
  steps R (persist_change mid rootfs openclaw m1 m2 apply_).
Proof.
  intros Hi Ha. unfold persist_change. touch_go.
  apply touches_call, touch_write; [apply _|by rewrite Hi|by auto].
Qed.
Lemma touch_persist_rootfs v openclaw source :
  validateRootfsVersion v = Ok tt → steps R (persistPinnedMachineRootfsChange mid v openclaw source).
Proof.
  intros Hv. unfold persistPinnedMachineRootfsChange.
  apply touch_persist; [reflexivity|intros m; by apply HPr].
Qed.
Lemma touch_persist_openclaw rootfs v source :
  steps R (persistPinnedMachineOpenClawChange mid rootfs v source).
Proof.
  unfold persistPinnedMachineOpenClawChange.
  apply touch_persist; [reflexivity|intros m; by apply HPo].
Qed.
Lemma touch_complete op state e : steps R (complete_op op state e).
Proof. unfold complete_op. touch_go. Qed.
Lemma touch_log action ok claims a id : steps R (logMachineChange action ok claims a id).
Proof. unfold logMachineChange, log. touch_go. Qed.
#[local] Hint Resolve touch_complete touch_log : touch.
Lemma touch_already op logged status v m : steps R logged → steps R (already_using op logged status v m).
Proof. intros Hl. unfold already_using, write_change. touch_go. Qed.
Lemma touch_queue op logged v m :
  steps R logged → Machine_ID m = mid → P m → steps R (queue_change op logged v m).
Proof.
  intros Hl E Hm. unfold queue_change, write_change. touch_go.
  apply touches_call, touch_write; [apply _|done..].
Qed.
Lemma touch_applied op persist logged status v b :
  steps R logged → steps R persist → steps R (applied op persist logged status v b).
Proof. intros Hl Hp. unfold applied, write_change. touch_go. Qed.
Lemma touch_restored logged v pv what e m :
  steps R logged → steps R (already_restored logged v pv what e m).
Proof. intros Hl. unfold already_restored, write_change. touch_go. Qed.
Lemma touch_failed op e restored failed :
  steps R restored → steps R failed → steps R (apply_failed op e restored failed).
Proof. intros. unfold apply_failed. touch_go. Qed.
#[local] Hint Resolve touch_already touch_queue touch_applied touch_restored touch_failed : touch.

Lemma touch_rootfs claims a req answers op m v source success to_ failure fto what :
  Machine_ID m = mid → P m → validateRootfsVersion v = Ok tt →
  steps R (apply_rootfs s claims a req answers op m v source success to_ failure fto what).
Proof.
  intros E Hm Hv. unfold apply_rootfs, write_change. rewrite E. cbv zeta.
  destruct (_ || _); [apply touch_queue; [apply touch_log|exact E|by apply HPr]|].
  apply steps_bind; [apply _|by apply touch_restart|intros [updated [e|]]].
  - apply touch_failed; [apply touch_restored, touch_log|touch_go].
  - apply touch_applied; [apply touch_log|by apply touch_persist_rootfs].
Qed.

Lemma touch_rollback rootfs v source answers :
  steps R (rollbackMachineOpenClawVersion s mid rootfs v source answers).
Proof.
  unfold rollbackMachineOpenClawVersion, or_returns, fails_with. cbv zeta. touch_go.
  - by apply touch_restart.
  - replace (Machine_ID machine) with mid by done. apply touch_persist_openclaw.
Qed.
Lemma touch_broken claims a rollback v pv what m e r :
  Machine_ID m = mid → steps R r →
  steps R (rolled_back_or_broken claims a rollback v pv what m e r).
Proof.
  intros E Hr. unfold rolled_back_or_broken, write_change. rewrite E. cbv zeta. touch_go.
Qed.

(** *** Requests *)

Hypothesis HKa : ∀ m m', K m m' → Machine_AccountID m' = Machine_AccountID m.
Lemma touches_confined a w w' :
  (∃ m, db_machines (w_db w) !! mid = Some m ∧ Machine_AccountID m = a) →
  R w w' → confined P a w w'.
Proof.
  intros (m0 & E0 & Ea) H Hw. destruct (H Hw) as [O A' R' (t & T & F)]. split; [done| |].
  - intros id m Hne. destruct (decide (id = mid)) as [->|Hi]; [|by rewrite A'].
    split; intros Em; [congruence|]. apply R' in Em as (m1 & E1 & K1). apply HKa in K1. congruence.
  - exists t. split; [done|]. eapply Forall_impl; [exact F|]. intros e He id m Ee Em.
    apply He in Ee. congruence.
Qed.
Lemma confined_owned a k :
  (∀ machine, Machine_ID machine = mid → P machine → Machine_AccountID machine = a →
     steps R (k machine)) →
  steps (confined P a) (owned_machine a mid k).
Proof.
  intros Hk w Hw. unfold owned_machine, or_error. rewrite bind_try.
  destruct (call_reads (GetMachine mid) w (GetMachine_db mid)) as [Hd Ht].
  destruct (call (GetMachine mid) w) as [[machine|e] w1] eqn:E; cbn in *.
  - apply call_ok in E. rewrite GetMachine_run in E.
    destruct (db_machines (w_db w) !! mid) as [m|] eqn:Em; [|done]. injection E as <- _.
    assert (confined P a w w1) as H1 by (by apply confined_same).
    case_bool_decide as Ea; [|by apply H1].
    refine ((_ : confined P a w (k m w1).2) Hw). transitivity w1; [done|].
    destruct (Hw _ _ Em). apply touches_confined; [exists m; by rewrite Hd|by apply Hk].
  - by apply (confined_same P a w w1).
Qed.

Lemma touch_compat openclaw rootfs : steps R (checkOpenClawRootfsPairCompat openclaw rootfs).
Proof. unfold checkOpenClawRootfsPairCompat, or_nil. touch_go. Qed.
Lemma touch_pin_compat openclaw m : steps R (checkOpenClawPinCompat openclaw m).
Proof. apply touch_compat. Qed.
Lemma touch_compatible check k : steps R check → steps R k → steps R (compatible check k).
Proof. intros Hc Hk. unfold compatible. touch_go. Qed.
Lemma confined_change a body validate check k :
  (∀ v m, steps R (check v m)) →
  (∀ req v source, validate v = Ok tt → steps R (k req v source)) →
  steps (confined P a) (change_request a mid body validate check k).
Proof.
  intros Hc Hk. apply confined_owned. intros machine E Hm Ha. unfold decoded, or_bad_request.
  cbv zeta. destruct body as [req|]; [|touch_go].
  destruct (validate _) as [[]|] eqn:Ev; [|touch_go].
  apply touch_compatible; [done|]. destruct (change_source _); [by apply Hk|touch_go].
Qed.
Lemma touch_locked a kind k :
  (∀ op m, Machine_ID m = mid → P m → steps R (k op m)) →
  steps R (locked_machine a mid kind k).
Proof. intros Hk. unfold locked_machine, or_its_error. touch_go; by apply Hk. Qed.
#[local] Hint Resolve touch_compat touch_pin_compat : touch.

Lemma confined_rootfs_upgrade claims a body answers :
  steps (confined P a) (handleUpgradeMachineRootfs s claims a mid body answers).
Proof.
  apply confined_change; [intros; unfold no_check; touch_go|]. intros req v source Hv.
  apply touch_locked. intros op m E Hm. destruct (nothing_to_change _ _ _ _ _).
  - by apply touch_already, touch_log.
  - by apply touch_rootfs.
Qed.
Lemma confined_rootfs_rollback claims a body answers :
  steps (confined P a) (handleRollbackMachineRootfs s claims a mid body answers).
Proof.
  apply confined_change; [intros; unfold no_check; touch_go|]. intros req v source Hv.
  apply touch_locked. intros op m E Hm. by apply touch_rootfs.
Qed.
Lemma confined_openclaw rollback claims a body answers answers' :
  steps (confined P a)
    (handleApplyMachineOpenClawChange s rollback claims a mid body answers answers').
Proof.
  apply confined_change; [intros; destruct rollback; unfold no_check; touch_go|].
  intros req v source Hv. cbv zeta. apply touch_locked. intros op m E Hm.
  destruct (nothing_to_change _ _ _ _ _); [by apply touch_already, touch_log|].
  destruct (_ || _); [apply touch_queue; [apply touch_log|exact E|by apply HPo]|].
  apply steps_bind; [apply _|by apply touch_restart|intros [updated [e|]]].
  - apply touch_failed; [apply touch_restored, touch_log|].
    apply touch_broken; [done|apply touch_rollback].
  - apply touch_applied; [apply touch_log|apply touch_persist_openclaw].
Qed.
Lemma confined_runtime a body : steps (confined P a) (handleRuntimeUpgrade a mid body).
Proof.
  apply confined_owned. intros machine E Hm Ha.
  unfold decoded, or_bad_request, or_its_error, write_change. cbv zeta.
  destruct body as [req|]; [|touch_go]. do 2 (destruct (String.eqb _ ""); [touch_go|]).
  destruct (valid_opt "rootfs_version" _ _) as [[]|] eqn:Ev; [|touch_go].
  destruct (valid_opt "openclaw_version" _ _); [|touch_go]. apply touch_compatible; [touch_go|].
  destruct (negb _); [touch_go|]. touch_go. apply touches_call, touch_write; [apply _|exact E|].
  apply HPo, HPr; [|done]. unfold valid_opt in Ev. by destruct (validateRootfsVersion _) as [[]|].
Qed.

(** *** Sizes and selections *)

Lemma resized_same req m m' :
  resized req m = Ok m' → Machine_ID m' = Machine_ID m ∧ same_selection m m'.
Proof.
  unfold resized. destruct (_ && _); [done|]. destruct (_ && _); [done|]. intros [= <-].
  by repeat split; auto.
Qed.
Lemma selected_id req sel m m' : selected req sel m = Ok m' → Machine_ID m' = Machine_ID m.
Proof.
  unfold selected. destruct (match UpdateMachine_RuntimeSource req with Some _ => _ | _ => _ end);
    [|done].
  destruct (channel_valid _); [|done]. destruct (channel_conflict _ _ _); [|done].
  destruct (negb _); [done|]. intros [= <-]. by destruct (_ || _).
Qed.
Hypothesis HPc : ∀ req sel m m',
  update_selection req = Ok sel → selected req sel m = Ok m' → P m → P m'.

Lemma touch_backup_key m k : (∀ key, steps R (k key)) → steps R (with_backup_key s m k).
Proof. intros Hk. unfold with_backup_key, or_error. touch_go; apply Hk. Qed.
Lemma touch_switch enabled m k :
  Machine_ID m = mid → P m → (∀ m', Machine_ID m' = mid → P m' → steps R (k m')) →
  steps R (switch_backups s enabled mid m k).
Proof.
  intros E Hm Hk. assert (∀ b, steps R (k (m <| Machine_BackupsEnabled := b |>))) as Hb.
  { intros b. apply Hk; [done|]. apply (HPs m); [|done]. by repeat split; auto. }
  unfold switch_backups, or_error. destruct enabled as [[]|]; [|touch_go|by apply Hk].
  destruct (Machine_BackupsEnabled m); [by apply Hk|]. apply touch_backup_key. intros key.
  touch_go.
Qed.
Lemma confined_update a body : steps (confined P a) (handleUpdateMachine s a mid body).
Proof.
  apply confined_owned. intros machine E Hm Ha. unfold decoded, or_bad_request.
  destruct body as [req|]; [|touch_go].
  destruct (resized req machine) as [m1|] eqn:Er; [|touch_go].
  apply resized_same in Er as [E1 S1]. apply (HPs _ _ S1) in Hm. rewrite E in E1.
  destruct (update_selection req) as [sel|] eqn:Eu; [|touch_go].
  apply touch_compatible; [destruct (sel_openclaw sel), (sel_rootfs sel); touch_go|].
  destruct (selected req sel m1) as [m2|] eqn:Es; [|touch_go].
  pose proof (selected_id _ _ _ _ Es) as E2. rewrite E1 in E2.
  apply (HPc _ _ _ _ Eu Es) in Hm. apply touch_switch; [done..|]. intros m3 E3 Hm3.
  unfold or_its_error. touch_go. by apply touches_call, touch_write; [apply _|..].
Qed.

(** *** Running *)

Lemma touch_on_host machine request failed k :
  (∀ h, about mid (request h)) → steps R k → steps R (on_machine_host s machine request failed k).
Proof.
  intros Hr Hk. unfold on_machine_host, or_error. touch_go. apply touches_remote; [apply _|auto].
Qed.
Lemma confined_get a : steps (confined P a) (handleGetMachine a mid).
Proof. apply confined_owned. intros. touch_go. Qed.
Lemma confined_delete claims a : steps (confined P a) (handleDeleteMachine s claims a mid).
Proof.
  apply confined_owned. intros machine E _ _. unfold or_its_error, log, noContent. rewrite E.
  touch_go. by apply touch_Delete.
Qed.
Lemma confined_start claims a : steps (confined P a) (handleStartMachine s claims a mid).
Proof.
  apply confined_owned. intros machine E _ _. unfold log, started. rewrite E.
  touch_go. by apply touch_Start.
Qed.
Lemma confined_stop claims a : steps (confined P a) (handleStopMachine s claims a mid).
Proof.
  apply confined_owned. intros machine E _ _. unfold log, machine_status.
  touch_go. by apply touch_Stop.
Qed.
Lemma confined_cdp claims a body : steps (confined P a) (handleSetCDPTarget s claims a mid body).
Proof.
  apply confined_owned. intros machine E _ _. unfold log, machine_status. rewrite E. cbv zeta.
  destruct (negb _); [touch_go|]. destruct (String.eqb _ _); [touch_go|].
  apply touch_on_host; [intros h; about|touch_go].
Qed.
Lemma confined_reset_cdp claims a : steps (confined P a) (handleResetCDPTarget s claims a mid).
Proof.
  apply confined_owned. intros machine E _ _. unfold log, machine_status. rewrite E.
  apply touch_on_host; [intros h; about|touch_go].
Qed.
Lemma confined_token a : steps (confined P a) (handleGetMachineToken s a mid).
Proof. apply confined_owned. intros machine E _ _. unfold or_error. touch_go. Qed.
Lemma confined_rollback a : steps (confined P a) (handleRollbackMachine s a mid).
Proof.
  apply confined_owned. intros machine E _ _.
  unfold or_error, or_its_error, or_nil, machine_status. rewrite E.
  touch_go. by apply touch_cleanup_route.
Qed.

(** *** A new machine *)

Lemma touch_default_plugins machine :
  Machine_ID machine = mid → steps R (enable_default_plugins machine).
Proof. intros E. unfold enable_default_plugins. rewrite E. touch_go. Qed.
Lemma touch_default_backups machine :
  Machine_ID machine = mid → steps R (enable_default_backups s machine).
Proof. intros E. unfold enable_default_backups, new_backup_key. rewrite E. touch_go. Qed.
Lemma touch_secrets machine secrets :
  Machine_ID machine = mid → steps R (store_secrets s machine secrets).
Proof. intros E. unfold store_secrets. rewrite E. touch_go. Qed.
End Lifecycle.

(** ** A new row *)

Lemma CreateMachine_ok m db m' db' :
  CreateMachine m db = (Ok m', db') →
  ∃ row, db_machines db !! Machine_ID m' = None ∧
    db_machines db' = <[Machine_ID m' := row]> (db_machines db) ∧
    Machine_ID row = Machine_ID m' ∧ Machine_AccountID row = Machine_AccountID m ∧
    same_selection m row.
Proof.
  unfold CreateMachine, now, unique, references, gen_random_uuid. rewrite tx_ok, !bind_ok.
  intros (t & s1 & [= <- <-] & E). rewrite bind_ok in E. destruct E as (? & s2 & [= <- <-] & E).
  rewrite bind_ok in E. destruct E as (? & s3 & H1 & E).
  assert (s3 = db) as -> by (by destruct (is_some_b _); inversion H1).
  rewrite bind_ok in E. destruct E as (ws & s4 & H2 & E).
  assert (db_machines s4 = db_machines db) as E4.
  { destruct (select _ _); [|by injection H2 as _ <-]. rewrite !bind_ok in H2.
    destruct H2 as (? & s5 & H2 & H3). rewrite bind_ok in H3. destruct H3 as (? & s6 & H3 & [= _ <-]).
    injection H3 as _ <-. injection H2 as _ <-. done. }
  cbv zeta in E. rewrite bind_ok in E. destruct E as (? & s5 & H3 & E).
  assert (s5 = s4) as -> by (by destruct (_ && _); inversion H3).
  rewrite bind_ok in E. destruct E as (id & s6 & H4 & E).
  assert (db_machines s6 = db_machines s4) as E6 by (by injection H4 as _ <-).
  rewrite bind_ok in E. destruct E as (? & s7 & H5 & E).
  destruct (_ && _) eqn:Eu in H5; [|done]. injection H5 as _ <-.
  apply andb_true_iff in Eu as [Eu _]. rewrite bind_ok in E.
  destruct E as (? & s8 & [= _ <-] & [= <- <-]). cbn. eexists.
  split; [by destruct (db_machines db !! id)|]. rewrite E6, E4. split; [done|].
  by repeat split; auto.
Qed.

(** ** Requests of an account *)

Definition same_account (m m' : Machine) : Prop := Machine_AccountID m' = Machine_AccountID m.
#[export] Instance same_account_preorder : PreOrder same_account.
Proof. split; unfold same_account; [done|]. intros ???. congruence. Qed.

Section Requests.
Context {go_sort : GoSort} (s : Server) (P : Machine → Prop) (a : Z).
Hypothesis HPs : ∀ m m', same_selection m m' → P m → P m'.
Hypothesis HPo : ∀ m v source, P m → P (applyPinnedOpenClawVersion v source m).
Hypothesis HPr : ∀ m v source,
  validateRootfsVersion v = Ok tt → P m → P (applyPinnedRootfsVersion v source m).
Hypothesis HPc : ∀ req sel m m',
  update_selection req = Ok sel → selected req sel m = Ok m' → P m → P m'.
Hypothesis HPn : ∀ ws req row slug, checked_create a ws req = Ok row → P (row slug).
Abbreviation C := (confined P a).

Lemma kept_account m m' : kept m m' → same_account m m'.
Proof. intros [E _]. by injection E. Qed.
Lemma kept_P m m' : kept m m' → P m → P m'.
Proof. intros H%kept_selection. by apply HPs. Qed.

Lemma confined_quiet {A} (m : M A) :
  (∀ w, w_db (m w).2 = w_db w ∧ w_trace (m w).2 = w_trace w) → steps C m.
Proof. intros H w. by apply confined_same; apply H. Qed.
Lemma confined_reads {A} (q : Q A) : (∀ db, (q db).2 = db) → steps C (call q).
Proof. intros H. apply confined_quiet. intros w. by apply call_reads. Qed.
Lemma confined_rand_hex : steps C rand_hex.
Proof. apply confined_quiet. intros w. unfold rand_hex. by destruct (w_rand w). Qed.
Lemma confined_short_id : steps C generateShortID.
Proof. unfold generateShortID. go_steps; apply confined_rand_hex. Qed.

Lemma confined_creates {A} m (k : res Machine → M A) :
  Machine_AccountID m = a → P m →
  (∀ machine, steps (touches P same_account (Machine_ID machine)) (k (Ok machine))) →
  (∀ e, steps C (k (Err e))) →
  steps C (bind (try (call (CreateMachine m))) k).
Proof.
  intros Ea Hm Hok He w. rewrite bind_try. pose proof (call_trace (CreateMachine m) w) as Ht.
  destruct (call (CreateMachine m) w) as [[machine|e] w1] eqn:E; cbn in *.
  - apply call_ok, CreateMachine_ok in E as (row & Hn & Hd & Hi & Hacc & Hs). transitivity w1.
    + intros Hw. split; rewrite ?Ht, ?Hd; [| |by exists []].
      * intros id r. rewrite Hd. intros [[<- <-]|[_ ?]]%lookup_insert_Some; [by eauto|by apply Hw].
      * intros id r Hne. destruct (decide (id = Machine_ID machine)) as [->|].
        -- rewrite lookup_insert_eq, Hn. split; congruence.
        -- by rewrite lookup_insert_ne.
    + eapply (touches_confined P same_account (Machine_ID machine)); [done| |apply Hok].
      exists row. rewrite Hd, lookup_insert_eq. split; congruence.
  - transitivity w1; [|apply He]. apply confined_same; [|done].
    apply call_err in E as [E|[_ E]]; [by eapply tx_err|done].
Qed.
Lemma checked_create_account ws req row slug :
  checked_create a ws req = Ok row → Machine_AccountID (row slug) = a.
Proof.
  unfold checked_create. cbv zeta. intros E. repeat (case_match; try done); by injection E as <-.
Qed.
Lemma confined_attempts ws req row n k :
  checked_create a ws req = Ok row →
  (∀ machine, steps (touches P same_account (Machine_ID machine)) (k machine)) →
  steps C (machine_attempts n row k).
Proof.
  intros Hrow Hk. induction n as [|n IH]; cbn [machine_attempts]; [apply steps_ret, _|].
  apply steps_bind; [apply _|apply confined_short_id|intros slug].
  apply confined_creates; [by eapply checked_create_account|by eapply HPn|done|].
  intros e. destruct (errors_is e ErrConflict); [done|apply steps_ret, _].
Qed.
Lemma default_backups_id machine w machine' w' :
  enable_default_backups s machine w = (Ok machine', w') → Machine_ID machine' = Machine_ID machine.
Proof.
  unfold enable_default_backups. destruct (String.eqb _ _); [by intros [= <- _]|].
  rewrite bind_ok. intros (r & ? & _ & [= <- _]). by destruct r.
Qed.
Lemma touch_created claims req machine :
  steps (touches P same_account (Machine_ID machine)) (machine_created s claims a req machine).
Proof.
  pose proof kept_account as H1. pose proof kept_P as H2. unfold machine_created.
  apply steps_bind; [apply _|by apply touch_default_plugins; [apply _|]|intros _].
  apply steps_bind_ok; [apply _|by apply touch_default_backups; [apply _|..]|].
  intros w m w' E%default_backups_id. rewrite <- E. unfold log.
  apply steps_bind; [apply _|by apply touch_secrets; [apply _|]|intros _].
  touch_go; by apply touch_Start; [apply _|..].
Qed.
Lemma confined_create_in claims body ws : steps C (create_in s claims a body ws).
Proof.
  unfold create_in, decoded, or_bad_request. destruct body as [req|]; [|apply steps_ret, _].
  destruct (checked_create a ws req) as [row|] eqn:Erow; [|apply steps_ret, _].
  eapply confined_attempts; [done|]. intros machine. apply touch_created.
Qed.
Lemma confined_create claims ws body : steps C (handleCreateMachine s claims a ws body).
Proof.
  unfold handleCreateMachine. cbv zeta. destruct (String.eqb _ ""); [apply confined_create_in|].
  unfold or_error. go_steps; try apply confined_create_in; [|apply steps_ret, _].
  apply confined_reads. intros db. unfold GetWorkspace, bind, get, query_row, of_res. by case_match.
Qed.

(** *** Routes *)

Lemma confined_list_releases channel kind artifactKind items :
  steps C (list_releases channel kind artifactKind items).
Proof.
  unfold list_releases, or_its_error. go_steps; try apply steps_ret, _. by apply confined_reads.
Qed.
Lemma confined_serve claims accountId r :
  (∀ a', Sscanf_d accountId = Some a' → a' = a) →
  steps C (serve_machine s claims accountId r).
Proof.
  intros Ha. unfold serve_machine, AccountMiddleware. destruct (Sscanf_d accountId) as [a'|];
    [|apply steps_ret, _]. rewrite (Ha a') by done. destruct claims as [c|]; [|apply steps_ret, _].
  apply steps_bind; [apply _|apply steps_try, confined_reads; intros db; apply GetAccountMember_db|].
  intros [member|]; [|apply steps_ret, _]. pose proof kept_account as H1. pose proof kept_P as H2.
  destruct r.
  - unfold handleListMachines, or_its_error. go_steps; try apply steps_ret, _. by apply confined_reads.
  - apply confined_create.
  - by apply confined_get with (K := same_account); [apply _|..].
  - by apply confined_update with (K := same_account); [apply _|..].
  - unfold requireRole. destruct (one_of _ _); [|apply steps_ret, _]. by apply confined_delete with (K := same_account); [apply _|..].
  - by apply confined_start with (K := same_account); [apply _|..].
  - by apply confined_stop with (K := same_account); [apply _|..].
  - by apply confined_cdp with (K := same_account); [apply _|..].
  - by apply confined_reset_cdp with (K := same_account); [apply _|..].
  - by apply confined_rootfs_upgrade with (K := same_account); [apply _|..].
  - by apply confined_rootfs_rollback with (K := same_account); [apply _|..].
  - by apply confined_openclaw with (K := same_account); [apply _|..].
  - by apply confined_runtime with (K := same_account); [apply _|..].
  - by apply confined_rollback with (K := same_account); [apply _|..].
  - by apply confined_token with (K := same_account); [apply _|..].
  - apply confined_list_releases.
  - apply confined_list_releases.
Qed.
End Requests.
