(* ===== verification/MachinesSpec.v ===== *)
(** * What the machines API guarantees *)

From S2P Require Import Prelude Schema HostStore PlacementStore OperationStore.
From S2P Require Import AccountStore CatalogStore StoreStep TableInv RecordInv Scenario.
From S2P Require Import World.
From S2P Require Import Fleet FleetLemmas GoStrings Versions Routing Runtime.
From S2P Require Import RuntimeLemmas.
From S2P Require Import PollerLemmas RuntimeSpec Workflows Api Members MembersLemmas.
From S2P Require Import BrowserVMs.
From S2P Require Import Migration MigrationLemmas.
From S2P Require Import Machines MachinesLemmas.

(** ** The selection of versions *)

(** A channel excludes pins and is one the API offers; a pinned rootfs has a valid
    version; the source is what the selection says, or it was never said. *)
Definition selection_ok (m : Machine) : Prop :=
  (is_Some (Machine_DesiredChannel m) →
   Machine_DesiredRootfsVersion m = None ∧ Machine_DesiredOpenclawVersion m = None) ∧
  channel_valid (Machine_DesiredChannel m) = Ok tt ∧
  (∀ v, Machine_DesiredRootfsVersion m = Some v → validateRootfsVersion v = Ok tt) ∧
  (Machine_VersionSource m = None ∨ Machine_VersionSource m = Some "legacy"%string ∨
   Machine_VersionSource m = Some (deriveMachineVersionSource (Machine_DesiredRootfsVersion m)
     (Machine_DesiredOpenclawVersion m) (Machine_DesiredChannel m))).

Lemma selection_ok_same m m' : same_selection m m' → selection_ok m → selection_ok m'.
Proof.
  intros (E1 & E2 & E3 & E4) (H1 & H2 & H3 & H4). unfold selection_ok. rewrite E1, E2, E3.
  split; [done|]. split; [done|]. split; [done|].
  destruct E4 as [->|[E ->]]; [done|]. auto.
Qed.
Lemma validateRootfsVersion_trim v :
  validateRootfsVersion (TrimSpace v) = validateRootfsVersion v.
Proof. unfold validateRootfsVersion. by rewrite TrimSpace_idem. Qed.
Lemma selection_ok_openclaw m v source :
  selection_ok m → selection_ok (applyPinnedOpenClawVersion v source m).
Proof.
  intros (H1 & H2 & H3 & H4). split; [by intros []|]. split; [done|]. split; [done|].
  right. right. cbn. unfold deriveMachineVersionSource. cbn. by rewrite orb_true_r.
Qed.
Lemma selection_ok_rootfs m v source :
  validateRootfsVersion v = Ok tt → selection_ok m →
  selection_ok (applyPinnedRootfsVersion v source m).
Proof.
  intros Hv (H1 & H2 & H3 & H4). split; [by intros []|]. split; [done|]. split.
  - intros v' [= <-]. by rewrite validateRootfsVersion_trim.
  - right. by right.
Qed.
Lemma channel_conflict_ok channel rootfs openclaw :
  channel_conflict channel rootfs openclaw = Ok tt →
  is_Some channel → rootfs = None ∧ openclaw = None.
Proof.
  unfold channel_conflict. intros H [c ->]. destruct rootfs, openclaw; by cbn in H.
Qed.
Lemma valid_opt_ok what validate v x :
  valid_opt what validate v = Ok tt → v = Some x → validate x = Ok tt.
Proof. intros H ->. cbn in H. by destruct (validate x) as [[]|]. Qed.
Lemma selection_ok_selected req sel m m' :
  update_selection req = Ok sel → selected req sel m = Ok m' → selection_ok m → selection_ok m'.
Proof.
  unfold update_selection, selected. intros Hu Hs (H1 & H2 & H3 & H4).
  destruct (channel_conflict _ _ _) as [[]|]; [|done].
  destruct (valid_opt "rootfs_version" _ _) as [[]|] eqn:Ev; [|done].
  destruct (valid_opt "openclaw_version" _ _) as [[]|]; [|done]. injection Hu as <-.
  cbn [sel_rootfs sel_openclaw sel_channel] in *.
  set (sel := mkSelection _ _ _) in *. set (m1 := select_versions req sel m) in *.
  destruct (match UpdateMachine_RuntimeSource req with Some _ => _ | _ => _ end) as [src|];
    [|done].
  destruct (channel_valid (Machine_DesiredChannel m1)) as [[]|] eqn:Ec; [|done].
  destruct (channel_conflict (Machine_DesiredChannel m1) _ _) as [[]|] eqn:Ex; [|done].
  destruct (negb _); [done|].
  assert (∀ v, Machine_DesiredRootfsVersion m1 = Some v → validateRootfsVersion v = Ok tt) as Hr.
  { clear Hs. intros v. cbn. destruct (is_some_b (UpdateMachine_RootfsVersion req)) eqn:E.
    - intros Ev'. by eapply valid_opt_ok.
    - destruct (is_some_b (requested (UpdateMachine_Channel req))); [done|apply H3]. }
  destruct (_ || _) eqn:Ep; injection Hs as <-.
  - repeat split; try done; cbn; [by apply (channel_conflict_ok _ _ _ Ex)..|by auto].
  - repeat split; try done; cbn; [by apply (channel_conflict_ok _ _ _ Ex)..|].
    apply orb_false_iff in Ep as [[E1 E2]%orb_false_iff E3].
    rewrite E1, E2, E3. clear -E1 E2 E3 H4.
    destruct (UpdateMachine_RootfsVersion req), (UpdateMachine_OpenclawVersion req),
      (UpdateMachine_Channel req); done.
Qed.
Lemma selection_ok_created a ws req row slug :
  checked_create a ws req = Ok row → selection_ok (row slug).
Proof.
  unfold checked_create. cbv zeta. intros E.
  destruct (negb (ValidMachineKind _)); [done|]. destruct (_ && _); [done|].
  destruct (normalizePresentString _) as [src|]; [|done].
  destruct (channel_valid _) as [[]|] eqn:Ec; [|done].
  destruct (channel_conflict _ _ _) as [[]|] eqn:Ex; [|done].
  destruct (valid_opt "rootfs_version" _ _) as [[]|] eqn:Ev; [|done].
  destruct (valid_opt "openclaw_version" _ _) as [[]|]; [|done].
  destruct (negb _); [done|]. destruct (if String.eqb _ _ then _ else _); [|done].
  injection E as <-. split; [by apply (channel_conflict_ok _ _ _ Ex)|]. split; [done|].
  split; [|by right; right]. intros v Hv. by eapply valid_opt_ok.
Qed.

(** ** Tenants *)

(** The caller is a member of the account, and its owner or an admin to delete. *)
Definition may_request (db : DB) (claims : option Claims) (accountID : Z) (r : machine_request)
    : Prop :=
  ∃ c m, claims = Some c ∧ db_members db !! (accountID, Claims_UserID c) = Some m ∧
    match r with
    | DeleteMachineByID _ =>
        AccountMember_Role m = "owner"%string ∨ AccountMember_Role m = "admin"%string
    | _ => True
    end.

Lemma unauthorized_request {go_sort : GoSort} s claims accountId accountID r w :
  Sscanf_d accountId = Some accountID → ¬ may_request (w_db w) claims accountID r →
  let w' := (serve_machine s claims accountId r w).2 in
  w_db w' = w_db w ∧ w_trace w' = w_trace w.
Proof.
  intros Ha Hn. unfold serve_machine, AccountMiddleware. rewrite Ha.
  destruct claims as [c|]; [|done]. rewrite bind_try.
  pose proof (call_reads (GetAccountMember accountID (Claims_UserID c)) w
    (GetAccountMember_db _ _)) as [Hd Ht].
  destruct (call (GetAccountMember _ _) w) as [[m|e] w1] eqn:E; cbn in Hd, Ht; [|done].
  assert (db_members (w_db w) !! (accountID, Claims_UserID c) = Some m) as Em.
  { apply call_ok in E. apply (GetAccountMember_ok accountID). by rewrite E. }
  destruct r; try (exfalso; apply Hn; by exists c, m). unfold requireRole.
  destruct (one_of ["owner"; "admin"]%string (AccountMember_Role m)) eqn:Er; [|cbn; by rewrite Er]. exfalso. apply Hn. exists c, m.
  split; [done|]. split; [done|]. apply bool_decide_eq_true in Er. set_solver.
Qed.

(** C25: whatever calls fail, a request of an account changes no row of another
    account's machines and asks no agent about their VMs; a caller who is not a
    member, or who deletes a machine without being owner or admin, changes
    nothing at all. *)
Theorem machine_requests_confined {go_sort : GoSort} (s : Server) (claims : option Claims)
    (accountId : string) (accountID : Z) (r : machine_request) (w : World) :
  Sscanf_d accountId = Some accountID → keyed Machine_ID (db_machines (w_db w)) →
  let w' := (serve_machine s claims accountId r w).2 in
  (∀ id m, Machine_AccountID m ≠ accountID →
     db_machines (w_db w) !! id = Some m ↔ db_machines (w_db w') !! id = Some m) ∧
  (∃ calls, w_trace w' = calls ++ w_trace w ∧
     Forall (λ e, ∀ id m, event_machine e = Some id → db_machines (w_db w) !! id = Some m →
                          Machine_AccountID m = accountID) calls) ∧
  (¬ may_request (w_db w) claims accountID r → w_db w' = w_db w ∧ w_trace w' = w_trace w).
Proof.
  intros Ha Hk. cbv zeta.
  assert (confined (λ _, True) accountID w (serve_machine s claims accountId r w).2) as H.
  { apply confined_serve; auto. intros a'. congruence. }
  destruct H as [_ H1 H2]; [intros id m Em; split; [by apply Hk|done]|].
  split; [done|]. split; [done|]. by apply unauthorized_request.
Qed.

(** The stop of Acme's machine id-4 that bob, who is not a member, requests; id-4 is
    untouched by a request of account 7. *)
Definition acme : Server := api_server runtime0 false true false "" "example.com".
Definition bob_claims : Claims := mkClaims 2 "bob@example.com".
Lemma machine_requests_confined_witness :
  w_db (serve_machine (go_sort:=go_sort_merge) acme (Some bob_claims) "1"
          (PostStopMachine "id-4") (world db_running)).2 = w_db (world db_running) ∧
  db_machines (w_db (serve_machine (go_sort:=go_sort_merge) acme (Some bob_claims) "7"
    (PostStopMachine "id-4") (world db_running)).2) !! "id-4"%string =
  db_machines (w_db (world db_running)) !! "id-4"%string.
Proof.
  pose proof (proj1 (proj2 (reachable_keyed _ db_running_reachable))) as Hk. split.
  - pose proof (machine_requests_confined (go_sort:=go_sort_merge) acme (Some bob_claims) "1" 1
      (PostStopMachine "id-4") (world db_running)) as H.
    specialize (H ltac:(vm_compute; reflexivity) ltac:(exact Hk)). cbv zeta in H.
    destruct H as (_ & _ & H). destruct H as [H _]; [|exact H].
    intros (c & m & [= <-] & Hm & _). vm_compute in Hm. discriminate Hm.
  - pose proof (machine_requests_confined (go_sort:=go_sort_merge) acme
      (Some bob_claims) "7" 7 (PostStopMachine "id-4") (world db_running)) as H.
    specialize (H ltac:(vm_compute; reflexivity)). specialize (H ltac:(exact Hk)).
    cbv zeta in H. destruct H as [H _].
    assert (db_machines (w_db (world db_running)) !! "id-4"%string =
            Some (machine_of db_running "id-4")) as E
      by (vm_compute; reflexivity).
    assert (Machine_AccountID (machine_of db_running "id-4") ≠ 7) as Ea by (vm_compute; discriminate).
    rewrite E. exact (proj1 (H _ _ Ea) E).
Defined.

(** C28: the requests of an account keep every row's selection of versions well
    formed: a channel excludes pins and is stable, rc or dev, a pinned rootfs
    version is valid (no path, no blank), and the version source says what the
    selection is. *)
Theorem selections_well_formed {go_sort : GoSort} (s : Server) (claims : option Claims)
    (accountId : string) (r : machine_request) (w : World) :
  rows_ok selection_ok (w_db w) →
  rows_ok selection_ok (w_db (serve_machine s claims accountId r w).2).
Proof.
  intros Hw. destruct (Sscanf_d accountId) as [a|] eqn:Ea;
    [|by unfold serve_machine, AccountMiddleware; rewrite Ea].
  assert (confined selection_ok a w (serve_machine s claims accountId r w).2) as H;
    [|by apply H].
  apply confined_serve; [exact selection_ok_same|exact selection_ok_openclaw
    |exact selection_ok_rootfs|exact selection_ok_selected|exact (selection_ok_created a)|].
  intros a'. congruence.
Qed.

(** A run in which nothing was selected yet. *)
Lemma unselected_rows db :
  Forall (λ '(id, m), Machine_ID m = id ∧ Machine_DesiredChannel m = None ∧
    Machine_DesiredRootfsVersion m = None ∧ Machine_VersionSource m = None)
    (map_to_list (db_machines db)) → rows_ok selection_ok db.
Proof.
  rewrite Forall_forall. intros H id m Em.
  destruct (H (id, m)) as (Ei & Ec & Er & Es); [by apply elem_of_map_to_list|].
  split; [done|]. unfold selection_ok. rewrite Ec, Er, Es. split; [by intros []|].
  split; [done|]. split; [done|]. by left.
Qed.
Lemma running_rows : rows_ok selection_ok (w_db (world db_running)).
Proof. apply unselected_rows. vm_compute. by repeat constructor. Qed.
(** A channel for machine id-4. *)
Definition channel_body : update_machine_body :=
  mkUpdateMachineBody "" 0 0 None None None None (Some "rc"%string) None.
Lemma selections_well_formed_witness :
  selection_ok (machine_of (w_db (serve_machine (go_sort:=go_sort_merge) acme
    (Some (mkClaims 1 "alice@example.com")) "1" (PutMachine "id-4" (Some channel_body))
    (world db_running)).2) "id-4") ∧
  Machine_DesiredChannel (machine_of (w_db (serve_machine (go_sort:=go_sort_merge) acme
    (Some (mkClaims 1 "alice@example.com")) "1" (PutMachine "id-4" (Some channel_body))
    (world db_running)).2) "id-4") = Some "rc"%string.
Proof.
  pose proof (selections_well_formed (go_sort:=go_sort_merge) acme
    (Some (mkClaims 1 "alice@example.com")) "1" (PutMachine "id-4" (Some channel_body))
    (world db_running) ltac:(exact running_rows)) as H.
  split; [|vm_compute; reflexivity].
  refine (proj2 (H "id-4"%string _ _)). vm_compute. reflexivity.
Defined.

(** ** Changes of versions *)

Inductive version_change : Type := RootfsUpgrade | RootfsRollback | OpenClawChange (rollback : bool).
Definition handle_change {go_sort : GoSort} (s : Server) (kind : version_change) (claims : Claims)
    (accountID : Z) (id : string) (body : option change_body) (answers answers' : restart_answers)
    : M response :=
  match kind with
  | RootfsUpgrade => handleUpgradeMachineRootfs s claims accountID id body answers
  | RootfsRollback => handleRollbackMachineRootfs s claims accountID id body answers
  | OpenClawChange rollback =>
      handleApplyMachineOpenClawChange s rollback claims accountID id body answers answers'
  end.
Definition of_rootfs (kind : version_change) : bool :=
  match kind with OpenClawChange _ => false | _ => true end.
Definition desired_version (rootfs : bool) : Machine → option string :=
  if rootfs then Machine_DesiredRootfsVersion else Machine_DesiredOpenclawVersion.
Definition current_version (rootfs : bool) : Machine → string :=
  if rootfs then currentMachineRootfsVersion else currentMachineOpenClawVersion.

(** What an answer says about the row it is given for. *)
Definition truthful (rootfs : bool) (target : string) (rc : runtimeChangeResponse) (row : Machine)
    : Prop :=
  RuntimeChange_TargetVersion rc = target ∧
  (∃ m, RuntimeChange_Machine rc = Some m ∧ selection_columns m = selection_columns row) ∧
  (RuntimeChange_Status rc = "pending_restart"%string ∧ desired_version rootfs row = Some target ∨
   (RuntimeChange_Status rc = "updated"%string ∨ RuntimeChange_Status rc = "rolled_back"%string) ∧
   current_version rootfs row = target ∧
   hasPendingChange (desired_version rootfs row) target = false).

(** What the statements write. *)
Lemma UpdateMachine_ok m db u db' :
  UpdateMachine m db = (Ok u, db') →
  db_machines db' = alter (overwrite m) (Machine_ID m) (db_machines db).
Proof.
  unfold UpdateMachine, bind, get. destruct (_ && _); cbn; [done|]. by intros [= _ <-].
Qed.
Lemma complete_run op state e w :
  ∃ w1, complete_op op state e w = (Ok tt, w1) ∧ db_machines (w_db w1) = db_machines (w_db w).
Proof.
  eexists. split; [reflexivity|]. cbn.
  assert (steps (on_db (same db_machines)) (complete_op op state e)) as H.
  { unfold complete_op. apply steps_ignore, steps_call; [apply _|by frame]. }
  exact (H w).
Qed.
Lemma persist_row mid rootfs openclaw m1 m2 apply_ w m' w' :
  (∀ m, Machine_ID (apply_ m) = Machine_ID m) → rows_ok (λ _, True) (w_db w) →
  persist_change mid rootfs openclaw m1 m2 apply_ w = (Ok m', w') →
  ∃ m, m' = apply_ m ∧ Machine_ID m = mid ∧ Machine_ResolvedRootfsVersion m = NULLIF rootfs ∧
    Machine_ResolvedOpenclawVersion m = NULLIF openclaw ∧
    db_machines (w_db w') !! mid = Some (overwrite (apply_ m) m).
Proof.
  intros Hi Hok. unfold persist_change. rewrite bind_ok. intros (u & w1 & E1 & E).
  rewrite wrap_ok in E1. apply call_ok in E1. rewrite bind_ok in E.
  destruct E as (m & w2 & E2 & E). rewrite wrap_ok in E2. apply call_ok in E2.
  rewrite GetMachine_run in E2. destruct (db_machines (w_db w1) !! mid) as [r|] eqn:Er; [|done].
  injection E2 as -> Ed. rewrite bind_ok in E. destruct E as (u' & w3 & E3 & E).
  injection E as <- <-. rewrite wrap_ok in E3. apply call_ok, UpdateMachine_ok in E3.
  injection E1 as _ E1. rewrite <- E1 in Er. cbn in Er. rewrite lookup_alter_eq in Er.
  destruct (db_machines (w_db w) !! mid) as [r0|] eqn:E0; [|done]. injection Er as <-.
  destruct (Hok _ _ E0) as [Ei _]. eexists. split; [done|]. split; [done|]. split; [done|].
  split; [done|]. rewrite E3, Hi, <- Ed, <- E1. cbn.
  by rewrite Ei, !lookup_alter_eq, E0.
Qed.

Section Answers.
Context {go_sort : GoSort} (s : Server) (rootfs : bool) (mid : string) (body : option change_body).
Variable w0 : World.
Abbreviation T := (touches (λ _, True) kept mid).

(** A success tells the truth; a rootfs change that is refused or fails has left the
    selection of the row alone. *)
Definition fair (r : response) (w : World) : Prop :=
  (response_status r = 200 → ∃ req rc row, body = Some req ∧
     response_body r = runtime_change_json rc ∧ db_machines (w_db w) !! mid = Some row ∧
     truthful rootfs (TrimSpace (Change_Version req)) rc row) ∧
  (response_status r ≠ 200 → response_status r ≠ 500 → rootfs = true → T w0 w).
(** From a world in which nothing has been written to the selection. *)
Definition answers_fairly (m : M response) : Prop :=
  ∀ w, rows_ok (λ _, True) (w_db w) → T w0 w →
  match m w with (Ok r, w') => fair r w' | (Err _, _) => False end.

Lemma fair_error status v : status ≠ 200 → answers_fairly (writeJSON status v).
Proof. intros Hs w _ Hw. split; cbn; [done|]. by intros. Qed.
Lemma fair_try {A} (m : M A) k :
  steps T m → (∀ r, answers_fairly (k r)) → answers_fairly (bind (try m) k).
Proof.
  intros Hm Hk w Hok Hw. rewrite bind_try. specialize (Hm w). apply Hk.
  - by apply Hm.
  - by transitivity w.
Qed.
Lemma fair_bind {A} (m : M A) k :
  steps T m → returns m → (∀ a, answers_fairly (k a)) → answers_fairly (bind m k).
Proof.
  intros Hm Hr Hk w Hok Hw. unfold bind. specialize (Hm w). specialize (Hr w).
  destruct (m w) as [[a|e] w1]; [|done]. apply Hk; cbn in *; [by apply Hm|by transitivity w].
Qed.
(** What was read of the row. *)
Lemma fair_read k :
  (∀ m w, db_machines (w_db w) !! mid = Some m → Machine_ID m = mid →
     rows_ok (λ _, True) (w_db w) → T w0 w →
     match k (Ok m) w with (Ok r, w') => fair r w' | (Err _, _) => False end) →
  (∀ e, answers_fairly (k (Err e))) →
  answers_fairly (bind (try (call (GetMachine mid))) k).
Proof.
  intros Hk He w Hok Hw. rewrite bind_try.
  destruct (call_reads (GetMachine mid) w (GetMachine_db mid)) as [Hd Ht].
  assert (T w (call (GetMachine mid) w).2) as H1
    by (apply touches_call; [apply _|]; apply touches_reads; [apply _|apply GetMachine_db]).
  destruct (call (GetMachine mid) w) as [[m|e] w1] eqn:E; cbn in *.
  - apply call_ok in E. rewrite GetMachine_run in E.
    destruct (db_machines (w_db w) !! mid) as [m'|] eqn:Em; [|done]. injection E as -> _.
    apply Hk; [by rewrite Hd|by apply (Hok _ _ Em)|by rewrite Hd|by transitivity w].
  - apply He; [by rewrite Hd|by transitivity w].
Qed.

Lemma fair_complete op state e k : answers_fairly k → answers_fairly (complete_op op state e ;; k).
Proof.
  intros Hk. apply fair_bind; [by apply touch_complete; apply _|done|intros _; exact Hk].
Qed.
Lemma fair_change a validate check k :
  (∀ v m, steps T (check v m)) → (∀ v m, returns (check v m)) →
  (∀ req source, body = Some req → validate (TrimSpace (Change_Version req)) = Ok tt →
     answers_fairly (k req (TrimSpace (Change_Version req)) source)) →
  answers_fairly (change_request a mid body validate check k).
Proof.
  intros Hc Hr Hk. unfold change_request, owned_machine, or_error. apply fair_try.
  { apply touches_call; [apply _|]. apply touches_reads; [apply _|apply GetMachine_db]. }
  intros [machine|e]; [|by apply fair_error]. case_bool_decide; [|by apply fair_error].
  unfold decoded, or_bad_request. destruct body as [req|]; [|by apply fair_error]. cbv zeta.
  destruct (validate _) as [[]|] eqn:Ev; [|by apply fair_error]. unfold compatible.
  apply fair_bind; [done..|]. intros [e|]; [by apply fair_error|].
  destruct (change_source _) as [source|]; [by apply Hk|by apply fair_error].
Qed.
Lemma fair_locked a kind k :
  (∀ op m w, db_machines (w_db w) !! mid = Some m → Machine_ID m = mid →
     rows_ok (λ _, True) (w_db w) → T w0 w →
     match k op m w with (Ok r, w') => fair r w' | (Err _, _) => False end) →
  answers_fairly (locked_machine a mid kind k).
Proof.
  intros Hk. unfold locked_machine, or_its_error. apply fair_try; [touch_go|].
  intros [op|e]; [|by apply fair_error]. apply fair_read.
  - intros m w. intros. case_bool_decide; [by apply Hk|].
    by apply fair_complete; [apply fair_error|..].
  - intros e. by apply fair_complete, fair_error.
Qed.

(** *** The ends of the handlers *)

Variable req : change_body.
Hypothesis Hbody : body = Some req.
Abbreviation target := (TrimSpace (Change_Version req)).

Lemma fair_done op action claims a rc row w :
  db_machines (w_db w) !! mid = Some row → truthful rootfs target rc row →
  match (complete_op op "completed" None ;; logMachineChange action true claims a mid ;;
         write_change 200 rc) w
  with (Ok r, w') => fair r w' | (Err _, _) => False end.
Proof.
  intros Er Ht. unfold bind. destruct (complete_run op "completed" None w) as (w1 & -> & Ed).
  unfold logMachineChange, log, emit, modify, write_change, writeJSON, ret. cbn.
  split; cbn; [|done]. intros _. exists req, rc, row. by rewrite Ed.
Qed.
Lemma fair_queue op action claims a m w :
  db_machines (w_db w) !! mid = Some m → Machine_ID m = mid →
  ∀ apply_, (∀ m, Machine_ID (apply_ m) = Machine_ID m) →
  (∀ m, Machine_AccountID (apply_ m) = Machine_AccountID m) →
  (∀ m, desired_version rootfs (apply_ m) = Some target) →
  match queue_change op (logMachineChange action true claims a mid) target (apply_ m) w
  with (Ok r, w') => fair r w' | (Err _, _) => False end.
Proof.
  intros Em Ei apply_ Hi Ha Hd. unfold queue_change. rewrite bind_try.
  destruct (call (UpdateMachine (apply_ m)) w) as [[u|e] w1] eqn:E; cbn [fst snd].
  - apply call_ok, UpdateMachine_ok in E. rewrite Hi, Ei in E.
    eapply fair_done; [by rewrite E, lookup_alter_eq, Em|]. split; [done|]. split.
    + exists (apply_ m). split; [done|]. unfold selection_columns. cbn. by rewrite Hi, Ha.
    + left. split; [done|]. cbn. rewrite <- (Hd m). by destruct rootfs.
  - unfold bind. destruct (complete_run op "failed" (Some e) w1) as (w2 & -> & _).
    split; cbn; done.
Qed.
Lemma fair_applied op action claims a status to_ rfs oc m1 m2 apply_ w :
  rows_ok (λ _, True) (w_db w) → target ≠ ""%string →
  status = "updated"%string ∨ status = "rolled_back"%string →
  (if rootfs then rfs else oc) = target →
  (∀ m, Machine_ID (apply_ m) = Machine_ID m) →
  (∀ m, desired_version rootfs (apply_ m) = Some target) →
  (∀ m, Machine_AccountID (apply_ m) = Machine_AccountID m) →
  match applied op (persist_change mid rfs oc m1 m2 apply_)
          (logMachineChange action true claims a mid) status target to_ w
  with (Ok r, w') => fair r w' | (Err _, _) => False end.
Proof.
  intros Hok Hne Hs Hv Hi Hd Ha. unfold applied. rewrite bind_try.
  destruct (persist_change _ _ _ _ _ _ w) as [[m'|e] w1] eqn:E; cbn [fst snd].
  - apply persist_row in E as (m & -> & Em & Er & Eo & Erow); [|done..].
    eapply fair_done; [done|]. split; [done|]. split.
    + exists (apply_ m). split; [done|]. unfold selection_columns. cbn. by rewrite Hi, Ha.
    + right. split; [done|]. assert (NULLIF target = Some target) as En.
      { unfold NULLIF. by rewrite bool_decide_eq_false_2. }
      assert (∀ rest, firstMachineString (Some target :: rest) = target) as Ef.
      { intros rest. cbn. rewrite TrimSpace_idem. by apply String.eqb_neq in Hne as ->. }
      assert (desired_version rootfs (overwrite (apply_ m) m) = Some target) as Ed
        by (rewrite <- (Hd m); by destruct rootfs).
      rewrite Ed. split.
      * clear Ed. unfold current_version, currentMachineRootfsVersion, currentMachineOpenClawVersion.
        destruct rootfs; cbn -[firstMachineString]; [rewrite Er|rewrite Eo];
          rewrite Hv, En; apply Ef.
      * unfold hasPendingChange. rewrite TrimSpace_idem, String.eqb_refl. by rewrite andb_false_r.
  - unfold bind. destruct (complete_run op "failed" (Some e) w1) as (w2 & -> & _).
    split; cbn; done.
Qed.

(** *** The handlers *)

Lemma returns_restart machine opid answers :
  returns (restartMachineWithOpenClawHealthGate s machine opid answers).
Proof.
  unfold restartMachineWithOpenClawHealthGate, or_returns, or_nil, fails_with.
  destruct (Machine_HostID machine); [|done]. apply returns_try. intros [[host ip]|e].
  - apply returns_bind; [apply returns_try; intros; done|intros placement].
    apply returns_try. intros []; [|done]. apply returns_try. intros []; [|done].
    apply returns_try. by intros [].
  - destruct (errors_is _ _); [|done]. apply returns_try. by intros [].
Qed.
(** Every other end of a handler is no success. *)
Definition refuses (m : M response) : Prop :=
  ∀ w, match m w with (Ok r, _) => response_status r ≠ 200 | (Err _, _) => False end.
Lemma fair_refuses m : steps T m → refuses m → answers_fairly m.
Proof.
  intros Hm Hr w Hok Hw. specialize (Hm w). specialize (Hr w). destruct (m w) as [[r|e] w1]; [|done].
  split; [done|]. intros _ _ _. by transitivity w.
Qed.
Lemma fair_openclaw m : rootfs = false → refuses m → answers_fairly m.
Proof.
  intros Hf Hr w _ _. specialize (Hr w). destruct (m w) as [[r|e] w1]; [|done].
  split; [done|]. by rewrite Hf.
Qed.
Lemma refuses_bind {A} (m : M A) k : returns m → (∀ a, refuses (k a)) → refuses (bind m k).
Proof.
  intros Hm Hk w. unfold bind. specialize (Hm w). destruct (m w) as [[a|e] w1]; [apply Hk|done].
Qed.
Lemma refuses_log action ok claims a id k :
  refuses k → refuses (logMachineChange action ok claims a id ;; k).
Proof. intros Hk. by apply refuses_bind. Qed.
Lemma refuses_failed op e restored failed :
  refuses restored → refuses failed → refuses (apply_failed op e restored failed).
Proof. intros. apply refuses_bind; [done|]. intros _. by destruct (errors_is _ _). Qed.
Lemma refuses_restored action claims a id v pv what e m :
  refuses (already_restored (logMachineChange action false claims a id) v pv what e m).
Proof. by apply refuses_log. Qed.

Lemma fair_rootfs claims a source answers op m success to_ failure fto what w :
  rootfs = true → db_machines (w_db w) !! mid = Some m → Machine_ID m = mid →
  rows_ok (λ _, True) (w_db w) → T w0 w → target ≠ ""%string →
  success = "updated"%string ∨ success = "rolled_back"%string →
  match apply_rootfs s claims a req answers op m target source success to_ failure fto what w
  with (Ok r, w') => fair r w' | (Err _, _) => False end.
Proof.
  intros Hr Em Ei Hok Hw Hne Hs. unfold apply_rootfs. rewrite Ei. cbv zeta.
  assert (∀ m', desired_version rootfs (applyPinnedRootfsVersion target source m') = Some target)
    as Hd by (intros m'; rewrite Hr; cbn; by rewrite TrimSpace_idem).
  destruct (_ || _); [by apply fair_queue|].
  apply (fair_bind (restartMachineWithOpenClawHealthGate s _ _ _)); [|by apply returns_restart| |done..].
  { apply touch_restart; [apply _|done..]. }
  intros [updated [e|]].
  - apply fair_refuses.
    + apply touch_failed; [apply _|apply touch_restored, touch_log; apply _|].
      apply steps_bind; [apply _|apply touch_log; apply _|intros _; apply steps_ret, _].
    + apply refuses_failed; [apply refuses_restored|by apply refuses_log].
  - clear dependent w. intros w Hok Hw. unfold persistPinnedMachineRootfsChange.
    apply fair_applied; try done. by rewrite Hr.
Qed.

Lemma refuses_broken claims a rollback v pv what m e r :
  returns r → refuses (rolled_back_or_broken claims a rollback v pv what m e r).
Proof.
  intros Hr. unfold rolled_back_or_broken. cbv zeta. apply refuses_bind; [done|].
  intros [m' [e'|]]; [apply refuses_bind; [done|intros _]|]; by apply refuses_log.
Qed.
Lemma returns_rollback rfs v source answers :
  returns (rollbackMachineOpenClawVersion s mid rfs v source answers).
Proof.
  unfold rollbackMachineOpenClawVersion, or_returns, fails_with. destruct (String.eqb _ ""); [done|].
  apply returns_try. intros [m|e]; [|done]. destruct (Machine_HostID m); [|done].
  apply returns_try. intros [op|e]; [|done]. cbv zeta.
  apply returns_bind; [apply returns_restart|intros [m' [e|]]; cbn; [done|]].
  apply returns_try. by intros [].
Qed.
End Answers.

Lemma returns_pair_compat openclaw rfs : returns (checkOpenClawRootfsPairCompat openclaw rfs).
Proof.
  unfold checkOpenClawRootfsPairCompat, or_nil. destruct (String.eqb _ ""); [done|].
  apply returns_bind; [by apply returns_try|intros [r|]; [|done]].
  destruct (ArtifactRelease_MinRootfsVersion r); [|done]. destruct (String.eqb _ _); [done|].
  apply returns_bind; [by apply returns_try|intros [m|]; [|done]].
  apply returns_bind; [by apply returns_try|by intros []].
Qed.
Lemma valid_rootfs_nonempty v : validateRootfsVersion (TrimSpace v) = Ok tt → TrimSpace v ≠ ""%string.
Proof. intros H E. rewrite E in H. by vm_compute in H. Qed.
Lemma valid_openclaw_nonempty v :
  ValidateOpenClawVersion (TrimSpace v) = Ok tt → TrimSpace v ≠ ""%string.
Proof. intros H E. rewrite E in H. by vm_compute in H. Qed.
(** What the noop branch has checked. *)
Lemma nothing_to_change_ok rootfs m v source :
  nothing_to_change (current_version rootfs m) v source (desired_version rootfs m) m = true →
  current_version rootfs m = v ∧ hasPendingChange (desired_version rootfs m) v = false.
Proof.
  unfold nothing_to_change. rewrite !andb_true_iff, negb_true_iff, String.eqb_eq.
  intros [[[_ E] _] ?%negb_true_iff]. auto.
Qed.
Lemma truthful_noop rootfs m v status :
  status = "updated"%string ∨ status = "rolled_back"%string →
  current_version rootfs m = v ∧ hasPendingChange (desired_version rootfs m) v = false →
  truthful rootfs v (mkRuntimeChangeResponse status v "" "" (Some m)) m.
Proof. intros Hs [Hc Hp]. split; [done|]. split; [by exists m|]. right. by split. Qed.

Lemma fair_handle_change {go_sort : GoSort} s kind claims a mid body answers answers' w0 :
  answers_fairly (of_rootfs kind) mid body w0 (handle_change s kind claims a mid body answers answers').
Proof.
  destruct kind as [| |rollback]; cbn [of_rootfs handle_change].
  - apply fair_change; [intros; apply steps_ret, _|done|]. intros req source Hb Hv.
    apply fair_locked. intros op m w Em Ei Hok Hw.
    destruct (nothing_to_change _ _ _ _ _) eqn:En.
    + eapply fair_done; [done..|]. apply truthful_noop; [by left|].
      by apply (nothing_to_change_ok true m _ source).
    + apply fair_rootfs; try done; [by apply valid_rootfs_nonempty|by left].
  - apply fair_change; [intros; apply steps_ret, _|done|]. intros req source Hb Hv.
    apply fair_locked. intros op m w Em Ei Hok Hw.
    apply fair_rootfs; try done; [by apply valid_rootfs_nonempty|by right].
  - apply fair_change.
    + intros v m. destruct rollback; [apply steps_ret, _|by apply touch_compat; apply _].
    + intros v m. destruct rollback; [done|apply returns_pair_compat].
    + intros req source Hb Hv%valid_openclaw_nonempty. cbv zeta.
      apply fair_locked. intros op m w Em Ei Hok Hw.
      set (status := if rollback then "rolled_back"%string else "updated"%string).
      assert (status = "updated"%string ∨ status = "rolled_back"%string) as Hs
        by (destruct rollback; auto).
      destruct (nothing_to_change _ _ _ _ _) eqn:En.
      { eapply fair_done; [done..|]. apply truthful_noop; [done|].
        by apply (nothing_to_change_ok false m _ source). }
      destruct (_ || _).
      { apply fair_queue; try done. intros m'. cbn. by rewrite TrimSpace_idem. }
      apply (fair_bind false mid body w0 (restartMachineWithOpenClawHealthGate s _ _ _));
        [|by apply returns_restart| |done..].
      { apply touch_restart; [apply _|done..]. }
      intros [updated [e|]].
      * apply fair_openclaw; [done|]. apply refuses_failed; [apply refuses_restored|].
        apply refuses_broken, returns_rollback.
      * clear dependent w. intros w Hok Hw. unfold persistPinnedMachineOpenClawChange.
        apply fair_applied; try done. intros m'. cbn. by rewrite TrimSpace_idem.
Qed.

(** C26: the answer of a change of versions is true of the database, whatever calls
    fail: a success names the requested version and shows the stored selection, and
    the row is pinned to that version (pending restart) or runs it with no other
    change queued (updated, rolled back); a rootfs change that is refused, or that
    fails behind the health gate, has left the row's selection as it was, and the
    calls were about this machine only. *)
Theorem version_changes_truthful {go_sort : GoSort} (s : Server) (kind : version_change)
    (claims : Claims) (accountID : Z) (id : string) (body : option change_body)
    (answers answers' : restart_answers) (w : World) :
  rows_ok (λ _, True) (w_db w) →
  match handle_change s kind claims accountID id body answers answers' w with
  | (Ok r, w') =>
      (response_status r = 200 → ∃ req rc row, body = Some req ∧
         response_body r = runtime_change_json rc ∧ db_machines (w_db w') !! id = Some row ∧
         truthful (of_rootfs kind) (TrimSpace (Change_Version req)) rc row) ∧
      (response_status r ≠ 200 → response_status r ≠ 500 → of_rootfs kind = true →
       touched (λ _, True) kept id w w')
  | (Err _, _) => False
  end.
Proof.
  intros Hok. pose proof (fair_handle_change s kind claims accountID id body answers answers' w w
    Hok ltac:(reflexivity)) as H.
  destruct (handle_change _ _ _ _ _ _ _ _ w) as [[r|e] w']; [|done].
  destruct H as [H1 H2]. split; [done|]. intros. by apply H2.
Qed.

(** An upgrade of the rootfs of the running id-4, behind a health gate that opens at
    the second check. *)
Definition alice_claims : Claims := mkClaims 1 "alice@example.com".
Definition world_change : World :=
  (world db_running) <| w_rand := ["k1"; "t1"; "c1"; "k2"; "t2"; "c2"]%string |>.
Definition rootfs_v2 : change_body := mkChangeBody "rootfs-v2" true None.
Definition opens_late : restart_answers :=
  mkRestartAnswers [PollStatus "starting" ""; PollStatus "running" ""] [false; true].
Abbreviation upgraded := (handle_change (go_sort:=go_sort_merge) acme RootfsUpgrade alice_claims 1
  "id-4" (Some rootfs_v2) opens_late opens_late world_change).
Lemma change_rows : rows_ok (λ _, True) (w_db world_change).
Proof.
  assert (w_db world_change = w_db (world db_running)) as ->
    by (unfold world_change; by generalize (world db_running)).
  intros id m Em. split; [|done]. by apply (running_rows id m).
Qed.
Lemma machine_of_row db id row : db_machines db !! id = Some row → machine_of db id = row.
Proof. unfold machine_of. by intros ->. Qed.
Lemma upgraded_200 :
  ∃ r, upgraded = (Ok r, snd upgraded) ∧ response_status r = 200.
Proof.
  assert (∃ r, fst upgraded = Ok r ∧ response_status r = 200) as (r & Er & Hr)
    by (eexists; split; vm_compute; reflexivity).
  exists r. split; [rewrite <- Er; apply surjective_pairing|done].
Qed.
Lemma version_changes_truthful_witness :
  Machine_ResolvedRootfsVersion (machine_of (w_db (snd upgraded)) "id-4") = Some "rootfs-v2"%string ∧
  ∃ rc, truthful true "rootfs-v2" rc (machine_of (w_db (snd upgraded)) "id-4").
Proof.
  split; [vm_compute; reflexivity|].
  pose proof (version_changes_truthful (go_sort:=go_sort_merge) acme RootfsUpgrade alice_claims 1
    "id-4" (Some rootfs_v2) opens_late opens_late world_change) as H.
  specialize (H change_rows).
  destruct upgraded_200 as (r & E & Hr).
  rewrite E in H.
  destruct H as [H _]. destruct (H Hr) as (req & rc & row & Hb & _ & Hrow & Ht).
  injection Hb as <-. exists rc. rewrite (machine_of_row _ _ _ Hrow). exact Ht.
Defined.

(** ** The operation of a change *)

Section Settling.
Context {go_sort : GoSort} (s : Server) (mid : string).

Definition idle (w : World) : Prop :=
  fault_free w ∧ keyed MachineOperation_ID (db_operations (w_db w)) ∧
  active_operations (w_db w) mid = [].
(** Run with [opid] in flight, [m] ends with no operation of the machine in flight. *)
Definition settles {A} (opid : string) (m : M A) : Prop :=
  ∀ w, in_flight mid opid w → idle (m w).2.

Lemma quiet_idle {A} (m : M A) : quiet (same db_operations) m → steps (keeps idle) m.
Proof.
  intros [H1 H2] w (Hf & Hk & Hn). split; [by apply H2|]. unfold idle, active_operations.
  rewrite (H1 w). by split.
Qed.
Lemma op_settles_bind {A B} opid (m : M A) (k : A → M B) :
  quiet (same db_operations) m → returns m → (∀ a, settles opid (k a)) → settles opid (bind m k).
Proof.
  intros Hq Hr Hk w Hw. unfold bind. specialize (Hr w).
  pose proof (quiet_in_flight mid opid m Hq w Hw) as H1. destruct (m w) as [[a|e] w1]; [|done].
  by apply Hk.
Qed.
Lemma op_settles_try {A B} opid (m : M A) (k : res A → M B) :
  quiet (same db_operations) m → (∀ r, settles opid (k r)) → settles opid (bind (try m) k).
Proof.
  intros Hq Hk w Hw. rewrite bind_try. apply Hk. by apply (quiet_in_flight mid opid m Hq w Hw).
Qed.
Lemma settles_complete {B} op state e (k : M B) :
  one_of ["pending"; "in_progress"]%string state = false → steps (keeps idle) k →
  settles (MachineOperation_ID op) (complete_op op state e ;; k).
Proof.
  intros Hs Hk w [Hf Ho]. unfold complete_op. rewrite bind_ignore. apply Hk.
  rewrite call_free by done. split; [done|]. cbn [w_db snd]. split; [|by apply complete_clears].
  rewrite CompleteMachineOperation_final by done. cbn. destruct Ho as [Hk' _].
  by apply keyed_alter.
Qed.
Lemma settles_create {B} kind (k : res MachineOperation → M B) :
  (∀ op, settles (MachineOperation_ID op) (k (Ok op))) → (∀ e, steps (keeps idle) (k (Err e))) →
  steps (keeps idle)
    (bind (try (call (CreateMachineOperation (new_operation mid kind)))) k).
Proof.
  intros Hok He w (Hf & Hk & Hn). rewrite bind_try, call_free by done.
  destruct (CreateMachineOperation _ (w_db w)) as [[op|e] db1] eqn:E; cbn [fst snd].
  - apply create_only_active in E; [|done]. by apply Hok.
  - apply CreateMachineOperation_err in E as ->. by apply He.
Qed.

(** *** The parts of the handlers *)

#[local] Hint Resolve ops_ensure_tokens ops_setup_route ops_latest ops_selection : quiet.
Lemma ops_upgrade machine opid :
  quiet (same db_operations) (UpgradeWithOperation (srv_machines s) machine opid).
Proof. unfold UpgradeWithOperation, requireActiveOperation. quiet_go. Qed.
Lemma ops_await host m healths : quiet (same db_operations) (await_gateway host m healths).
Proof. induction healths as [|[] rest IH]; cbn [await_gateway]; quiet_go; apply IH. Qed.
Lemma ops_restart machine opid answers :
  quiet (same db_operations) (restartMachineWithOpenClawHealthGate s machine opid answers).
Proof.
  unfold restartMachineWithOpenClawHealthGate, or_returns, or_nil, fails_with,
    waitForMachineRunningOnHost, waitForGatewayHealth.
  quiet_go; first [apply ops_upgrade | apply ops_await | apply ops_wait].
Qed.
Lemma ops_persist rootfs openclaw m1 m2 apply_ :
  quiet (same db_operations) (persist_change mid rootfs openclaw m1 m2 apply_).
Proof. unfold persist_change. quiet_go. Qed.
Lemma ops_log action ok claims a id :
  quiet (same db_operations) (logMachineChange action ok claims a id).
Proof. unfold logMachineChange, log. quiet_go. Qed.
#[local] Hint Resolve ops_restart ops_persist ops_log : quiet.

Lemma settles_done op state e (logged : M unit) rc status :
  one_of ["pending"; "in_progress"]%string state = false → quiet (same db_operations) logged →
  settles (MachineOperation_ID op) (complete_op op state e ;; logged ;; write_change status rc).
Proof.
  intros Hs Hl. apply settles_complete; [done|]. apply quiet_idle.
  apply quiet_bind; [apply _|done|intros _]. unfold write_change, writeJSON. quiet_go.
Qed.
Lemma settles_queue op logged v m :
  quiet (same db_operations) logged →
  settles (MachineOperation_ID op) (queue_change op logged v m).
Proof.
  intros Hl. unfold queue_change. apply op_settles_try; [quiet_go|].
  intros [u|e]; [by apply settles_done|]. apply settles_complete; [done|].
  apply quiet_idle. unfold writeError, writeJSON. quiet_go.
Qed.
Lemma settles_applied op persist logged status v b :
  quiet (same db_operations) persist → quiet (same db_operations) logged →
  settles (MachineOperation_ID op) (applied op persist logged status v b).
Proof.
  intros Hp Hl. unfold applied. apply op_settles_try; [done|].
  intros [m|e]; [by apply settles_done|]. apply settles_complete; [done|].
  apply quiet_idle. unfold writeError, writeJSON. quiet_go.
Qed.
Lemma settles_failed op e restored failed :
  steps (keeps idle) restored → steps (keeps idle) failed →
  settles (MachineOperation_ID op) (apply_failed op e restored failed).
Proof. intros H1 H2. apply settles_complete; [done|]. by destruct (errors_is _ _). Qed.
Lemma idle_restored action claims a id v pv what e m :
  steps (keeps idle) (already_restored (logMachineChange action false claims a id) v pv what e m).
Proof. apply quiet_idle. unfold already_restored, write_change, writeJSON. quiet_go. Qed.
Lemma idle_rollback rootfs v source answers w :
  idle w → rows_ok (λ _, True) (w_db w) →
  idle (rollbackMachineOpenClawVersion s mid rootfs v source answers w).2.
Proof.
  intros Hw Hok. unfold rollbackMachineOpenClawVersion, or_returns, fails_with.
  destruct (String.eqb _ ""); [done|]. rewrite bind_try, call_free, GetMachine_run by apply Hw.
  destruct (db_machines (w_db w) !! mid) as [machine|] eqn:E; cbn [fst snd];
    [|by destruct w]. apply Hok in E as [-> _].
  assert (idle (w <| w_db := w_db w |>)) as Hw' by by destruct w.
  destruct (Machine_HostID machine); [|done]. revert Hw'. generalize (w <| w_db := w_db w |>).
  apply (settles_create "openclaw_rollback"); [|intros e; apply steps_ret, _].
  intros op. cbv zeta. apply op_settles_bind; [apply ops_restart|apply returns_restart|].
  intros [updated [e|]]; cbn [snd].
  - apply settles_complete; [done|apply steps_ret, _].
  - unfold persistPinnedMachineOpenClawChange. apply op_settles_try; [apply ops_persist|].
    intros [m|e]; (apply settles_complete; [done|apply steps_ret, _]).
Qed.
Lemma idle_broken claims a rollback v pv what m e rfs source answers w :
  idle w → rows_ok (λ _, True) (w_db w) →
  idle (rolled_back_or_broken claims a rollback v pv what m e
          (rollbackMachineOpenClawVersion s mid rfs pv source answers) w).2.
Proof.
  intros Hw Hok. unfold rolled_back_or_broken. cbv zeta.
  pose proof (idle_rollback rfs pv source answers w Hw Hok) as H.
  pose proof (returns_rollback s mid rfs pv source answers w) as Hr. unfold bind at 1.
  destruct (rollbackMachineOpenClawVersion _ _ _ _ _ _ w) as [[[m' e']|] w1]; [|done].
  cbn [snd] in H. revert H. apply quiet_idle. unfold write_change, writeJSON. quiet_go.
Qed.

(** *** The handlers *)

Definition ready (w : World) : Prop := rows_ok (λ _, True) (w_db w) ∧ idle w.
Definition leaves_idle (m : M response) : Prop := ∀ w, ready w → idle (m w).2.
Lemma idle_error status v : leaves_idle (writeJSON status v).
Proof. by intros w [_ Hw]. Qed.
Lemma idle_read {A} (q : Q A) k :
  (∀ db, (q db).2 = db) → (∀ r, leaves_idle (k r)) → leaves_idle (bind (try (call q)) k).
Proof.
  intros Hq Hk w [Hok Hw]. rewrite bind_try. pose proof Hw as [Hf _]. rewrite call_free by done.
  apply Hk. unfold ready. cbn [snd]. rewrite Hq. split; by destruct w.
Qed.
Lemma idle_locked a kind k :
  (∀ op m w, Machine_ID m = mid → rows_ok (λ _, True) (w_db w) →
     in_flight mid (MachineOperation_ID op) w → idle (k op m w).2) →
  leaves_idle (locked_machine a mid kind k).
Proof.
  intros Hk w [Hok (Hf & Hn & Ha)]. unfold locked_machine, or_its_error.
  rewrite bind_try, call_free by done.
  destruct (CreateMachineOperation _ (w_db w)) as [[op|e] db1] eqn:E; cbn [fst snd].
  2:{ apply CreateMachineOperation_err in E as ->. by destruct w. }
  assert (rows_ok (λ _, True) db1) as Hok1.
  { apply CreateMachineOperation_ok in E as (_ & _ & _ & _ & ->). exact Hok. }
  apply create_only_active in E; [|done].
  assert (in_flight mid (MachineOperation_ID op) (w <| w_db := db1 |>)) as Hfl by (by split).
  change (rows_ok (λ _, True) (w_db (w <| w_db := db1 |>))) in Hok1.
  revert Hfl Hok1. generalize (w <| w_db := db1 |>). clear -Hk. intros w Hfl Hok.
  rewrite bind_try, call_free, GetMachine_run by apply Hfl. cbn [fst snd].
  replace (w <| w_db := w_db w |>) with w by by destruct w.
  destruct (db_machines (w_db w) !! mid) as [m|] eqn:Em; [case_bool_decide|].
  { apply Hk; [by apply Hok|done..]. }
  all: clear Em; revert w Hfl Hok; refine (λ w Hfl _, settles_complete op _ _ _ _ _ w Hfl);
    [done|apply steps_ret, _].
Qed.
Lemma idle_pair_compat openclaw rfs k :
  leaves_idle k → leaves_idle (compatible (checkOpenClawRootfsPairCompat openclaw rfs) k).
Proof.
  intros Hk w [Hok Hw]. unfold compatible.
  assert (steps (touches (λ _, True) kept mid) (checkOpenClawRootfsPairCompat openclaw rfs)) as H1
    by (apply touch_compat; apply _).
  assert (steps (keeps idle) (checkOpenClawRootfsPairCompat openclaw rfs)) as H2.
  { apply quiet_idle. unfold checkOpenClawRootfsPairCompat, or_nil. quiet_go. }
  pose proof (returns_pair_compat openclaw rfs w) as Hr. unfold bind. specialize (H1 w Hok).
  specialize (H2 w Hw). destruct (checkOpenClawRootfsPairCompat _ _ w) as [[[e|]|] w1]; [done| |done].
  apply Hk. split; [apply H1|done].
Qed.
Lemma idle_change a body validate check k :
  (∀ v m k, leaves_idle k → leaves_idle (compatible (check v m) k)) →
  (∀ req v source, leaves_idle (k req v source)) →
  leaves_idle (change_request a mid body validate check k).
Proof.
  intros Hc Hk. unfold change_request, owned_machine, or_error, decoded, or_bad_request.
  apply idle_read; [apply GetMachine_db|]. intros [machine|e]; [|apply idle_error].
  case_bool_decide; [|apply idle_error]. destruct body as [req|]; [|apply idle_error]. cbv zeta.
  destruct (validate _); [|apply idle_error]. apply Hc.
  destruct (change_source _); [apply Hk|apply idle_error].
Qed.
Lemma no_check_idle v m k : leaves_idle k → leaves_idle (compatible (no_check v m) k).
Proof. done. Qed.
Lemma settles_rootfs claims a req answers op m v source success to_ failure fto what :
  settles (MachineOperation_ID op)
    (apply_rootfs s claims a req answers op m v source success to_ failure fto what).
Proof.
  unfold apply_rootfs, persistPinnedMachineRootfsChange. cbv zeta.
  destruct (_ || _); [apply settles_queue, ops_log|].
  apply op_settles_bind; [apply ops_restart|apply returns_restart|]. intros [updated [e|]].
  - apply settles_failed; [apply idle_restored|]. apply quiet_idle.
    unfold write_change, writeJSON. quiet_go.
  - (* the rows are those of [Machine_ID m] *)
    apply settles_applied; [unfold persist_change; quiet_go|apply ops_log].
Qed.

Lemma idle_openclaw_failed claims a rollback v pv what m m' e rfs source answers op w :
  rows_ok (λ _, True) (w_db w) → in_flight mid (MachineOperation_ID op) w →
  idle (apply_failed op e
    (already_restored (logMachineChange (openclaw_action rollback) false claims a mid) v pv what e m')
    (rolled_back_or_broken claims a rollback v pv what m e
       (rollbackMachineOpenClawVersion s mid rfs pv source answers)) w).2.
Proof.
  intros Hok Hfl. unfold apply_failed.
  assert (idle (complete_op op "failed" (Some e) w).2) as H1.
  { by apply (settles_complete op "failed" (Some e) (ret tt)); [|apply steps_ret, _|]. }
  assert (rows_ok (λ _, True) (w_db (complete_op op "failed" (Some e) w).2)) as H2
    by (by apply (touch_complete (λ _, True) kept mid op "failed" (Some e))).
  destruct (complete_run op "failed" (Some e) w) as (w1 & E & _). unfold bind. rewrite E in *.
  cbn [snd] in *. destruct (errors_is _ _); [by apply idle_restored|by apply idle_broken].
Qed.
Lemma idle_handle kind claims a body answers answers' :
  leaves_idle (handle_change s kind claims a mid body answers answers').
Proof.
  destruct kind as [| |rollback]; cbn [handle_change]; (apply idle_change;
    [|intros req v source; cbv zeta; apply idle_locked; intros op m w Em Hok Hfl]).
  - apply no_check_idle.
  - clear Hok. revert w Hfl. destruct (nothing_to_change _ _ _ _ _);
      [apply settles_done; [done|apply ops_log]|apply settles_rootfs].
  - apply no_check_idle.
  - clear Hok. revert w Hfl. apply settles_rootfs.
  - intros v m k Hk. destruct rollback; [by apply no_check_idle|by apply idle_pair_compat].
  - destruct (nothing_to_change _ _ _ _ _).
    { clear Hok. revert w Hfl. apply settles_done; [done|apply ops_log]. }
    destruct (_ || _); [clear Hok; revert w Hfl; apply settles_queue, ops_log|].
    set (pending := applyPinnedOpenClawVersion v source m).
    pose proof (quiet_in_flight mid _ _ (ops_restart pending (MachineOperation_ID op) answers)
      w Hfl) as H1.
    pose proof (returns_restart s pending (MachineOperation_ID op) answers w) as Hr.
    assert (rows_ok (λ _, True) (w_db (restartMachineWithOpenClawHealthGate s pending
      (MachineOperation_ID op) answers w).2)) as H2
      by (by apply (touch_restart s (λ _, True) kept mid)).
    unfold bind. destruct (restartMachineWithOpenClawHealthGate _ _ _ _ w)
      as [[[updated [e|]]|] w1]; [| |done]; cbn [snd] in H1, H2.
    + by apply idle_openclaw_failed.
    + clear H2 w Hok Hfl Hr. revert w1 H1. unfold persistPinnedMachineOpenClawChange.
      apply settles_applied; [apply ops_persist|apply ops_log].
Qed.

(** *** A busy machine *)

Definition blocked (m : M response) : Prop :=
  ∀ w, active_operations (w_db w) mid ≠ [] →
  match m w with
  | (Ok r, w') => response_status r ≠ 200 ∧ w_db w' = w_db w ∧ w_trace w' = w_trace w
  | (Err _, _) => False
  end.
Lemma blocked_error status v : status ≠ 200 → blocked (writeJSON status v).
Proof. by intros Hs w _. Qed.
Lemma blocked_bind {A} (m : M A) k :
  (∀ w, w_db (m w).2 = w_db w ∧ w_trace (m w).2 = w_trace w) → returns m →
  (∀ a, blocked (k a)) → blocked (bind m k).
Proof.
  intros Hm Hr Hk w Hn. unfold bind. specialize (Hr w). destruct (Hm w) as [Hd Ht].
  destruct (m w) as [[a|e] w1]; [|done]. cbn in Hd, Ht. specialize (Hk a w1).
  rewrite Hd in Hk. specialize (Hk Hn). by rewrite Ht in Hk.
Qed.
Lemma blocked_read {A} (q : Q A) k :
  (∀ db, (q db).2 = db) → (∀ r, blocked (k r)) → blocked (bind (try (call q)) k).
Proof.
  intros Hq Hk. apply blocked_bind; [| |done]; intros w; unfold try.
  - pose proof (call_reads q w Hq) as H. by destruct (call q w).
  - by destruct (call q w).
Qed.
Lemma blocked_locked a kind k : blocked (locked_machine a mid kind k).
Proof.
  intros w Hn. unfold locked_machine, or_its_error. rewrite bind_try.
  pose proof (call_trace (CreateMachineOperation (new_operation mid kind)) w) as Ht.
  destruct (call _ w) as [[op|e] w1] eqn:E; cbn [fst snd] in *.
  - apply call_ok, CreateMachineOperation_ok in E as (_ & Ha & _). by cbn in Ha.
  - split; [done|]. split; [|done].
    apply call_err in E as [E|[_ E]]; [by apply CreateMachineOperation_err in E|done].
Qed.
Lemma GetArtifactRelease_db kind v db : (GetArtifactRelease kind v db).2 = db.
Proof. unfold GetArtifactRelease, wrap, bind, get, query_row, of_res. by case_match. Qed.
Lemma blocked_pair_compat openclaw rfs k :
  blocked k → blocked (compatible (checkOpenClawRootfsPairCompat openclaw rfs) k).
Proof.
  intros Hk. unfold compatible. apply blocked_bind; [|apply returns_pair_compat|].
  2:{ intros [e|]; [by apply blocked_error|done]. }
  assert (steps (same (λ w, (w_db w, w_trace w))) (checkOpenClawRootfsPairCompat openclaw rfs)) as H.
  { unfold checkOpenClawRootfsPairCompat, or_nil. go_steps; intros w; unfold same;
      match goal with |- context [call (GetArtifactRelease ?k ?v)] =>
        by destruct (call_reads _ w (GetArtifactRelease_db k v)) as [-> ->] end. }
  intros w. by injection (H w).
Qed.
Lemma blocked_handle kind claims a body answers answers' :
  blocked (handle_change s kind claims a mid body answers answers').
Proof.
  assert (∀ validate check k, (∀ v m k, blocked k → blocked (compatible (check v m) k)) →
    (∀ req v source, blocked (k req v source)) →
    blocked (change_request a mid body validate check k)) as H.
  { intros validate check k Hc Hk.
    unfold change_request, owned_machine, or_error, decoded, or_bad_request.
    apply blocked_read; [apply GetMachine_db|]. intros [machine|e]; [|by apply blocked_error].
    case_bool_decide; [|by apply blocked_error]. destruct body as [req|]; [|by apply blocked_error].
    cbv zeta. destruct (validate _); [|by apply blocked_error]. apply Hc.
    destruct (change_source _); [apply Hk|by apply blocked_error]. }
  destruct kind as [| |rollback]; apply H; try (intros; apply blocked_locked); [done..|].
  intros v m k Hk. destruct rollback; [done|by apply blocked_pair_compat].
Qed.
End Settling.

(** C27: the operation is the lock of a change of versions, and it is given back:
    without faults, when no operation of the machine is in flight none is when the
    answer is sent, whatever the agent answered, roll back included; and while one
    is in flight the change is refused and nothing happens. *)
Theorem version_changes_settle {go_sort : GoSort} (s : Server) (kind : version_change)
    (claims : Claims) (accountID : Z) (id : string) (body : option change_body)
    (answers answers' : restart_answers) (w : World) :
  fault_free w → keyed Machine_ID (db_machines (w_db w)) →
  keyed MachineOperation_ID (db_operations (w_db w)) →
  let '(r, w') := handle_change s kind claims accountID id body answers answers' w in
  (active_operations (w_db w) id = [] → active_operations (w_db w') id = []) ∧
  (active_operations (w_db w) id ≠ [] → w_db w' = w_db w ∧ w_trace w' = w_trace w ∧
     ∀ a, r = Ok a → response_status a ≠ 200).
Proof.
  intros Hf Hm Ho.
  pose proof (idle_handle s id kind claims accountID body answers answers' w) as Hi.
  pose proof (blocked_handle s id kind claims accountID body answers answers' w) as Hb.
  destruct (handle_change _ _ _ _ _ _ _ _ w) as [r w']. split.
  - intros Hn. apply Hi. split; [|done]. intros k m Em. split; [by apply Hm|done].
  - intros Hn. specialize (Hb Hn). destruct r as [a|e]; [|done]. destruct Hb as (H1 & H2 & H3).
    split; [done|]. split; [done|]. by intros ? [= <-].
Qed.

Lemma version_changes_settle_witness :
  active_operations (w_db (snd upgraded)) "id-4" = [] ∧
  w_trace (snd upgraded) ≠ [].
Proof.
  split; [|vm_compute; discriminate].
  pose proof (reachable_keyed _ db_running_reachable) as (_ & Hm & _ & _ & _ & Ho & _).
  pose proof (version_changes_settle (go_sort:=go_sort_merge) acme RootfsUpgrade alice_claims 1
    "id-4" (Some rootfs_v2) opens_late opens_late world_change) as H.
  specialize (H eq_refl). specialize (H Hm). specialize (H Ho).
  destruct upgraded_200 as (r & E & Hr). rewrite E in H.
  exact (proj1 H ltac:(vm_compute; reflexivity)).
Defined.

(** ** Resizing a running machine *)

(** Machine id-4 runs on host 2, where machine id-5 is placed too. *)
Definition db_resize : DB := exec_all ops_running db_both.
Lemma db_resize_reachable : reachable db_resize.
Proof. apply exec_all_reachable; [apply db_both_reachable|by repeat split]. Qed.
Definition resized : World :=
  snd (serve_machine (go_sort:=go_sort_merge) acme (Some alice_claims) "1"
    (PutMachine "id-4" (Some (mkUpdateMachineBody "" 4 0 None None None None None None)))
    (world db_resize)).
Definition resized_stopped : World :=
  snd (serve_machine (go_sort:=go_sort_merge) acme (Some alice_claims) "1" (PostStopMachine "id-4")
    resized).

(** The size of a machine can be changed while it runs, and a stop gives back the
    size that it has then: after a machine of two vCPUs is given four and stopped,
    its host counts none although its neighbour's two are still placed there. *)
Lemma resize_frees_neighbours :
  used_vcpus 2 db_resize = Some 4 ∧ placed_vcpus 2 db_resize = 4 ∧
  used_vcpus 2 (w_db resized) = Some 4 ∧ placed_vcpus 2 (w_db resized) = 6 ∧
  used_vcpus 2 (w_db resized_stopped) = Some 0 ∧
  Machine_Status (machine_of (w_db resized_stopped) "id-4") = "stopped"%string ∧
  Machine_HostID (machine_of (w_db resized_stopped) "id-5") = Some 2 ∧
  Machine_VCPUs (machine_of (w_db resized_stopped) "id-5") = 2 ∧
  Machine_Status (machine_of (w_db resized_stopped) "id-5") = "provisioning"%string.
Proof. vm_compute. repeat split. Qed.
