(* ===== verification/HostUpdates.v ===== *)
(** * Updates of hosts: api/admin_host_update_operations.go and the handlers of
    admin_hosts.go that start them

    The operations on hosts are kept in the memory of the server: [Updates] adds
    them to the world, and [U] is the monad of code that uses them under their
    mutex.  A handler answers with the operation it has created and leaves a job,
    which a goroutine runs: [run_job].  A job that waits for the host's agent polls
    the database; [rounds] says what everything else does between two polls (other
    requests, heartbeats, other jobs), a round for each that starts before the
    seven minutes are over.  The machines of a host are stopped by a goroutine each,
    in an order that [GoSchedule] chooses; the two minutes they have do not expire.
    The runtime service and the agents' client are configured. *)

From S2P Require Import Prelude Schema HostStore World Fleet GoStrings Json Versions.
From S2P Require Import Routing Runtime Api Members BrowserVMs.

(** ** Operations *)

Record hostUpdateOperation : Type := mkHostUpdateOperation {
  HostUpdate_ID : string;
  HostUpdate_HostID : Z;
  HostUpdate_HostName : string;
  HostUpdate_Kind : string;
  HostUpdate_Status : string;
  HostUpdate_MachinesStopped : Z;
  HostUpdate_MachinesFailed : Z;
  HostUpdate_MachinesRestarting : bool;
  HostUpdate_Message : string;
  HostUpdate_Error : string;
  HostUpdate_CreatedAt : time;
  HostUpdate_UpdatedAt : time;
  HostUpdate_CompletedAt : option time
}.
#[export] Instance eta_hostUpdateOperation : Eta hostUpdateOperation := λ r,
  mkHostUpdateOperation (HostUpdate_ID r) (HostUpdate_HostID r) (HostUpdate_HostName r)
    (HostUpdate_Kind r) (HostUpdate_Status r) (HostUpdate_MachinesStopped r)
    (HostUpdate_MachinesFailed r) (HostUpdate_MachinesRestarting r) (HostUpdate_Message r)
    (HostUpdate_Error r) (HostUpdate_CreatedAt r) (HostUpdate_UpdatedAt r)
    (HostUpdate_CompletedAt r).
Definition host_update_json (op : hostUpdateOperation) : json :=
  JObj ([("id", JStr (HostUpdate_ID op)); ("host_id", JNum (HostUpdate_HostID op));
         ("host_name", JStr (HostUpdate_HostName op)); ("kind", JStr (HostUpdate_Kind op));
         ("status", JStr (HostUpdate_Status op));
         ("machines_stopped", JNum (HostUpdate_MachinesStopped op));
         ("machines_failed", JNum (HostUpdate_MachinesFailed op));
         ("machines_restarting", JBool (HostUpdate_MachinesRestarting op))]%string ++
    omitempty_str "message" (HostUpdate_Message op) ++
    omitempty_str "error" (HostUpdate_Error op) ++
    [("created_at", JNum (HostUpdate_CreatedAt op));
     ("updated_at", JNum (HostUpdate_UpdatedAt op))]%string ++
    omitempty "completed_at" (JNum <$> HostUpdate_CompletedAt op)).

Definition hostUpdateKindTrigger : string := "trigger_update".
Definition hostUpdateKindDrain : string := "drain_update".
Definition hostUpdateKindStorage : string := "browser_storage".
Definition hostUpdateStatusQueued : string := "queued".
Definition hostUpdateStatusRunning : string := "running".
Definition hostUpdateStatusSucceeded : string := "succeeded".
Definition hostUpdateStatusTimedOut : string := "timed_out".
Definition hostUpdateStatusFailed : string := "failed".
Definition isActiveHostUpdateOperationStatus (status : string) : bool :=
  one_of [hostUpdateStatusQueued; hostUpdateStatusRunning] status.
Definition errHostUpdateOperationActive : error := ErrText "host update operation already active".

Record Updates : Type := mkUpdates {
  u_world : World;
  u_ops : gmap string hostUpdateOperation
}.
#[export] Instance eta_Updates : Eta Updates := λ r, mkUpdates (u_world r) (u_ops r).
Definition U := ST Updates.
(** Code that does not look at the operations. *)
Definition lift {A} (m : M A) : U A := λ u,
  let '(r, w) := m (u_world u) in (r, u <| u_world := w |>).
Definition u_now : U time := lift (gets (λ w, db_now (w_db w))).

(** The order in which the goroutines of a loop get through. *)
Class GoSchedule : Type := {
  schedule : ∀ {A}, list A → list A;
  schedule_perm : ∀ {A} (l : list A), schedule l ≡ₚ l
}.
(** One scheduler, to run the model with. *)
Definition in_turn : GoSchedule := {|
  schedule := λ A l, l;
  schedule_perm := λ A l, reflexivity l
|}.

(** Five identifiers are tried. *)
Fixpoint allocate (attempts : nat) (op : string → hostUpdateOperation) : U hostUpdateOperation :=
  match attempts with
  | O => fail (ErrText "failed to allocate host update operation id")
  | S attempts' =>
      let! short := lift generateShortID in
      let id := ("hostupd-" +:+ short)%string in
      let! ops := gets u_ops in
      if is_some_b (ops !! id) then allocate attempts' op
      else modify (set u_ops <[id := op id]>) ;; ret (op id)
  end.
Definition active_on (hostID : Z) (op : hostUpdateOperation) : bool :=
  bool_decide (HostUpdate_HostID op = hostID) &&
  isActiveHostUpdateOperationStatus (HostUpdate_Status op).
Definition createHostUpdateOperation (host : Host) (kind : string) : U hostUpdateOperation :=
  let! t := u_now in
  let! ops := gets u_ops in
  if bool_decide (select (active_on (Host_ID host)) ops = []) then
    allocate 5 (λ id, mkHostUpdateOperation id (Host_ID host) (Host_VMName host) kind
      hostUpdateStatusQueued 0 0 false "" "" t t None)
  else fail errHostUpdateOperationActive.
Definition getHostUpdateOperation (operationID : string) : U (option hostUpdateOperation) :=
  gets (λ u, u_ops u !! operationID).
Definition updateHostUpdateOperation (operationID : string)
    (fn : hostUpdateOperation → hostUpdateOperation) : U unit :=
  let! t := u_now in
  modify (set u_ops (alter (λ op, (fn op) <| HostUpdate_UpdatedAt := t |>) operationID)).
Definition markHostUpdateOperationRunning (operationID message : string) : U unit :=
  updateHostUpdateOperation operationID (λ op,
    op <| HostUpdate_Status := hostUpdateStatusRunning |>
       <| HostUpdate_Message := message |> <| HostUpdate_Error := EmptyString |>).
Definition updateHostUpdateOperationProgress (operationID : string)
    (machinesStopped machinesFailed : Z) (machinesRestarting : bool) (message : string) : U unit :=
  updateHostUpdateOperation operationID (λ op,
    op <| HostUpdate_MachinesStopped := machinesStopped |>
       <| HostUpdate_MachinesFailed := machinesFailed |>
       <| HostUpdate_MachinesRestarting := machinesRestarting |>
       <| HostUpdate_Message := message |>).
Definition completeHostUpdateOperation (operationID status message errorMessage : string)
    : U unit :=
  let! t := u_now in
  updateHostUpdateOperation operationID (λ op,
    op <| HostUpdate_Status := status |> <| HostUpdate_Message := message |>
       <| HostUpdate_Error := errorMessage |> <| HostUpdate_CompletedAt := Some t |>).

(** ** Waiting for the agent *)

(** The host is ready, and [ok]. *)
Definition host_back (ok : Host → bool) (h : res Host) : bool :=
  match h with
  | Ok host => String.eqb (Host_Status host) "ready" && ok host
  | Err _ => false
  end.
Fixpoint wait_host (ok : Host → bool) (hostID : Z) (rounds : list (Updates → Updates)) : U bool :=
  let! h := try (lift (call (GetHost hostID))) in
  if host_back ok h then ret true
  else
    match rounds with
    | [] => ret false
    | others :: rest => modify others ;; wait_host ok hostID rest
    end.

Definition waitForHostUpdateResult (hostID : Z) (hostName : string) (machinesRestarting : bool)
    (rounds : list (Updates → Updates)) : U (string * string) :=
  let! back := wait_host (λ _, true) hostID rounds in
  ret (if back then
         (hostUpdateStatusSucceeded, hostName +:+ " updated and back online" +:+
            (if machinesRestarting
             then "; stopped machines will restart from pending restart state" else ""))
       else (hostUpdateStatusTimedOut,
             "update triggered but agent has not come back yet; check host status"))%string.
Definition finishHostUpdateOperationAfterWait (operationID : string) (hostID : Z)
    (hostName : string) (machinesStopped machinesFailed : Z) (machinesRestarting : bool)
    (rounds : list (Updates → Updates)) : U unit :=
  updateHostUpdateOperationProgress operationID machinesStopped machinesFailed machinesRestarting
    "waiting for host agent to report ready" ;;
  let! result := waitForHostUpdateResult hostID hostName machinesRestarting rounds in
  completeHostUpdateOperation operationID result.1 result.2 EmptyString.

(** Decoding the capabilities into the struct of browser_storage: the two directories and
    whether reflinks are supported; null leaves a value. *)
Record browser_storage : Type := mkBrowserStorage {
  BrowserStorage_StateDir : string;
  BrowserStorage_BrowserStateDir : string;
  BrowserStorage_ReflinkSupported : bool
}.
#[export] Instance eta_browser_storage : Eta browser_storage := λ r,
  mkBrowserStorage (BrowserStorage_StateDir r) (BrowserStorage_BrowserStateDir r)
    (BrowserStorage_ReflinkSupported r).
Fixpoint decode_browser_storage (cur : browser_storage) (fields : list (string * json))
    : option browser_storage :=
  match fields with
  | [] => Some cur
  | (k, v) :: rest =>
      let text (f : (string → string) → browser_storage → browser_storage) :=
        match v with
        | JStr t => decode_browser_storage (f (λ _, t) cur) rest
        | JNull => decode_browser_storage cur rest
        | _ => None
        end in
      if key_matches "state_dir" k then text (set BrowserStorage_StateDir)
      else if key_matches "browser_state_dir" k then text (set BrowserStorage_BrowserStateDir)
      else if key_matches "reflink_supported" k then
        match v with
        | JBool b => decode_browser_storage (cur <| BrowserStorage_ReflinkSupported := b |>) rest
        | JNull => decode_browser_storage cur rest
        | _ => None
        end
      else decode_browser_storage cur rest
  end.
Fixpoint decode_capabilities (cur : browser_storage) (fields : list (string * json))
    : option browser_storage :=
  match fields with
  | [] => Some cur
  | (k, v) :: rest =>
      if key_matches "browser_storage" k then
        match v with
        | JObj fs => cur' ← decode_browser_storage cur fs; decode_capabilities cur' rest
        | JNull => decode_capabilities cur rest
        | _ => None
        end
      else decode_capabilities cur rest
  end.
Definition hostReportsBrowserStorageReady (expectedStateDir : string) (host : Host) : bool :=
  match Host_Capabilities host with
  | Some (JObj fields) =>
      match decode_capabilities (mkBrowserStorage "" "" false) fields with
      | Some b =>
          let stateDir := if String.eqb (BrowserStorage_BrowserStateDir b) ""
                          then BrowserStorage_StateDir b else BrowserStorage_BrowserStateDir b in
          BrowserStorage_ReflinkSupported b && String.eqb stateDir expectedStateDir
      | None => false
      end
  | _ => false
  end.
Definition waitForBrowserStorageResult (hostID : Z) (hostName mountPoint : string)
    (rounds : list (Updates → Updates)) : U (string * string) :=
  let trimmed := TrimSpace mountPoint in
  let expectedStateDir :=
    if String.eqb trimmed "" then "/var/lib/ocm-browser"%string else trimmed in
  let! ready := wait_host (hostReportsBrowserStorageReady expectedStateDir) hostID rounds in
  ret (if ready then
         (hostUpdateStatusSucceeded, hostName +:+ " browser storage configured and reflink ready")
       else (hostUpdateStatusTimedOut, "browser storage command completed but host has not reported reflink-ready browser storage yet; check host status"))%string.
Definition finishBrowserStorageOperationAfterWait (operationID : string) (hostID : Z)
    (hostName mountPoint : string) (rounds : list (Updates → Updates)) : U unit :=
  updateHostUpdateOperationProgress operationID 0 0 false
    "waiting for host agent to report browser storage ready" ;;
  let! result := waitForBrowserStorageResult hostID hostName mountPoint rounds in
  completeHostUpdateOperation operationID result.1 result.2 EmptyString.

(** ** The jobs *)

(** How a job begins: the operation runs, and it fails unless the host is ready. *)
Definition with_ready_host (operationID : string) (hostID : Z) (message : string)
    (k : Host → U unit) : U unit :=
  markHostUpdateOperationRunning operationID message ;;
  let! h := try (lift (call (GetHost hostID))) in
  match h with
  | Err e =>
      completeHostUpdateOperation operationID hostUpdateStatusFailed "failed to look up host"
        (Error e)
  | Ok host =>
      if String.eqb (Host_Status host) "ready" then k host
      else
        let msg := ("host is not ready (status: " +:+ Host_Status host +:+ ")")%string in
        completeHostUpdateOperation operationID hostUpdateStatusFailed msg msg
  end.

Definition runTriggerHostUpdateOperation (operationID : string) (hostID : Z)
    (rounds : list (Updates → Updates)) : U unit :=
  with_ready_host operationID hostID "triggering host update" (λ host,
  ignore (lift (call (UpdateHostStatusMessage hostID "updating" EmptyString))) ;;
  let! r := try (lift (remote (AgentTriggerUpdate (Host_ID host)))) in
  match r with
  | Err e =>
      completeHostUpdateOperation operationID hostUpdateStatusFailed
        "failed to trigger agent update" (Error e)
  | Ok _ =>
      finishHostUpdateOperationAfterWait operationID hostID (Host_VMName host) 0 0 false rounds
  end).

(** The machines that a host runs. *)
Definition running_on (machines : list Machine) : list Machine :=
  filter (λ m, Machine_Status m = "running"%string) machines.

Section Jobs.
  Context `{GoSchedule}.
  Variable rs : RuntimeService.

(** The goroutines that stop the machines: who is stopped, in the order in which it
    happens, and who is not. *)
Fixpoint stop_each (machines : list Machine) : M (list string * list string) :=
  match machines with
  | [] => ret ([], [])
  | machine :: rest =>
      let! r := try (StopForUpdate rs machine) in
      let! '(stopped, failed) := stop_each rest in
      ret (if is_ok r then (Machine_ID machine :: stopped, failed)
           else (stopped, Machine_ID machine :: failed))
  end.
Definition stop_running (machines : list Machine) : M (list string * list string) :=
  stop_each (schedule (running_on machines)).

(** The status message of a host that is drained: a nil slice is null. *)
Definition pending_message (stoppedIDs : list string) : string :=
  Marshal (JObj [("pending_restarts"%string,
    match stoppedIDs with [] => JNull | _ => JArr (JStr <$> stoppedIDs) end)]).

Definition runDrainHostUpdateOperation (operationID : string) (hostID : Z)
    (rounds : list (Updates → Updates)) : U unit :=
  with_ready_host operationID hostID "draining host before update" (λ host,
  let! ms := try (lift (call (ListMachinesByHost hostID))) in
  match ms with
  | Err e =>
      completeHostUpdateOperation operationID hostUpdateStatusFailed "failed to list machines"
        (Error e)
  | Ok machineList =>
      let! '(stoppedIDs, stopErrors) := lift (stop_running machineList) in
      updateHostUpdateOperationProgress operationID (Z.of_nat (length stoppedIDs))
        (Z.of_nat (length stopErrors)) true "triggering host update" ;;
      ignore (lift (call (UpdateHostStatusMessage hostID "updating"
                            (pending_message stoppedIDs)))) ;;
      ignore (lift (call (SetHostMaintenanceMode hostID true))) ;;
      let! r := try (lift (remote (AgentTriggerUpdate (Host_ID host)))) in
      match r with
      | Err e =>
          completeHostUpdateOperation operationID hostUpdateStatusFailed
            "failed to trigger agent update" (Error e)
      | Ok _ =>
          finishHostUpdateOperationAfterWait operationID hostID (Host_VMName host)
            (Z.of_nat (length stoppedIDs)) (Z.of_nat (length stopErrors)) true rounds
      end
  end).

(** The status message of a host whose storage is configured. *)
Definition storage_message : string :=
  Marshal (JObj [("pending_restarts", JArr []); ("browser_storage", JBool true)]%string).

Definition runConfigureHostBrowserStorageOperation (operationID : string) (hostID : Z)
    (device mountPoint : string) (format : bool) (rounds : list (Updates → Updates)) : U unit :=
  with_ready_host operationID hostID "configuring browser storage" (λ host,
  ignore (lift (call (UpdateHostStatusMessage hostID "updating" storage_message))) ;;
  ignore (lift (call (SetHostMaintenanceMode hostID true))) ;;
  let! r := try (lift (remote (AgentConfigureBrowserStorage (Host_ID host) device mountPoint
                                 format))) in
  match r with
  | Err e =>
      ignore (lift (call (SetHostMaintenanceMode hostID false))) ;;
      ignore (lift (call (UpdateHostStatusMessage hostID "ready" EmptyString))) ;;
      completeHostUpdateOperation operationID hostUpdateStatusFailed
        "failed to configure browser storage" (Error e)
  | Ok _ =>
      finishBrowserStorageOperationAfterWait operationID hostID (Host_VMName host) mountPoint rounds
  end).

(** What a handler starts with [go]. *)
Inductive update_job : Type :=
| TriggerJob (operationID : string) (hostID : Z)
| DrainJob (operationID : string) (hostID : Z)
| StorageJob (operationID : string) (hostID : Z) (device mountPoint : string) (format : bool).
Definition job_operation (j : update_job) : string :=
  match j with TriggerJob op _ | DrainJob op _ | StorageJob op _ _ _ _ => op end.
Definition run_job (j : update_job) (rounds : list (Updates → Updates)) : U unit :=
  match j with
  | TriggerJob op hostID => runTriggerHostUpdateOperation op hostID rounds
  | DrainJob op hostID => runDrainHostUpdateOperation op hostID rounds
  | StorageJob op hostID device mountPoint format =>
      runConfigureHostBrowserStorageOperation op hostID device mountPoint format rounds
  end.
End Jobs.

(** ** The handlers *)

Definition writeHostUpdateOperationAccepted (op : hostUpdateOperation) : M response :=
  writeJSON 202 (JObj [("status", JStr (HostUpdate_Status op));
    ("operation_id", JStr (HostUpdate_ID op));
    ("operation_url", JStr ("/api/admin/host-update-operations/" +:+ HostUpdate_ID op));
    ("operation", host_update_json op)]%string).
(** A response that starts nothing. *)
Definition no_job (m : M response) : U (response * option update_job) :=
  let! r := lift m in ret (r, None).
(** From the host to the answer, as the three handlers do it. *)
Definition start_update (hostID : Z) (kind : string) (job : string → update_job)
    : U (response * option update_job) :=
  let! h := try (lift (call (GetHost hostID))) in
  match h with
  | Err _ => no_job (writeError 404 "host not found")
  | Ok host =>
      if negb (String.eqb (Host_Status host) "ready") then
        no_job (writeError 409 ("host is not ready (status: " +:+ Host_Status host +:+ ")"))
      else
        let! c := try (createHostUpdateOperation host kind) in
        match c with
        | Err e =>
            no_job (if bool_decide (e = errHostUpdateOperationActive)
                    then writeError 409 "host update already in progress"
                    else writeError 500 (Error e))
        | Ok op =>
            let! r := lift (writeHostUpdateOperationAccepted op) in
            ret (r, Some (job (HostUpdate_ID op)))
        end
  end.
(** [parseIntParam]. *)
Definition with_host_id (hostId : string) (k : Z → U (response * option update_job))
    : U (response * option update_job) :=
  match Sscanf_d hostId with
  | Some hostID => k hostID
  | None => no_job (writeError 400 "invalid host id")
  end.
Definition handleTriggerHostUpdate (hostId : string) : U (response * option update_job) :=
  with_host_id hostId (λ hostID,
  start_update hostID hostUpdateKindTrigger (λ op, TriggerJob op hostID)).
Definition handleDrainHostUpdate (hostId : string) : U (response * option update_job) :=
  with_host_id hostId (λ hostID,
  start_update hostID hostUpdateKindDrain (λ op, DrainJob op hostID)).
Record storage_body : Type := mkStorageBody {
  StorageBody_Device : string;
  StorageBody_MountPoint : string;
  StorageBody_Format : bool
}.
Definition handleConfigureHostBrowserStorage (hostId : string) (body : option storage_body)
    : U (response * option update_job) :=
  with_host_id hostId (λ hostID,
  match body with
  | None => no_job (writeError 400 "invalid request body")
  | Some req =>
      let device := TrimSpace (StorageBody_Device req) in
      let mountPoint := TrimSpace (StorageBody_MountPoint req) in
      if String.eqb device "" then no_job (writeError 400 "device is required")
      else start_update hostID hostUpdateKindStorage (λ op,
             StorageJob op hostID device mountPoint (StorageBody_Format req))
  end).
Definition handleGetHostUpdateOperation (operationID : string) : U response :=
  if String.eqb operationID "" then lift (writeError 400 "missing operation id")
  else
    let! op := getHostUpdateOperation operationID in
    match op with
    | None => lift (writeError 404 "operation not found")
    | Some op => lift (writeJSON 200 (host_update_json op))
    end.

(** The routes: for superusers. *)
Inductive update_request : Type :=
| PostTriggerUpdate (hostId : string)
| PostDrainUpdate (hostId : string)
| PostConfigureBrowserStorage (hostId : string) (body : option storage_body)
| GetUpdateOperation (operationId : string).
Definition serve_update (s : Server) (claims : option Claims) (r : update_request)
    : U (response * option update_job) :=
  if isSuperuser s claims then
    match r with
    | PostTriggerUpdate hostId => handleTriggerHostUpdate hostId
    | PostDrainUpdate hostId => handleDrainHostUpdate hostId
    | PostConfigureBrowserStorage hostId body => handleConfigureHostBrowserStorage hostId body
    | GetUpdateOperation operationId =>
        let! resp := handleGetHostUpdateOperation operationId in ret (resp, None)
    end
  else no_job (writeError 403 "admin access required").
