(* ===== verification/HostUpdatesSpec.v ===== *)
(** * What updates of hosts guarantee

    The operations of the server's memory: one at a time per host, each ended by its
    job with a result that is true of the database; and the machines that a drain
    stops are those that the host's next heartbeat hands to the restart. *)

From S2P Require Import Prelude Schema HostStore PlacementStore World Fleet FleetLemmas.
From S2P Require Import GoStrings Json JsonSpec Versions Routing Runtime RuntimeLemmas.
From S2P Require Import StoreStep AccountInv TableInv Scenario RuntimeSpec.
From S2P Require Import Api Members BrowserVMs Agents AgentsSpec HostUpdates.

(** ** Operations *)

Abbreviation active op := (isActiveHostUpdateOperationStatus (HostUpdate_Status op)).
(** At most one active operation per host. *)
Definition exclusive (u : Updates) : Prop := ∀ i j a b,
  u_ops u !! i = Some a → u_ops u !! j = Some b → active a = true → active b = true →
  HostUpdate_HostID a = HostUpdate_HostID b → i = j.
(** The operation [id] is active, on the host. *)
Definition runs (id : string) (hostID : Z) (u : Updates) : Prop :=
  ∃ op, u_ops u !! id = Some op ∧ active op = true ∧ HostUpdate_HostID op = hostID.

(** *** Jobs

    [leads P m Q]: from [P] the run of [m] succeeds, whatever calls fail, and reaches [Q]. *)
Definition leads {A} (P : Updates → Prop) (m : U A) (Q : Updates → Prop) : Prop :=
  ∀ u, P u → is_ok (m u).1 = true ∧ Q (m u).2.
Lemma leads_bind {A B} P P' Q (m : U A) (k : A → U B) :
  leads P m P' → (∀ a, leads P' (k a) Q) → leads P (bind m k) Q.
Proof.
  intros Hm Hk u Hu. unfold bind. destruct (Hm u Hu) as [Ho H].
  destruct (m u) as [[a|e] u1]; [|done]. by apply Hk.
Qed.
Lemma leads_try {A B} P P' Q (m : U A) (k : res A → U B) :
  steps (λ u u', P u → P' u') m → (∀ r, leads P' (k r) Q) → leads P (bind (try m) k) Q.
Proof. intros Hm Hk u Hu. rewrite bind_try. apply Hk, Hm, Hu. Qed.
Lemma leads_ignore {A B} P P' Q (m : U A) (k : unit → U B) :
  steps (λ u u', P u → P' u') m → (∀ r, leads P' (k r) Q) → leads P (bind (ignore m) k) Q.
Proof. intros Hm Hk u Hu. rewrite bind_ignore. apply Hk, Hm, Hu. Qed.

(** What identifies an operation. *)
Definition op_identity (op : hostUpdateOperation) :=
  (HostUpdate_ID op, HostUpdate_HostID op, HostUpdate_HostName op, HostUpdate_Kind op,
   HostUpdate_CreatedAt op).
Definition with_status (f : hostUpdateOperation → hostUpdateOperation) (status : string) : Prop :=
  ∀ op, op_identity (f op) = op_identity op ∧ HostUpdate_Status (f op) = status.
Definition final_status (status : string) : bool :=
  one_of [hostUpdateStatusSucceeded; hostUpdateStatusTimedOut; hostUpdateStatusFailed] status.
(** The host of the job is ready, as the job wants it. *)
Definition job_host (j : update_job) : Z :=
  match j with TriggerJob _ h | DrainJob _ h | StorageJob _ h _ _ _ => h end.
Definition job_wants (j : update_job) : Host → bool :=
  match j with
  | StorageJob _ _ _ mountPoint _ =>
      hostReportsBrowserStorageReady
        (if String.eqb (TrimSpace mountPoint) "" then "/var/lib/ocm-browser"%string
         else TrimSpace mountPoint)
  | _ => λ _, true
  end.
Definition host_is_back (j : update_job) (u : Updates) : Prop :=
  ∃ host, (GetHost (job_host j) (w_db (u_world u))).1 = Ok host ∧
    host_back (job_wants j) (Ok host) = true.

Definition set_op (id : string) (f : hostUpdateOperation → hostUpdateOperation) (u : Updates)
    : Updates := u <| u_ops ::= alter f id |>.

(** The predicates on states that a run of the job goes through: before it, while the
    operation runs, and after it. *)
Record job_phases (j : update_job) (rounds : list (Updates → Updates))
    (P0 P Q : Updates → Prop) : Prop := mkJobPhases {
  phase_world : ∀ u w, P u → P (u <| u_world := w |>);
  phase_mark : ∀ f u, with_status f hostUpdateStatusRunning → P0 u →
    P (set_op (job_operation j) f u);
  phase_progress : ∀ f u,
    (∀ op, op_identity (f op) = op_identity op ∧ HostUpdate_Status (f op) = HostUpdate_Status op) →
    P u → P (set_op (job_operation j) f u);
  phase_rounds : Forall (λ f, ∀ u, P u → P (f u)) rounds;
  phase_end : ∀ f u status,
    with_status f status → (∀ op, HostUpdate_CompletedAt (f op) ≠ None) →
    final_status status = true → (status = hostUpdateStatusSucceeded → host_is_back j u) →
    P u → Q (set_op (job_operation j) f u)
}.

Section Job.
Context (j : update_job) (rounds : list (Updates → Updates)) (P0 P Q : Updates → Prop).
Hypothesis Hj : job_phases j rounds P0 P Q.
Abbreviation id := (job_operation j).

Lemma steps_lift {A} (m : M A) : steps (λ u u', P u → P u') (lift m).
Proof. intros u Hu. unfold lift. destruct (m (u_world u)). by apply Hj. Qed.
Lemma update_run fn u :
  updateHostUpdateOperation id fn u =
    (Ok tt, set_op id (λ op, (fn op) <| HostUpdate_UpdatedAt := db_now (w_db (u_world u)) |>) u).
Proof. unfold updateHostUpdateOperation, bind, u_now, lift, modify, gets. by destruct u. Qed.
Lemma leads_mark msg : leads P0 (markHostUpdateOperationRunning id msg) P.
Proof. intros u Hu. unfold markHostUpdateOperationRunning. rewrite update_run. by split; [|apply (phase_mark _ _ _ _ _ Hj)]. Qed.
Lemma leads_progress stopped failed restarting msg :
  leads P (updateHostUpdateOperationProgress id stopped failed restarting msg) P.
Proof.
  intros u Hu. unfold updateHostUpdateOperationProgress. rewrite update_run.
  by split; [|apply (phase_progress _ _ _ _ _ Hj)].
Qed.
Lemma complete_job status msg err u :
  final_status status = true → (status = hostUpdateStatusSucceeded → host_is_back j u) → P u →
  is_ok (completeHostUpdateOperation id status msg err u).1 = true ∧
  Q (completeHostUpdateOperation id status msg err u).2.
Proof.
  intros Hs Hb Hu. unfold completeHostUpdateOperation, bind at 1, u_now, lift, gets. cbn [fst snd].
  destruct u as [w ops]. cbn [u_world]. rewrite update_run. split; [done|].
  apply (phase_end _ _ _ _ _ Hj _ _ status); [|done..|]; [by split|exact Hu].
Qed.
Lemma leads_failed msg err :
  leads P (completeHostUpdateOperation id hostUpdateStatusFailed msg err) Q.
Proof. intros u Hu. by apply complete_job. Qed.

(** The polls: what is waited for holds when they end with it. *)
Lemma wait_host_run u :
  P u → let '(r, u') := wait_host (job_wants j) (job_host j) rounds u in
  P u' ∧ ∃ b, r = Ok b ∧ (b = true → host_is_back j u').
Proof.
  pose proof (phase_world _ _ _ _ _ Hj) as Hl. pose proof (phase_rounds _ _ _ _ _ Hj) as Hr.
  clear Hj. revert u. induction rounds as [|f fs IH]; intros u Hu; cbn [wait_host];
    rewrite bind_try; unfold lift; pose proof (call_db (GetHost (job_host j)) (u_world u)) as Hc;
    destruct (call (GetHost (job_host j)) (u_world u)) as [r w]; cbn [fst snd].
  all: pose proof (Hl u w Hu) as Hu1.
  all: destruct (host_back (job_wants j) r) eqn:Eb.
  1,3: split; [done|]; exists true; split; [done|]; intros _; destruct r as [host|]; [|done];
    exists host; split; [|done]; destruct Hc as [[Hh Hd]|[? _]]; [|done];
    change (w_db w = (GetHost (job_host j) (w_db (u_world u))).2) in Hd;
    rewrite GetHost_db in Hd; cbn [u_world set]; congruence.
  - split; [done|]. by exists false.
  - apply Forall_cons in Hr as [Hf Hfs]. unfold bind, modify. apply IH; auto.
Qed.
Lemma leads_wait (message : bool → string * string) :
  (∀ b, final_status (message b).1 = true ∧
        ((message b).1 = hostUpdateStatusSucceeded → b = true)) →
  leads P (let! result := (let! back := wait_host (job_wants j) (job_host j) rounds in
                           ret (message back)) in
           completeHostUpdateOperation id result.1 result.2 EmptyString) Q.
Proof.
  intros Hm u Hu. pose proof (wait_host_run u Hu) as Hw. unfold bind in *.
  destruct (wait_host _ _ _ u) as [r u1]. destruct Hw as (Hu1 & b & -> & Hb). cbn [ret].
  destruct (Hm b) as [Hf Hs]. apply complete_job; auto.
Qed.
Lemma leads_ready msg (k : Host → U unit) :
  (∀ host, leads P (k host) Q) → leads P0 (with_ready_host id (job_host j) msg k) Q.
Proof.
  intros Hk. apply (leads_bind _ P); [apply leads_mark|intros _].
  apply (leads_try _ P); [apply steps_lift|]. intros [host|e]; [|apply leads_failed].
  destruct (String.eqb (Host_Status host) "ready"); [apply Hk|apply leads_failed].
Qed.
End Job.

Ltac leads_step Hj :=
  match goal with
  | |- leads _ (finishHostUpdateOperationAfterWait _ _ _ _ _ _ _) _ =>
      eapply leads_bind; [apply (leads_progress _ _ _ _ _ Hj)|intros _; cbn beta iota]
  | |- leads _ (finishBrowserStorageOperationAfterWait _ _ _ _ _) _ =>
      eapply leads_bind; [apply (leads_progress _ _ _ _ _ Hj)|intros _; cbn beta iota]
  | |- leads _ (let! result := _ in completeHostUpdateOperation _ _ _ _) _ =>
      eapply (leads_wait _ _ _ _ _ Hj)
  | |- leads _ (bind (try _) _) _ =>
      eapply leads_try; [apply (steps_lift _ _ _ _ _ Hj)|intros [?|?]; cbn beta iota]
  | |- leads _ (bind (ignore _) _) _ =>
      eapply leads_ignore; [apply (steps_lift _ _ _ _ _ Hj)|intros _; cbn beta iota]
  | |- leads _ (completeHostUpdateOperation _ _ _ _) _ => apply (leads_failed _ _ _ _ _ Hj)
  | |- leads _ (bind (updateHostUpdateOperationProgress _ _ _ _ _) _) _ =>
      eapply leads_bind; [apply (leads_progress _ _ _ _ _ Hj)|intros _; cbn beta iota]
  end.

Lemma stop_each_returns rs machines : returns (stop_each rs machines).
Proof.
  induction machines as [|m ms IH]; [done|]. cbn [stop_each]. apply returns_try. intros r.
  apply returns_bind; [done|]. by intros [].
Qed.
Lemma job_leads `{GoSchedule} rs j rounds P0 P Q :
  job_phases j rounds P0 P Q → leads P0 (run_job rs j rounds) Q.
Proof.
  intros Hj. destruct j as [op h|op h|op h device mountPoint format]; cbn [run_job];
    apply (leads_ready _ _ _ _ _ Hj); intros host.
  - repeat leads_step Hj. intros []; split; done.
  - leads_step Hj; [|leads_step Hj]. apply (leads_bind _ P).
    { intros u Hu. split; [|by apply (steps_lift _ _ _ _ _ Hj)]. unfold lift.
      pose proof (stop_each_returns rs (schedule (running_on a)) (u_world u)) as Hr.
      unfold stop_running. by destruct (stop_each _ _ _). }
    intros [stopped failed]. repeat leads_step Hj. intros []; split; done.
  - repeat leads_step Hj. intros []; split; done.
Qed.

(** The entry of another operation, through a job. *)
Definition leaves_entry (k : string) (f : Updates → Updates) : Prop :=
  ∀ v, u_ops (f v) !! k = u_ops v !! k.
Lemma job_frame `{GoSchedule} rs j rounds k x :
  k ≠ job_operation j → Forall (leaves_entry k) rounds →
  leads (λ u, u_ops u !! k = x) (run_job rs j rounds) (λ u, u_ops u !! k = x).
Proof.
  intros Hk Hr. apply job_leads with (P := λ u, u_ops u !! k = x). split.
  1: done.
  1,2,4: intros f u; intros; cbn; by rewrite lookup_alter_ne.
  eapply Forall_impl; [exact Hr|]. intros f Hf u. by rewrite Hf.
Qed.

(** The operation is ended, with a result that is true. *)
Definition settled (j : update_job) (op : hostUpdateOperation) (u : Updates) : Prop :=
  ∃ op', u_ops u !! job_operation j = Some op' ∧ op_identity op' = op_identity op ∧
    final_status (HostUpdate_Status op') = true ∧ HostUpdate_CompletedAt op' ≠ None ∧
    (HostUpdate_Status op' = hostUpdateStatusSucceeded → host_is_back j u).
Lemma job_settles `{GoSchedule} rs j rounds op :
  Forall (leaves_entry (job_operation j)) rounds →
  let P u := ∃ op0, u_ops u !! job_operation j = Some op0 ∧ op_identity op0 = op_identity op in
  leads P (run_job rs j rounds) (settled j op).
Proof.
  intros Hr P. apply job_leads with (P := P). unfold P. split.
  - done.
  - intros f u Hf (op0 & E & Ei). exists (f op0). cbn. rewrite lookup_alter_eq, E.
    split; [done|]. rewrite <-Ei. apply Hf.
  - intros f u Hf (op0 & E & Ei). exists (f op0). cbn. rewrite lookup_alter_eq, E.
    split; [done|]. rewrite <-Ei. apply Hf.
  - eapply Forall_impl; [exact Hr|]. intros f Hf u. by rewrite Hf.
  - intros f u status Hf Hc Hs Hb (op0 & E & Ei). exists (f op0). cbn. rewrite lookup_alter_eq, E.
    destruct (Hf op0) as [Hi Hst]. split; [done|]. rewrite Hi, Hst. by repeat split.
Qed.

(** C22: every update of a host ends: whatever calls fail and whatever else happens between
    its polls, the job of an operation returns with the operation succeeded, timed out or
    failed and its completion time set; it succeeded only when the last poll has seen the
    host ready (and, for browser storage, reporting the directory as reflink-ready); the
    job leaves every other operation alone. *)
Theorem host_updates_settle `{GoSchedule} (rs : RuntimeService) (j : update_job)
    (rounds : list (Updates → Updates)) (op : hostUpdateOperation) (u : Updates) :
  u_ops u !! job_operation j = Some op → Forall (leaves_entry (job_operation j)) rounds →
  let '(r, u') := run_job rs j rounds u in
  r = Ok tt ∧ settled j op u' ∧
  ∀ k, k ≠ job_operation j → Forall (leaves_entry k) rounds → u_ops u' !! k = u_ops u !! k.
Proof.
  intros Ho Hr. destruct (job_settles rs j rounds op Hr u) as [Hok Hs]; [by exists op|].
  pose proof (λ k Hk Hf, job_frame rs j rounds k (u_ops u !! k) Hk Hf u eq_refl) as Hk.
  destruct (run_job rs j rounds u) as [[[]|] u']; [|done]. split; [done|]. split; [done|].
  intros k Hne Hf. by apply Hk.
Qed.

(** *** One operation at a time *)

Lemma exclusive_set id f u :
  exclusive u →
  (∀ op, u_ops u !! id = Some op → HostUpdate_HostID (f op) = HostUpdate_HostID op ∧
     (active (f op) = true → active op = true)) →
  exclusive (set_op id f u).
Proof.
  intros He Hf.
  assert (∀ i a, u_ops (set_op id f u) !! i = Some a → active a = true →
    ∃ a0, u_ops u !! i = Some a0 ∧ active a0 = true ∧ HostUpdate_HostID a0 = HostUpdate_HostID a)
    as Hback.
  { intros i a. cbn. rewrite lookup_alter. case_decide as Hi; [subst i|intros E Ha; by exists a].
    intros (a0 & E & ->)%fmap_Some Ha. destruct (Hf a0 E) as [Hh Hact]. exists a0. auto. }
  intros i k a b Ei Ek Ha Hb Hab.
  destruct (Hback i a Ei Ha) as (a0 & Ea & Ha0 & Hha). destruct (Hback k b Ek Hb) as (b0 & Eb & Hb0 & Hhb).
  eapply He; eauto. congruence.
Qed.
Lemma identity_host f op : op_identity (f op) = op_identity op →
  HostUpdate_HostID (f op) = HostUpdate_HostID op.
Proof. unfold op_identity. congruence. Qed.

(** What the rest of the server does to the operations while a job waits. *)
Definition rely (id : string) (f : Updates → Updates) : Prop :=
  leaves_entry id f ∧ ∀ v, exclusive v → exclusive (f v).
Lemma job_exclusive `{GoSchedule} rs j rounds :
  Forall (rely (job_operation j)) rounds →
  leads (λ u, exclusive u ∧ ∃ h, runs (job_operation j) h u) (run_job rs j rounds) exclusive.
Proof.
  intros Hr. apply job_leads with (P := λ u, exclusive u ∧ ∃ h, runs (job_operation j) h u).
  assert (∀ f u, (∀ op, op_identity (f op) = op_identity op ∧ (active op = true → active (f op) = true)) →
    exclusive u ∧ (∃ h, runs (job_operation j) h u) →
    exclusive (set_op (job_operation j) f u) ∧
    ∃ h, runs (job_operation j) h (set_op (job_operation j) f u)) as Hstep.
  { intros f u Hf [He (h & op & Eo & Ha & Hh)]. destruct (Hf op) as [Hi Hact]. split.
    - apply exclusive_set; [done|]. intros op' E. assert (op' = op) as -> by congruence.
      split; [by apply identity_host|done].
    - exists h, (f op). cbn. rewrite lookup_alter_eq, Eo. split; [done|].
      split; [auto|]. by rewrite (identity_host f op Hi). }
  split.
  - done.
  - intros f u Hf. apply Hstep. intros op. destruct (Hf op) as [Hi Hs]. split; [done|].
    intros _. by rewrite Hs.
  - intros f u Hf. apply Hstep. intros op. destruct (Hf op) as [Hi Hs]. split; [done|]. by rewrite Hs.
  - eapply Forall_impl; [exact Hr|]. intros f [Hf He] u [Hu (h & op & E & Hop)].
    split; [by apply He|]. exists h, op. by rewrite Hf.
  - intros f u status Hf _ Hfin _ [He _]. apply exclusive_set; [done|]. intros op _.
    destruct (Hf op) as [Hi Hs]. split; [by apply identity_host|]. rewrite Hs. intros Ha. exfalso.
    apply bool_decide_eq_true in Hfin. rewrite !elem_of_cons, elem_of_nil in Hfin.
    by destruct Hfin as [->|[->|[->|[]]]].
Qed.

(** What a request does to the operations: nothing, or it adds the operation of a job. *)
Definition started (u : Updates) (j : update_job) (u' : Updates) : Prop :=
  ∃ op, u_ops u !! job_operation j = None ∧ u_ops u' = <[job_operation j := op]> (u_ops u) ∧
    HostUpdate_Status op = hostUpdateStatusQueued ∧ HostUpdate_HostID op = job_host j ∧
    ∀ k a, u_ops u !! k = Some a → active a = true → HostUpdate_HostID a ≠ job_host j.
Definition request_result (u : Updates) (out : res (response * option update_job)) (u' : Updates)
    : Prop :=
  match out with
  | Ok (resp, Some j) => response_status resp = 202 ∧ started u j u'
  | _ => u_ops u' = u_ops u
  end.

Lemma started_exclusive u j u' : exclusive u → started u j u' → exclusive u'.
Proof.
  intros He (op & Hn & E & Hs & Hh & Hno) i k a b. rewrite E, !lookup_insert_Some.
  intros [[<- <-]|[Hi Ei]] [[<- <-]|[Hk Ek]] Ha Hb Hab; [done| | |by eapply He].
  - destruct (Hno k b Ek Hb). congruence.
  - destruct (Hno i a Ei Ha). congruence.
Qed.
Lemma lift_ops {A} (m : M A) u : u_ops (lift m u).2 = u_ops u.
Proof. unfold lift. by destruct (m (u_world u)). Qed.
Lemma no_job_result m u u1 : u_ops u1 = u_ops u →
  let '(out, u') := no_job m u1 in request_result u out u'.
Proof.
  intros E. pose proof (lift_ops m u1) as Hl. unfold no_job, bind in *.
  destruct (lift m u1) as [[r|e] u2]; cbn in *; congruence.
Qed.

Lemma allocate_run n op u :
  let '(r, u') := allocate n op u in
  match r with
  | Ok o => ∃ id, o = op id ∧ u_ops u !! id = None ∧ u_ops u' = <[id := op id]> (u_ops u)
  | Err _ => u_ops u' = u_ops u
  end.
Proof.
  revert u. induction n as [|n IH]; intros u; [done|]. cbn [allocate].
  pose proof (lift_ops generateShortID u) as Hl. unfold bind at 1.
  destruct (lift generateShortID u) as [[short|e] u1]; [|done]. cbn [fst snd] in *.
  rewrite bind_gets. destruct (u_ops u1 !! _) eqn:Eo; cbn [is_some_b].
  - specialize (IH u1). destruct (allocate n op u1) as [r u2]. by rewrite Hl in IH.
  - cbn. rewrite <-Hl. by eexists.
Qed.
Lemma create_run host kind u :
  let '(r, u') := createHostUpdateOperation host kind u in
  match r with
  | Ok o => u_ops u !! HostUpdate_ID o = None ∧ u_ops u' = <[HostUpdate_ID o := o]> (u_ops u) ∧
      HostUpdate_Status o = hostUpdateStatusQueued ∧ HostUpdate_HostID o = Host_ID host ∧
      ∀ k a, u_ops u !! k = Some a → active a = true → HostUpdate_HostID a ≠ Host_ID host
  | Err _ => u_ops u' = u_ops u
  end.
Proof.
  unfold createHostUpdateOperation, bind at 1, u_now, lift, gets. cbn [fst snd].
  change (u <| u_world := u_world u |>) with (mkUpdates (u_world u) (u_ops u)).
  unfold bind at 1. cbn [u_ops]. case_bool_decide as Hn; [|done].
  pose proof (allocate_run 5 (λ id, mkHostUpdateOperation id (Host_ID host) (Host_VMName host) kind
    hostUpdateStatusQueued 0 0 false "" "" (db_now (w_db (u_world u))) (db_now (w_db (u_world u)))
    None) (mkUpdates (u_world u) (u_ops u))) as Ha.
  destruct (allocate _ _ _) as [[o|e] u1]; [|done]. destruct Ha as (id & -> & Hnone & E).
  cbn in Hnone, E |- *. repeat split; [done|done|]. intros k a Ek Hact Hh.
  apply (select_nil (active_on (Host_ID host)) (u_ops u)) with (k := k) (v := a) in Hn; [|done].
  unfold active_on in Hn. by rewrite bool_decide_eq_true_2, Hact in Hn.
Qed.

Lemma start_result hostID kind job u :
  keyed Host_ID (db_hosts (w_db (u_world u))) →
  (∀ id, job_operation (job id) = id ∧ job_host (job id) = hostID) →
  let '(out, u') := start_update hostID kind job u in request_result u out u'.
Proof.
  intros Hk Hj. unfold start_update. rewrite bind_try.
  pose proof (call_read (GetHost hostID) (u_world u) (GetHost_db hostID)) as [_ Hr].
  pose proof (lift_ops (call (GetHost hostID)) u) as Hl.
  assert ((lift (call (GetHost hostID)) u).1 = (call (GetHost hostID) (u_world u)).1) as E1.
  { unfold lift. by destruct (call (GetHost hostID) (u_world u)). }
  rewrite <-E1 in Hr. destruct (lift (call (GetHost hostID)) u) as [r u1]. cbn [fst snd] in *.
  destruct r as [host|e]; [|by apply no_job_result].
  destruct (negb _); [by apply no_job_result|]. rewrite bind_try.
  pose proof (create_run host kind u1) as Hc.
  destruct (createHostUpdateOperation host kind u1) as [[o|e] u2]; cbn [fst snd];
    [|apply no_job_result; congruence].
  assert (Host_ID host = hostID) as Hid.
  { rewrite GetHost_run in Hr. destruct Hr as [Hr|[Hr _]]; [|done]. cbn [fst] in Hr.
    destruct (db_hosts (w_db (u_world u)) !! hostID) as [h0|] eqn:Eh; [|done].
    injection Hr as ->. exact (Hk _ _ Eh). }
  rewrite Hl, Hid in Hc. unfold bind, lift, writeHostUpdateOperationAccepted, writeJSON, ret.
  destruct (Hj (HostUpdate_ID o)) as [Ej Eh]. destruct u2 as [w2 ops2]. cbn. split; [done|].
  exists o. rewrite Ej, Eh. cbn in Hc. by destruct Hc as (?&?&?&?&?).
Qed.

Lemma with_host_id_result hostId k u :
  (∀ hostID, let '(out, u') := k hostID u in request_result u out u') →
  let '(out, u') := with_host_id hostId k u in request_result u out u'.
Proof. intros Hk. unfold with_host_id. destruct (Sscanf_d hostId); [apply Hk|by apply no_job_result]. Qed.

(** C21: the operations on a host exclude each other: a request to update a host or to
    configure its storage is accepted, with an operation that waits for its job, only when
    no operation of the host is active; any other answer changes no operation; and the job
    of an operation keeps, with everything that respects it between its polls, that every
    host has at most one active operation. *)
Theorem host_updates_exclusive `{GoSchedule} (rs : RuntimeService) (s : Server)
    (claims : option Claims) (r : update_request) (u : Updates) :
  exclusive u → keyed Host_ID (db_hosts (w_db (u_world u))) →
  let '(out, u') := serve_update s claims r u in
  request_result u out u' ∧ exclusive u' ∧
  ∀ j rounds v, exclusive v → (∃ hostID, runs (job_operation j) hostID v) →
    Forall (rely (job_operation j)) rounds → exclusive (run_job rs j rounds v).2.
Proof.
  intros He Hk.
  assert (let '(out, u') := serve_update s claims r u in request_result u out u') as Hr.
  { unfold serve_update. destruct (isSuperuser s claims); [|by apply no_job_result].
    destruct r as [hostId|hostId|hostId body|opid].
    1,2: apply with_host_id_result; intros hostID; by apply start_result.
    - apply with_host_id_result. intros hostID. destruct body as [req|]; [|by apply no_job_result].
      cbv zeta. destruct (String.eqb _ ""); [by apply no_job_result|by apply start_result].
    - unfold handleGetHostUpdateOperation. destruct (String.eqb opid ""); [by apply no_job_result|].
      unfold getHostUpdateOperation. unfold bind at 1. rewrite bind_gets.
      destruct (u_ops u !! opid); by apply no_job_result. }
  destruct (serve_update s claims r u) as [out u']. split; [done|]. split.
  - unfold request_result in Hr. destruct out as [[resp [j|]]|e]; unfold exclusive in *;
      [|by rewrite Hr..]. destruct Hr as [_ Hs]. by apply (started_exclusive u j).
  - intros j rounds v Hv Hruns Hrounds. by apply job_exclusive.
Qed.

(** ** Draining *)

Lemma NoDup_fmap_filter {A B} (f : A → B) (P : A → Prop) `{∀ x, Decision (P x)} l :
  NoDup (f <$> l) → NoDup (f <$> filter P l).
Proof.
  induction l as [|x l IH]; [done|]. rewrite filter_cons. cbn [fmap list_fmap].
  rewrite NoDup_cons. intros [Hx Hd]. case_decide; [|auto]. cbn [fmap list_fmap].
  rewrite NoDup_cons. split; [|auto]. intros Hin. apply Hx.
  apply list_elem_of_fmap in Hin as (y & -> & Hy). apply list_elem_of_filter in Hy as [_ Hy].
  by apply list_elem_of_fmap_2.
Qed.
Lemma NoDup_select {K V} `{Countable K} (key : V → K) (p : V → bool) (t : gmap K V) :
  keyed key t → NoDup (key <$> select p t).
Proof.
  intros Hk. unfold select.
  assert (∀ l, List.filter p l = filter (λ v, Is_true (p v)) l) as ->.
  { induction l as [|x l IH]; [done|]. cbn [List.filter]. rewrite filter_cons, IH.
    case_decide as Hp; destruct (p x); done. }
  apply NoDup_fmap_filter.
  replace (key <$> (map_to_list t).*2) with (map_to_list t).*1; [apply NoDup_fst_map_to_list|].
  rewrite <-list_fmap_compose. apply list_fmap_ext. intros i [k v] E.
  apply list_elem_of_lookup_2, elem_of_map_to_list in E. symmetry. by apply Hk.
Qed.

(** The restart list survives its way through the status message. *)
Lemma pending_read ids : pending_restarts (pending_message ids) = ids.
Proof.
  unfold pending_restarts, pending_message. rewrite Unmarshal_Marshal.
  - assert (mapM string_element (JStr <$> ids) = Some ids) as E.
    { induction ids as [|i ids IH]; [done|]. cbn. cbn in IH. by rewrite IH. }
    destruct ids as [|i ids]; [reflexivity|]. cbn [strings_field].
    change (EqualFold "pending_restarts" "pending_restarts") with true. cbn iota. by rewrite E.
  - cbn. destruct ids as [|i ids]; [done|]. cbn. by induction ids.
Qed.

(** Where a machine is. *)
Definition seat (db : DB) (id : string) :=
  (λ m, (Machine_Status m, Machine_HostID m, Machine_VMIP m)) <$> db_machines db !! id.
(** What a stop leaves of a host: everything but its counters. *)
Definition host_facts (db : DB) (id : Z) :=
  (λ h, (host_state h, Host_AgentToken h)) <$> db_hosts db !! id.

Section Drain.
Context `{GoSchedule} (rs : RuntimeService) (hostID : Z).

Lemma stop_vm_free m w :
  fault_free w → Machine_HostID m = Some hostID → is_Some (db_hosts (w_db w) !! hostID) →
  ∃ w1, stop_vm rs m true w = (Ok tt, w1) ∧ w_db w1 = w_db w ∧ fault_free w1.
Proof.
  intros Hf Hm [h Hh]. unfold stop_vm. rewrite Hm. destruct (rs_agentClient rs); cbn [when];
    [|by exists w].
  rewrite bind_try, call_free, GetHost_run, Hh by done. cbn [fst snd].
  rewrite bind_try, remote_free by done. cbn [fst snd]. by eexists.
Qed.
Lemma StopForUpdate_run m m0 w :
  fault_free w → Machine_HostID m = Some hostID → is_Some (db_hosts (w_db w) !! hostID) →
  db_machines (w_db w) !! Machine_ID m = Some m0 → Machine_HostID m0 = Some hostID →
  ∃ w', StopForUpdate rs m w = (Ok tt, w') ∧ fault_free w' ∧
    (∀ id, host_facts (w_db w') id = host_facts (w_db w) id) ∧
    seat (w_db w') (Machine_ID m) = Some ("stopped"%string, Some hostID, Machine_VMIP m0) ∧
    ∀ id, id ≠ Machine_ID m → seat (w_db w') id = seat (w_db w) id.
Proof.
  intros Hf Hm Hh Hm0 Hh0. destruct (stop_vm_free m w Hf Hm Hh) as (w1 & E1 & Ed & Hf1).
  unfold StopForUpdate. rewrite (bind_eq_ok _ _ _ _ _ E1). rewrite <-Ed in *.
  pose proof (Release_soft_run (rs_placement rs) (Machine_ID m) w1 m0 hostID Hf1 Hm0 Hh0) as E2.
  cbv zeta in E2. match type of E2 with context [UpdateMachineHomeHost _ _ ?d] =>
    pose proof (UpdateMachineHomeHost_frame (Machine_ID m) (Some hostID) d) as (Eh & _ & _ & Em);
    set (db2 := (UpdateMachineHomeHost (Machine_ID m) (Some hostID) d).2) in * end.
  unfold bind at 1. unfold wrap at 1. rewrite E2. unfold wrap. rewrite call_free by done.
  eexists. split; [reflexivity|]. split; [exact Hf1|]. cbn.
  assert (∀ id, seat (db2 <| db_machines ::= alter (machine_set_status (db_now db2) "stopped" None)
    (Machine_ID m) |>) id = if decide (id = Machine_ID m)
      then Some ("stopped"%string, Some hostID, Machine_VMIP m0) else seat (w_db w1) id) as Hs.
  { intros id. specialize (Em id). unfold seat. cbn in Em |- *. rewrite lookup_alter.
    rewrite lookup_alter in Em. destruct (decide (id = Machine_ID m)) as [->|Hne].
    - rewrite decide_True in * by done. rewrite Hm0 in Em. cbn in Em.
      destruct (db_machines db2 !! Machine_ID m) as [m2|]; [|done]. cbn in Em |- *.
      injection Em as _ Ehost Eip. by rewrite Ehost, Eip, Hh0.
    - rewrite !decide_False in * by done. exact Em. }
  split; [|split].
  - intros id. unfold host_facts. cbn. rewrite Eh. cbn. rewrite lookup_alter.
    case_decide as Hid; [subst id|done]. by destruct (db_hosts (w_db w1) !! hostID).
  - rewrite Hs. by rewrite decide_True.
  - intros id Hne. rewrite Hs. by rewrite decide_False.
Qed.

Definition stopped_seat (m : Machine) := ("stopped"%string, Some hostID, Machine_VMIP m).
Lemma stop_each_run ms w :
  fault_free w → is_Some (db_hosts (w_db w) !! hostID) → NoDup (Machine_ID <$> ms) →
  (∀ m, m ∈ ms → Machine_HostID m = Some hostID ∧
     ∃ st, seat (w_db w) (Machine_ID m) = Some (st, Some hostID, Machine_VMIP m)) →
  ∃ w', stop_each rs ms w = (Ok (Machine_ID <$> ms, []), w') ∧ fault_free w' ∧
    (∀ id, host_facts (w_db w') id = host_facts (w_db w) id) ∧
    (∀ m, m ∈ ms → seat (w_db w') (Machine_ID m) = Some (stopped_seat m)) ∧
    ∀ id, id ∉ Machine_ID <$> ms → seat (w_db w') id = seat (w_db w) id.
Proof.
  revert w. induction ms as [|m ms IH]; intros w Hf Hh Hd Hms.
  { exists w. split; [done|]. split; [done|]. split; [done|]. split; [|done]. set_solver. }
  apply NoDup_cons in Hd as [Hnot Hd].
  destruct (Hms m) as [Hm (st & Hs)]; [by left|].
  unfold seat in Hs. apply fmap_Some in Hs as (m0 & Hm0 & [= Est Eh Eip]).
  destruct (StopForUpdate_run m m0 w Hf Hm Hh Hm0 (eq_sym Eh)) as (w1 & E1 & Hf1 & Hx & Hown & Hoth).
  destruct (IH w1) as (w' & E & Hf' & Hx' & Hin & Hout); [done| |done| |].
  { specialize (Hx hostID). unfold host_facts in Hx. destruct Hh as [h Hh]. rewrite Hh in Hx.
    apply fmap_Some in Hx as (h' & -> & _). by eexists. }
  { intros m' Hm'. destruct (Hms m') as [Hhm (st' & Hs')]; [by right|]. split; [done|].
    exists st'. rewrite Hoth; [done|]. intros E. apply Hnot. rewrite <-E. by apply list_elem_of_fmap_2. }
  exists w'. cbn [stop_each]. rewrite bind_try, E1. cbn [fst snd].
  rewrite (bind_eq_ok _ _ _ _ _ E). cbn. split; [done|]. split; [done|].
  split; [intros id; by rewrite Hx'|]. split.
  - intros m' Hm'. apply elem_of_cons in Hm' as [->|Hm']; [|by apply Hin].
    rewrite Hout by done. rewrite Hown. unfold stopped_seat. by rewrite Eip.
  - intros id Hid. apply not_elem_of_cons in Hid as [Hne Hid]. rewrite Hout by done. by apply Hoth.
Qed.

(** The machines of the host that run, in the order in which they are stopped. *)
Definition drained_of (db : DB) : list Machine :=
  schedule (running_on (select (λ m, bool_decide (Machine_HostID m = Some hostID)) (db_machines db))).
Lemma drained_of_spec db m :
  m ∈ drained_of db ↔ ∃ id, db_machines db !! id = Some m ∧
    Machine_HostID m = Some hostID ∧ Machine_Status m = "running"%string.
Proof.
  unfold drained_of, running_on. rewrite schedule_perm, list_elem_of_filter, elem_of_select.
  setoid_rewrite bool_decide_eq_true. naive_solver.
Qed.
Lemma drained_of_nodup db : keyed Machine_ID (db_machines db) → NoDup (Machine_ID <$> drained_of db).
Proof.
  intros Hk. unfold drained_of. rewrite schedule_perm. apply NoDup_fmap_filter, NoDup_select, Hk.
Qed.

(** Steps that leave the database alone. *)
Definition calm (u u' : Updates) : Prop :=
  w_db (u_world u') = w_db (u_world u) ∧ (fault_free (u_world u) → fault_free (u_world u')).
#[local] Instance calm_preorder : PreOrder calm.
Proof. split; unfold calm; [done|]. intros u1 u2 u3 [-> H1] [-> H2]. auto. Qed.
Lemma calm_operation opid fn : steps calm (updateHostUpdateOperation opid fn).
Proof.
  intros u. unfold updateHostUpdateOperation, bind, u_now, lift, gets, modify. by destruct u.
Qed.
Lemma calm_finish opid name stopped failed restarting :
  steps calm (finishHostUpdateOperationAfterWait opid hostID name stopped failed restarting []).
Proof.
  unfold finishHostUpdateOperationAfterWait, waitForHostUpdateResult,
    updateHostUpdateOperationProgress, completeHostUpdateOperation. cbn [wait_host].
  assert (steps calm (lift (call (GetHost hostID)))) as Hg.
  { intros u. unfold lift. pose proof (call_db (GetHost hostID) (u_world u)) as Hc.
    pose proof (call_free_faults (GetHost hostID) (u_world u)) as Hf.
    destruct (call (GetHost hostID) (u_world u)) as [r w]. split; [|exact Hf]. cbn.
    rewrite GetHost_db in Hc. by destruct Hc as [[_ ?]|[_ ?]]. }
  repeat match goal with
    | |- steps _ (updateHostUpdateOperation _ _) => apply calm_operation
    | |- steps _ u_now => by intros u
    | |- steps _ (lift _) => exact Hg
    | _ => go_step
    end.
Qed.

(** The world has the database [db] and no faults ahead. *)
Definition at_db (db : DB) (u : Updates) : Prop := w_db (u_world u) = db ∧ fault_free (u_world u).
Lemma at_calm {A} db (m : U A) u : steps calm m → at_db db u → at_db db (m u).2.
Proof. intros Hm [<- Hf]. destruct (Hm u) as [Hd Hff]. split; auto. Qed.
Lemma at_lift {A} db (q : Q A) u :
  at_db db u → ∃ u1, lift (call q) u = ((q db).1, u1) ∧ at_db (q db).2 u1.
Proof.
  intros [<- Hf]. unfold lift. rewrite call_free by done. eexists. split; [reflexivity|]. by split.
Qed.

Lemma at_remote db e u : at_db db u → ∃ u1, lift (remote e) u = (Ok tt, u1) ∧ at_db db u1.
Proof.
  intros [<- Hf]. unfold lift. rewrite remote_free by done. eexists. split; [reflexivity|]. by split.
Qed.
Lemma at_update {A} db opid fn (k : unit → U A) u :
  at_db db u → ∃ u1, bind (updateHostUpdateOperation opid fn) k u = k tt u1 ∧ at_db db u1.
Proof.
  intros Hu. exists (updateHostUpdateOperation opid fn u).2.
  split; [|by apply at_calm; [apply calm_operation|]].
  unfold bind. by rewrite (update_run (DrainJob opid hostID)).
Qed.

Local Ltac after_update Hu u1 Hu1 :=
  match goal with |- context [bind (updateHostUpdateOperation ?o ?fn) ?k ?u] =>
    destruct (at_update _ o fn k u Hu) as (u1 & -> & Hu1) end.
Local Ltac after_lift Hu u1 Hu1 :=
  match goal with |- context [lift (call ?q) ?u] =>
    destruct (at_lift _ q u Hu) as (u1 & -> & Hu1) end.

(** A drain without faults, up to the end of its operation. *)
Lemma drain_run opid h u :
  fault_free (u_world u) → db_hosts (w_db (u_world u)) !! hostID = Some h →
  Host_Status h = "ready"%string → keyed Machine_ID (db_machines (w_db (u_world u))) →
  let db := w_db (u_world u) in
  ∃ db1,
    (∀ id, host_facts db1 id = host_facts db id) ∧
    (∀ m, m ∈ drained_of db → seat db1 (Machine_ID m) = Some (stopped_seat m)) ∧
    (∀ id, id ∉ Machine_ID <$> drained_of db → seat db1 id = seat db id) ∧
    at_db (db1 <| db_hosts ::= alter (λ h, h <| Host_Status := "updating"%string |>
                    <| Host_StatusMessage := Some (pending_message (Machine_ID <$> drained_of db)) |>)
                    hostID |>
               <| db_hosts ::= alter (set Host_MaintenanceMode (λ _, true)) hostID |>)
      (run_job rs (DrainJob opid hostID) [] u).2.
Proof.
  intros Hf Hh Hst Hk db. assert (at_db db u) as Hu by done.
  cbn [run_job]. unfold runDrainHostUpdateOperation, with_ready_host, markHostUpdateOperationRunning.
  unfold updateHostUpdateOperationProgress. after_update Hu u1 Hu1.
  rewrite bind_try. after_lift Hu1 u2 Hu2.
  rewrite GetHost_run in *. unfold db in Hu2 |- *. rewrite Hh in *. fold db in Hu2 |- *. cbn [fst snd] in *.
  change (Host_Status (host_row db h)) with (Host_Status h). rewrite Hst, String.eqb_refl.
  rewrite bind_try. after_lift Hu2 u3 Hu3.
  change (ListMachinesByHost hostID db).2 with db in Hu3. cbn [ListMachinesByHost gets fst snd].
  destruct (stop_each_run (drained_of db) (u_world u3)) as (w4 & E4 & Hf4 & Hfacts & Hin & Hout).
  { apply Hu3. }
  { destruct Hu3 as [-> _]. by exists h. }
  { by apply drained_of_nodup. }
  { destruct Hu3 as [-> _]. intros m (id & Hm & Hmh & _)%drained_of_spec. split; [done|].
    exists (Machine_Status m). unfold seat. rewrite (Hk _ _ Hm), Hm. cbn. by rewrite Hmh. }
  exists (w_db w4). destruct Hu3 as [Ed3 Hf3]. rewrite Ed3 in Hfacts, Hout.
  split; [done|]. split; [done|]. split; [done|].
  unfold stop_running. fold (drained_of db). unfold bind at 1, lift at 1. rewrite E4.
  assert (at_db (w_db w4) (u3 <| u_world := w4 |>)) as Hu4 by (by split).
  after_update Hu4 u5 Hu5. rewrite bind_ignore. after_lift Hu5 u6 Hu6. cbn [fst snd].
  rewrite bind_ignore. after_lift Hu6 u7 Hu7. cbn [fst snd].
  rewrite bind_try. destruct (at_remote _ (AgentTriggerUpdate (Host_ID (host_row db h))) u7 Hu7)
    as (u8 & -> & Hu8). cbn [fst snd]. apply at_calm; [apply calm_finish|exact Hu8].
Qed.
End Drain.

(** The tokens that let an agent in. *)
Lemma accepted_same s w w' authHeader hostID :
  (∀ t, token_of (w_db w') hostID t ↔ token_of (w_db w) hostID t) → fault_free w →
  accepted s w authHeader hostID → accepted s w' authHeader hostID.
Proof.
  intros Ht Hf [token E Hne Hto|E Hne Hno].
  - apply (accepted_own _ _ _ _ token); [done|done|by apply Ht].
  - apply accepted_fleet; [done|done|]. right. destruct Hno as [Hno|Hno]; [by rewrite Hf in Hno|].
    intros t Hto. by apply Hno, Ht.
Qed.
Lemma running_on_select (p : Machine → bool) (t : gmap string Machine) :
  running_on (select p t) = select (λ m, p m && String.eqb (Machine_Status m) "running") t.
Proof.
  unfold running_on, select. induction (map_to_list t).*2 as [|m l IH]; [done|]. cbn [List.filter].
  destruct (p m); cbn [andb]; [|done]. rewrite filter_cons.
  destruct (String.eqb_spec (Machine_Status m) "running"); [rewrite decide_True by done|
    rewrite decide_False by done]; congruence.
Qed.
(** The row of a drained host. *)
Lemma drained_row db db1 hostID h msg :
  (∀ id, host_facts db1 id = host_facts db id) → db_hosts db !! hostID = Some h →
  let db2 := db1 <| db_hosts ::= alter (λ h, h <| Host_Status := "updating"%string |>
                      <| Host_StatusMessage := Some msg |>) hostID |>
                 <| db_hosts ::= alter (set Host_MaintenanceMode (λ _, true)) hostID |> in
  (∀ t, token_of db2 hostID t ↔ token_of db hostID t) ∧
  ∃ h1, db_hosts db2 !! hostID = Some h1 ∧ Host_Status h1 = "updating"%string ∧
    Host_StatusMessage h1 = Some msg ∧ Host_MaintenanceMode h1 = true.
Proof.
  intros Hfacts Hh db2. specialize (Hfacts hostID). unfold host_facts in Hfacts. rewrite Hh in Hfacts.
  apply fmap_Some in Hfacts as (h0 & Hh0 & [= _ _ _ _ _ Et]).
  assert (db_hosts db2 !! hostID = Some (set Host_MaintenanceMode (λ _, true)
    (h0 <| Host_Status := "updating"%string |> <| Host_StatusMessage := Some msg |>))) as E.
  { cbn. by rewrite !lookup_alter_eq, Hh0. }
  split; [|by eexists]. intros t. unfold token_of. rewrite E, Hh. cbn.
  split; intros (h' & [= <-] & Ht); eexists; (split; [reflexivity|]); cbn in *; congruence.
Qed.

(** C23: what a drain stops is started again: after a drain without faults, every machine
    that ran on the host is stopped, still placed there under its address, and no other
    machine is touched; the host is updating, in maintenance mode; and the first heartbeat
    accepted from it hands exactly those machines to the restart, makes the host ready and
    ends the maintenance mode. *)
Theorem drained_machines_pending `{GoSchedule} (rs : RuntimeService) (s : Server)
    (answers : string → PairAnswer) (opid : string) (hostID : Z) (h : Host) (u : Updates)
    (authHeader : string) (req : heartbeat) :
  let db := w_db (u_world u) in
  fault_free (u_world u) → hostID ≠ 0 → db_hosts db !! hostID = Some h →
  Host_Status h = "ready"%string → keyed Machine_ID (db_machines db) →
  accepted s (u_world u) authHeader hostID → Heartbeat_ExternalIP req ≠ ""%string →
  Atoi (trim_quotes_right (trim_quotes_left (Heartbeat_HostID req))) = Some hostID →
  let drained := u_world (run_job rs (DrainJob opid hostID) [] u).2 in
  ∃ resp pending w' h1 h',
    pending ≡ₚ Machine_ID <$> select (λ m, bool_decide (Machine_HostID m = Some hostID) &&
                 String.eqb (Machine_Status m) "running") (db_machines db) ∧
    (∀ id, seat (w_db drained) id =
       if decide (id ∈ pending) then (λ m, ("stopped"%string, Some hostID, Machine_VMIP m)) <$>
         db_machines db !! id else seat db id) ∧
    db_hosts (w_db drained) !! hostID = Some h1 ∧
    Host_Status h1 = "updating"%string ∧ Host_MaintenanceMode h1 = true ∧
    handleAgentHeartbeat s answers authHeader (Some req) drained = (Ok (resp, pending), w') ∧
    response_status resp = 200 ∧ db_hosts (w_db w') !! hostID = Some h' ∧
    Host_Status h' = "ready"%string ∧ Host_MaintenanceMode h' = false.
Proof.
  intros db Hf Hz Hh Hst Hk Hacc Hip Ea drained.
  destruct (drain_run rs hostID opid h u Hf Hh Hst Hk) as (db1 & Hfacts & Hin & Hout & Hat).
  fold db in Hfacts, Hin, Hout, Hat. set (ids := Machine_ID <$> drained_of hostID db) in *.
  destruct Hat as [Ed Hf1]. fold drained in Ed, Hf1.
  destruct (drained_row db db1 hostID h (pending_message ids) Hfacts Hh) as (Ht & h1 & E1 & Es & Em & Emm).
  rewrite <-Ed in Ht, E1.
  destruct (heartbeat_run s answers hostID authHeader req h1 drained) as
    (resp & pending & w' & h' & E & Hr & Eh' & _ & _ & Es' & Emm' & Ep); try done.
  { by apply (accepted_same s (u_world u)). }
  rewrite Es in Es', Emm'. rewrite Es, Em, pending_read, String.eqb_refl in Ep.
  exists resp, pending, w', h1, h'. subst pending.
  split; [|split; [|by repeat split]].
  - unfold ids, drained_of. by rewrite schedule_perm, running_on_select.
  - intros id. assert (seat (w_db drained) id = seat db1 id) as -> by (by rewrite Ed).
    case_decide as Hid; [|by apply Hout]. apply list_elem_of_fmap in Hid as (m & -> & Hm).
    rewrite (Hin m Hm). apply drained_of_spec in Hm as (k & Ek & _).
    by rewrite (Hk _ _ Ek), Ek.
Qed.

(** C37: the restart list of a drained host survives its way through the database: what
    the drain prints as the host's status message is what the heartbeat reads from it,
    for any identifiers, the empty list (which is printed as null) included. *)
Theorem pending_restarts_roundtrip (stoppedIDs : list string) :
  pending_restarts (pending_message stoppedIDs) = stoppedIDs.
Proof. apply pending_read. Qed.

(** ** Concrete updates *)

Definition superuser : Claims := mkClaims 1 "alice@example.com".
Definition admin_server : Server :=
  mkServer runtime0 None false false false false None false "fleet" "" 2 "example.com"
    "https://api.example.com" "" "" "" "" "" "" false
    (λ v, if String.eqb v "OCM_SUPERUSER_EMAILS" then "alice@example.com" else EmptyString)%string.
(** Host 2 runs machine id-4. *)
Definition fleet0 : Updates :=
  mkUpdates ((world db_running) <| w_rand := ["update1"; "update2"]%string |>) ∅.
Abbreviation request := (serve_update admin_server (Some superuser)).
Definition status_of {A} (r : res (response * A) * Updates) : option Z :=
  match r.1 with Ok (resp, _) => Some (response_status resp) | Err _ => None end.
(** A heartbeat of host 2, of the agent it has. *)
Definition beat : heartbeat :=
  mkHeartbeat "2" "203.0.113.9" "1.0" 1 "r1" "b1" "" "o1" None [].
Definition heartbeat_round (u : Updates) : Updates :=
  u <| u_world ::= λ w, (handleAgentHeartbeat admin_server (λ _, Paired) "Bearer fleet" (Some beat) w).2 |>.

(** The drain of host 2 is requested. *)
Abbreviation fleet1 := (request (PostDrainUpdate "2") fleet0).2.
Definition job1 : update_job := DrainJob "hostupd-je2zi3n" 2.
Definition operation1 : hostUpdateOperation :=
  mkHostUpdateOperation "hostupd-je2zi3n" 2 "host-a" "drain_update" "queued" 0 0 false "" ""
    (seconds 1000) (seconds 1000) None.
Lemma fleet1_operation : u_ops fleet1 !! job_operation job1 = Some operation1.
Proof. vm_compute. reflexivity. Qed.
Lemma running_keyed : keyed Machine_ID (db_machines db_running).
Proof. by destruct (reachable_keyed _ db_running_reachable) as (_ & ? & _). Qed.
Lemma fleet0_keyed : keyed Host_ID (db_hosts (w_db (u_world fleet0))).
Proof. by destruct (reachable_keyed _ db_running_reachable) as (? & _). Qed.
Lemma heartbeat_round_leaves id : leaves_entry id heartbeat_round.
Proof. done. Qed.

(** The drain that a heartbeat ends is settled, and has succeeded. *)
Lemma host_updates_settle_witness :
  settled job1 operation1 (@run_job in_turn runtime0 job1 [heartbeat_round] fleet1).2.
Proof.
  pose proof (@host_updates_settle in_turn runtime0 job1 [heartbeat_round] operation1 fleet1
    fleet1_operation ltac:(repeat constructor; apply heartbeat_round_leaves)) as H.
  destruct (run_job _ _ _ _) as [r u']. apply H.
Defined.

(** While the drain waits for its job, another update of the host is refused. *)
Lemma host_updates_exclusive_witness :
  exclusive fleet1 ∧ status_of (request (PostTriggerUpdate "2") fleet1) = Some 409 ∧
  exclusive (@run_job in_turn runtime0 job1 [heartbeat_round] fleet1).2.
Proof.
  assert (exclusive fleet0) as H0 by (intros i k a b; cbn; by rewrite lookup_empty).
  pose proof (@host_updates_exclusive in_turn runtime0 admin_server (Some superuser)
    (PostDrainUpdate "2") fleet0 H0 fleet0_keyed) as H.
  pose proof fleet1_operation as Ho.
  assert (status_of (request (PostTriggerUpdate "2") fleet1) = Some 409) as Hs
    by (vm_compute; reflexivity).
  destruct (serve_update admin_server (Some superuser) (PostDrainUpdate "2") fleet0) as [out u1].
  destruct H as (_ & H1 & Hjob). cbn [snd] in *. split; [done|].
  split; [exact Hs|]. apply Hjob; [done| |].
  - exists 2, operation1. by split.
  - apply Forall_singleton. split; [apply heartbeat_round_leaves|intros v Hv; exact Hv].
Defined.

(** The heartbeat after the drain hands machine id-4 to the restart. *)
Lemma fleet1_accepted : accepted admin_server (u_world fleet1) "Bearer fleet" 2.
Proof.
  apply accepted_fleet; [done|done|]. right. intros t (h & Hh & Ht). exfalso.
  assert (Host_AgentToken <$> db_hosts (w_db (u_world fleet1)) !! 2 = Some None) as E
    by (vm_compute; reflexivity). rewrite Hh in E. cbn in E. congruence.
Qed.
Lemma drained_machines_pending_witness : ∃ resp w',
  handleAgentHeartbeat admin_server (λ _, Paired) "Bearer fleet" (Some beat)
    (u_world (@run_job in_turn runtime0 job1 [] fleet1).2) = (Ok (resp, ["id-4"%string]), w').
Proof.
  assert (w_db (u_world fleet1) = db_running ∧ w_faults (u_world fleet1) = []) as [Ed Ef]
    by (split; vm_compute; reflexivity).
  assert (∃ h, db_hosts db_running !! 2 = Some h ∧ Host_Status h = "ready"%string) as (h & Hh & Hs).
  { eexists. split; vm_compute; reflexivity. }
  pose proof fleet1_accepted as Ha. revert Ed Ef Ha. generalize fleet1. intros u Ed Ef Ha.
  destruct (@drained_machines_pending in_turn runtime0 admin_server (λ _, Paired)
    (job_operation job1) 2 h u "Bearer fleet" beat) as
    (resp & pending & w' & h1 & h' & Hp & _ & _ & _ & _ & E & _); rewrite ?Ed;
    [exact Ef|done|exact Hh|exact Hs|exact running_keyed|exact Ha|done|reflexivity|].
  assert (pending = ["id-4"%string]) as ->; [|by exists resp, w'].
  apply Permutation_singleton_r. rewrite Hp, Ed. vm_compute. reflexivity.
Defined.

(** The write of the status message fails: the error is dropped, the host stays ready, and
    the operation reports success at its first poll. *)
Definition unlucky : Updates :=
  fleet1 <| u_world ::= set w_faults (λ _, replicate 9 false ++ [true]) |>.
Abbreviation stranded := (@run_job in_turn runtime0 job1 [] unlucky).2.

(** A drain whose status message is not written loses the machines it has stopped: the
    operation succeeds and promises their restart, the machine is stopped, the host is left
    in maintenance mode, and its next heartbeat restarts nothing and leaves it so. *)
Lemma failed_status_write_strands_machines :
  Machine_Status <$> db_machines db_running !! "id-4"%string = Some "running"%string ∧
  (λ op, (HostUpdate_Status op, HostUpdate_MachinesStopped op, HostUpdate_Error op)) <$>
    u_ops stranded !! job_operation job1 = Some ("succeeded"%string, 1, EmptyString) ∧
  Machine_Status <$> db_machines (w_db (u_world stranded)) !! "id-4"%string =
    Some "stopped"%string ∧
  let '(out, w') := handleAgentHeartbeat admin_server (λ _, Paired) "Bearer fleet" (Some beat)
                      (u_world stranded) in
  match out with Ok (_, pending) => pending = [] | Err _ => False end ∧
  (λ h, (Host_Status h, Host_MaintenanceMode h)) <$> db_hosts (w_db w') !! 2 =
    Some ("ready"%string, true).
Proof. vm_compute. by repeat split. Qed.

(** The agent that is to be updated reports once more before it restarts: the update counts
    as done, with the agent's version unchanged. *)
Definition job2 : update_job := TriggerJob "hostupd-je2zi3n" 2.
Lemma update_succeeds_before_restart :
  let u1 := (request (PostTriggerUpdate "2") fleet0).2 in
  let u2 := (@run_job in_turn runtime0 job2 [heartbeat_round] u1).2 in
  HostUpdate_Status <$> u_ops u2 !! job_operation job2 = Some "succeeded"%string ∧
  Host_AgentVersion <$> db_hosts (w_db (u_world u2)) !! 2 = Some (Some "1.0"%string).
Proof. vm_compute. by split. Qed.
