(* ===== verification/Provisioner.v ===== *)
(** * Host VMs in the cloud: internal/provisioner/provisioner.go

    ProvisionHost and DestroyHost.  The compute API, the tunnels of Cloudflare and
    the agent are calls of [World]; what the API answers about an instance and what
    the agent answers to the health checks are arguments.  The startup script is a
    file that the program embeds, an argument too.  The activity logger is set. *)

From S2P Require Import Prelude Schema HostStore World Fleet GoStrings Json Versions.
From S2P Require Import Routing Runtime.

(** ** Configuration *)

Record Provisioner : Type := mkProvisioner {
  p_tunnel : bool;
  p_project : string;
  p_zone : string;
  p_snapshot : string;
  p_hostImage : string;
  p_artifactBucket : string;
  p_artifactBaseURL : string;
  p_firewallEnsured : bool;
  p_provisioningModel : string;
  p_agentToken : string;
  p_backendURL : string;
  p_dataPlaneDomain : string;
  p_dataDiskSizeGB : Z;
  p_rootfsGCSManifest : string;
  p_agentGCSManifest : string;
  p_browserRootfsGCSManifest : string;
  p_browserRootfsVersion : string
}.
#[export] Instance eta_Provisioner : Eta Provisioner := λ r,
  mkProvisioner (p_tunnel r) (p_project r) (p_zone r) (p_snapshot r) (p_hostImage r)
    (p_artifactBucket r) (p_artifactBaseURL r) (p_firewallEnsured r) (p_provisioningModel r)
    (p_agentToken r) (p_backendURL r) (p_dataPlaneDomain r) (p_dataDiskSizeGB r)
    (p_rootfsGCSManifest r) (p_agentGCSManifest r) (p_browserRootfsGCSManifest r)
    (p_browserRootfsVersion r).

(** [strings.TrimRight(s, "/")]. *)
Fixpoint trim_slashes (s : string) : string :=
  match s with
  | EmptyString => EmptyString
  | String c s' =>
      match trim_slashes s' with
      | EmptyString => if Ascii.eqb c "/" then EmptyString else String c EmptyString
      | t => String c t
      end
  end.
(** The configuration with its strings trimmed. *)
Definition New (cfg : Provisioner) : Provisioner :=
  cfg <| p_hostImage ::= TrimSpace |>
      <| p_artifactBucket ::= λ b, trim_slashes (TrimSpace b) |>
      <| p_artifactBaseURL ::= λ b, trim_slashes (TrimSpace b) |>
      <| p_dataPlaneDomain ::= λ d, trim_dots_right (trim_dots_left (TrimSpace d)) |>
      <| p_firewallEnsured := false |>.

Definition defaultHostImage : string :=
  "projects/ubuntu-os-cloud/global/images/family/ubuntu-2404-lts-amd64".
Definition strPtrOrNil (s : string) : option string :=
  if String.eqb s "" then None else Some s.

(** Sizes of the boot and of the data disk in GB. *)
Definition diskSizes (memoryMB : Z) : Z * Z :=
  let maxVMs := Z.max 1 (Z.quot memoryMB 2048) in
  let bootGB := Z.quot (10 + maxVMs * 3 + 9) 10 * 10 in
  let dataGB := Z.quot (maxVMs * 5 + 5 + 9) 10 * 10 in
  (Z.max 100 bootGB, dataGB).

(** ** The instance *)

(** What the request to create the instance says, without its constant parts. *)
Record instance : Type := mkInstance {
  instance_Name : string;
  instance_MachineType : string;
  instance_SourceImage : string;
  instance_BootDiskGB : Z;
  instance_BootDiskType : string;
  instance_DataDiskName : string;
  instance_DataDiskGB : Z;
  instance_DataDiskType : string;
  instance_Metadata : list (string * string);
  instance_Spot : bool
}.
(** What the API says about it: its number, and the internal and the external address of
    each network interface. *)
Record instance_answer : Type := mkInstanceAnswer {
  answer_Id : option Z;
  answer_NetworkInterfaces : list (option string * list (option string))
}.
Definition internal_ip (a : instance_answer) : string :=
  match answer_NetworkInterfaces a with
  | (ip, _) :: _ => default EmptyString ip
  | [] => EmptyString
  end.
Definition external_ip (a : instance_answer) : string :=
  match answer_NetworkInterfaces a with
  | (_, Some ip :: _) :: _ => ip
  | _ => EmptyString
  end.
Definition vm_id (a : instance_answer) : string :=
  match answer_Id a with Some n => pretty n | None => EmptyString end.

Section Provisioner.
  Variable p : Provisioner.
  Variable hostStartupScript : string.

Definition metadata_items (hostID : Z) (tunnelToken : string) : list (string * string) :=
  let item key v := if String.eqb v "" then [] else [(key, v)] in
  [("agent-token", p_agentToken p); ("backend-url", p_backendURL p);
   ("host-id", pretty hostID)]%string ++
  item "tunnel-token"%string tunnelToken ++
  item "rootfs-gcs-manifest"%string (p_rootfsGCSManifest p) ++
  item "agent-gcs-manifest"%string (p_agentGCSManifest p) ++
  item "browser-rootfs-gcs-manifest"%string (p_browserRootfsGCSManifest p) ++
  item "browser-rootfs-version"%string (p_browserRootfsVersion p) ++
  (* Without a prebaked snapshot, the stock image installs itself on first boot. *)
  (if String.eqb (p_snapshot p) "" then
     (if String.eqb (p_artifactBucket p) "" then []
      else [("artifact-bucket", p_artifactBucket p);
            ("kernel-gcs-path", p_artifactBucket p +:+ "/vmlinux")])%string ++
     item "artifact-base-url"%string (p_artifactBaseURL p) ++
     [("startup-script"%string, hostStartupScript)]
   else []).
Definition source_image : string :=
  if String.eqb (p_snapshot p) "" then
    (if String.eqb (p_hostImage p) "" then defaultHostImage else p_hostImage p)
  else ("projects/" +:+ p_project p +:+ "/global/images/" +:+ p_snapshot p)%string.
Definition instance_of (host : Host) (memoryMB : Z) (tunnelToken : string) : instance :=
  let '(bootDiskGB, dataDiskGB) := diskSizes memoryMB in
  let in_zone what := ("zones/" +:+ Host_Zone host +:+ what)%string in
  mkInstance (Host_VMName host) (in_zone ("/machineTypes/" +:+ Host_MachineType host)%string)
    source_image bootDiskGB (in_zone "/diskTypes/pd-ssd"%string)
    (Host_VMName host +:+ "-data")%string
    (if bool_decide (0 < p_dataDiskSizeGB p) then p_dataDiskSizeGB p else dataDiskGB)
    (in_zone "/diskTypes/pd-balanced"%string)
    (metadata_items (Host_ID host) tunnelToken)
    (EqualFold (p_provisioningModel p) "SPOT").

(** ** Calls *)

Definition logHostEvent (hostID : Z) (eventType : string) : M unit :=
  emit (ActivityLog eventType (Some hostID) None).

(** Once per process: the result is the flag that the next call finds. *)
Definition ensureAgentFirewall : M bool :=
  if p_firewallEnsured p || String.eqb (p_project p) "" then ret (p_firewallEnsured p)
  else
    let! client := try load in
    (match client with
     | Err _ => ret tt
     | Ok _ =>
         let! existing := try load in
         match existing with
         | Ok _ => ret tt
         | Err _ =>
             ignore (remote (CloudFirewall (p_project p) "ocm-agent") ;; load)
         end
     end) ;;
    ret true.

Definition cleanupHostTunnel (vmName tunnelHostname : string) : M unit :=
  ignore (remote (HostDNSDelete tunnelHostname)) ;;
  let! found := try (remote (HostTunnelFind vmName) ;; rand_hex) in
  match found with
  | Err _ => ret tt
  | Ok tunnelID => ignore (remote (HostTunnelDelete tunnelID))
  end.

(** The agent's answers to the checks before the deadline: its version when it is well.
    [None] is an error or another status. *)
Fixpoint waitForAgentHealth (hostID : Z) (answers : list (option string)) : M string :=
  match answers with
  | [] => fail (ErrText "timeout waiting for agent health")
  | answer :: rest =>
      let! r := try (remote (AgentHealth hostID)) in
      match r, answer with
      | Ok _, Some version => ret version
      | _, _ => waitForAgentHealth hostID rest
      end
  end.

(** ** Provisioning *)

Definition region_of (zone : string) : string :=
  let idx := (String.length zone - 2)%nat in
  if Nat.ltb 0 idx && bool_decide (String.get idx zone = Some "-"%char)
  then String.substring 0 idx zone else zone.

Definition failHost {A} (hostID : Z) (e : error) : M A :=
  ignore (call (UpdateHostStatusMessage hostID "error" (String.substring 0 500 (Error e)))) ;;
  fail e.
(** [if err != nil { return failHost(fmt.Errorf("msg: %w", err)) }], after [cleanup]. *)
Definition or_fail {A B} (hostID : Z) (msg : string) (cleanup : M unit) (m : M A) (k : A → M B)
    : M B :=
  let! r := try m in
  match r with
  | Ok a => k a
  | Err e => cleanup ;; failHost hostID (ErrWrap msg e)
  end.

(** The tunnel of the host: its hostname and its token. *)
Definition create_tunnel (host : Host) (k : string → string → M Host) : M Host :=
  let hostID := Host_ID host in
  let vmName := Host_VMName host in
  if String.eqb (p_dataPlaneDomain p) "" then
    failHost hostID (ErrText "DATA_PLANE_DOMAIN is required for tunnel provisioning")
  else
    let tunnelHostname := (vmName +:+ "." +:+ p_dataPlaneDomain p)%string in
    or_fail hostID "create tunnel" (ret tt)
      (remote (HostTunnelCreate vmName) ;;
       let! tunnelID := rand_hex in let! token := rand_hex in ret (tunnelID, token))
      (λ '(tunnelID, token),
    or_fail hostID "configure tunnel" (ignore (remote (HostTunnelDelete tunnelID)))
      (remote (HostTunnelConfigure tunnelID tunnelHostname)) (λ _,
    or_fail hostID "create DNS route" (ignore (remote (HostTunnelDelete tunnelID)))
      (remote (HostTunnelDNS tunnelID tunnelHostname)) (λ _,
    k tunnelHostname token))).

(** The instance, and what the API says about it. *)
Definition create_instance (host : Host) (tunnelHostname : string) (request : instance)
    (answer : instance_answer) (k : instance_answer → M Host) : M Host :=
  let hostID := Host_ID host in
  let cleanup := cleanupHostTunnel (Host_VMName host) tunnelHostname in
  or_fail hostID "insert instance" cleanup
    (remote (CloudInstanceInsert (Host_Zone host) (instance_Name request))) (λ _,
  or_fail hostID "wait for instance creation" cleanup load (λ _,
  or_fail hostID "get instance" (ret tt)
    (remote (CloudInstanceGet (Host_Zone host) (Host_VMName host)) ;; ret answer) k)).

(** The record of the host once its instance is there: its details, its versions, a first
    heartbeat, and its status. *)
Definition finish_host (version : string) (health : list (option string)) (host : Host) : M Host :=
  let hostID := Host_ID host in
  or_fail hostID "update host details" (ret tt) (call (UpdateHostDetails host)) (λ _,
  or_fail hostID "agent health check" (ret tt) (waitForAgentHealth hostID health)
    (λ agentVersion,
  when (negb (String.eqb agentVersion ""))
    (ignore (call (UpdateHostVersions hostID agentVersion version))) ;;
  (match Host_ExternalIP host with
   | Some externalIP =>
       ignore (call (UpdateHostHeartbeat hostID externalIP agentVersion "" "" "" None))
   | None => ret tt
   end) ;;
  wrap "update host status" (call (UpdateHostStatus hostID "ready")) ;;
  logHostEvent hostID "host.provisioned" ;;
  ret host)).

(** The record that is created first.  [now_ms] is the clock in milliseconds. *)
Definition provisioned_host (machineType : string) (physicalCPUs vcpus memoryMB : Z)
    (zone : string) (now_ms : Z) : Host :=
  let '(bootGB, dataGB) := diskSizes memoryMB in
  mkHost 0 ("ocm-host-" +:+ pretty now_ms) None zone (region_of zone) machineType None None None
    "provisioning" None (strPtrOrNil (p_snapshot p)) vcpus memoryMB ((bootGB + dataGB) * 1024)
    0 0 0 0 None None "" "" None 0 "" "" "" None "" None None
    (Some (JObj [("cpu_threads", JNum physicalCPUs); ("memory_mb", JNum memoryMB)]%string))
    None None false.

(** [version] is pkg/version.Version. *)
Definition ProvisionHost (version machineType : string) (physicalCPUs vcpus memoryMB : Z)
    (zone : string) (answer : instance_answer) (health : list (option string)) : M Host :=
  let zone := if String.eqb zone "" then p_zone p else zone in
  if negb (p_tunnel p) then
    fail (ErrText "tunnel manager not configured — cannot provision host without Cloudflare Tunnel")
  else
    ensureAgentFirewall ;;
    let! t := gets (λ w, db_now (w_db w)) in
    let! host := wrap "create host record" (call (CreateHost
      (provisioned_host machineType physicalCPUs vcpus memoryMB zone (Z.quot t 1000000)))) in
    create_tunnel host (λ tunnelHostname tunnelToken,
    let host := host <| Host_TunnelURL := strPtrOrNil tunnelHostname |> in
    or_fail (Host_ID host) "create compute client" (ret tt) load (λ _,
    create_instance host tunnelHostname (instance_of host memoryMB tunnelToken) answer
      (λ inst,
    finish_host version health
      (host <| Host_VMID := Some (vm_id inst) |>
            <| Host_ExternalIP := strPtrOrNil (external_ip inst) |>
            <| Host_InternalIP := strPtrOrNil (internal_ip inst) |>)))).

(** ** Destroying *)

Definition delete_data_disk (host : Host) : M unit :=
  let! client := try load in
  match client with
  | Err _ => ret tt
  | Ok _ =>
      ignore (remote (CloudDiskDelete (Host_Zone host) (Host_VMName host +:+ "-data")) ;; load)
  end.
Definition DestroyHost (hostID : Z) : M unit :=
  let! host := wrap "get host" (call (GetHost hostID)) in
  (match Host_TunnelURL host with
   | Some url => when (p_tunnel p && negb (String.eqb url "")) (cleanupHostTunnel (Host_VMName host) url)
   | None => ret tt
   end) ;;
  wrap "create compute client" load ;;
  wrap "delete instance" (remote (CloudInstanceDelete (Host_Zone host) (Host_VMName host))) ;;
  wrap "wait for instance deletion" load ;;
  delete_data_disk host ;;
  wrap "update host status" (call (UpdateHostStatus hostID "stopped")) ;;
  logHostEvent hostID "host.destroyed".
End Provisioner.
