(* ===== verification/HostAdmin.v ===== *)
(** * Hosts for administrators: the rest of api/admin_hosts.go

    Listing, maintenance, the refresh of a host's root file system, and the
    provisioning and destruction of hosts, which a handler leaves to a goroutine:
    [host_work].  The statistics and the logs of a host's VMs, which an agent answers,
    are arguments. *)

From S2P Require Import Prelude Schema HostStore World Fleet GoStrings Json Versions.
From S2P Require Import Routing Runtime Api Members Agents BrowserVMs Machines.
From S2P Require Import HostUpdates Provisioner.

(** ** Values *)

Definition host_json (h : Host) : json :=
  JObj ([("id", JNum (Host_ID h)); ("vm_name", JStr (Host_VMName h))]%string ++
    omitempty "vm_id" (json_str (Host_VMID h)) ++
    [("zone", JStr (Host_Zone h)); ("region", JStr (Host_Region h));
     ("machine_type", JStr (Host_MachineType h))]%string ++
    omitempty "external_ip" (json_str (Host_ExternalIP h)) ++
    omitempty "internal_ip" (json_str (Host_InternalIP h)) ++
    omitempty "tunnel_url" (json_str (Host_TunnelURL h)) ++
    [("status"%string, JStr (Host_Status h))] ++
    omitempty "status_message" (json_str (Host_StatusMessage h)) ++
    omitempty "source_image" (json_str (Host_SourceImage h)) ++
    [("capacity_vcpus", JNum (Host_CapacityVCPUs h));
     ("capacity_memory_mb", JNum (Host_CapacityMemoryMB h));
     ("capacity_disk_mb", JNum (Host_CapacityDiskMB h));
     ("used_vcpus", JNum (Host_UsedVCPUs h)); ("used_memory_mb", JNum (Host_UsedMemoryMB h));
     ("used_disk_mb", JNum (Host_UsedDiskMB h));
     ("machine_count", JNum (Host_MachineCount h))]%string ++
    omitempty "agent_version" (json_str (Host_AgentVersion h)) ++
    omitempty "openclaw_version" (json_str (Host_OpenclawVersion h)) ++
    omitempty_str "rootfs_version" (Host_RootfsVersion h) ++
    omitempty_str "browser_rootfs_version" (Host_BrowserRootfsVersion h) ++
    omitempty "last_heartbeat" (json_num (Host_LastHeartbeat h)) ++
    [("created_at", JNum (Host_CreatedAt h)); ("provider", JStr (Host_Provider h));
     ("provider_class", JStr (Host_ProviderClass h));
     ("lifecycle_mode", JStr (Host_LifecycleMode h))]%string ++
    omitempty "agent_endpoint" (json_str (Host_AgentEndpoint h)) ++
    [("agent_endpoint_type"%string, JStr (Host_AgentEndpointType h))] ++
    omitempty "provider_host_id" (json_str (Host_ProviderHostID h)) ++
    [("provider_metadata", default JNull (Host_ProviderMetadata h));
     ("capabilities", default JNull (Host_Capabilities h));
     ("labels", default JNull (Host_Labels h));
     ("maintenance_mode", JBool (Host_MaintenanceMode h))]%string).
Definition host_machine_json (m : Machine) : json :=
  JObj ([("id", JStr (Machine_ID m)); ("name", JStr (Machine_Name m));
         ("slug", JStr (Machine_Slug m)); ("status", JStr (Machine_Status m))]%string ++
    omitempty "vm_ip" (json_str (Machine_VMIP m)) ++
    [("data_volume_gb"%string, JNum (Machine_DataVolumeGB m))] ++
    omitempty "rootfs_snapshot" (json_str (Machine_RootfsSnapshot m)) ++
    omitempty "openclaw_version" (json_str (Machine_OpenclawVersion m)) ++
    [("created_at"%string, JNum (Machine_CreatedAt m))] ++
    omitempty "started_at" (json_num (Machine_StartedAt m))).

(** Physical CPUs and memory of the machine types with nested virtualization. *)
Definition preset (machineType : string) : option (Z * Z) :=
  if String.eqb machineType "n2-standard-2" then Some (2, 8192)
  else if String.eqb machineType "n2-standard-4" then Some (4, 16384)
  else if String.eqb machineType "n2-standard-8" then Some (8, 32768)
  else if String.eqb machineType "c2-standard-4" then Some (4, 16384)
  else None.

(** ** Background work *)

Inductive host_work : Type :=
| ProvisionWork (machineType : string) (physicalCPUs vcpus memoryMB : Z) (zone : string)
| DestroyWork (hostID : Z)
| RestartWork (machineIDs : list string).

Section HostAdmin.
  Context {go_sort : GoSort} `{GoSchedule}.
  Variable s : Server.
  Variable provisioner : option Provisioner.

(** Destroying a host: its machines first, each with its route, whatever fails; then the
    VM. *)
Definition destroy_machine (m : Machine) : M unit :=
  ignore (CleanupMachineRouteAndTunnel (srv_machines s) (Machine_ID m)) ;;
  ignore (call (DeleteMachine (Machine_ID m))).
Definition destroy_host (p : Provisioner) (hostID : Z) : M unit :=
  let! ms := try (call (ListMachinesByHost hostID)) in
  for_each (match ms with Ok machines => machines | Err _ => [] end) destroy_machine ;;
  ignore (DestroyHost p hostID).
Definition run_work (version script : string) (answer : instance_answer)
    (health : list (option string)) (k : host_work) : M unit :=
  match k, provisioner with
  | ProvisionWork machineType physicalCPUs vcpus memoryMB zone, Some p =>
      ignore (ProvisionHost p script version machineType physicalCPUs vcpus memoryMB zone answer
                health)
  | DestroyWork hostID, Some p => destroy_host p hostID
  | RestartWork ids, _ => restartMachinesAfterUpdate s ids
  | _, None => ret tt
  end.

(** ** Handlers *)

Definition no_work {A} (m : M response) : M (response * option A) :=
  let! r := m in ret (r, None).

(** The body is optional: what does not decode is dropped. *)
Definition handleProvisionHost (machineType zone : string) : M (response * option host_work) :=
  match provisioner with
  | None => no_work (writeError 503 "provisioner not configured")
  | Some _ =>
      let machineType := if String.eqb machineType "" then "n2-standard-2"%string else machineType in
      match preset machineType with
      | None => no_work (writeError 400 "invalid machine_type: must be one of n2-standard-2, n2-standard-4, n2-standard-8, c2-standard-4")
      | Some (physicalCPUs, memoryMB) =>
          let! r := writeJSON 202 (JObj [("status", JStr "provisioning");
            ("message", JStr "Host provisioning started in background")]%string) in
          ret (r, Some (ProvisionWork machineType physicalCPUs
                          (physicalCPUs * srv_vcpuOversubRatio s) memoryMB zone))
      end
  end.
Definition handleListHosts : M response :=
  or_its_error (call ListHosts) 500 (λ hosts, writeJSON 200 (JArr (host_json <$> hosts))).
Definition handleDestroyHost (hostId : string) : M (response * option host_work) :=
  match provisioner with
  | None => no_work (writeError 503 "provisioner not configured")
  | Some _ =>
      match Sscanf_d hostId with
      | None => no_work (writeError 400 "invalid host id")
      | Some hostID =>
          let! r := writeJSON 202 (JObj [("status", JStr "destroying");
            ("message", JStr "Host destruction started in background")]%string) in
          ret (r, Some (DestroyWork hostID))
      end
  end.
Definition handleListHostMachines (hostId : string) : M response :=
  int_param hostId "invalid host id" (λ hostID,
  or_its_error (call (ListMachinesByHost hostID)) 500 (λ machines,
  writeJSON 200 (JArr (host_machine_json <$> machines)))).
Definition handleHostVMStats (hostId : string) (stats : json) : M response :=
  int_param hostId "invalid host id" (λ hostID,
  or_error (call (GetHost hostID)) 404 "host not found" (λ host,
  let! r := try (remote (AgentListVMs (Host_ID host))) in
  match r with
  | Ok _ => writeJSON 200 stats
  | Err e => writeError 502 ("failed to reach agent: " +:+ Error e)
  end)).

(** The number of lines asked for: 1 to 500, else 100. *)
Definition log_lines (query : string) : Z :=
  match Atoi query with
  | Some n => if bool_decide (0 < n) && bool_decide (n ≤ 500) then n else 100
  | None => 100
  end.
Definition handleHostLogs (hostId lines logs : string) : M response :=
  int_param hostId "invalid host id" (λ hostID,
  or_error (call (GetHost hostID)) 404 "host not found" (λ host,
  or_its_error (remote (AgentGetLogs (Host_ID host) (log_lines lines))) 500 (λ _,
  writeJSON 200 (JObj [("logs"%string, JStr logs)])))).
Definition handleSetHostMaintenance (hostId : string) (body : option bool) : M response :=
  int_param hostId "invalid host id" (λ hostID,
  decoded body (λ enabled,
  or_error (call (GetHost hostID)) 404 "host not found" (λ _,
  or_its_error (call (SetHostMaintenanceMode hostID enabled)) 500 (λ _,
  writeJSON 200 (JObj [("status", JStr "ok");
    ("maintenance_mode", JStr (if enabled then "enabled" else "disabled"))]%string))))).

(** The running machines of a host are stopped, the agent fetches the image, the machines
    are started again - also when it fails. *)
Definition refresh (host : Host) (hostID : Z) (sourceImage : string) (machineList : list Machine)
    : M (response * option host_work) :=
  let! '(stoppedIDs, stopErrors) := stop_running (srv_machines s) machineList in
  let restart := match stoppedIDs with [] => None | _ => Some (RestartWork stoppedIDs) end in
  let! r := try (remote (AgentRefreshRootfs (Host_ID host))) in
  match r with
  | Err e =>
      ignore (call (SetHostMaintenanceMode hostID false)) ;;
      let! resp := writeError 500 (Error e) in ret (resp, restart)
  | Ok _ =>
      when (negb (String.eqb sourceImage ""))
        (ignore (call (UpdateHostSourceImage hostID sourceImage))) ;;
      ignore (call (SetHostMaintenanceMode hostID false)) ;;
      let! resp := writeJSON 200 (JObj [("status", JStr "refreshed");
        ("machines_stopped", JNum (Z.of_nat (length stoppedIDs)));
        ("machines_failed", JNum (Z.of_nat (length stopErrors)));
        ("machines_starting", JNum (Z.of_nat (length stoppedIDs)))]%string) in
      ret (resp, restart)
  end.
Definition handleRefreshRootfs (hostId sourceImage : string) : M (response * option host_work) :=
  match Sscanf_d hostId with
  | None => no_work (writeError 400 "invalid host id")
  | Some hostID =>
      let! h := try (call (GetHost hostID)) in
      match h with
      | Err _ => no_work (writeError 404 "host not found")
      | Ok host =>
          ignore (call (SetHostMaintenanceMode hostID true)) ;;
          let! ms := try (call (ListMachinesByHost hostID)) in
          match ms with
          | Err e =>
              ignore (call (SetHostMaintenanceMode hostID false)) ;;
              no_work (writeError 500 ("failed to list machines: " +:+ Error e))
          | Ok machineList => refresh host hostID sourceImage machineList
          end
      end
  end.

(** ** Routes *)

Inductive host_request : Type :=
| GetHosts
| GetHostMachines (hostId : string)
| GetHostLogs (hostId lines logs : string)
| GetHostVMStats (hostId : string) (stats : json)
| PostHost (machineType zone : string)
| DeleteHostVM (hostId : string)
| PostRefreshRootfs (hostId sourceImage : string)
| PostMaintenance (hostId : string) (body : option bool)
| PostDeregister (hostId : string).
Definition serve_host (claims : option Claims) (r : host_request)
    : M (response * option host_work) :=
  if isSuperuser s claims then
    match r with
    | GetHosts => no_work handleListHosts
    | GetHostMachines hostId => no_work (handleListHostMachines hostId)
    | GetHostLogs hostId lines logs => no_work (handleHostLogs hostId lines logs)
    | GetHostVMStats hostId stats => no_work (handleHostVMStats hostId stats)
    | PostHost machineType zone => handleProvisionHost machineType zone
    | DeleteHostVM hostId => handleDestroyHost hostId
    | PostRefreshRootfs hostId sourceImage => handleRefreshRootfs hostId sourceImage
    | PostMaintenance hostId body => no_work (handleSetHostMaintenance hostId body)
    | PostDeregister hostId => no_work (handleDeregisterHost s hostId)
    end
  else no_work (writeError 403 "admin access required").
End HostAdmin.
