(* ===== verification/ProvisionerSpec.v ===== *)
(** * What provisioning guarantees

    Disks large enough for the machines of a host, and a host that takes machines only
    when its agent has answered. *)

From S2P Require Import Prelude Schema HostStore World Fleet FleetLemmas GoStrings Json.
From S2P Require Import Versions Routing Runtime RuntimeLemmas Scenario Api Members.
From S2P Require Import Agents.
From S2P Require Import RuntimeSpec BrowserVMs Machines HostUpdates Provisioner.
From S2P Require Import HostAdmin.

(** ** Disks *)

Lemma round_up n : 0 ≤ n → ∃ k, Z.quot (n + 9) 10 * 10 = 10 * k ∧ n ≤ 10 * k < n + 10.
Proof.
  intros Hn. exists (Z.quot (n + 9) 10). rewrite Z.quot_div_nonneg by lia.
  pose proof (Z.div_mod (n + 9) 10). pose proof (Z.mod_pos_bound (n + 9) 10). lia.
Qed.

(** C38: the disks of a host hold its machines, of 2 GB memory each: the boot disk has 3 GB
    for every machine beside 10 GB and is not smaller than the image (100 GB), the data
    disk has 5 GB for every machine and 5 GB of headroom; both are multiples of 10 GB, and
    the data disk wastes less than 10 GB. *)
Theorem disk_sizes_enough (memoryMB : Z) :
  let n := Z.max 1 (Z.quot memoryMB 2048) in
  let '(bootGB, dataGB) := diskSizes memoryMB in
  100 ≤ bootGB ∧ 10 + 3 * n ≤ bootGB ∧ 5 * n + 5 ≤ dataGB < 5 * n + 15 ∧
  bootGB mod 10 = 0 ∧ dataGB mod 10 = 0.
Proof.
  intros n. unfold diskSizes. fold n.
  destruct (round_up (10 + n * 3)) as (b & -> & Hb); [lia|].
  destruct (round_up (n * 5 + 5)) as (d & -> & Hd); [lia|].
  split; [lia|]. split; [lia|]. split; [lia|]. rewrite !(Z.mul_comm 10). split.
  - destruct (Z.max_spec 100 (b * 10)) as [[_ ->]|[_ ->]]; [apply Z.mod_mul; lia|reflexivity].
  - apply Z.mod_mul. lia.
Qed.

(** ** Provisioning *)

Section Provision.
Context (p : Provisioner) (script version : string).

(** The host [id] is new since [db0] and does not take machines. *)
Definition waiting (db0 : DB) (id : Z) (db : DB) : Prop :=
  db_hosts db0 !! id = None ∧ (∀ k, k ≠ id → db_hosts db !! k = db_hosts db0 !! k) ∧
  ∃ h, db_hosts db !! id = Some h ∧ Host_Status h ∈ ["provisioning"; "error"]%string.
Definition provisioned (db0 : DB) (id : Z) (db : DB) : Prop :=
  db_hosts db0 !! id = None ∧ (∀ k, k ≠ id → db_hosts db !! k = db_hosts db0 !! k) ∧
  ∃ h, db_hosts db !! id = Some h ∧ Host_Status h = "ready"%string.

Section Host.
Context (db0 : DB) (id : Z) (Q : Host → Prop).
Abbreviation stays := (steps (on_db (keeps (waiting db0 id)))).

(** A run from a waiting host: ready, or an error and still waiting. *)
Definition settles (m : M Host) : Prop := ∀ w,
  waiting db0 id (w_db w) →
  let '(r, w') := m w in
  match r with
  | Ok h => Q h ∧ provisioned db0 id (w_db w')
  | Err _ => waiting db0 id (w_db w')
  end.

Lemma waiting_alter f :
  (∀ h, Host_Status (f h) = Host_Status h ∨ Host_Status (f h) = "error"%string) →
  steps (keeps (waiting db0 id)) (update_host id f).
Proof.
  intros Hf db (Hn & Ho & h & Hh & Hs). split; [done|]. cbn. split.
  - intros k Hk. rewrite lookup_alter_ne by done. by apply Ho.
  - exists (f h). rewrite lookup_alter_eq, Hh. split; [done|].
    destruct (Hf h) as [->| ->]; [done|set_solver].
Qed.
Lemma stays_fail {A} e : stays (@failHost A id e).
Proof.
  unfold failHost. run_steps. apply waiting_alter. by right.
Qed.
Lemma settles_or_fail {A} msg cleanup (m : M A) k :
  stays m → stays cleanup → (∀ a w, (m w).1 = Ok a → settles (k a)) →
  settles (or_fail id msg cleanup m k).
Proof.
  intros Hm Hc Hk w Hw. unfold or_fail. rewrite bind_try. specialize (Hm w Hw).
  pose proof (λ a, Hk a w) as Hk'. destruct (m w) as [[a|e] w1]; cbn [fst snd] in *.
  - by apply Hk'.
  - unfold bind. specialize (Hc w1 Hm). destruct (cleanup w1) as [[[]|e'] w2]; [|done].
    pose proof (@stays_fail Host (ErrWrap msg e) w2 Hc) as Hf. cbn [snd] in Hf.
    assert (is_ok (failHost (A := Host) id (ErrWrap msg e) w2).1 = false) as Hr by done.
    destruct (failHost _ _ w2) as [[h|e'] w3]; [done|exact Hf].
Qed.
Lemma settles_failHost e : settles (failHost id e).
Proof.
  intros w Hw. pose proof (@stays_fail Host e w Hw) as Hf.
  assert (is_ok (failHost (A := Host) id e w).1 = false) as Hr by done.
  by destruct (failHost id e w) as [[h|e'] w3].
Qed.
Lemma stays_cleanup vmName url : stays (cleanupHostTunnel vmName url).
Proof. unfold cleanupHostTunnel. run_steps. Qed.
Lemma stays_health hid answers : stays (waitForAgentHealth hid answers).
Proof. induction answers; cbn [waitForAgentHealth]; run_steps; done. Qed.
Lemma health_ok hid answers w v :
  (waitForAgentHealth hid answers w).1 = Ok v → Some v ∈ answers.
Proof.
  revert w. induction answers as [|a answers IH]; intros w; [done|]. cbn [waitForAgentHealth].
  rewrite bind_try. destruct (remote (AgentHealth hid) w) as [[[]|e] w1]; cbn [fst snd];
    [destruct a as [v'|]|]; [intros [= ->]; by left|right; by eapply IH..].
Qed.

Lemma settles_seq {A} (m : M A) k : stays m → (∀ a, settles (k a)) → settles (bind m k).
Proof.
  intros Hm Hk w Hw. unfold bind. specialize (Hm w Hw).
  destruct (m w) as [[a|e] w1]; cbn [snd] in Hm; [by apply Hk|exact Hm].
Qed.
Lemma settles_ready hid host :
  Q host → settles (wrap "update host status" (call (UpdateHostStatus id "ready")) ;;
    logHostEvent hid "host.provisioned" ;; ret host).
Proof.
  intros HQ w Hw. unfold bind, wrap. pose proof (call_db (UpdateHostStatus id "ready") w) as Hc.
  destruct (call _ w) as [[[]|e] w1]; cbn.
  - split; [done|]. destruct Hc as [[_ ->]|[? _]]; [|done].
    destruct Hw as (Hn & Ho & h & Hh & _). split; [done|]. cbn. split.
    + intros k Hk. rewrite lookup_alter_ne by done. by apply Ho.
    + eexists. by rewrite lookup_alter_eq, Hh.
  - destruct Hc as [[? _]|[_ ->]]; [done|exact Hw].
Qed.
Lemma settles_finish health host :
  Host_ID host = id → (∀ v, Some v ∈ health → Q host) →
  settles (finish_host version health host).
Proof.
  intros Hid HQ. unfold finish_host. rewrite Hid.
  apply settles_or_fail; [|by run_steps|intros _ _ _].
  { run_steps. unfold UpdateHostDetails. rewrite Hid. apply waiting_alter. by left. }
  apply settles_or_fail; [apply stays_health|by run_steps|]. intros v w Hv%health_ok.
  apply settles_seq; [run_steps; apply waiting_alter; by left|intros _].
  apply settles_seq; [|intros _; apply settles_ready; by eapply HQ].
  run_steps. unfold UpdateHostHeartbeat, now, query_row. go_steps. apply waiting_alter. by left.
Qed.
Lemma stays_tunnel_calls vmName :
  stays (remote (HostTunnelCreate vmName) ;;
         let! tunnelID := rand_hex in let! token := rand_hex in ret (tunnelID, token)).
Proof. run_steps. Qed.
Lemma settles_tunnel host k :
  Host_ID host = id → (∀ url token, settles (k url token)) → settles (create_tunnel p host k).
Proof.
  intros Hid Hk. unfold create_tunnel. rewrite Hid. cbv zeta.
  destruct (String.eqb _ ""); [apply settles_failHost|].
  apply settles_or_fail; [apply stays_tunnel_calls|by run_steps|]. intros [tunnelID token] _ _.
  apply settles_or_fail; [by run_steps..|intros _ _ _].
  apply settles_or_fail; [by run_steps..|intros _ _ _]. apply Hk.
Qed.
Lemma settles_instance host url request answer k :
  Host_ID host = id → (∀ a, settles (k a)) → settles (create_instance host url request answer k).
Proof.
  intros Hid Hk. unfold create_instance. rewrite Hid. cbv zeta.
  apply settles_or_fail; [by run_steps|apply stays_cleanup|intros _ _ _].
  apply settles_or_fail; [by run_steps|apply stays_cleanup|intros _ _ _].
  apply settles_or_fail; [by run_steps|by run_steps|intros a _ _]. apply Hk.
Qed.
End Host.

(** The record is created, or the tables are as before. *)
Lemma CreateHost_result h db :
  let '(r, db') := CreateHost h db in
  match r with
  | Ok host => db_hosts db !! Host_ID host = None ∧
      (∀ k, k ≠ Host_ID host → db_hosts db' !! k = db_hosts db !! k) ∧
      ∃ row, db_hosts db' !! Host_ID host = Some row ∧ Host_Status row = Host_Status h
  | Err _ => db_hosts db' = db_hosts db
  end.
Proof.
  unfold CreateHost, bind, now, gets, next_serial, get, unique, modify, ret, fail. cbn.
  destruct (db_hosts db !! _) as [h0|] eqn:E; cbn; [done|]. split; [exact E|]. split.
  - intros k Hk. by rewrite lookup_insert_ne.
  - eexists. by rewrite lookup_insert_eq.
Qed.

End Provision.

(** ** Concrete runs *)

Definition provisioner0 : Provisioner :=
  New (mkProvisioner true "proj" "us-central1-a" "snap-1" "" "" "" false "SPOT" "fleet"
    "https://api.example.com" ".example.com" 200 "gs://r" "gs://a" "" "" )%string.
Definition answer0 : instance_answer :=
  mkInstanceAnswer (Some 77) [(Some "10.0.0.2", [Some "203.0.113.7"])]%string.
Definition world_cloud : World := (world db_start) <| w_rand := ["t1"; "tok"]%string |>.
(** A host is provisioned: the agent answers the second check. *)
Lemma provisioning_succeeds :
  let '(r, w') := ProvisionHost provisioner0 "" "v1" "n2-standard-2" 2 4 8192 "" answer0
                    [None; Some "1.0"%string] world_cloud in
  (λ h, (Host_VMName h, Host_Region h, Host_TunnelURL h)) <$>
    (match r with Ok h => Some h | Err _ => None end) =
    Some ("ocm-host-1000000", "us-central1", Some "ocm-host-1000000.example.com")%string ∧
  (λ h, (Host_Status h, Host_ExternalIP h, Host_AgentVersion h)) <$> db_hosts (w_db w') !! 1 =
    Some ("ready", Some "203.0.113.7", Some "1.0")%string.
Proof. vm_compute. by split. Qed.

(** An explicit size of the data disk is not what the capacity of the host counts. *)
Lemma capacity_ignores_override :
  let host := provisioned_host provisioner0 "n2-standard-2" 2 4 8192 "us-central1-a" 1000000 in
  let request := instance_of provisioner0 "" host 8192 "tok" in
  Host_CapacityDiskMB host = (100 + 30) * 1024 ∧
  (instance_BootDiskGB request, instance_DataDiskGB request) = (100, 200).
Proof. vm_compute. by split. Qed.

(** The deletion of the VM fails: the rows of its machines are gone, which still run. *)
Definition admin0 : Server := api_server runtime0 false false false "" "example.com".
Abbreviation destroyed := (destroy_host admin0 provisioner0 2
  ((world db_running) <| w_faults := replicate 10 false ++ [true] |>)).2.
Lemma destroy_forgets_running_machines :
  Machine_Status <$> db_machines db_running !! "id-4"%string = Some "running"%string ∧
  db_machines (w_db destroyed) !! "id-4"%string = None ∧
  Host_Status <$> db_hosts (w_db destroyed) !! 2 = Some "ready"%string ∧
  w_trace destroyed = [CloudInstanceDelete "us-central1-a" "host-a"; HostTunnelFind "host-a";
    HostDNSDelete "host-a.example.com"]%string.
Proof. vm_compute. by repeat split. Qed.
