(* ===== verification/GoText.v ===== *)
(** * More of Go's strings: runes, replacement, splitting, trimming

    What the code of the workspace integrations uses beyond GoStrings, and what
    [strings.ReplaceAll] leaves of the text it replaces.  Strings are valid UTF-8: a
    rune is a byte with the continuation bytes that follow it. *)

From S2P Require Import Prelude GoStrings.

#[local] Open Scope string_scope.

(** ** Runes *)

Definition char1 (c : ascii) : string := String c EmptyString.
Definition continuation (c : ascii) : bool :=
  let n := ascii_code c in bool_decide (128 ≤ n < 192)%Z.
Definition attach (c : ascii) (rest : string) (rs : list string) : list string :=
  match rest, rs with
  | String c' _, r :: rs' => if continuation c' then String c r :: rs' else char1 c :: rs
  | _, _ => char1 c :: rs
  end.
Fixpoint runes (s : string) : list string :=
  match s with
  | EmptyString => []
  | String c s' => attach c s' (runes s')
  end.

(** [unicode.IsLetter] or [unicode.IsDigit] of the runes of more than a byte. *)
Class GoUnicode : Type := wide_word : string → bool.

Definition ascii_word (c : ascii) : bool :=
  let n := ascii_code c in
  bool_decide (97 ≤ n ≤ 122)%Z || bool_decide (65 ≤ n ≤ 90)%Z || is_digit c || Ascii.eqb c "_".

(** ** Replacing, splitting, trimming, joining *)

Fixpoint replace_from (old new : string) (skip : nat) (s : string) : string :=
  match s with
  | EmptyString => EmptyString
  | String c s' =>
      match skip with
      | S k => replace_from old new k s'
      | O =>
          if HasPrefix s old
          then new ++ replace_from old new (Nat.pred (String.length old)) s'
          else String c (replace_from old new 0 s')
      end
  end.
(** [strings.ReplaceAll]; an empty [old] matches before every rune and at the end. *)
Definition ReplaceAll (s old new : string) : string :=
  if String.eqb old "" then foldr (λ r acc, new ++ r ++ acc) new (runes s)
  else replace_from old new 0 s.

(** [strings.SplitN] by one byte: [n] parts at most. *)
Fixpoint SplitN (sep : ascii) (n : nat) (s : string) : list string :=
  match n with
  | O => []
  | S O => [s]
  | S n' => match split_first sep s with
            | Some (a, b) => a :: SplitN sep n' b
            | None => [s]
            end
  end.

(** [strings.Trim] of one byte. *)
Fixpoint trim_left (c : ascii) (s : string) : string :=
  match s with
  | String d s' => if Ascii.eqb c d then trim_left c s' else s
  | EmptyString => EmptyString
  end.
Fixpoint trim_right (c : ascii) (s : string) : string :=
  match s with
  | EmptyString => EmptyString
  | String d s' =>
      match trim_right c s' with
      | EmptyString => if Ascii.eqb c d then EmptyString else char1 d
      | t => String d t
      end
  end.
Definition Trim (c : ascii) (s : string) : string := trim_right c (trim_left c s).

Definition HasSuffix (s suffix : string) : bool :=
  Nat.leb (String.length suffix) (String.length s) &&
  String.eqb (String.substring (String.length s - String.length suffix) (String.length suffix) s)
    suffix.

(** [firstNonEmpty] of internal/api: the first value that is not blank, trimmed. *)
Fixpoint firstNonEmpty (values : list string) : string :=
  match values with
  | [] => EmptyString
  | v :: rest => if String.eqb (TrimSpace v) "" then firstNonEmpty rest else TrimSpace v
  end.

(** *** Runes and trimming, byte by byte *)

Definition is_rune (r : string) : Prop := ∃ c t, r = String c t ∧ all_chars continuation t = true.
Lemma runes_cons c s : ∃ t rs, runes (String c s) = String c t :: rs.
Proof. cbn [runes]. unfold attach. repeat case_match; eauto. Qed.
Lemma runes_spec s : Forall is_rune (runes s).
Proof.
  induction s as [|c s IH]; [constructor|].
  assert (is_rune (char1 c)) as Hc by (by exists c, "").
  cbn [runes]. destruct s as [|d s]; [by repeat constructor|].
  destruct (runes_cons d s) as (t & rs & E). rewrite E in IH |- *. unfold attach.
  destruct (continuation d) eqn:Ed; [|by constructor].
  apply Forall_cons in IH as [(d' & t' & [= <- <-] & Ht) IH]. constructor; [|done].
  exists c, (String d t). split; [done|]. cbn [all_chars]. by rewrite Ed.
Qed.
Lemma trim_left_chars p c s : all_chars p s = true → all_chars p (trim_left c s) = true.
Proof.
  induction s as [|d s IH]; [done|]. cbn [trim_left]. intros H. case_match; [|done].
  apply IH. by apply andb_true_iff in H as [_ H].
Qed.
Lemma trim_right_chars p c s : all_chars p s = true → all_chars p (trim_right c s) = true.
Proof.
  induction s as [|d s IH]; [done|]. cbn [trim_right all_chars].
  intros [Hd Hs]%andb_true_iff. specialize (IH Hs).
  destruct (trim_right c s); [case_match; cbn; by rewrite ?Hd|].
  cbn [all_chars] in *. by rewrite Hd.
Qed.
Lemma Trim_chars p c s : all_chars p s = true → all_chars p (Trim c s) = true.
Proof. intros H. by apply trim_right_chars, trim_left_chars. Qed.

(** ** Occurrences *)

(** [t] occurs in [s]. *)
Definition occurs (t s : string) : Prop := ∃ a b, s = a +:+ t +:+ b.

Lemma Contains_occurs s t : Contains s t = true ↔ occurs t s.
Proof.
  split.
  - induction s as [|c s IH]; cbn [Contains]; rewrite orb_true_iff; intros [H|H].
    + exists "", (TrimPrefix "" t). by apply HasPrefix_app.
    + done.
    + exists "", (TrimPrefix (String c s) t). by apply HasPrefix_app.
    + destruct (IH H) as (a & b & ->). by exists (String c a), b.
  - intros (a & b & ->). induction a as [|c a IH].
    + change ("" +:+ t +:+ b) with (t +:+ b).
      assert (HasPrefix (t +:+ b) t = true) as H by (unfold HasPrefix; by rewrite TrimPrefix_from_app).
      destruct (t +:+ b); cbn [Contains]; by rewrite H.
    + change (Contains (String c (a +:+ t +:+ b)) t = true). cbn [Contains].
      by rewrite IH, orb_true_r.
Qed.

Lemma occurs_app t x y : occurs t x ∨ occurs t y → occurs t (x +:+ y).
Proof.
  intros [(a & b & ->)|(a & b & ->)].
  - exists a, (b +:+ y). by rewrite !append_assoc.
  - exists (x +:+ a), b. by rewrite append_assoc.
Qed.

(** A text without the character [o] lies on one side of it. *)
Lemma prefix_before (o : ascii) t b x y :
  all_chars (λ c, negb (Ascii.eqb c o)) t = true →
  t +:+ b = x +:+ String o y → ∃ b', x = t +:+ b'.
Proof.
  revert x. induction t as [|c t IH]; intros x Ht E; [by exists x|].
  cbn [all_chars] in Ht. apply andb_true_iff in Ht as [Hc Ht].
  destruct x as [|d x].
  - injection E as -> _. by rewrite Ascii.eqb_refl in Hc.
  - change (String c (t +:+ b) = String d (x +:+ String o y)) in E. injection E as -> E.
    destruct (IH x Ht E) as [b' ->]. by exists b'.
Qed.
Lemma occurs_beside (o : ascii) t x y :
  all_chars (λ c, negb (Ascii.eqb c o)) t = true →
  occurs t (x +:+ String o y) → occurs t x ∨ occurs t y.
Proof.
  intros Ht (a & b & E). revert x E. induction a as [|c a IH]; intros x E.
  - destruct (prefix_before o t b x y Ht (eq_sym E)) as [b' ->]. left. by exists "", b'.
  - destruct x as [|d x].
    + injection E as -> ->. right. by exists a, b.
    + change (String d (x +:+ String o y) = String c (a +:+ t +:+ b)) in E.
      injection E as -> E. destruct (IH x E) as [(a' & b' & ->)|H]; [|by right].
      left. by exists (String c a'), b'.
Qed.

(** [t] does not occur across an [m] inserted in a text, nor inside it. *)
Definition apart (t m : string) : Prop :=
  ∀ x y, occurs t (x +:+ m +:+ y) → occurs t x ∨ occurs t y.
Lemma apart_bracketed (o c : ascii) mid t :
  all_chars (λ d, negb (Ascii.eqb d o)) t = true →
  all_chars (λ d, negb (Ascii.eqb d c)) t = true →
  ¬ occurs t mid → apart t (String o (mid +:+ char1 c)).
Proof.
  intros Ho Hc Hmid x y H.
  change (String o (mid +:+ char1 c) +:+ y) with (String o ((mid +:+ char1 c) +:+ y)) in H.
  rewrite append_assoc in H. change (char1 c +:+ y) with (String c y) in H.
  destruct (occurs_beside o _ _ _ Ho H) as [H1|H1]; [by left|].
  destruct (occurs_beside c _ _ _ Hc H1) as [H2|H2]; [done|by right].
Qed.

(** ** What a replacement leaves *)

(** The text before the first occurrence of [old], and the text after it. *)
Fixpoint index (old s : string) : option (string * string) :=
  if HasPrefix s old then Some (EmptyString, TrimPrefix s old)
  else match s with
       | EmptyString => None
       | String c s' => '(a, b) ← index old s'; Some (String c a, b)
       end.

Lemma index_spec old s :
  old ≠ "" →
  match index old s with
  | Some (a, b) => s = a +:+ old +:+ b ∧ ¬ occurs old a
  | None => ¬ occurs old s
  end.
Proof.
  intros Hold. induction s as [|c s IH].
  { cbn [index]. destruct (HasPrefix "" old) eqn:E.
    - apply HasPrefix_app in E. by destruct old.
    - rewrite <-Contains_occurs. cbn [Contains]. by rewrite E. }
  cbn [index]. destruct (HasPrefix (String c s) old) eqn:E.
  { split; [by apply HasPrefix_app|]. intros (x & y & H). by destruct x, old. }
  destruct (index old s) as [[a b]|]; cbn; [|].
  - destruct IH as [-> Ha]. split; [done|]. rewrite <-Contains_occurs in Ha |- *.
    cbn [Contains]. destruct (HasPrefix (String c a) old) eqn:P; [|done].
    apply HasPrefix_app in P. exfalso. revert E.
    change (String c (a +:+ old +:+ b)) with (String c a +:+ (old +:+ b)).
    rewrite P, append_assoc. unfold HasPrefix. by rewrite TrimPrefix_from_app.
  - rewrite <-Contains_occurs in IH |- *. cbn [Contains]. by rewrite E.
Qed.

Lemma replace_from_skip old m p s : replace_from old m (String.length p) (p +:+ s) =
  replace_from old m 0 s.
Proof. induction p as [|c p IH]; [done|]. exact IH. Qed.
Lemma replace_from_index old m s :
  old ≠ "" →
  replace_from old m 0 s =
  match index old s with
  | Some (a, b) => a +:+ m +:+ replace_from old m 0 b
  | None => s
  end.
Proof.
  intros Hold. induction s as [|c s IH].
  { cbn [index]. destruct (HasPrefix "" old) eqn:E; [|done].
    apply HasPrefix_app in E. by destruct old. }
  cbn [replace_from index]. destruct (HasPrefix (String c s) old) eqn:E.
  - apply HasPrefix_app in E. destruct old as [|d old]; [done|].
    change (String d old +:+ TrimPrefix (String c s) (String d old))
      with (String d (old +:+ TrimPrefix (String c s) (String d old))) in E.
    injection E as <- E. cbn [String.length Nat.pred].
    rewrite E at 1. rewrite replace_from_skip. done.
  - rewrite IH. by destruct (index old s) as [[a b]|].
Qed.

Lemma length_app_string a b : String.length (a +:+ b) = (String.length a + String.length b)%nat.
Proof.
  induction a as [|c a IH]; [done|].
  change (S (String.length (a +:+ b)) = S (String.length a + String.length b)). by rewrite IH.
Qed.

(** Nothing replaced is left, and nothing apart from the insertions appears. *)
Lemma ReplaceAll_free old m t s :
  old ≠ "" → apart t m → t = old ∨ ¬ occurs t s → ¬ occurs t (ReplaceAll s old m).
Proof.
  intros Hold Hm. unfold ReplaceAll. destruct (String.eqb_spec old "") as [|_]; [done|].
  induction s as [s IH] using (induction_ltof1 string String.length).
  unfold Wf_nat.ltof in IH. intros Ht.
  rewrite replace_from_index by done. generalize (index_spec old s Hold).
  destruct (index old s) as [[a b]|]; [|naive_solver].
  intros [-> Ha]. intros [H|H]%Hm.
  - destruct Ht as [->|Ht]; [done|]. apply Ht, occurs_app. by left.
  - revert H. apply (IH b).
    + rewrite !length_app_string. destruct old; [done|]. simpl. lia.
    + destruct Ht as [->|Ht]; [by left|]. right. intros H. apply Ht.
      apply occurs_app. right. apply occurs_app. by right.
Qed.
