(* ===== verification/Integrations.v ===== *)
(** * Workspace integrations: rows, tools and their policies

    The rows of the integration tables (store/store.go), the tools of a manifest, the
    addresses of tools and the policy of a tool.  The store and the API have each
    their own copy of the functions on manifests, addresses and policies: the store's
    are those with [Connector] in their name. *)

From S2P Require Import Prelude Schema GoStrings GoText.

#[local] Open Scope string_scope.

(** ** Rows *)

Record WorkspaceIntegration : Type := mkWorkspaceIntegration {
  Integration_ID : string;
  Integration_WorkspaceID : string;
  Integration_Slug : string;
  Integration_DisplayName : string;
  Integration_Kind : string;
  Integration_Transport : string;
  Integration_Endpoint : option string;
  Integration_Enabled : bool;
  Integration_ToolManifest : option json;
  Integration_Config : option json;
  Integration_AllowedTools : list string;
  Integration_DeniedTools : list string;
  Integration_CredentialRefKind : string;
  Integration_CredentialRefID : string;
  Integration_ApprovedBy : option Z;
  Integration_ApprovedAt : option time;
  Integration_ConnectedBy : option Z;
  Integration_ConnectedAt : option time;
  Integration_CreatedAt : time;
  Integration_UpdatedAt : time
}.
#[export] Instance eta_WorkspaceIntegration : Eta WorkspaceIntegration := λ r,
  mkWorkspaceIntegration (Integration_ID r) (Integration_WorkspaceID r) (Integration_Slug r)
    (Integration_DisplayName r) (Integration_Kind r) (Integration_Transport r)
    (Integration_Endpoint r) (Integration_Enabled r) (Integration_ToolManifest r)
    (Integration_Config r) (Integration_AllowedTools r) (Integration_DeniedTools r)
    (Integration_CredentialRefKind r) (Integration_CredentialRefID r)
    (Integration_ApprovedBy r) (Integration_ApprovedAt r) (Integration_ConnectedBy r)
    (Integration_ConnectedAt r) (Integration_CreatedAt r) (Integration_UpdatedAt r).

Record WorkspaceIntegrationCredential : Type := mkWorkspaceIntegrationCredential {
  Credential_IntegrationID : string;
  Credential_SecretEnc : string;
  Credential_RefreshEnc : option string
}.

Record WorkspaceIntegrationSource : Type := mkWorkspaceIntegrationSource {
  Source_ID : string;
  Source_WorkspaceID : string;
  Source_Slug : string;
  Source_DisplayName : string;
  Source_Kind : string;
  Source_Importer : string;
  Source_Config : option json;
  Source_CreatedAt : time;
  Source_UpdatedAt : time
}.
#[export] Instance eta_WorkspaceIntegrationSource : Eta WorkspaceIntegrationSource := λ r,
  mkWorkspaceIntegrationSource (Source_ID r) (Source_WorkspaceID r) (Source_Slug r)
    (Source_DisplayName r) (Source_Kind r) (Source_Importer r) (Source_Config r)
    (Source_CreatedAt r) (Source_UpdatedAt r).

Record WorkspaceIntegrationConnection : Type := mkWorkspaceIntegrationConnection {
  Connection_ID : string;
  Connection_WorkspaceID : string;
  Connection_SourceID : string;
  Connection_LegacyIntegrationID : option string;
  Connection_Slug : string;
  Connection_DisplayName : string;
  Connection_Scope : string;
  Connection_OwnerUserID : option Z;
  Connection_CredentialState : string;
  Connection_Enabled : bool;
  Connection_Config : option json;
  Connection_CreatedAt : time;
  Connection_UpdatedAt : time
}.
#[export] Instance eta_WorkspaceIntegrationConnection : Eta WorkspaceIntegrationConnection := λ r,
  mkWorkspaceIntegrationConnection (Connection_ID r) (Connection_WorkspaceID r)
    (Connection_SourceID r) (Connection_LegacyIntegrationID r) (Connection_Slug r)
    (Connection_DisplayName r) (Connection_Scope r) (Connection_OwnerUserID r)
    (Connection_CredentialState r) (Connection_Enabled r) (Connection_Config r)
    (Connection_CreatedAt r) (Connection_UpdatedAt r).

Record WorkspaceIntegrationToolSnapshot : Type := mkWorkspaceIntegrationToolSnapshot {
  Snapshot_ID : string;
  Snapshot_WorkspaceID : string;
  Snapshot_ConnectionID : string;
  Snapshot_ToolName : string;
  Snapshot_ToolAddress : string;
  Snapshot_LegacyToolID : option string;
  Snapshot_Description : string;
  Snapshot_InputSchema : option json;
  Snapshot_OutputSchema : option json;
  Snapshot_Annotations : option json;
  Snapshot_Access : string;
  Snapshot_Source : string;
  Snapshot_Provenance : option json;
  Snapshot_ToolsSyncedAt : time;
  Snapshot_StaleAfter : option time;
  Snapshot_CreatedAt : time;
  Snapshot_UpdatedAt : time
}.
#[export] Instance eta_WorkspaceIntegrationToolSnapshot : Eta WorkspaceIntegrationToolSnapshot := λ r,
  mkWorkspaceIntegrationToolSnapshot (Snapshot_ID r) (Snapshot_WorkspaceID r)
    (Snapshot_ConnectionID r) (Snapshot_ToolName r) (Snapshot_ToolAddress r)
    (Snapshot_LegacyToolID r) (Snapshot_Description r) (Snapshot_InputSchema r)
    (Snapshot_OutputSchema r) (Snapshot_Annotations r) (Snapshot_Access r)
    (Snapshot_Source r) (Snapshot_Provenance r) (Snapshot_ToolsSyncedAt r)
    (Snapshot_StaleAfter r) (Snapshot_CreatedAt r) (Snapshot_UpdatedAt r).

Record WorkspaceIntegrationToolPolicy : Type := mkWorkspaceIntegrationToolPolicy {
  ToolPolicy_ID : string;
  ToolPolicy_WorkspaceID : string;
  ToolPolicy_ConnectionID : string;
  ToolPolicy_ToolName : string;
  ToolPolicy_Policy : string;
  ToolPolicy_Source : string;
  ToolPolicy_CreatedAt : time;
  ToolPolicy_UpdatedAt : time
}.
#[export] Instance eta_WorkspaceIntegrationToolPolicy : Eta WorkspaceIntegrationToolPolicy := λ r,
  mkWorkspaceIntegrationToolPolicy (ToolPolicy_ID r) (ToolPolicy_WorkspaceID r)
    (ToolPolicy_ConnectionID r) (ToolPolicy_ToolName r) (ToolPolicy_Policy r)
    (ToolPolicy_Source r) (ToolPolicy_CreatedAt r) (ToolPolicy_UpdatedAt r).

(** A connection with its source, its tools and their policies. *)
Record WorkspaceIntegrationConnectorProjection : Type := mkConnectorProjection {
  Projection_Source : WorkspaceIntegrationSource;
  Projection_Connection : WorkspaceIntegrationConnection;
  Projection_Tools : list WorkspaceIntegrationToolSnapshot;
  Projection_Policies : list WorkspaceIntegrationToolPolicy
}.

(** ** Decoding into Go types *)

(** What a Go type accepts; null is no value for every type. *)
Inductive shape : Type :=
| SAny
| SString
| SBool
| SInt
| SArr (element : shape)
| SMap (element : shape)
| SStruct (fields : list (string * shape)).
Fixpoint fits (sh : shape) (j : json) : bool :=
  match j with
  | JNull => true
  | _ =>
      match sh with
      | SAny => true
      | SString => match j with JStr _ => true | _ => false end
      | SBool => match j with JBool _ => true | _ => false end
      | SInt => match j with JNum n => is_some_b (int_range n) | _ => false end
      | SArr e => match j with JArr l => forallb (fits e) l | _ => false end
      | SMap e => match j with JObj fs => forallb (λ kv, fits e kv.2) fs | _ => false end
      | SStruct fields =>
          match j with
          | JObj fs => forallb (λ f, forallb (λ kv,
              implb (EqualFold kv.1 f.1) (fits f.2 kv.2)) fs) fields
          | _ => false
          end
      end
  end.

(** The fields of a struct: keys fold, the last one counts, null leaves the field. *)
Fixpoint get_string (key : string) (fs : list (string * json)) (v : string) : string :=
  match fs with
  | [] => v
  | (k, j) :: rest =>
      get_string key rest (match j with JStr s => if EqualFold k key then s else v | _ => v end)
  end.
Fixpoint get_raw (key : string) (fs : list (string * json)) (v : option json) : option json :=
  match fs with
  | [] => v
  | (k, j) :: rest => get_raw key rest (if EqualFold k key then Some j else v)
  end.
(** A pointer: null is nil. *)
Definition get_pointer (key : string) (fs : list (string * json)) : option json :=
  match get_raw key fs None with Some JNull => None | o => o end.
(** A map of strings; a second object adds its keys. *)
Definition string_of (j : json) : string := match j with JStr s => s | _ => EmptyString end.
Definition add_entries (m : gmap string string) (fs : list (string * json)) : gmap string string :=
  foldl (λ m kv, <[kv.1 := string_of kv.2]> m) m fs.
Fixpoint get_map (key : string) (fs : list (string * json)) (m : gmap string string)
    : gmap string string :=
  match fs with
  | [] => m
  | (k, j) :: rest =>
      get_map key rest
        (if EqualFold k key
         then match j with JObj entries => add_entries m entries | _ => ∅ end else m)
  end.
Definition fields_of (j : json) : list (string * json) :=
  match j with JObj fs => fs | _ => [] end.
(** [json.Unmarshal] into a struct: its fields, or an error. *)
Definition decode_struct (sh : list (string * shape)) (j : json) : option (list (string * json)) :=
  if fits (SStruct sh) j then Some (fields_of j) else None.

(** ** The tools of a manifest *)

Definition http_value : shape := SStruct
  [("source", SString); ("name", SString); ("value", SAny); ("default", SAny);
   ("enum", SArr SString); ("allow", SArr SString); ("allow_config", SString); ("min", SInt);
   ("max", SInt); ("omit_empty", SBool); ("format", SString); ("template", SString)].
Definition http_auth : shape := SStruct
  [("type", SString); ("required", SBool); ("scheme", SString); ("token_url", SString);
   ("header", SString); ("client_id", SString); ("resource", SString)].
Definition http_body : shape := SStruct
  [("encoding", SString); ("name", SString); ("required", SBool); ("query", SString);
   ("fields", SArr (SStruct [("path", SString); ("value", http_value); ("array", SBool);
     ("raw", SBool); ("required", SBool)]))].
Definition http_response : shape := SStruct
  [("fields", SMap SString); ("wrap", SString); ("exclude_if_present", SString)].
Definition workspaceIntegrationHTTPRequest : list (string * shape) :=
  [("method", SString); ("url", SString); ("path", SString); ("headers", SMap SString);
   ("header_params", SMap http_value); ("path_params", SMap http_value);
   ("query", SMap http_value); ("body", http_body); ("auth", http_auth);
   ("response", http_response)].
Definition workspaceIntegrationMCPRemoteToolSpec : list (string * shape) :=
  [("name", SString); ("auth", http_auth)].

Record workspaceIntegrationManifestTool : Type := mkManifestTool {
  Tool_Name : string;
  Tool_Description : string;
  Tool_Parameters : option json;
  Tool_InputSchema : option json;
  Tool_Schema : option json;
  Tool_Access : string;
  Tool_Source : string;
  Tool_Request : option json;
  Tool_MCPRemote : option json
}.
Definition manifest_tool_fields : list (string * shape) :=
  [("name", SString); ("description", SString); ("access", SString); ("source", SString);
   ("request", SStruct workspaceIntegrationHTTPRequest);
   ("mcp_remote", SStruct workspaceIntegrationMCPRemoteToolSpec)].
Definition decode_tool (j : json) : option workspaceIntegrationManifestTool :=
  fs ← decode_struct manifest_tool_fields j;
  Some (mkManifestTool (get_string "name" fs "") (get_string "description" fs "")
    (get_raw "parameters" fs None) (get_raw "input_schema" fs None) (get_raw "schema" fs None)
    (get_string "access" fs "") (get_string "source" fs "")
    (get_pointer "request" fs) (get_pointer "mcp_remote" fs)).
(** A list, nil for null. *)
Definition decode_list {A} (decode : json → option A) (j : json) : option (list A) :=
  match j with
  | JNull => Some []
  | JArr l => mapM decode l
  | _ => None
  end.
Definition parseWorkspaceIntegrationManifest (manifest : option json)
    : option (list workspaceIntegrationManifestTool) :=
  match manifest with
  | None => Some []
  | Some j => decode_list decode_tool j
  end.

Record workspaceIntegrationV1ManifestTool : Type := mkV1Tool {
  V1_Name : string;
  V1_Description : string;
  V1_Parameters : option json;
  V1_InputSchema : option json;
  V1_Schema : option json;
  V1_OutputSchema : option json;
  V1_Annotations : option json;
  V1_Request : option json;
  V1_Access : string;
  V1_Source : string
}.
#[export] Instance eta_V1Tool : Eta workspaceIntegrationV1ManifestTool := λ r,
  mkV1Tool (V1_Name r) (V1_Description r) (V1_Parameters r) (V1_InputSchema r) (V1_Schema r)
    (V1_OutputSchema r) (V1_Annotations r) (V1_Request r) (V1_Access r) (V1_Source r).
Definition decode_v1_tool (j : json) : option workspaceIntegrationV1ManifestTool :=
  fs ← decode_struct [("name", SString); ("description", SString); ("access", SString);
                      ("source", SString)] j;
  Some (mkV1Tool (get_string "name" fs "") (get_string "description" fs "")
    (get_raw "parameters" fs None) (get_raw "input_schema" fs None) (get_raw "schema" fs None)
    (get_raw "output_schema" fs None) (get_raw "annotations" fs None) (get_raw "request" fs None)
    (get_string "access" fs "") (get_string "source" fs "")).

(** ** Policies *)

Definition workspaceIntegrationPolicyAllow : string := "allow".
Definition workspaceIntegrationPolicyRequireApproval : string := "require_approval".
Definition workspaceIntegrationPolicyBlock : string := "block".

Definition workspaceIntegrationNormalizePolicyState (policy : string) : option string :=
  let p := ToLower (TrimSpace policy) in
  if one_of ["allow"; "allowed"] p then Some workspaceIntegrationPolicyAllow
  else if one_of ["require_approval"; "approval_required"; "require-approval"; "approval-required"] p
  then Some workspaceIntegrationPolicyRequireApproval
  else if one_of ["block"; "blocked"; "deny"; "denied"] p
  then Some workspaceIntegrationPolicyBlock
  else None.
Definition workspaceIntegrationPolicyLabel (policyState : string) : string :=
  if String.eqb policyState workspaceIntegrationPolicyAllow then "allowed"
  else if String.eqb policyState workspaceIntegrationPolicyRequireApproval
  then "approval_required" else "blocked".

(** The policies in an integration's configuration. *)
Definition policy_config : list (string * shape) :=
  [("tool_policy", SMap SString); ("tool_policies", SMap SString)].
Definition workspaceIntegrationConfiguredToolPolicy (integration : WorkspaceIntegration)
    (toolName : string) : option string :=
  match Integration_Config integration with
  | None => None
  | Some config =>
      fs ← decode_struct policy_config config;
      match get_map "tool_policy" fs ∅ !! toolName with
      | Some policy => workspaceIntegrationNormalizePolicyState policy
      | None =>
          match get_map "tool_policies" fs ∅ !! toolName with
          | Some policy => workspaceIntegrationNormalizePolicyState policy
          | None => None
          end
      end
  end.
(** The lists name a tool by itself or with the integration's slug. *)
Definition names_tool (integration : WorkspaceIntegration) (toolName entry : string) : bool :=
  String.eqb entry toolName || String.eqb entry (Integration_Slug integration +:+ "." +:+ toolName).
Definition workspaceIntegrationToolPolicyState (integration : WorkspaceIntegration)
    (toolName : string) : string :=
  let fullName := Integration_Slug integration +:+ "." +:+ toolName in
  if existsb (names_tool integration toolName) (Integration_DeniedTools integration)
  then workspaceIntegrationPolicyBlock
  else
    match workspaceIntegrationConfiguredToolPolicy integration toolName with
    | Some policy => policy
    | None =>
        match workspaceIntegrationConfiguredToolPolicy integration fullName with
        | Some policy => policy
        | None =>
            match Integration_AllowedTools integration with
            | [] => workspaceIntegrationPolicyAllow
            | allowed =>
                if existsb (names_tool integration toolName) allowed
                then workspaceIntegrationPolicyAllow else workspaceIntegrationPolicyBlock
            end
        end
    end.
Definition workspaceIntegrationToolAllowed (integration : WorkspaceIntegration)
    (toolName : string) : bool :=
  negb (String.eqb (workspaceIntegrationToolPolicyState integration toolName)
          workspaceIntegrationPolicyBlock).

(** The copy of the store. *)
Definition workspaceIntegrationConnectorNormalizePolicy (policy : string) : option string :=
  let p := ToLower (TrimSpace policy) in
  if one_of ["allow"; "allowed"] p then Some "allow"
  else if one_of ["require_approval"; "approval_required"; "require-approval"; "approval-required"] p
  then Some "require_approval"
  else if one_of ["block"; "blocked"; "deny"; "denied"] p then Some "block"
  else None.
Definition workspaceIntegrationConnectorConfiguredToolPolicy (integration : WorkspaceIntegration)
    (toolName : string) : option string :=
  match Integration_Config integration with
  | None => None
  | Some config =>
      fs ← decode_struct policy_config config;
      match get_map "tool_policy" fs ∅ !! toolName with
      | Some policy => workspaceIntegrationConnectorNormalizePolicy policy
      | None =>
          match get_map "tool_policies" fs ∅ !! toolName with
          | Some policy => workspaceIntegrationConnectorNormalizePolicy policy
          | None => None
          end
      end
  end.
Definition workspaceIntegrationConnectorToolPolicy (integration : WorkspaceIntegration)
    (toolName : string) : string :=
  let fullName := Integration_Slug integration +:+ "." +:+ toolName in
  if existsb (names_tool integration toolName) (Integration_DeniedTools integration) then "block"
  else
    match workspaceIntegrationConnectorConfiguredToolPolicy integration toolName with
    | Some policy => policy
    | None =>
        match workspaceIntegrationConnectorConfiguredToolPolicy integration fullName with
        | Some policy => policy
        | None =>
            match Integration_AllowedTools integration with
            | [] => "allow"
            | allowed =>
                if existsb (names_tool integration toolName) allowed then "allow" else "block"
            end
        end
    end.

(** ** Addresses *)

Section Addresses.
  Context {unicode : GoUnicode}.

(** Runs of other runes become one dash. *)
Fixpoint dashed (word : string → bool) (lastDash : bool) (rs : list string) : string :=
  match rs with
  | [] => EmptyString
  | r :: rest =>
      if word r then r +:+ dashed word false rest
      else if lastDash then dashed word true rest
      else "-" +:+ dashed word true rest
  end.
Definition segment (word : string → bool) (value fallback : string) : string :=
  let value := ToLower (TrimSpace value) in
  let value := if String.eqb value "" then ToLower (TrimSpace fallback) else value in
  let seg := Trim "-" (dashed word false (runes value)) in
  if String.eqb seg "" then "item" else seg.

(** Letters, digits and underscores; the store's are those of ASCII. *)
Definition word_rune (r : string) : bool :=
  match r with
  | String c EmptyString => ascii_word c
  | String c _ => bool_decide (192 ≤ ascii_code c)%Z && wide_word r
  | EmptyString => false
  end.
Definition ascii_word_rune (r : string) : bool :=
  match r with
  | String c EmptyString =>
      let n := ascii_code c in
      bool_decide (97 ≤ n ≤ 122)%Z || bool_decide (48 ≤ n ≤ 57)%Z || Ascii.eqb c "_"
  | _ => false
  end.
Definition workspaceIntegrationAddressSegment (value fallback : string) : string :=
  segment word_rune value fallback.
Definition workspaceIntegrationConnectorAddressSegment (value fallback : string) : string :=
  segment ascii_word_rune value fallback.

Definition workspaceIntegrationToolAddressPrefix : string := "wi.".
Definition workspaceIntegrationLegacyToolAddressPrefix : string := "wi.workspace.".
Definition workspaceIntegrationStructuredToolAddressFromParts
    (workspaceID sourceSlug connectionSlug toolName : string) : string :=
  workspaceIntegrationToolAddressPrefix +:+
  workspaceIntegrationAddressSegment workspaceID "workspace" +:+ "." +:+
  workspaceIntegrationAddressSegment sourceSlug "source" +:+ "." +:+
  workspaceIntegrationAddressSegment connectionSlug "connection" +:+ "." +:+
  workspaceIntegrationAddressSegment toolName "tool".
Definition workspaceIntegrationConnectorToolAddress
    (workspaceID sourceSlug connectionSlug toolName : string) : string :=
  "wi." +:+ workspaceIntegrationConnectorAddressSegment workspaceID "workspace" +:+ "." +:+
  workspaceIntegrationConnectorAddressSegment sourceSlug "source" +:+ "." +:+
  workspaceIntegrationConnectorAddressSegment connectionSlug "connection" +:+ "." +:+
  workspaceIntegrationConnectorAddressSegment toolName "tool".

(** The workspace, the source, the connection and the tool of an address; the workspace
    is empty in a legacy one. *)
Record tool_address : Type := mkToolAddress {
  Address_Workspace : string;
  Address_Source : string;
  Address_Connection : string;
  Address_Tool : string
}.
Definition workspaceIntegrationParseStructuredToolAddress (address : string)
    : option tool_address :=
  let trimmed := TrimSpace address in
  match TrimPrefix_from trimmed workspaceIntegrationLegacyToolAddressPrefix with
  | Some rest =>
      match SplitN "." 3 rest with
      | [source; connection; tool] =>
          if String.eqb source "" || String.eqb connection "" || String.eqb tool "" then None
          else Some (mkToolAddress "" source connection tool)
      | _ => None
      end
  | None =>
      rest ← TrimPrefix_from trimmed workspaceIntegrationToolAddressPrefix;
      match SplitN "." 4 rest with
      | [workspace; source; connection; tool] =>
          if String.eqb workspace "" || String.eqb source "" || String.eqb connection "" ||
             String.eqb tool "" then None
          else Some (mkToolAddress workspace source connection tool)
      | _ => None
      end
  end.

(** *** Sources and connections of a row's tools *)

Definition googleWorkspaceIntegrationSlug : string := "google-workspace".
Definition workspaceIntegrationIsGoogleWorkspaceProvider (providerKind providerSlug : string) : bool :=
  EqualFold (TrimSpace providerKind) "google_workspace" ||
  EqualFold (TrimSpace providerSlug) googleWorkspaceIntegrationSlug.
Definition workspaceIntegrationGoogleServiceSourceSlugForToolName (toolName : string)
    : option string :=
  let name := ToLower (TrimSpace toolName) in
  if HasPrefix name "gmail_" then Some "gmail"
  else if HasPrefix name "drive_" then Some "google-drive"
  else if HasPrefix name "calendar_" then Some "google-calendar"
  else if HasPrefix name "docs_" then Some "google-docs"
  else None.
Definition workspaceIntegrationGoogleServiceToolSourceSlug (integration : WorkspaceIntegration)
    (toolName : string) : option string :=
  if negb (workspaceIntegrationIsGoogleWorkspaceProvider (Integration_Kind integration)
             (Integration_Slug integration)) then None
  else workspaceIntegrationGoogleServiceSourceSlugForToolName toolName.
Definition workspaceIntegrationProjectionSourceSlug (integration : WorkspaceIntegration) : string :=
  let source := ReplaceAll (TrimSpace (Integration_Kind integration)) "_" "-" in
  let source := if String.eqb source "" then Integration_Slug integration else source in
  workspaceIntegrationAddressSegment source (Integration_Slug integration).
Definition workspaceIntegrationProjectionToolSourceSlug (integration : WorkspaceIntegration)
    (tool : workspaceIntegrationManifestTool) : string :=
  match workspaceIntegrationGoogleServiceToolSourceSlug integration (Tool_Name tool) with
  | Some source => source
  | None =>
      let source := ToLower (TrimSpace (Tool_Source tool)) in
      if negb (String.eqb source "")
      then workspaceIntegrationAddressSegment source
             (workspaceIntegrationProjectionSourceSlug integration)
      else workspaceIntegrationProjectionSourceSlug integration
  end.
Definition workspaceIntegrationProjectionConnectionSlug (integration : WorkspaceIntegration)
    : string :=
  workspaceIntegrationAddressSegment (Integration_Slug integration) "connection".
Definition workspaceIntegrationStructuredToolAddress (integration : WorkspaceIntegration)
    (tool : workspaceIntegrationManifestTool) : string :=
  workspaceIntegrationStructuredToolAddressFromParts (Integration_WorkspaceID integration)
    (workspaceIntegrationProjectionToolSourceSlug integration tool)
    (workspaceIntegrationProjectionConnectionSlug integration) (Tool_Name tool).
End Addresses.
