(* ===== verification/IntegrationStore.v ===== *)
(** * Workspace integrations: the store (store/workspace_integrations_postgres.go)

    [Integrations] adds the tables of the integrations to the world; [stmt] is one
    statement or transaction, which can fail as a whole.  A change of an integration's
    row is followed by its projection on the tables of sources, connections, tool
    snapshots and tool policies, statement by statement, without a transaction around
    them. *)

From S2P Require Import Prelude Schema HostStore CatalogStore World GoStrings GoText.
From S2P Require Import Integrations.

#[local] Open Scope string_scope.

(** ** State *)

(** A call to a service behind an integration: the integration's slug, the tool and the
    arguments. *)
Record upstream_call : Type := mkUpstreamCall {
  Upstream_Integration : WorkspaceIntegration;
  Upstream_Tool : workspaceIntegrationManifestTool;
  Upstream_Args : list (string * json)
}.

Record Integrations : Type := mkIntegrations {
  wi_world : World;
  wi_integrations : gmap string WorkspaceIntegration;
  wi_credentials : gmap string WorkspaceIntegrationCredential;  (* by integration *)
  wi_sources : gmap string WorkspaceIntegrationSource;
  wi_connections : gmap string WorkspaceIntegrationConnection;
  wi_snapshots : gmap string WorkspaceIntegrationToolSnapshot;
  wi_policies : gmap string WorkspaceIntegrationToolPolicy;
  wi_calls : list upstream_call    (* newest first *)
}.
#[export] Instance eta_Integrations : Eta Integrations := λ r,
  mkIntegrations (wi_world r) (wi_integrations r) (wi_credentials r) (wi_sources r)
    (wi_connections r) (wi_snapshots r) (wi_policies r) (wi_calls r).
Definition I := ST Integrations.

Definition in_world {A} (m : M A) : I A := λ s,
  let '(r, w) := m (wi_world s) in (r, s <| wi_world := w |>).
Definition in_db {A} (q : Q A) : I A :=
  in_world (λ w, let '(r, d) := q (w_db w) in (r, w <| w_db := d |>)).
Definition stmt {A} (m : I A) : I A :=
  let! failed := in_world pop_fault in if failed then fail ErrTransient else tx m.

(** A parameter of type UUID: an empty text is refused. *)
Definition uuid_param (id : string) : I unit :=
  if String.eqb id "" then fail (ErrText "invalid input syntax for type uuid") else ret tt.

(** [ORDER BY f, g]. *)
Definition text_lex {V} (f g : V → string) : relation V := λ a b,
  (f a ≠ f b ∧ text_le (f a) (f b) = true) ∨ (f a = f b ∧ text_le (g a) (g b) = true).
#[export] Instance text_lex_dec {V} (f g : V → string) : RelDecision (text_lex f g).
Proof. intros a b. unfold text_lex. apply _. Defined.
Definition order_by {V} (f g : V → string) (l : list V) : list V := merge_sort (text_lex f g) l.

(** ** Integrations and their credentials *)

Definition integrations_of (workspaceID : string) (s : Integrations) : list WorkspaceIntegration :=
  order_by Integration_DisplayName Integration_Slug
    (select (λ r, String.eqb (Integration_WorkspaceID r) workspaceID) (wi_integrations s)).
Definition ListWorkspaceIntegrations (workspaceID : string) : I (list WorkspaceIntegration) :=
  stmt (gets (integrations_of workspaceID)).
(** The enabled integrations of the machine's workspace. *)
Definition machine_integrations (machineID : string) (s : Integrations)
    : list WorkspaceIntegration :=
  match db_machines (w_db (wi_world s)) !! machineID with
  | Some m =>
      order_by Integration_Slug Integration_ID
        (select (λ r, bool_decide (Machine_WorkspaceID m = Some (Integration_WorkspaceID r)) &&
                      Integration_Enabled r) (wi_integrations s))
  | None => []
  end.
Definition ListEnabledWorkspaceIntegrationsForMachine (machineID : string)
    : I (list WorkspaceIntegration) :=
  stmt (gets (machine_integrations machineID)).

Definition GetWorkspaceForMachine (machineID : string) : Q Workspace :=
  let! db := get in
  query_row (m ← db_machines db !! machineID; w ← Machine_WorkspaceID m; db_workspaces db !! w).

Definition GetWorkspaceIntegrationCredential (integrationID : string)
    : I WorkspaceIntegrationCredential :=
  stmt (uuid_param integrationID ;;
        let! s := get in query_row (wi_credentials s !! integrationID)).
Definition SetWorkspaceIntegrationCredential (credential : WorkspaceIntegrationCredential)
    : I unit :=
  stmt (let! s := get in
        references (is_some_b (wi_integrations s !! Credential_IntegrationID credential)) ;;
        modify (set wi_credentials <[Credential_IntegrationID credential := credential]>)).

(** ** Sources, connections, snapshots, policies *)

Definition empty_object : json := JObj [].
Definition any_object : json :=
  JObj [("type", JStr "object"); ("additionalProperties", JBool true)].
Definition or_default (d : json) (o : option json) : option json := Some (default d o).

Definition UpsertWorkspaceIntegrationSource (source : WorkspaceIntegrationSource)
    : I WorkspaceIntegrationSource :=
  let source := source <| Source_Config ::= or_default empty_object |> in
  stmt (
    let! t := in_db now in
    let! s := get in
    let! row :=
      match head (select (λ r,
          String.eqb (Source_WorkspaceID r) (Source_WorkspaceID source) &&
          String.eqb (Source_Slug r) (Source_Slug source)) (wi_sources s)) with
      | Some old => ret (source <| Source_ID := Source_ID old |>
          <| Source_CreatedAt := Source_CreatedAt old |> <| Source_UpdatedAt := t |>)
      | None =>
          references (is_some_b (db_workspaces (w_db (wi_world s)) !! Source_WorkspaceID source)) ;;
          let! id := in_db gen_random_uuid in
          unique (negb (is_some_b (wi_sources s !! id))) ;;
          ret (source <| Source_ID := id |> <| Source_CreatedAt := t |> <| Source_UpdatedAt := t |>)
      end in
    modify (set wi_sources <[Source_ID row := row]>) ;;
    ret row).

Definition connection_valid (c : WorkspaceIntegrationConnection) : bool :=
  one_of ["workspace"; "user"] (Connection_Scope c) &&
  one_of ["connected"; "disconnected"; "reauth_required"; "unknown"] (Connection_CredentialState c).
Definition connection_defaults (connection : WorkspaceIntegrationConnection)
    : WorkspaceIntegrationConnection :=
  connection
    <| Connection_Scope ::= λ v, if String.eqb v "" then "workspace" else v |>
    <| Connection_CredentialState ::= λ v, if String.eqb v "" then "connected" else v |>
    <| Connection_Config ::= or_default empty_object |>.
Definition UpsertWorkspaceIntegrationConnection (given : WorkspaceIntegrationConnection)
    : I WorkspaceIntegrationConnection :=
  let connection := connection_defaults given in
  stmt (
    let! t := in_db now in
    let! s := get in
    (if connection_valid connection then ret tt else fail ErrCheckViolation) ;;
    references (is_some_b (wi_sources s !! Connection_SourceID connection)) ;;
    references (match Connection_LegacyIntegrationID connection with
                | Some id => is_some_b (wi_integrations s !! id)
                | None => true
                end) ;;
    let! row :=
      match head (select (λ r,
          String.eqb (Connection_SourceID r) (Connection_SourceID connection) &&
          String.eqb (Connection_Scope r) (Connection_Scope connection) &&
          String.eqb (Connection_Slug r) (Connection_Slug connection)) (wi_connections s)) with
      | Some old => ret (connection <| Connection_ID := Connection_ID old |>
          <| Connection_WorkspaceID := Connection_WorkspaceID old |>
          <| Connection_LegacyIntegrationID ::= λ id,
               match id with Some _ => id | None => Connection_LegacyIntegrationID old end |>
          <| Connection_CreatedAt := Connection_CreatedAt old |> <| Connection_UpdatedAt := t |>)
      | None =>
          let! id := in_db gen_random_uuid in
          unique (negb (is_some_b (wi_connections s !! id))) ;;
          ret (connection <| Connection_ID := id |> <| Connection_CreatedAt := t |>
                          <| Connection_UpdatedAt := t |>)
      end in
    modify (set wi_connections <[Connection_ID row := row]>) ;;
    ret row).
Definition ListWorkspaceIntegrationConnectionsByLegacyIntegration (integrationID : string)
    : I (list WorkspaceIntegrationConnection) :=
  stmt (gets (λ s, order_by Connection_Slug Connection_ID
    (select (λ r, bool_decide (Connection_LegacyIntegrationID r = Some integrationID))
       (wi_connections s)))).

(** Deleting a connection deletes its snapshots and its policies. *)
Definition delete_connection (id : string) (s : Integrations) : Integrations :=
  s <| wi_connections ::= delete id |>
    <| wi_snapshots ::= delete_where (λ r, String.eqb (Snapshot_ConnectionID r) id) |>
    <| wi_policies ::= delete_where (λ r, String.eqb (ToolPolicy_ConnectionID r) id) |>.
Definition delete_connections (ids : list string) (s : Integrations) : Integrations :=
  foldl (λ s id, delete_connection id s) s ids.

(** [time.Time{}]. *)
Definition zero_time : time := -62135596800 * second.
Definition snapshot_defaults (t : time) (connectionID : string)
    (snapshot : WorkspaceIntegrationToolSnapshot) : WorkspaceIntegrationToolSnapshot :=
  snapshot
    <| Snapshot_InputSchema ::= or_default any_object |>
    <| Snapshot_Annotations ::= or_default empty_object |>
    <| Snapshot_Provenance ::= or_default empty_object |>
    <| Snapshot_ToolsSyncedAt ::= λ v, if bool_decide (v = zero_time) then t else v |>
    <| Snapshot_ConnectionID ::= λ id, if String.eqb id "" then connectionID else id |>.
Definition insert_snapshot (t : time) (connectionID : string)
    (given : WorkspaceIntegrationToolSnapshot) : I unit :=
  let snapshot := snapshot_defaults t connectionID given in
  let! s := get in
  (if one_of ["read"; "write"] (Snapshot_Access snapshot) then ret tt else fail ErrCheckViolation) ;;
  references (is_some_b (wi_connections s !! Snapshot_ConnectionID snapshot)) ;;
  let! id := in_db gen_random_uuid in
  unique (negb (is_some_b (wi_snapshots s !! id)) &&
          bool_decide (select (λ r,
            String.eqb (Snapshot_ToolAddress r) (Snapshot_ToolAddress snapshot) ||
            (String.eqb (Snapshot_ConnectionID r) (Snapshot_ConnectionID snapshot) &&
             String.eqb (Snapshot_ToolName r) (Snapshot_ToolName snapshot)))
            (wi_snapshots s) = [])) ;;
  modify (set wi_snapshots <[id := snapshot <| Snapshot_ID := id |>
    <| Snapshot_CreatedAt := t |> <| Snapshot_UpdatedAt := t |>]>).
Definition ReplaceWorkspaceIntegrationToolSnapshots (connectionID : string)
    (snapshots : list WorkspaceIntegrationToolSnapshot) : I unit :=
  stmt (
    let! t := in_db now in
    modify (set wi_snapshots
      (delete_where (λ r, String.eqb (Snapshot_ConnectionID r) connectionID))) ;;
    for_each snapshots (insert_snapshot t connectionID)).

Definition policy_defaults (connectionID : string) (policy : WorkspaceIntegrationToolPolicy)
    : WorkspaceIntegrationToolPolicy :=
  policy
    <| ToolPolicy_Source ::= λ v, if String.eqb v "" then "api" else v |>
    <| ToolPolicy_ConnectionID ::= λ id, if String.eqb id "" then connectionID else id |>.
Definition insert_policy (t : time) (connectionID : string)
    (given : WorkspaceIntegrationToolPolicy) : I unit :=
  let policy := policy_defaults connectionID given in
  let! s := get in
  (if one_of ["allow"; "require_approval"; "block"] (ToolPolicy_Policy policy)
   then ret tt else fail ErrCheckViolation) ;;
  references (is_some_b (wi_connections s !! ToolPolicy_ConnectionID policy)) ;;
  let! id := in_db gen_random_uuid in
  unique (negb (is_some_b (wi_policies s !! id)) &&
          bool_decide (select (λ r,
            String.eqb (ToolPolicy_ConnectionID r) (ToolPolicy_ConnectionID policy) &&
            String.eqb (ToolPolicy_ToolName r) (ToolPolicy_ToolName policy))
            (wi_policies s) = [])) ;;
  modify (set wi_policies <[id := policy <| ToolPolicy_ID := id |>
    <| ToolPolicy_CreatedAt := t |> <| ToolPolicy_UpdatedAt := t |>]>).
Definition ReplaceWorkspaceIntegrationToolPolicies (connectionID : string)
    (policies : list WorkspaceIntegrationToolPolicy) : I unit :=
  stmt (
    let! t := in_db now in
    modify (set wi_policies
      (delete_where (λ r, String.eqb (ToolPolicy_ConnectionID r) connectionID))) ;;
    for_each policies (insert_policy t connectionID)).

(** The connections of a workspace with what belongs to them. *)
Definition projection_of (tools : list WorkspaceIntegrationToolSnapshot)
    (policies : list WorkspaceIntegrationToolPolicy) (source : WorkspaceIntegrationSource)
    (c : WorkspaceIntegrationConnection) : WorkspaceIntegrationConnectorProjection :=
  mkConnectorProjection source c
    (List.filter (λ r, String.eqb (Snapshot_ConnectionID r) (Connection_ID c)) tools)
    (List.filter (λ r, String.eqb (ToolPolicy_ConnectionID r) (Connection_ID c)) policies).
Definition sources_of (workspaceID : string) (s : Integrations) : list WorkspaceIntegrationSource :=
  order_by Source_DisplayName Source_Slug
    (select (λ r, String.eqb (Source_WorkspaceID r) workspaceID) (wi_sources s)).
Definition connections_of (workspaceID : string) (s : Integrations)
    : list WorkspaceIntegrationConnection :=
  order_by Connection_DisplayName Connection_Slug
    (select (λ r, String.eqb (Connection_WorkspaceID r) workspaceID) (wi_connections s)).
Definition snapshots_of (workspaceID : string) (s : Integrations)
    : list WorkspaceIntegrationToolSnapshot :=
  order_by Snapshot_ConnectionID Snapshot_ToolName
    (select (λ r, String.eqb (Snapshot_WorkspaceID r) workspaceID) (wi_snapshots s)).
Definition policies_of (workspaceID : string) (s : Integrations)
    : list WorkspaceIntegrationToolPolicy :=
  order_by ToolPolicy_ConnectionID ToolPolicy_ToolName
    (select (λ r, String.eqb (ToolPolicy_WorkspaceID r) workspaceID) (wi_policies s)).
Definition join_projections (sources : list WorkspaceIntegrationSource)
    (connections : list WorkspaceIntegrationConnection)
    (tools : list WorkspaceIntegrationToolSnapshot) (policies : list WorkspaceIntegrationToolPolicy)
    : list WorkspaceIntegrationConnectorProjection :=
  omap (λ c,
    (λ source, projection_of tools policies source c) <$>
      head (List.filter (λ src, String.eqb (Source_ID src) (Connection_SourceID c)) sources))
    connections.
Definition ListWorkspaceIntegrationConnectorProjections (workspaceID : string)
    : I (list WorkspaceIntegrationConnectorProjection) :=
  let! sources := stmt (gets (sources_of workspaceID)) in
  let! connections := stmt (gets (connections_of workspaceID)) in
  let! tools := stmt (gets (snapshots_of workspaceID)) in
  let! policies := stmt (gets (policies_of workspaceID)) in
  ret (join_projections sources connections tools policies).

(** ** The projection of an integration *)

Definition workspaceIntegrationConnectorIsGoogleWorkspace (integration : WorkspaceIntegration)
    : bool :=
  EqualFold (TrimSpace (Integration_Kind integration)) "google_workspace" ||
  EqualFold (TrimSpace (Integration_Slug integration)) "google-workspace".
Definition workspaceIntegrationConnectorGoogleServiceToolSourceSlug
    (integration : WorkspaceIntegration) (toolName : string) : option string :=
  if negb (workspaceIntegrationConnectorIsGoogleWorkspace integration) then None
  else
    let name := ToLower (TrimSpace toolName) in
    if HasPrefix name "gmail_" then Some "gmail"
    else if HasPrefix name "drive_" then Some "google-drive"
    else if HasPrefix name "calendar_" then Some "google-calendar"
    else if HasPrefix name "docs_" then Some "google-docs"
    else None.
Definition workspaceIntegrationConnectorSourceSlug (integration : WorkspaceIntegration) : string :=
  let kind := workspaceIntegrationConnectorAddressSegment
    (ReplaceAll (Integration_Kind integration) "_" "-") "" in
  if negb (String.eqb kind "") then kind
  else workspaceIntegrationConnectorAddressSegment (Integration_Slug integration) "integration".
Definition workspaceIntegrationConnectorToolSourceSlug (integration : WorkspaceIntegration)
    (tool : workspaceIntegrationV1ManifestTool) : string :=
  match workspaceIntegrationConnectorGoogleServiceToolSourceSlug integration (V1_Name tool) with
  | Some source => source
  | None =>
      let source := ToLower (TrimSpace (V1_Source tool)) in
      if negb (String.eqb source "") && workspaceIntegrationConnectorIsGoogleWorkspace integration
      then workspaceIntegrationConnectorAddressSegment source
             (workspaceIntegrationConnectorSourceSlug integration)
      else workspaceIntegrationConnectorSourceSlug integration
  end.

(** Names to show. *)
Fixpoint ToUpper (s : string) : string :=
  match s with
  | EmptyString => EmptyString
  | String c s' =>
      let n := Ascii.nat_of_ascii c in
      String (if Nat.leb 97 n && Nat.leb n 122 then Ascii.ascii_of_nat (n - 32) else c) (ToUpper s')
  end.
Definition title_word (part : string) : string :=
  match part with
  | EmptyString => EmptyString
  | String c rest => ToUpper (char1 c) +:+ ToLower rest
  end.
Definition Fields (s : string) : list string :=
  List.filter (λ p, negb (String.eqb p ""))
    (Split " " (string_of_list_ascii ((λ c, if is_space c then " "%char else c) <$>
                  list_ascii_of_string s))).
Definition workspaceIntegrationConnectorTitle (value : string) : string :=
  String.concat " " (title_word <$> Fields value).
Definition workspaceIntegrationConnectorSourceDisplayNameForSlug
    (integration : WorkspaceIntegration) (sourceSlug : string) : string :=
  let google := if workspaceIntegrationConnectorIsGoogleWorkspace integration
    then assoc sourceSlug [("gmail", "Gmail"); ("google-drive", "Google Drive");
           ("google-calendar", "Google Calendar"); ("google-docs", "Google Docs")]
    else None in
  match google with
  | Some name => name
  | None =>
      if String.eqb (TrimSpace (Integration_Kind integration)) ""
      then Integration_DisplayName integration
      else workspaceIntegrationConnectorTitle (ReplaceAll (Integration_Kind integration) "_" " ")
  end.
Definition workspaceIntegrationConnectorGoogleEmail (integration : WorkspaceIntegration) : string :=
  match Integration_Config integration with
  | Some config =>
      match decode_struct [("email", SString)] config with
      | Some fs => TrimSpace (get_string "email" fs "")
      | None => ""
      end
  | None => ""
  end.
Definition workspaceIntegrationConnectorConnectionDisplayName (integration : WorkspaceIntegration)
    (sourceSlug : string) : string :=
  if negb (workspaceIntegrationConnectorIsGoogleWorkspace integration)
  then Integration_DisplayName integration
  else
    let email := workspaceIntegrationConnectorGoogleEmail integration in
    if String.eqb email "" then Integration_DisplayName integration
    else workspaceIntegrationConnectorSourceDisplayNameForSlug integration sourceSlug
           +:+ " - " +:+ email.
Definition workspaceIntegrationConnectorImporter (integration : WorkspaceIntegration) : string :=
  let transport := ToLower (TrimSpace (Integration_Transport integration)) in
  if String.eqb transport "mcp-remote" then "mcp"
  else if one_of ["http"; "rest"] transport then
    let kind := ToLower (TrimSpace (Integration_Kind integration)) in
    if one_of ["openapi"; "graphql"] kind then kind else "http"
  else if String.eqb transport "" then "http" else transport.

Definition workspaceIntegrationConnectorProjectionSource (integration : WorkspaceIntegration)
    (sourceSlug : string) : WorkspaceIntegrationSource :=
  mkWorkspaceIntegrationSource "" (Integration_WorkspaceID integration) sourceSlug
    (workspaceIntegrationConnectorSourceDisplayNameForSlug integration sourceSlug)
    (Integration_Kind integration) (workspaceIntegrationConnectorImporter integration)
    (Some empty_object) zero_time zero_time.
Definition endpoint_of (integration : WorkspaceIntegration) : string :=
  TrimSpace (default "" (Integration_Endpoint integration)).
Definition workspaceIntegrationConnectorConnectionConfigPayload (integration : WorkspaceIntegration)
    (sourceSlug : string) : json :=
  let endpoint := endpoint_of integration in
  JObj ([("transport", JStr (Integration_Transport integration));
         ("endpoint_present", JBool (negb (String.eqb endpoint "")));
         ("projection", JStr "v1_workspace_integrations");
         ("source_slug", JStr sourceSlug)] ++
        (if String.eqb endpoint "" then [] else [("endpoint", JStr endpoint)])).
Definition workspaceIntegrationConnectorToolProvenancePayload (integration : WorkspaceIntegration)
    (sourceSlug legacyToolID : string) (tool : workspaceIntegrationV1ManifestTool) : json :=
  JObj ([("projection", JStr "v1_workspace_integrations");
         ("legacy_integration_id", JStr (Integration_ID integration));
         ("legacy_tool_id", JStr legacyToolID);
         ("transport", JStr (Integration_Transport integration));
         ("endpoint_present", JBool (negb (String.eqb (endpoint_of integration) "")));
         ("source_slug", JStr sourceSlug)] ++
        match V1_Request tool with
        | None | Some JNull => []
        | Some request => [("request", request)]
        end).
Definition workspaceIntegrationConnectorCredentialState (integration : WorkspaceIntegration)
    : string := if Integration_Enabled integration then "connected" else "disconnected".
Definition first_schema (schemas : list (option json)) : option json :=
  Some (default any_object (foldr (λ o acc, match o with Some _ => o | None => acc end) None schemas)).
Definition workspaceIntegrationConnectorToolInputSchema (tool : workspaceIntegrationV1ManifestTool)
    : option json := first_schema [V1_Parameters tool; V1_InputSchema tool; V1_Schema tool].
Definition workspaceIntegrationConnectorToolAnnotations (tool : workspaceIntegrationV1ManifestTool)
    : option json := or_default empty_object (V1_Annotations tool).
Definition write_markers : list string :=
  ["create"; "update"; "delete"; "remove"; "send"; "write"; "patch"; "post"].
Definition workspaceIntegrationConnectorToolAccess (tool : workspaceIntegrationV1ManifestTool)
    : string :=
  let access := ToLower (TrimSpace (V1_Access tool)) in
  if one_of ["read"; "write"] access then access
  else if existsb (Contains (ToLower (V1_Name tool))) write_markers then "write" else "read".
Definition workspaceIntegrationConnectorToolSource (integration : WorkspaceIntegration)
    (tool : workspaceIntegrationV1ManifestTool) : string :=
  let source := ToLower (TrimSpace (V1_Source tool)) in
  if negb (String.eqb source "") then source
  else match workspaceIntegrationConnectorGoogleServiceToolSourceSlug integration (V1_Name tool) with
       | Some source => source
       | None => workspaceIntegrationConnectorImporter integration
       end.

(** The tools with a name, grouped by their source in the order of the manifest. *)
Definition named_tools (tools : list workspaceIntegrationV1ManifestTool)
    : list workspaceIntegrationV1ManifestTool :=
  List.filter (λ t, negb (String.eqb (V1_Name t) ""))
    ((λ t, t <| V1_Name ::= TrimSpace |>) <$> tools).
Definition projection_group : Type := (string * list workspaceIntegrationV1ManifestTool)%type.
Fixpoint add_to_group (sourceSlug : string) (tool : workspaceIntegrationV1ManifestTool)
    (groups : list projection_group) : list projection_group :=
  match groups with
  | [] => [(sourceSlug, [tool])]
  | (slug, tools) :: rest =>
      if String.eqb slug sourceSlug then (slug, (tools ++ [tool])%list) :: rest
      else (slug, tools) :: add_to_group sourceSlug tool rest
  end.
Definition workspaceIntegrationConnectorProjectionGroups (integration : WorkspaceIntegration)
    (tools : list workspaceIntegrationV1ManifestTool) : list projection_group :=
  match named_tools tools with
  | [] => [(workspaceIntegrationConnectorSourceSlug integration, [])]
  | named =>
      foldl (λ groups tool,
        add_to_group (workspaceIntegrationConnectorToolSourceSlug integration tool) tool groups)
        [] named
  end.

Definition projected_connection (integration : WorkspaceIntegration)
    (source : WorkspaceIntegrationSource) : WorkspaceIntegrationConnection :=
  mkWorkspaceIntegrationConnection "" (Integration_WorkspaceID integration) (Source_ID source)
    (Some (Integration_ID integration)) (Integration_Slug integration)
    (workspaceIntegrationConnectorConnectionDisplayName integration (Source_Slug source))
    "workspace" None (workspaceIntegrationConnectorCredentialState integration)
    (Integration_Enabled integration)
    (Some (workspaceIntegrationConnectorConnectionConfigPayload integration (Source_Slug source)))
    zero_time zero_time.
Definition projected_snapshot (now : time) (integration : WorkspaceIntegration)
    (sourceSlug : string) (connection : WorkspaceIntegrationConnection)
    (tool : workspaceIntegrationV1ManifestTool) : WorkspaceIntegrationToolSnapshot :=
  let legacyToolID := Integration_Slug integration +:+ "." +:+ V1_Name tool in
  mkWorkspaceIntegrationToolSnapshot "" (Integration_WorkspaceID integration)
    (Connection_ID connection) (V1_Name tool)
    (workspaceIntegrationConnectorToolAddress (Integration_WorkspaceID integration) sourceSlug
       (Connection_Slug connection) (V1_Name tool))
    (Some legacyToolID) (V1_Description tool)
    (workspaceIntegrationConnectorToolInputSchema tool) (V1_OutputSchema tool)
    (workspaceIntegrationConnectorToolAnnotations tool)
    (workspaceIntegrationConnectorToolAccess tool)
    (workspaceIntegrationConnectorToolSource integration tool)
    (Some (workspaceIntegrationConnectorToolProvenancePayload integration sourceSlug
             legacyToolID tool))
    now (Some (now + seconds (7 * 24 * 3600))) zero_time zero_time.
Definition projected_policy (integration : WorkspaceIntegration)
    (connection : WorkspaceIntegrationConnection) (tool : workspaceIntegrationV1ManifestTool)
    : WorkspaceIntegrationToolPolicy :=
  mkWorkspaceIntegrationToolPolicy "" (Integration_WorkspaceID integration)
    (Connection_ID connection) (V1_Name tool)
    (workspaceIntegrationConnectorToolPolicy integration (V1_Name tool)) "v1_projection"
    zero_time zero_time.

(** One group: its source, its connection, and what belongs to the connection, whose
    identifier is kept. *)
Definition project_group (integration : WorkspaceIntegration) (group : projection_group)
    : I string :=
  let '(sourceSlug, tools) := group in
  let! source := wrap "upsert workspace integration source projection"
    (UpsertWorkspaceIntegrationSource
       (workspaceIntegrationConnectorProjectionSource integration sourceSlug)) in
  let! connection := wrap "upsert workspace integration connection projection"
    (UpsertWorkspaceIntegrationConnection (projected_connection integration source)) in
  let! now := in_db now in
  wrap "replace workspace integration tool snapshot projection"
    (ReplaceWorkspaceIntegrationToolSnapshots (Connection_ID connection)
       (projected_snapshot now integration (Source_Slug source) connection <$> tools)) ;;
  wrap "replace workspace integration tool policy projection"
    (ReplaceWorkspaceIntegrationToolPolicies (Connection_ID connection)
       (projected_policy integration connection <$> tools)) ;;
  ret (Connection_ID connection).
Fixpoint project_groups (integration : WorkspaceIntegration) (groups : list projection_group)
    : I (list string) :=
  match groups with
  | [] => ret []
  | group :: rest =>
      let! kept := project_group integration group in
      let! more := project_groups integration rest in
      ret (kept :: more)
  end.
Definition deleteStaleWorkspaceIntegrationConnectorProjectionConnections
    (legacyIntegrationID : string) (keep : list string) : I unit :=
  let! stale := stmt (gets (λ s, List.filter (λ id, negb (bool_decide (id ∈ keep)))
    (Connection_ID <$> select (λ r,
       bool_decide (Connection_LegacyIntegrationID r = Some legacyIntegrationID))
       (wi_connections s)))) in
  for_each stale (λ id, stmt (modify (delete_connection id))).
Definition upsertWorkspaceIntegrationConnectorProjectionFromV1 (integration : WorkspaceIntegration)
    : I unit :=
  if String.eqb (Integration_ID integration) "" ||
     String.eqb (Integration_WorkspaceID integration) "" then ret tt
  else
    match (match Integration_ToolManifest integration with
           | None => Some []
           | Some j => decode_list decode_v1_tool j
           end) with
    | None => fail (ErrText "parse workspace integration tool manifest projection")
    | Some manifestTools =>
        let! kept := project_groups integration
          (workspaceIntegrationConnectorProjectionGroups integration manifestTools) in
        deleteStaleWorkspaceIntegrationConnectorProjectionConnections
          (Integration_ID integration) kept
    end.
(** ** Changes of an integration *)

Definition integration_defaults (integration : WorkspaceIntegration) : WorkspaceIntegration :=
  integration <| Integration_ToolManifest ::= or_default (JArr []) |>
              <| Integration_Config ::= or_default empty_object |>.
Definition integration_row (workspaceID slug : string) (s : Integrations)
    : option WorkspaceIntegration :=
  head (select (λ r, String.eqb (Integration_WorkspaceID r) workspaceID &&
                     String.eqb (Integration_Slug r) slug) (wi_integrations s)).
(** What the row keeps of a given integration: the fields of the runtime are not columns. *)
Definition stored (integration : WorkspaceIntegration) : WorkspaceIntegration :=
  integration <| Integration_CredentialRefKind := "" |> <| Integration_CredentialRefID := "" |>.
Definition insert_integration (integration : WorkspaceIntegration) : I WorkspaceIntegration :=
  let! t := in_db now in
  let! s := get in
  references (is_some_b (db_workspaces (w_db (wi_world s)) !! Integration_WorkspaceID integration)) ;;
  let! id := in_db gen_random_uuid in
  unique (negb (is_some_b (wi_integrations s !! id)) &&
          negb (is_some_b (integration_row (Integration_WorkspaceID integration)
                             (Integration_Slug integration) s))) ;;
  let row := integration <| Integration_ID := id |> <| Integration_CreatedAt := t |>
                         <| Integration_UpdatedAt := t |> in
  modify (set wi_integrations <[id := stored row]>) ;;
  ret row.
Definition or_old {A} (old new : option A) : option A :=
  match new with Some _ => new | None => old end.
Definition update_integration (t : time) (old integration : WorkspaceIntegration)
    : WorkspaceIntegration :=
  integration <| Integration_ID := Integration_ID old |>
    <| Integration_ApprovedBy ::= or_old (Integration_ApprovedBy old) |>
    <| Integration_ApprovedAt ::= or_old (Integration_ApprovedAt old) |>
    <| Integration_ConnectedBy ::= or_old (Integration_ConnectedBy old) |>
    <| Integration_ConnectedAt ::= or_old (Integration_ConnectedAt old) |>
    <| Integration_CreatedAt := Integration_CreatedAt old |>
    <| Integration_UpdatedAt := t |>.

Definition CreateWorkspaceIntegration (given : WorkspaceIntegration) : I WorkspaceIntegration :=
  let integration := integration_defaults given in
  let! row := stmt (insert_integration integration) in
  upsertWorkspaceIntegrationConnectorProjectionFromV1 row ;;
  ret row.
Definition UpsertWorkspaceIntegration (given : WorkspaceIntegration) : I WorkspaceIntegration :=
  let integration := integration_defaults given in
  let! row := stmt (
    let! t := in_db now in
    let! s := get in
    match integration_row (Integration_WorkspaceID integration) (Integration_Slug integration) s with
    | None => insert_integration integration
    | Some old =>
        modify (set wi_integrations
          <[Integration_ID old := stored (update_integration t old integration)]>) ;;
        ret (integration <| Integration_ID := Integration_ID old |>
               <| Integration_CreatedAt := Integration_CreatedAt old |>
               <| Integration_UpdatedAt := t |>)
    end) in
  upsertWorkspaceIntegrationConnectorProjectionFromV1 row ;;
  ret row.
Definition DeleteWorkspaceIntegration (workspaceID slug : string) : I WorkspaceIntegration :=
  stmt (
    let! s := get in
    let! row := query_row (integration_row workspaceID slug s) in
    modify (delete_connections (Connection_ID <$> select (λ r,
      bool_decide (Connection_LegacyIntegrationID r = Some (Integration_ID row)))
      (wi_connections s))) ;;
    modify (set wi_integrations (delete (Integration_ID row))) ;;
    modify (set wi_credentials (delete (Integration_ID row))) ;;
    ret row).
Definition DeleteWorkspaceIntegrationConnection (workspaceID connectionSlug : string)
    : I WorkspaceIntegrationConnectorProjection :=
  stmt (
    let! s := get in
    let! '(c, source) := query_row (head (omap (λ c,
      (λ source, (c, source)) <$> wi_sources s !! Connection_SourceID c)
      (select (λ c, String.eqb (Connection_WorkspaceID c) workspaceID &&
                    (String.eqb (Connection_Slug c) connectionSlug ||
                     String.eqb (Connection_ID c) connectionSlug)) (wi_connections s)))) in
    modify (delete_connection (Connection_ID c)) ;;
    ret (projection_of (order_by Snapshot_ToolName Snapshot_ID (select (λ _, true) (wi_snapshots s)))
           (order_by ToolPolicy_ToolName ToolPolicy_ID (select (λ _, true) (wi_policies s)))
           source c)).
Definition GetOrCreateDefaultWorkspace (accountID : Z) : I Workspace :=
  stmt (in_db (
    let! t := now in
    let! db := get in
    match head (select (λ w, bool_decide (Workspace_AccountID w = accountID) &&
                             String.eqb (Workspace_Slug w) "default") (db_workspaces db)) with
    | Some w => ret w
    | None =>
        references (is_some_b (db_accounts db !! accountID)) ;;
        let! id := gen_random_uuid in
        unique (negb (is_some_b (db_workspaces db !! id))) ;;
        let row := mkWorkspace id accountID "default" "Default" t t in
        modify (set db_workspaces <[id := row]>) ;; ret row
    end)).
