(* ===== verification/ToolGateway.v ===== *)
(** * The gateway of workspace integrations (api/workspace_integrations_gateway.go)

    What a machine can call: descriptors of the tools that are not blocked, their
    resolution, the validation of arguments, the call and the redaction of its result.
    The service behind an integration ([upstream]), AES-GCM ([decrypt]), the validation
    of a token's signature ([validate_token]), the formatting of numbers and
    containers ([GoFormat]) and the ranking of a search ([rank], floating point) are parameters.
    Guidance overlays, which change descriptions only, the text of the diagnosis of a
    failed call and the telemetry of calls are not modelled. *)

From S2P Require Import Prelude Schema HostStore CatalogStore World GoStrings GoText.
From S2P Require Import Json.
From S2P Require Import Fleet Versions Routing Runtime Api Integrations.
From S2P Require Import IntegrationStore.

#[local] Open Scope string_scope.

(** [fmt.Sprint] of a decoded number, array or object, and whether a number with a fraction
    or an exponent is an integer of 64 bits. *)
Class GoFormat : Type := {
  format_value : json → string;
  float_integral : string → bool
}.
Definition Sprint {F : GoFormat} (j : json) : string :=
  match j with
  | JStr s => s
  | JBool b => if b then "true" else "false"
  | JNull => "<nil>"
  | _ => format_value j
  end.

(** ** Descriptors *)

Record workspaceIntegrationToolDescriptor : Type := mkDescriptor {
  Descriptor_ToolID : string;
  Descriptor_ToolAddress : string;
  Descriptor_LegacyToolID : string;
  Descriptor_LegacyIntegrationID : string;
  Descriptor_IntegrationSlug : string;
  Descriptor_IntegrationName : string;
  Descriptor_SourceSlug : string;
  Descriptor_SourceKind : string;
  Descriptor_ConnectionID : string;
  Descriptor_ConnectionSlug : string;
  Descriptor_ConnectionScope : string;
  Descriptor_SnapshotID : string;
  Descriptor_ToolsSyncedAt : option time;
  Descriptor_Name : string;
  Descriptor_Description : string;
  Descriptor_InputSchema : option json;
  Descriptor_Access : string;
  Descriptor_Policy : string;
  Descriptor_PolicyState : string;
  Descriptor_AuthState : string;
  Descriptor_Source : string
}.
Definition no_descriptor : workspaceIntegrationToolDescriptor :=
  mkDescriptor "" "" "" "" "" "" "" "" "" "" "" "" None "" "" None "" "" "" "" "".

Definition or_empty (o : option string) : string := default "" o.
Definition orElse (s fallback : string) : string := if String.eqb s "" then fallback else s.
Definition normalizeWorkspaceIntegrationTransport (transport : string) : string :=
  let t := ToLower (TrimSpace transport) in if String.eqb t "rest" then "http" else t.

Section Descriptors.
  Context {unicode : GoUnicode}.

(** *** Of a row's manifest *)

Definition workspaceIntegrationCatalogToolAccess (name : string) : string :=
  if one_of ["gmail_send_message"; "drive_create_file"; "calendar_create_event";
             "docs_create_document"; "create_record"] name then "Write" else "Read".
Definition workspaceIntegrationManifestToolAccess (tool : workspaceIntegrationManifestTool)
    : string :=
  let access := ToLower (TrimSpace (Tool_Access tool)) in
  if one_of ["read"; "write"] access then access
  else if String.eqb (ToLower (workspaceIntegrationCatalogToolAccess (Tool_Name tool))) "write"
  then "write"
  else if existsb (Contains (ToLower (Tool_Name tool))) write_markers then "write" else "read".
Definition workspaceIntegrationToolSource (integration : WorkspaceIntegration) : string :=
  let t := normalizeWorkspaceIntegrationTransport (Integration_Transport integration) in
  if String.eqb t "mcp-remote" then "mcp"
  else if one_of ["http"; "mock"] t then t
  else orElse (ToLower (TrimSpace (Integration_Kind integration)))
         (ToLower (TrimSpace (Integration_Transport integration))).
Definition workspaceIntegrationManifestToolSource (integration : WorkspaceIntegration)
    (tool : workspaceIntegrationManifestTool) : string :=
  let source := ToLower (TrimSpace (Tool_Source tool)) in
  if negb (String.eqb source "") then source
  else
    match workspaceIntegrationGoogleServiceToolSourceSlug integration (Tool_Name tool) with
    | Some source => source
    | None =>
        let kind := ToLower (TrimSpace (Integration_Kind integration)) in
        if String.eqb (normalizeWorkspaceIntegrationTransport (Integration_Transport integration))
             "http" && one_of ["openapi"; "graphql"] kind
        then kind else workspaceIntegrationToolSource integration
    end.
Definition workspaceIntegrationAuthState (integration : WorkspaceIntegration) : string :=
  if Integration_Enabled integration then "connected" else "disabled".
Definition workspaceIntegrationProjectionSourceKind (integration : WorkspaceIntegration) : string :=
  orElse (ToLower (TrimSpace (Integration_Kind integration)))
    (workspaceIntegrationToolSource integration).
Definition workspaceIntegrationProjectionConnectionID (integration : WorkspaceIntegration)
    : string :=
  if negb (String.eqb (TrimSpace (Integration_ID integration)) "") then Integration_ID integration
  else "v1:" +:+ workspaceIntegrationProjectionConnectionSlug integration.
Definition workspaceIntegrationProjectionSnapshotID (integration : WorkspaceIntegration)
    (tool : workspaceIntegrationManifestTool) : string :=
  "v1:" +:+ workspaceIntegrationProjectionConnectionSlug integration +:+ ":" +:+
  workspaceIntegrationAddressSegment (Tool_Name tool) "tool".
Definition known_time (t : time) : option time :=
  if bool_decide (t = zero_time) then None else Some t.
Definition workspaceIntegrationProjectionToolsSyncedAt (integration : WorkspaceIntegration)
    : option time :=
  match known_time (Integration_UpdatedAt integration) with
  | Some t => Some t
  | None => known_time (Integration_CreatedAt integration)
  end.
Definition google_config : list (string * shape) :=
  [("email", SString); ("scopes", SArr SString); ("permission_levels", SMap SString);
   ("requested_permission_levels", SMap SString);
   ("service_status", SMap (SStruct [("service", SString); ("status", SString);
      ("detail", SString); ("action", SString); ("http_status", SInt); ("checked_at", SString)]));
   ("allowed_drive_folder_ids", SArr SString); ("allowed_calendar_ids", SArr SString)].
Definition google_email (integration : WorkspaceIntegration) : option string :=
  match Integration_Config integration with
  | None => Some ""
  | Some config =>
      fs ← decode_struct google_config config; Some (TrimSpace (get_string "email" fs ""))
  end.
Definition workspaceIntegrationGoogleSourceDisplayName (sourceSlug : string) : string :=
  default "Google Workspace" (assoc sourceSlug
    [("gmail", "Gmail"); ("google-drive", "Google Drive");
     ("google-calendar", "Google Calendar"); ("google-docs", "Google Docs")]).
Definition workspaceIntegrationProjectionConnectionDisplayName (integration : WorkspaceIntegration)
    (tool : workspaceIntegrationManifestTool) : string :=
  if negb (workspaceIntegrationIsGoogleWorkspaceProvider (Integration_Kind integration)
             (Integration_Slug integration)) then Integration_DisplayName integration
  else
    match google_email integration with
    | None => Integration_DisplayName integration
    | Some email =>
        if String.eqb email "" then Integration_DisplayName integration
        else workspaceIntegrationGoogleSourceDisplayName
               (workspaceIntegrationProjectionToolSourceSlug integration tool)
               +:+ " - " +:+ email
    end.
Definition workspaceIntegrationToolParameters (tool : workspaceIntegrationManifestTool)
    : option json := first_schema [Tool_Parameters tool; Tool_InputSchema tool; Tool_Schema tool].

Definition descriptor_of_tool (includeBlocked : bool) (integration : WorkspaceIntegration)
    (tool : workspaceIntegrationManifestTool) : option workspaceIntegrationToolDescriptor :=
  let policyState := workspaceIntegrationToolPolicyState integration (Tool_Name tool) in
  if String.eqb (Tool_Name tool) "" then None
  else if String.eqb policyState workspaceIntegrationPolicyBlock && negb includeBlocked then None
  else
    let toolID := Integration_Slug integration +:+ "." +:+ Tool_Name tool in
    Some (mkDescriptor toolID (workspaceIntegrationStructuredToolAddress integration tool) toolID
      (Integration_ID integration) (Integration_Slug integration)
      (workspaceIntegrationProjectionConnectionDisplayName integration tool)
      (workspaceIntegrationProjectionToolSourceSlug integration tool)
      (workspaceIntegrationProjectionSourceKind integration)
      (workspaceIntegrationProjectionConnectionID integration)
      (workspaceIntegrationProjectionConnectionSlug integration) "workspace"
      (workspaceIntegrationProjectionSnapshotID integration tool)
      (workspaceIntegrationProjectionToolsSyncedAt integration) (Tool_Name tool)
      (Tool_Description tool) (workspaceIntegrationToolParameters tool)
      (workspaceIntegrationManifestToolAccess tool)
      (workspaceIntegrationPolicyLabel policyState) policyState
      (workspaceIntegrationAuthState integration)
      (workspaceIntegrationManifestToolSource integration tool)).
Definition buildWorkspaceIntegrationToolDescriptors (integrations : list WorkspaceIntegration)
    (includeBlocked : bool) : list workspaceIntegrationToolDescriptor :=
  mbind (λ integration,
    omap (descriptor_of_tool includeBlocked integration)
      (default [] (parseWorkspaceIntegrationManifest (Integration_ToolManifest integration))))
    integrations.

(** *** Of a projection *)

Definition workspaceIntegrationProjectionSourceIsGoogleWorkspace
    (source : WorkspaceIntegrationSource) : bool :=
  EqualFold (TrimSpace (Source_Kind source)) "google_workspace" ||
  EqualFold (TrimSpace (Source_Slug source)) "google-workspace".
Definition google_service (source : WorkspaceIntegrationSource) (toolName : string)
    : option string :=
  if workspaceIntegrationProjectionSourceIsGoogleWorkspace source
  then workspaceIntegrationGoogleServiceSourceSlugForToolName toolName else None.
Definition workspaceIntegrationProjectionDescriptorSourceSlug (source : WorkspaceIntegrationSource)
    (tool : WorkspaceIntegrationToolSnapshot) : string :=
  default (Source_Slug source) (google_service source (Snapshot_ToolName tool)).
Definition workspaceIntegrationConnectionAuthState (connection : WorkspaceIntegrationConnection)
    : string :=
  if negb (Connection_Enabled connection) then "disabled"
  else orElse (ToLower (TrimSpace (Connection_CredentialState connection))) "connected".
(** The policies of a connection by tool; the last row of a tool counts. *)
Definition policy_map (policies : list WorkspaceIntegrationToolPolicy) : gmap string string :=
  foldl (λ m policy,
    if String.eqb (TrimSpace (ToolPolicy_ToolName policy)) "" then m
    else match workspaceIntegrationNormalizePolicyState (ToolPolicy_Policy policy) with
         | Some normalized => <[ToolPolicy_ToolName policy := normalized]> m
         | None => m
         end) ∅ policies.
Definition projected_state (projection : WorkspaceIntegrationConnectorProjection)
    (toolName : string) : string :=
  orElse (or_empty (policy_map (Projection_Policies projection) !! toolName))
    workspaceIntegrationPolicyAllow.

Definition snapshot_address (source : WorkspaceIntegrationSource)
    (connection : WorkspaceIntegrationConnection) (tool : WorkspaceIntegrationToolSnapshot)
    : string :=
  let sourceSlug := workspaceIntegrationProjectionDescriptorSourceSlug source tool in
  if negb (String.eqb sourceSlug (Source_Slug source))
  then workspaceIntegrationStructuredToolAddressFromParts (Connection_WorkspaceID connection)
         sourceSlug (Connection_Slug connection) (Snapshot_ToolName tool)
  else TrimSpace (Snapshot_ToolAddress tool).
Definition descriptor_of_snapshot (includeBlocked : bool)
    (projection : WorkspaceIntegrationConnectorProjection) (tool : WorkspaceIntegrationToolSnapshot)
    : option workspaceIntegrationToolDescriptor :=
  let source := Projection_Source projection in
  let connection := Projection_Connection projection in
  let policyState := projected_state projection (Snapshot_ToolName tool) in
  if String.eqb (TrimSpace (Snapshot_ToolName tool)) "" then None
  else if String.eqb policyState workspaceIntegrationPolicyBlock && negb includeBlocked then None
  else
    let sourceSlug := workspaceIntegrationProjectionDescriptorSourceSlug source tool in
    let address := snapshot_address source connection tool in
    let legacyToolID := or_empty (Snapshot_LegacyToolID tool) in
    let built := workspaceIntegrationStructuredToolAddressFromParts
      (Connection_WorkspaceID connection) sourceSlug (Connection_Slug connection)
      (Snapshot_ToolName tool) in
    let toolID := orElse (orElse legacyToolID address) built in
    let toolAddress := if String.eqb (orElse legacyToolID address) "" then built else address in
    let sourceKind := orElse (ToLower (TrimSpace (Source_Kind source)))
      (orElse (ToLower (TrimSpace (Snapshot_Source tool)))
        (orElse (ToLower (TrimSpace (Source_Importer source))) "connector")) in
    Some (mkDescriptor toolID toolAddress legacyToolID
      (or_empty (Connection_LegacyIntegrationID connection)) (Connection_Slug connection)
      (firstNonEmpty [Connection_DisplayName connection; Source_DisplayName source;
                      Connection_Slug connection])
      sourceSlug sourceKind (Connection_ID connection) (Connection_Slug connection)
      (firstNonEmpty [Connection_Scope connection; "workspace"]) (Snapshot_ID tool)
      (known_time (if bool_decide (Snapshot_ToolsSyncedAt tool = zero_time)
                   then Snapshot_UpdatedAt tool else Snapshot_ToolsSyncedAt tool))
      (Snapshot_ToolName tool) (Snapshot_Description tool)
      (or_default any_object (Snapshot_InputSchema tool))
      (if String.eqb (ToLower (TrimSpace (Snapshot_Access tool))) "write" then "write" else "read")
      (workspaceIntegrationPolicyLabel policyState) policyState
      (workspaceIntegrationConnectionAuthState connection)
      (default (firstNonEmpty [ToLower (TrimSpace (Snapshot_Source tool));
                  ToLower (TrimSpace (Source_Importer source)); sourceKind])
         (google_service source (Snapshot_ToolName tool)))).
Definition buildWorkspaceIntegrationToolDescriptorsFromConnectorProjections
    (projections : list WorkspaceIntegrationConnectorProjection) (includeBlocked : bool)
    : list workspaceIntegrationToolDescriptor :=
  mbind (λ projection,
    if Connection_Enabled (Projection_Connection projection)
    then omap (descriptor_of_snapshot includeBlocked projection) (Projection_Tools projection)
    else []) projections.

(** ** The tool that is asked for *)

Definition descriptorConnectionWorkspaceFallback (descriptor : workspaceIntegrationToolDescriptor)
    : string :=
  match workspaceIntegrationParseStructuredToolAddress (Descriptor_ToolAddress descriptor) with
  | Some a => orElse (Address_Workspace a) "workspace"
  | None => "workspace"
  end.
Definition workspaceIntegrationDescriptorMatchesRequestedTool
    (descriptor : workspaceIntegrationToolDescriptor) (requestedTool : string) : bool :=
  match workspaceIntegrationParseStructuredToolAddress requestedTool with
  | Some a =>
      let candidate := TrimSpace (Descriptor_ToolAddress descriptor) in
      (negb (String.eqb candidate "") && EqualFold candidate requestedTool) ||
      ((String.eqb (Address_Workspace a) "" ||
        EqualFold (workspaceIntegrationAddressSegment
                     (descriptorConnectionWorkspaceFallback descriptor) "workspace")
          (Address_Workspace a)) &&
       EqualFold (Descriptor_SourceSlug descriptor) (Address_Source a) &&
       EqualFold (Descriptor_ConnectionSlug descriptor) (Address_Connection a) &&
       EqualFold (workspaceIntegrationAddressSegment (Descriptor_Name descriptor) "tool")
         (Address_Tool a))
  | None =>
      existsb (λ candidate, negb (String.eqb candidate "") && EqualFold candidate requestedTool)
        [Descriptor_ToolID descriptor; Descriptor_LegacyToolID descriptor]
  end.
Definition descriptor_key (d : workspaceIntegrationToolDescriptor) : string :=
  firstNonEmpty [Descriptor_ToolAddress d; Descriptor_ToolID d; Descriptor_LegacyToolID d;
                 Descriptor_ConnectionID d +:+ ":" +:+ Descriptor_Name d].
Definition appendWorkspaceIntegrationUniqueDescriptor
    (matches_ : list workspaceIntegrationToolDescriptor)
    (descriptor : workspaceIntegrationToolDescriptor) : list workspaceIntegrationToolDescriptor :=
  if existsb (λ existing, EqualFold (descriptor_key existing) (descriptor_key descriptor)) matches_
  then matches_ else (matches_ ++ [descriptor])%list.

Inductive resolution : Type :=
| NotFound
| Found (descriptor : workspaceIntegrationToolDescriptor)
| Ambiguous (candidates : list workspaceIntegrationToolDescriptor).
Definition resolveWorkspaceIntegrationFacadeToolDescriptor
    (descriptors : list workspaceIntegrationToolDescriptor) (requestedTool : string) : resolution :=
  let requestedTool := TrimSpace requestedTool in
  if String.eqb requestedTool "" then NotFound
  else
    match foldl (λ acc d,
        if workspaceIntegrationDescriptorMatchesRequestedTool d requestedTool
        then appendWorkspaceIntegrationUniqueDescriptor acc d else acc) [] descriptors with
    | [] => NotFound
    | [descriptor] => Found descriptor
    | candidates => Ambiguous candidates
    end.
Definition describeWorkspaceIntegrationFacadeToolFromDescriptors
    (descriptors : list workspaceIntegrationToolDescriptor) (toolID : string)
    : option workspaceIntegrationToolDescriptor :=
  match resolveWorkspaceIntegrationFacadeToolDescriptor descriptors toolID with
  | Found descriptor => Some descriptor
  | _ => None
  end.

(** *** In the rows *)

Definition callable (integration : WorkspaceIntegration) (tool : workspaceIntegrationManifestTool)
    : bool := workspaceIntegrationToolAllowed integration (Tool_Name tool).
Definition find_in (p : WorkspaceIntegration → workspaceIntegrationManifestTool → bool)
    (integration : WorkspaceIntegration)
    : option (WorkspaceIntegration * workspaceIntegrationManifestTool) :=
  tools ← parseWorkspaceIntegrationManifest (Integration_ToolManifest integration);
  (λ tool, (integration, tool)) <$>
    head (List.filter (λ tool, p integration tool && callable integration tool) tools).
Definition findWorkspaceIntegrationTool (integrations : list WorkspaceIntegration)
    (requestedTool : string) : option (WorkspaceIntegration * workspaceIntegrationManifestTool) :=
  match workspaceIntegrationParseStructuredToolAddress requestedTool with
  | Some a =>
      head (omap (find_in (λ integration tool,
          String.eqb (workspaceIntegrationProjectionToolSourceSlug integration tool)
            (Address_Source a) &&
          String.eqb (workspaceIntegrationAddressSegment (Tool_Name tool) "tool") (Address_Tool a)))
        (List.filter (λ integration,
          (String.eqb (Address_Workspace a) "" ||
           String.eqb (workspaceIntegrationAddressSegment (Integration_WorkspaceID integration)
                         "workspace") (Address_Workspace a)) &&
          String.eqb (workspaceIntegrationProjectionConnectionSlug integration)
            (Address_Connection a)) integrations))
  | None =>
      '(slug, name) ← split_first "." requestedTool;
      if String.eqb slug "" || String.eqb name "" then None
      else head (omap (find_in (λ _ tool, String.eqb (Tool_Name tool) name))
             (List.filter (λ integration, String.eqb (Integration_Slug integration) slug)
                integrations))
  end.
Definition findWorkspaceIntegrationToolByIntegrationID (integrations : list WorkspaceIntegration)
    (integrationID toolName : string)
    : option (WorkspaceIntegration * workspaceIntegrationManifestTool) :=
  let integrationID := TrimSpace integrationID in
  let toolName := TrimSpace toolName in
  if String.eqb integrationID "" || String.eqb toolName "" then None
  else
    integration ← head (List.filter (λ integration,
      String.eqb (TrimSpace (Integration_ID integration)) integrationID) integrations);
    find_in (λ _ tool, String.eqb (Tool_Name tool) toolName) integration.
End Descriptors.

(** ** The normalized runtime *)

Definition workspaceIntegrationArgString {F : GoFormat} (raw : option json) : string :=
  match raw with
  | None | Some JNull => ""
  | Some j => Sprint j
  end.
(** The value of a key of an object, the last one. *)
Definition object_value (key : string) (fs : list (string * json)) : option json :=
  assoc key (reverse fs).
Definition workspaceIntegrationRawConfigString {F : GoFormat} (raw : option json) (key : string)
    : string :=
  match raw with
  | Some (JObj fs) => TrimSpace (workspaceIntegrationArgString (object_value key fs))
  | _ => ""
  end.

Section Runtime.
  Context {unicode : GoUnicode} {F : GoFormat}.

Definition workspaceIntegrationNormalizedRuntimeTransport (source : WorkspaceIntegrationSource)
    (connection : WorkspaceIntegrationConnection) (snapshot : WorkspaceIntegrationToolSnapshot)
    (descriptorSource : string) : string :=
  firstNonEmpty [workspaceIntegrationRawConfigString (Connection_Config connection) "transport";
    workspaceIntegrationRawConfigString (Source_Config source) "transport"; descriptorSource;
    Snapshot_Source snapshot; Source_Importer source; Source_Kind source].
Definition workspaceIntegrationNormalizedRuntimeHTTPRequest
    (snapshot : WorkspaceIntegrationToolSnapshot) : option json :=
  provenance ← Snapshot_Provenance snapshot;
  fs ← decode_struct [] provenance;
  match get_raw "request" fs None with
  | None | Some JNull => None
  | Some request =>
      rfs ← decode_struct workspaceIntegrationHTTPRequest request;
      if String.eqb (TrimSpace (get_string "method" rfs "")) "" &&
         String.eqb (TrimSpace (get_string "url" rfs "")) "" &&
         String.eqb (TrimSpace (get_string "path" rfs "")) "" then None
      else Some request
  end.
Definition workspaceIntegrationNormalizedRuntimeManifestTool
    (snapshot : WorkspaceIntegrationToolSnapshot) (transport : string)
    : option workspaceIntegrationManifestTool :=
  let schema := or_default any_object (Snapshot_InputSchema snapshot) in
  let tool request := mkManifestTool (Snapshot_ToolName snapshot) (Snapshot_Description snapshot)
    schema schema None (Snapshot_Access snapshot) "" request None in
  let t := normalizeWorkspaceIntegrationTransport transport in
  if String.eqb t "mock" then Some (tool None)
  else if String.eqb t "http" then
    request ← workspaceIntegrationNormalizedRuntimeHTTPRequest snapshot; Some (tool (Some request))
  else None.
Definition legacy_id (connection : WorkspaceIntegrationConnection) : string :=
  TrimSpace (or_empty (Connection_LegacyIntegrationID connection)).
Definition workspaceIntegrationNormalizedRuntimeCredentialRefKind
    (connection : WorkspaceIntegrationConnection) : string :=
  if negb (String.eqb (legacy_id connection) "") then "legacy_integration"
  else if negb (String.eqb (TrimSpace (Connection_ID connection)) "") then "connection" else "".
Definition workspaceIntegrationNormalizedRuntimeCredentialRefID
    (connection : WorkspaceIntegrationConnection) : string :=
  orElse (legacy_id connection) (TrimSpace (Connection_ID connection)).
Definition workspaceIntegrationNormalizedRuntimeIntegration (source : WorkspaceIntegrationSource)
    (connection : WorkspaceIntegrationConnection) (descriptorSourceSlug transport : string)
    : WorkspaceIntegration :=
  let config := or_old (Source_Config source) (Connection_Config connection) in
  let endpoint := firstNonEmpty
    [workspaceIntegrationRawConfigString (Connection_Config connection) "endpoint";
     workspaceIntegrationRawConfigString (Connection_Config connection) "base_url";
     workspaceIntegrationRawConfigString (Source_Config source) "endpoint";
     workspaceIntegrationRawConfigString (Source_Config source) "base_url"] in
  mkWorkspaceIntegration (legacy_id connection) (Connection_WorkspaceID connection)
    (Connection_Slug connection)
    (firstNonEmpty [Connection_DisplayName connection; Source_DisplayName source;
                    Connection_Slug connection])
    (firstNonEmpty [descriptorSourceSlug; Source_Slug source; Source_Kind source;
                    Source_Importer source])
    transport (if String.eqb endpoint "" then None else Some endpoint)
    (Connection_Enabled connection) None config [] []
    (workspaceIntegrationNormalizedRuntimeCredentialRefKind connection)
    (workspaceIntegrationNormalizedRuntimeCredentialRefID connection)
    None None None None zero_time zero_time.
Definition workspaceIntegrationSnapshotMatchesDescriptor
    (snapshot : WorkspaceIntegrationToolSnapshot) (descriptor : workspaceIntegrationToolDescriptor)
    : bool :=
  (negb (String.eqb (Descriptor_SnapshotID descriptor) "") &&
   EqualFold (Snapshot_ID snapshot) (Descriptor_SnapshotID descriptor)) ||
  (negb (String.eqb (Descriptor_ToolAddress descriptor) "") &&
   EqualFold (Snapshot_ToolAddress snapshot) (Descriptor_ToolAddress descriptor)) ||
  EqualFold (Snapshot_ToolName snapshot) (Descriptor_Name descriptor).

(** The first snapshot of the descriptor's connection that matches decides. *)
Definition normalized_tool (projections : list WorkspaceIntegrationConnectorProjection)
    (descriptor : workspaceIntegrationToolDescriptor)
    : option (WorkspaceIntegration * workspaceIntegrationManifestTool) :=
  '(projection, snapshot) ← head (mbind (λ projection,
      (λ snapshot, (projection, snapshot)) <$>
        List.filter (λ snapshot, workspaceIntegrationSnapshotMatchesDescriptor snapshot descriptor)
          (Projection_Tools projection))
    (List.filter (λ projection,
       String.eqb (TrimSpace (Connection_ID (Projection_Connection projection)))
         (TrimSpace (Descriptor_ConnectionID descriptor))) projections));
  let source := Projection_Source projection in
  let connection := Projection_Connection projection in
  let transport := workspaceIntegrationNormalizedRuntimeTransport source connection snapshot
    (Descriptor_Source descriptor) in
  tool ← workspaceIntegrationNormalizedRuntimeManifestTool snapshot transport;
  Some (workspaceIntegrationNormalizedRuntimeIntegration source connection
          (Descriptor_SourceSlug descriptor) transport, tool).
Definition resolveWorkspaceIntegrationNormalizedRuntimeTool (workspace : option Workspace)
    (descriptor : workspaceIntegrationToolDescriptor)
    : I (option (WorkspaceIntegration * workspaceIntegrationManifestTool)) :=
  let named := descriptorConnectionWorkspaceFallback descriptor in
  let unknown id := String.eqb id "" || String.eqb id "workspace" in
  let workspaceID := if unknown named
    then match workspace with Some w => Workspace_ID w | None => named end else named in
  if unknown workspaceID then ret None
  else
    let! r := try (ListWorkspaceIntegrationConnectorProjections workspaceID) in
    ret (match r with Ok projections => normalized_tool projections descriptor | Err _ => None end).

(** The descriptors a machine has, and whether they are those of projections. *)
Definition workspaceIntegrationWorkspaceIDFromIntegrations
    (integrations : list WorkspaceIntegration) : string :=
  default "" (head (List.filter (λ id, negb (String.eqb (TrimSpace id) ""))
                      (Integration_WorkspaceID <$> integrations))).
Definition buildWorkspaceIntegrationRuntimeToolDescriptorsWithSource (workspace : option Workspace)
    (integrations : list WorkspaceIntegration) (includeBlocked : bool)
    : I (list workspaceIntegrationToolDescriptor * bool) :=
  let workspaceID := match workspace with
    | Some w => Workspace_ID w
    | None => workspaceIntegrationWorkspaceIDFromIntegrations integrations
    end in
  let! r := if String.eqb workspaceID "" then ret (Ok [])
            else try (ListWorkspaceIntegrationConnectorProjections workspaceID) in
  ret (match r with
       | Ok ((_ :: _) as projections) =>
           (buildWorkspaceIntegrationToolDescriptorsFromConnectorProjections projections
              includeBlocked, true)
       | _ => (buildWorkspaceIntegrationToolDescriptors integrations includeBlocked, false)
       end).

(** A tool to call, with its descriptor. *)
Record resolved : Type := mkResolved {
  Resolved_Integration : WorkspaceIntegration;
  Resolved_Tool : workspaceIntegrationManifestTool;
  Resolved_Descriptor : workspaceIntegrationToolDescriptor
}.
Definition found_as (descriptor : workspaceIntegrationToolDescriptor)
    (o : option (WorkspaceIntegration * workspaceIntegrationManifestTool)) : option resolved :=
  '(integration, tool) ← o; Some (mkResolved integration tool descriptor).
(** In the rows, by the name that is asked for or by the descriptor's. *)
Definition resolve_in_rows (integrations : list WorkspaceIntegration) (requestedTool : string)
    (described : option workspaceIntegrationToolDescriptor) : option resolved :=
  let executionTool := match described with
    | Some d => orElse (Descriptor_LegacyToolID d) (TrimSpace requestedTool)
    | None => TrimSpace requestedTool
    end in
  let descriptor := match described with
    | Some d => d
    | None => default no_descriptor (describeWorkspaceIntegrationFacadeToolFromDescriptors
        (buildWorkspaceIntegrationToolDescriptors integrations false) executionTool)
    end in
  found_as descriptor (findWorkspaceIntegrationTool integrations executionTool).
Definition resolveWorkspaceIntegrationRuntimeToolFromDescriptors (workspace : option Workspace)
    (descriptors : list workspaceIntegrationToolDescriptor) (projectionAuthoritative : bool)
    (integrations : list WorkspaceIntegration) (requestedTool : string) : I (option resolved) :=
  let in_rows := resolve_in_rows integrations requestedTool in
  match describeWorkspaceIntegrationFacadeToolFromDescriptors descriptors requestedTool with
  | None => ret (if projectionAuthoritative then None else in_rows None)
  | Some d =>
      let by_id := if negb (String.eqb (Descriptor_LegacyIntegrationID d) "")
        then findWorkspaceIntegrationToolByIntegrationID integrations
               (Descriptor_LegacyIntegrationID d) (Descriptor_Name d)
        else None in
      match by_id with
      | Some _ => ret (found_as d by_id)
      | None =>
          let! normalized := resolveWorkspaceIntegrationNormalizedRuntimeTool workspace d in
          match normalized with
          | Some _ => ret (found_as d normalized)
          | None => ret (if projectionAuthoritative then None else in_rows (Some d))
          end
      end
  end.
Definition resolveWorkspaceIntegrationRuntimeTool (workspace : option Workspace)
    (integrations : list WorkspaceIntegration) (requestedTool : string) : I (option resolved) :=
  let! '(descriptors, projectionAuthoritative) :=
    buildWorkspaceIntegrationRuntimeToolDescriptorsWithSource workspace integrations false in
  resolveWorkspaceIntegrationRuntimeToolFromDescriptors workspace descriptors
    projectionAuthoritative integrations requestedTool.
End Runtime.

(** ** Arguments *)

Section Calls.
  Context {unicode : GoUnicode} {F : GoFormat}.

Definition isEmptyWorkspaceIntegrationHTTPValue (value : option json) : bool :=
  match value with
  | None | Some JNull => true
  | Some (JStr text) => String.eqb (TrimSpace text) ""
  | Some _ => false
  end.
Definition workspaceIntegrationSchemaStringSlice (raw : option json) : list string :=
  let texts l := List.filter (λ t, negb (String.eqb t ""))
    (omap (λ j, match j with JStr t => Some (TrimSpace t) | _ => None end) l) in
  match raw with
  | Some (JStr t) => texts [JStr t]
  | Some (JArr l) => texts l
  | _ => []
  end.
Definition workspaceIntegrationSchemaProperties (schema : list (string * json))
    : list (string * list (string * json)) :=
  match object_value "properties" schema with
  | Some (JObj raw) =>
      omap (λ kv, match kv.2 with JObj prop => Some (kv.1, prop) | _ => None end) raw
  | _ => []
  end.
Definition workspaceIntegrationSchemaAdditionalPropertiesFalse (schema : list (string * json))
    : bool :=
  match object_value "additionalProperties" schema with Some (JBool false) => true | _ => false end.
Definition workspaceIntegrationValueIsNumber (value : json) : bool :=
  match value with JNum _ | JFloat _ => true | _ => false end.
Definition workspaceIntegrationValueIsInteger (value : json) : bool :=
  match value with
  | JNum n => is_some_b (int_range n)
  | JFloat t => float_integral t
  | _ => false
  end.
Definition matches_type (value : json) (typ : string) : bool :=
  if String.eqb typ "string" then match value with JStr _ => true | _ => false end
  else if String.eqb typ "boolean" then match value with JBool _ => true | _ => false end
  else if String.eqb typ "number" then workspaceIntegrationValueIsNumber value
  else if String.eqb typ "integer" then workspaceIntegrationValueIsInteger value
  else if String.eqb typ "array" then match value with JArr _ => true | _ => false end
  else if String.eqb typ "object" then match value with JObj _ => true | _ => false end
  else if String.eqb typ "null" then match value with JNull => true | _ => false end
  else false.
Definition workspaceIntegrationValueMatchesAnySchemaType (value : json) (types : list string)
    : bool := existsb (matches_type value) types.
(** A number of the schema is compared by its numeral. *)
Definition allowed_text (allowed : json) : string :=
  match allowed with
  | JNum n => marshal_int n
  | JFloat t => t
  | _ => Sprint allowed
  end.
Definition workspaceIntegrationEnumValueMatches (value allowed : json) : bool :=
  String.eqb (Sprint value) (allowed_text allowed).

(** The code of a [workspaceIntegrationValidationError]. *)
Definition validateWorkspaceIntegrationSchemaValue (value : json) (schema : list (string * json))
    : option string :=
  let types := workspaceIntegrationSchemaStringSlice (object_value "type" schema) in
  if negb (bool_decide (types = [])) &&
     negb (workspaceIntegrationValueMatchesAnySchemaType value types) then Some "type"
  else match object_value "enum" schema with
    | Some (JArr ((_ :: _) as enum)) =>
        if existsb (workspaceIntegrationEnumValueMatches value) enum then None else Some "enum"
    | _ => None
    end.
Definition workspaceIntegrationToolArgumentSchema (tool : workspaceIntegrationManifestTool)
    : option json :=
  head (omap id [Tool_Parameters tool; Tool_InputSchema tool; Tool_Schema tool]).
(** The first violation of a list of checks; a Go map is run through in the order of the
    list that stands for it. *)
Definition first_violation {A} (check : A → option string) (l : list A) : option string :=
  head (omap check l).
Definition validateWorkspaceIntegrationToolArguments (tool : workspaceIntegrationManifestTool)
    (args : list (string * json)) : option string :=
  match workspaceIntegrationToolArgumentSchema tool with
  | Some (JObj root) =>
      if negb (existsb (String.eqb "object")
                 (workspaceIntegrationSchemaStringSlice (object_value "type" root))) then None
      else
        let properties := workspaceIntegrationSchemaProperties root in
        let missing := first_violation (λ key,
          if isEmptyWorkspaceIntegrationHTTPValue (object_value key args) then Some "required"
          else None) (workspaceIntegrationSchemaStringSlice (object_value "required" root)) in
        let extra :=
          if workspaceIntegrationSchemaAdditionalPropertiesFalse root &&
             negb (bool_decide (properties = []))
          then first_violation (λ kv : string * json,
                 if is_some_b (assoc kv.1 properties) then None
                 else Some "additional_properties") args
          else None in
        let wrong := first_violation (λ kv : string * list (string * json),
          match object_value kv.1 args with
          | Some value =>
              if isEmptyWorkspaceIntegrationHTTPValue (Some value) then None
              else validateWorkspaceIntegrationSchemaValue value kv.2
          | None => None
          end) properties in
        match missing with
        | Some code => Some code
        | None => match extra with Some code => Some code | None => wrong end
        end
  | _ => None
  end.

(** ** Redaction *)

Definition isWorkspaceIntegrationSecretKey (key : string) : bool :=
  let key := ToLower (TrimSpace key) in
  String.eqb key "key" ||
  existsb (Contains key) ["api_key"; "apikey"; "secret"; "token"; "password"; "bearer"].
Fixpoint secrets_below (key : string) (value : json) : list string :=
  match value with
  | JObj fs => mbind (λ kv, secrets_below kv.1 kv.2) fs
  | JArr l => mbind (secrets_below key) l
  | JStr s => if isWorkspaceIntegrationSecretKey key then [s] else []
  | _ => []
  end.
Definition collectWorkspaceIntegrationConfigSecrets (raw : option json) : list string :=
  match raw with Some j => secrets_below "" j | None => [] end.
Fixpoint unique_from (seen values : list string) : list string :=
  match values with
  | [] => []
  | v :: rest =>
      let v := TrimSpace v in
      if String.eqb v "" || bool_decide (v ∈ seen) then unique_from seen rest
      else v :: unique_from (v :: seen) rest
  end.
Definition uniqueWorkspaceIntegrationSecrets (values : list string) : list string :=
  unique_from [] values.
Definition redacted_mark : string := "[REDACTED]".
Definition redactWorkspaceIntegrationString (value : string) (secrets : list string) : string :=
  foldl (λ value secret,
    if String.eqb secret "" then value else ReplaceAll value secret redacted_mark) value secrets.
Fixpoint redactWorkspaceIntegrationValue (secrets : list string) (value : json) : json :=
  match value with
  | JObj fs => JObj ((λ kv, (kv.1, redactWorkspaceIntegrationValue secrets kv.2)) <$> fs)
  | JArr l => JArr (redactWorkspaceIntegrationValue secrets <$> l)
  | JStr s => JStr (redactWorkspaceIntegrationString s secrets)
  | j => j
  end.
End Calls.

(** ** Calls *)

(** What a validated token says. *)
Record WorkspaceIntegrationClaims : Type := mkIntegrationClaims {
  IntegrationClaims_MachineID : string;
  IntegrationClaims_IssuedAtUnixNano : Z;
  IntegrationClaims_IssuedAt : option time
}.
Definition reply (status : Z) (body : json) : I response := ret (mkResponse status body).
Definition reply_error (status : Z) (msg : string) : I response :=
  reply status (JObj [("error", JStr msg)]).

Definition workspaceIntegrationPluginID : string := "ocm-integrations".
Definition workspaceIntegrationSearchToolsName : string := "ocm.search_tools".
Definition workspaceIntegrationDescribeToolName : string := "ocm.describe_tool".
Definition workspaceIntegrationCallToolName : string := "ocm.call_tool".
Definition isWorkspaceIntegrationFacadeTool (name : string) : bool :=
  one_of [workspaceIntegrationSearchToolsName; workspaceIntegrationDescribeToolName;
          workspaceIntegrationCallToolName] name.
Definition workspaceIntegrationApprovalRequiredMessage (toolID : string) : string :=
  "tool " +:+ toolID +:+ " requires human approval before execution".
Definition workspaceIntegrationTokenIssuedAt (claims : WorkspaceIntegrationClaims) : time :=
  if bool_decide (0 < IntegrationClaims_IssuedAtUnixNano claims)%Z
  then IntegrationClaims_IssuedAtUnixNano claims
  else default zero_time (IntegrationClaims_IssuedAt claims).

Section Gateway.
  Context {unicode : GoUnicode} {F : GoFormat}.
  Variable s : Server.
  Variable upstream : upstream_call → res (list (string * json)).
  Variable decrypt : string → string → option string.
  Variable validate_token : string → option WorkspaceIntegrationClaims.
  Variable rank : list workspaceIntegrationToolDescriptor → list (string * json) → res json.

(** *** Who calls *)

Definition workspaceIntegrationRuntimeEnabled (machineID : string) : I bool :=
  let! plugins := stmt (in_db (ListMachinePlugins machineID)) in
  ret (existsb (λ p, String.eqb (MachinePlugin_PluginID p) workspaceIntegrationPluginID &&
                     MachinePlugin_Enabled p) plugins).
Definition token_revoked (claims : WorkspaceIntegrationClaims) (machine : Machine) : bool :=
  match Machine_WorkspaceIntegrationTokensValidAfter machine with
  | Some t => bool_decide (workspaceIntegrationTokenIssuedAt claims < t)%Z
  | None => false
  end.
Definition requireWorkspaceIntegrationToken (authorization : string)
    (next : string → Workspace → I response) : I response :=
  if String.eqb authorization "" then reply_error 401 "missing authorization"
  else
    match TrimPrefix_from authorization "Bearer " with
    | None => reply_error 401 "invalid authorization scheme"
    | Some rest =>
        let token := TrimSpace rest in
        if String.eqb token "" then reply_error 401 "empty bearer token"
        else
          match validate_token token with
          | None => reply_error 401 "invalid workspace integration token"
          | Some claims =>
              let machineID := IntegrationClaims_MachineID claims in
              let! m := try (stmt (in_db (GetMachine machineID))) in
              match m with
              | Err _ => reply_error 403 "machine not found"
              | Ok machine =>
                  if token_revoked claims machine
                  then reply_error 401 "workspace integration token has been revoked"
                  else
                    let! w := try (stmt (in_db (GetWorkspaceForMachine machineID))) in
                    match w with
                    | Err _ => reply_error 403 "machine workspace not found"
                    | Ok workspace =>
                        let! enabled := try (workspaceIntegrationRuntimeEnabled machineID) in
                        match enabled with
                        | Err _ =>
                            reply_error 500 "failed to validate workspace integration runtime"
                        | Ok false => reply_error 403 "workspace integration runtime disabled"
                        | Ok true => next machineID workspace
                        end
                    end
              end
          end
    end.

(** *** The call itself *)

Definition decrypt_secret (encrypted : string) : I (list string) :=
  if String.eqb (TrimSpace encrypted) "" then ret []
  else if String.eqb (srv_secretKey s) "" then
    fail (ErrText "SECRET_ENCRYPTION_KEY not configured")
  else
    match decrypt encrypted (srv_secretKey s) with
    | None => fail (ErrText "decrypt workspace integration credential for redaction")
    | Some secret => ret [secret]
    end.
Definition workspaceIntegrationRedactionSecrets (integration : WorkspaceIntegration)
    : I (list string) :=
  let secrets := collectWorkspaceIntegrationConfigSecrets (Integration_Config integration) in
  let! c := try (GetWorkspaceIntegrationCredential (Integration_ID integration)) in
  match c with
  | Err e =>
      if errors_is e ErrNoRows then ret (uniqueWorkspaceIntegrationSecrets secrets)
      else fail (ErrWrap "load workspace integration credential for redaction" e)
  | Ok credential =>
      let! secret := decrypt_secret (Credential_SecretEnc credential) in
      let! refresh := decrypt_secret (or_empty (Credential_RefreshEnc credential)) in
      ret (uniqueWorkspaceIntegrationSecrets (secrets ++ secret ++ refresh)%list)
  end.
Definition redactWorkspaceIntegrationToolResult (integration : WorkspaceIntegration)
    (result : list (string * json)) : I (list (string * json)) :=
  let! secrets := workspaceIntegrationRedactionSecrets integration in
  match secrets with
  | [] => ret result
  | _ => ret (fields_of (redactWorkspaceIntegrationValue secrets (JObj result)))
  end.

Definition call_mock (c : upstream_call) : res (list (string * json)) :=
  if EqualFold (Tool_Name (Upstream_Tool c)) "echo" then
    Ok [("echo", JObj (Upstream_Args c));
        ("integration_id", JStr (Integration_ID (Upstream_Integration c)));
        ("integration_slug", JStr (Integration_Slug (Upstream_Integration c)))]
  else Err (ErrText "unsupported mock tool").
Definition workspaceIntegrationRuntimeAdapterFor (integration : WorkspaceIntegration)
    : option (upstream_call → res (list (string * json))) :=
  let t := normalizeWorkspaceIntegrationTransport (Integration_Transport integration) in
  if String.eqb t "mock" then Some call_mock
  else if one_of ["mcp-remote"; "http"] t then Some upstream else None.
Definition callWorkspaceIntegrationTool (integration : WorkspaceIntegration)
    (tool : workspaceIntegrationManifestTool) (args : list (string * json))
    : I (list (string * json)) :=
  match workspaceIntegrationRuntimeAdapterFor integration with
  | None => fail (ErrText "workspace integration transport not implemented")
  | Some adapter =>
      match validateWorkspaceIntegrationToolArguments tool args with
      | Some code => fail (ErrWrap code (ErrText "invalid arguments"))
      | None =>
          let c := mkUpstreamCall integration tool args in
          modify (set wi_calls (cons c)) ;;
          let! result := of_res (adapter c) in
          redactWorkspaceIntegrationToolResult integration result
      end
  end.

(** *** The facade *)

Definition workspaceIntegrationFacadeRequestedTool (args : list (string * json)) : option string :=
  let text key := TrimSpace (workspaceIntegrationArgString (object_value key args)) in
  if negb (String.eqb (text "tool_address") "") then Some (text "tool_address")
  else if negb (String.eqb (text "tool_id") "") then Some (text "tool_id") else None.
Definition workspaceIntegrationFacadeArguments (raw : option json)
    : option (list (string * json)) :=
  match raw with
  | None | Some JNull => Some []
  | Some (JObj args) => Some args
  | Some _ => None
  end.
Definition describe_json (d : workspaceIntegrationToolDescriptor) : json :=
  JObj [("tool_id", JStr (Descriptor_ToolID d)); ("tool_address", JStr (Descriptor_ToolAddress d));
    ("legacy_tool_id", JStr (Descriptor_LegacyToolID d));
    ("legacy_integration_id", JStr (Descriptor_LegacyIntegrationID d));
    ("integration_slug", JStr (Descriptor_IntegrationSlug d));
    ("integration_name", JStr (Descriptor_IntegrationName d));
    ("source_slug", JStr (Descriptor_SourceSlug d));
    ("source_kind", JStr (Descriptor_SourceKind d));
    ("connection_id", JStr (Descriptor_ConnectionID d));
    ("connection_slug", JStr (Descriptor_ConnectionSlug d));
    ("connection_scope", JStr (Descriptor_ConnectionScope d));
    ("snapshot_id", JStr (Descriptor_SnapshotID d));
    ("tools_synced_at", default JNull (JNum <$> Descriptor_ToolsSyncedAt d));
    ("name", JStr (Descriptor_Name d)); ("description", JStr (Descriptor_Description d));
    ("input_schema", default any_object (Descriptor_InputSchema d));
    ("access", JStr (Descriptor_Access d)); ("policy", JStr (Descriptor_Policy d));
    ("policy_state", JStr (Descriptor_PolicyState d));
    ("auth_state", JStr (Descriptor_AuthState d)); ("source", JStr (Descriptor_Source d))].

(** A status with a result or an error. *)
Definition facade_outcome : Type := (Z * res json)%type.
Definition refuse (status : Z) (msg : string) : I facade_outcome := ret (status, Err (ErrText msg)).
Definition requires_approval (r : resolved) : bool :=
  String.eqb (Descriptor_PolicyState (Resolved_Descriptor r))
    workspaceIntegrationPolicyRequireApproval ||
  String.eqb (workspaceIntegrationToolPolicyState (Resolved_Integration r)
                (Tool_Name (Resolved_Tool r))) workspaceIntegrationPolicyRequireApproval.
Definition workspaceIntegrationNormalizedRuntimeUnsupportedError
    (d : workspaceIntegrationToolDescriptor) : string :=
  "normalized runtime dispatch is not implemented for " +:+
  orElse (firstNonEmpty [Descriptor_ToolAddress d; Descriptor_ToolID d; Descriptor_Name d])
    "selected tool" +:+
  "; this connection still requires a legacy workspace integration runtime row".
(** Why nothing was found for a tool that is described once. *)
Definition not_runnable (r : resolution) : Z * string :=
  match r with
  | Found d =>
      if String.eqb (Descriptor_LegacyIntegrationID d) ""
      then (501, workspaceIntegrationNormalizedRuntimeUnsupportedError d)
      else (404, "tool not found")
  | _ => (404, "tool not found")
  end.
Definition describe_tool (workspace : Workspace) (integrations : list WorkspaceIntegration)
    (args : list (string * json)) : I facade_outcome :=
  match workspaceIntegrationFacadeRequestedTool args with
  | None => refuse 400 "tool_address or tool_id is required"
  | Some requestedTool =>
      let! '(descriptors, _) := buildWorkspaceIntegrationRuntimeToolDescriptorsWithSource
        (Some workspace) integrations false in
      match resolveWorkspaceIntegrationFacadeToolDescriptor descriptors requestedTool with
      | Ambiguous _ => refuse 409 "tool_id is ambiguous; use tool_address"
      | NotFound => refuse 404 "tool not found"
      | Found d => ret (200, Ok (describe_json d))
      end
  end.
Definition call_tool (workspace : Workspace) (integrations : list WorkspaceIntegration)
    (args : list (string * json)) : I facade_outcome :=
  match workspaceIntegrationFacadeRequestedTool args,
        workspaceIntegrationFacadeArguments (object_value "arguments" args) with
  | None, _ => refuse 400 "tool_address or tool_id is required"
  | _, None => refuse 400 "arguments must be an object"
  | Some requestedTool, Some callArgs =>
      let! '(descriptors, projectionAuthoritative) :=
        buildWorkspaceIntegrationRuntimeToolDescriptorsWithSource (Some workspace) integrations
          false in
      match resolveWorkspaceIntegrationFacadeToolDescriptor descriptors requestedTool with
      | Ambiguous _ => refuse 409 "tool_id is ambiguous; use tool_address"
      | resolution =>
          let! found := resolveWorkspaceIntegrationRuntimeToolFromDescriptors (Some workspace)
            descriptors projectionAuthoritative integrations requestedTool in
          match found with
          | None => refuse (not_runnable resolution).1 (not_runnable resolution).2
          | Some r =>
              if requires_approval r then
                refuse 409 (workspaceIntegrationApprovalRequiredMessage
                  (firstNonEmpty [Descriptor_ToolAddress (Resolved_Descriptor r); requestedTool]))
              else
                let! result := try (callWorkspaceIntegrationTool (Resolved_Integration r)
                                      (Resolved_Tool r) callArgs) in
                match result with
                | Err _ => refuse 502 "tool call failed"
                | Ok result => ret (200, Ok (JObj
                    [("tool_id", JStr (Descriptor_ToolID (Resolved_Descriptor r)));
                     ("tool_address", JStr (Descriptor_ToolAddress (Resolved_Descriptor r)));
                     ("result", JObj result)]))
                end
          end
      end
  end.
Definition callWorkspaceIntegrationFacadeTool (workspace : Workspace)
    (integrations : list WorkspaceIntegration) (name : string) (args : list (string * json))
    : I facade_outcome :=
  if String.eqb name workspaceIntegrationSearchToolsName then
    let! '(descriptors, _) := buildWorkspaceIntegrationRuntimeToolDescriptorsWithSource
      (Some workspace) integrations false in
    ret (match rank descriptors args with
         | Ok items => (200, Ok (JObj [("items", items)]))
         | Err e => (400, Err e)
         end)
  else if String.eqb name workspaceIntegrationDescribeToolName then
    describe_tool workspace integrations args
  else if String.eqb name workspaceIntegrationCallToolName then
    call_tool workspace integrations args
  else refuse 404 "tool not found".

(** *** The request *)

Definition call_direct (workspace : Workspace) (integrations : list WorkspaceIntegration)
    (requestedTool : string) (args : list (string * json)) : I response :=
  let! found := resolveWorkspaceIntegrationRuntimeTool (Some workspace) integrations requestedTool in
  match found with
  | None =>
      let! '(descriptors, _) := buildWorkspaceIntegrationRuntimeToolDescriptorsWithSource
        (Some workspace) integrations false in
      let why := not_runnable
        (resolveWorkspaceIntegrationFacadeToolDescriptor descriptors requestedTool) in
      reply_error why.1 why.2
  | Some r =>
      if requires_approval r then
        reply_error 409 (workspaceIntegrationApprovalRequiredMessage requestedTool)
      else
        let! result := try (callWorkspaceIntegrationTool (Resolved_Integration r)
                              (Resolved_Tool r) args) in
        match result with
        | Err _ => reply_error 502 "tool call failed"
        | Ok result =>
            let slug := Integration_Slug (Resolved_Integration r) in
            reply 200 (JObj [("integration", JStr slug);
              ("tool", JStr (slug +:+ "." +:+ Tool_Name (Resolved_Tool r)));
              ("result", JObj result)])
        end
  end.
(** The body has [arguments] or [params]; [None] does not decode. *)
Definition call_body : Type := option (option (list (string * json)) * option (list (string * json))).
Definition handleWorkspaceIntegrationCallTool (authorization requestedTool : string)
    (body : call_body) : I response :=
  requireWorkspaceIntegrationToken authorization (λ machineID workspace,
  if String.eqb requestedTool "" then reply_error 400 "tool is required"
  else
    let! l := try (ListEnabledWorkspaceIntegrationsForMachine machineID) in
    match l with
    | Err _ => reply_error 500 "failed to list workspace integration tools"
    | Ok integrations =>
        match body with
        | None => reply_error 400 "invalid request body"
        | Some (arguments, params) =>
            let args := default [] (or_old params arguments) in
            if isWorkspaceIntegrationFacadeTool requestedTool then
              let! '(status, result) :=
                callWorkspaceIntegrationFacadeTool workspace integrations requestedTool args in
              match result with
              | Ok j => reply 200 j
              | Err e => reply_error status (match e with ErrText msg => msg | _ => "error" end)
              end
            else call_direct workspace integrations requestedTool args
        end
    end).
End Gateway.
