(* ===== verification/IntegrationAdmin.v ===== *)
(** * Management of workspace integrations (api/workspace_integrations_management.go)

    The handlers that change the policy of tools, create the mock integration, revoke an
    integration and test one.  An answer's item leaves out what is read from the
    configuration (target, scopes, permissions, status of services, snapshot of a
    server); the push of a running machine's configuration after an integration is
    created is not modelled. *)

From S2P Require Import Prelude Schema HostStore CatalogStore World GoStrings GoText.
From S2P Require Import Json.
From S2P Require Import Fleet Versions Routing Runtime Api BrowserVMs Machines.
From S2P Require Import Integrations.
From S2P Require Import IntegrationStore ToolGateway.

#[local] Open Scope string_scope.

(** ** Answers *)

Definition json_texts (l : list string) : option json :=
  match l with [] => None | _ => Some (JArr (JStr <$> l)) end.
Definition catalog_tool_json (name description access source : string) : json :=
  JObj ([("name", JStr name)] ++ omitempty_str "description" description ++
        [("access", JStr access); ("mode", JStr "Interactive")] ++ omitempty_str "source" source)%list.
Definition workspaceIntegrationCatalogToolsFromManifest (manifest : option json) : list json :=
  match parseWorkspaceIntegrationManifest manifest with
  | None => []
  | Some tools => omap (λ tool,
      if String.eqb (Tool_Name tool) "" then None
      else Some (catalog_tool_json (Tool_Name tool) (Tool_Description tool)
        (if String.eqb (workspaceIntegrationManifestToolAccess tool) "write" then "Write" else "Read")
        (ToLower (TrimSpace (Tool_Source tool))))) tools
  end.
Definition countWorkspaceIntegrationManifestTools (manifest : option json) : Z :=
  match manifest with Some (JArr l) => Z.of_nat (length l) | _ => 0 end.
Definition management_item (id workspaceID slug displayName kind transport : string)
    (enabled approved : bool) (toolCount : Z) (tools : list json)
    (allowedTools deniedTools : list string) (approvedBy connectedBy : option Z)
    (approvedAt connectedAt : option time) (createdAt updatedAt : time) : json :=
  JObj ([("id", JStr id); ("workspace_id", JStr workspaceID); ("slug", JStr slug);
         ("display_name", JStr displayName); ("kind", JStr kind); ("transport", JStr transport);
         ("enabled", JBool enabled); ("tool_count", JNum toolCount)] ++
    omitempty "tools" (match tools with [] => None | _ => Some (JArr tools) end) ++
    [("approved", JBool approved)] ++
    omitempty "allowed_tools" (json_texts allowedTools) ++
    omitempty "denied_tools" (json_texts deniedTools) ++
    omitempty "approved_by_user_id" (JNum <$> approvedBy) ++
    omitempty "approved_at" (JNum <$> approvedAt) ++
    omitempty "connected_by_user_id" (JNum <$> connectedBy) ++
    omitempty "connected_at" (JNum <$> connectedAt) ++
    [("created_at", JNum createdAt); ("updated_at", JNum updatedAt)])%list.
Definition workspaceIntegrationManagementItemFromStore (i : WorkspaceIntegration) : json :=
  management_item (Integration_ID i) (Integration_WorkspaceID i) (Integration_Slug i)
    (Integration_DisplayName i) (Integration_Kind i) (Integration_Transport i)
    (Integration_Enabled i) (is_some_b (Integration_ApprovedAt i) || Integration_Enabled i)
    (countWorkspaceIntegrationManifestTools (Integration_ToolManifest i))
    (workspaceIntegrationCatalogToolsFromManifest (Integration_ToolManifest i))
    (Integration_AllowedTools i) (Integration_DeniedTools i) (Integration_ApprovedBy i)
    (Integration_ConnectedBy i) (Integration_ApprovedAt i) (Integration_ConnectedAt i)
    (Integration_CreatedAt i) (Integration_UpdatedAt i).
Definition projection_item (transport : string)
    (projection : WorkspaceIntegrationConnectorProjection) (allowedTools deniedTools : list string)
    : json :=
  let connection := Projection_Connection projection in
  let source := Projection_Source projection in
  let tools := omap (λ tool,
    let name := TrimSpace (Snapshot_ToolName tool) in
    if String.eqb name "" then None
    else Some (catalog_tool_json name (Snapshot_Description tool)
      (if EqualFold (TrimSpace (Snapshot_Access tool)) "write" then "Write" else "Read")
      (ToLower (firstNonEmpty [Snapshot_Source tool; Source_Importer source; Source_Kind source]))))
    (Projection_Tools projection) in
  management_item (Connection_ID connection) (Connection_WorkspaceID connection)
    (Connection_Slug connection)
    (firstNonEmpty [Connection_DisplayName connection; Source_DisplayName source;
                    Connection_Slug connection])
    (orElse (TrimSpace (Source_Kind source)) (TrimSpace (Source_Importer source)))
    transport (Connection_Enabled connection) (Connection_Enabled connection)
    (Z.of_nat (length tools)) tools allowedTools deniedTools None None None None
    (Connection_CreatedAt connection) (Connection_UpdatedAt connection).

(** ** Policies *)

Definition workspaceIntegrationMaxEnabledTools : nat := 25.

(** Names are checked against those available; [resolve] strips what may precede one. *)
Fixpoint normalize_names (owner : string) (resolve : string → res string)
    (available seen values : list string) : res (list string) :=
  match values with
  | [] => Ok []
  | raw :: rest =>
      let value := TrimSpace raw in
      if String.eqb value "" then Err (ErrText "policy tool names must not be empty")
      else
        match resolve value with
        | Err e => Err e
        | Ok name =>
            if negb (bool_decide (name ∈ available))
            then Err (ErrText ("unknown policy tool for " +:+ owner))
            else if bool_decide (name ∈ seen)
            then normalize_names owner resolve available seen rest
            else match normalize_names owner resolve available (name :: seen) rest with
                 | Ok names => Ok (name :: names)
                 | Err e => Err e
                 end
        end
  end.
Definition strip_slug (owner slug value : string) : res string :=
  match split_first "." value with
  | Some (prefix, name) =>
      if String.eqb prefix slug then Ok name
      else Err (ErrText ("policy tool does not belong to " +:+ owner))
  | None => Ok value
  end.
Definition tool_names (manifestTools : list workspaceIntegrationManifestTool) : list string :=
  List.filter (λ name, negb (String.eqb name "")) (TrimSpace <$> (Tool_Name <$> manifestTools)).
Definition normalizeWorkspaceIntegrationPolicyTools (integrationSlug : string)
    (manifestTools : list workspaceIntegrationManifestTool) (values : list string)
    : res (list string) :=
  normalize_names "integration" (strip_slug "integration" integrationSlug)
    (tool_names manifestTools) [] values.
Definition snapshot_names (projection : WorkspaceIntegrationConnectorProjection) : list string :=
  List.filter (λ name, negb (String.eqb name ""))
    (TrimSpace <$> (Snapshot_ToolName <$> Projection_Tools projection)).
Definition tool_aliases (projection : WorkspaceIntegrationConnectorProjection) : gmap string string :=
  let connectionSlug := TrimSpace (Connection_Slug (Projection_Connection projection)) in
  foldl (λ m tool,
    let name := TrimSpace (Snapshot_ToolName tool) in
    if String.eqb name "" then m
    else
      let m := <[name := name]> m in
      let m := if String.eqb connectionSlug "" then m
               else <[connectionSlug +:+ "." +:+ name := name]> m in
      let toolAddress := TrimSpace (Snapshot_ToolAddress tool) in
      if String.eqb toolAddress "" then m else <[toolAddress := name]> m)
    ∅ (Projection_Tools projection).
Definition normalizeWorkspaceIntegrationProjectionPolicyTools
    (projection : WorkspaceIntegrationConnectorProjection) (values : list string)
    : res (list string) :=
  let connectionSlug := TrimSpace (Connection_Slug (Projection_Connection projection)) in
  normalize_names "connection" (λ value,
    match tool_aliases projection !! value with
    | Some name => Ok name
    | None => strip_slug "connection" connectionSlug value
    end) (snapshot_names projection) [] values.

(** A row per tool: blocked when denied, or not among the allowed ones if there are any. *)
Fixpoint distinct_from (seen names : list string) : list string :=
  match names with
  | [] => []
  | name :: rest =>
      if bool_decide (name ∈ seen) then distinct_from seen rest
      else name :: distinct_from (name :: seen) rest
  end.
Definition listed_policy (allowedTools deniedTools : list string) (name : string) : string :=
  if bool_decide (name ∈ deniedTools) then workspaceIntegrationPolicyBlock
  else if negb (bool_decide (allowedTools = [])) && negb (bool_decide (name ∈ allowedTools))
  then workspaceIntegrationPolicyBlock else workspaceIntegrationPolicyAllow.
Definition workspaceIntegrationProjectionPolicyRows
    (projection : WorkspaceIntegrationConnectorProjection) (allowedTools deniedTools : list string)
    : list WorkspaceIntegrationToolPolicy :=
  let connection := Projection_Connection projection in
  (λ name, mkWorkspaceIntegrationToolPolicy "" (Connection_WorkspaceID connection)
     (Connection_ID connection) name (listed_policy allowedTools deniedTools name) "api"
     zero_time zero_time) <$> distinct_from [] (snapshot_names projection).
(** The lists that the page shows for a connection. *)
Definition policies_by_name (policies : list WorkspaceIntegrationToolPolicy) : gmap string string :=
  foldl (λ m policy,
    let name := TrimSpace (ToolPolicy_ToolName policy) in
    if String.eqb name "" then m
    else match workspaceIntegrationNormalizePolicyState (ToolPolicy_Policy policy) with
         | Some normalized => <[name := normalized]> m
         | None => m
         end) ∅ policies.
Definition workspaceIntegrationProjectionPolicyLists
    (projection : WorkspaceIntegrationConnectorProjection) : list string * list string :=
  let names := distinct_from [] (snapshot_names projection) in
  let having state := List.filter (λ name,
    bool_decide (policies_by_name (Projection_Policies projection) !! name = Some state)) names in
  (having workspaceIntegrationPolicyAllow, having workspaceIntegrationPolicyBlock).

(** ** Handlers *)

Section Admin.
  Context {unicode : GoUnicode} {F : GoFormat}.
  Variable s : Server.
  Variable upstream : upstream_call → res (list (string * json)).
  Variable decrypt : string → string → option string.

Definition log_config (claims : Claims) (accountID : Z) (action : string) : I unit :=
  in_world (emit (AccountLog action (Claims_UserID claims) accountID)).
Definition workspaceForIntegrationRequest (accountID : Z) (workspaceID : string)
    (next : Workspace → I response) : I response :=
  if negb (String.eqb workspaceID "") then
    let! w := try (stmt (in_db (GetWorkspace accountID workspaceID))) in
    match w with
    | Err _ => reply_error 404 "workspace not found"
    | Ok workspace => next workspace
    end
  else
    let! w := try (GetOrCreateDefaultWorkspace accountID) in
    match w with
    | Err _ => reply_error 500 "failed to load workspace"
    | Ok workspace => next workspace
    end.
Definition findWorkspaceIntegrationBySlug (workspaceID slug : string) : I WorkspaceIntegration :=
  let! integrations := ListWorkspaceIntegrations workspaceID in
  match head (List.filter (λ i, String.eqb (Integration_Slug i) slug) integrations) with
  | Some integration => ret integration
  | None => fail ErrPluginNotFound
  end.
Definition findWorkspaceIntegrationProjectionByConnectionSlug
    (projections : list WorkspaceIntegrationConnectorProjection) (connectionSlug : string)
    : option WorkspaceIntegrationConnectorProjection :=
  let connectionSlug := TrimSpace connectionSlug in
  head (List.filter (λ p,
    String.eqb (Connection_Slug (Projection_Connection p)) connectionSlug ||
    String.eqb (Connection_ID (Projection_Connection p)) connectionSlug) projections).
Definition connection_transport (projection : WorkspaceIntegrationConnectorProjection) : string :=
  orElse (match Connection_Config (Projection_Connection projection) with
          | Some (JObj fs) => match object_value "transport" fs with
              | Some (JStr t) => TrimSpace t | _ => "" end
          | _ => ""
          end) (TrimSpace (Source_Importer (Projection_Source projection))).
Definition workspaceIntegrationManagementItemFromProjection
    (projection : WorkspaceIntegrationConnectorProjection) (allowedTools deniedTools : list string)
    : json := projection_item (connection_transport projection) projection allowedTools deniedTools.

(** *** The policy of tools *)

(** The two lists, normalized; at most 25 tools are enabled. *)
Definition with_policy_lists (normalize : list string → res (list string))
    (allowedValues deniedValues : list string) (next : list string → list string → I response)
    : I response :=
  match normalize allowedValues with
  | Err e => reply_error 400 (Error e)
  | Ok allowedTools =>
      if Nat.ltb workspaceIntegrationMaxEnabledTools (length allowedTools) then
        reply_error 400 "workspace integration policy can enable at most 25 tools"
      else
        match normalize deniedValues with
        | Err e => reply_error 400 (Error e)
        | Ok deniedTools => next allowedTools deniedTools
        end
  end.
Definition handleUpdateNormalizedWorkspaceIntegrationPolicy (claims : Claims) (accountID : Z)
    (workspace : Workspace) (connectionSlug : string) (allowedValues deniedValues : list string)
    : I response :=
  let! r := try (ListWorkspaceIntegrationConnectorProjections (Workspace_ID workspace)) in
  match r with
  | Err _ => reply_error 500 "failed to load workspace integration connection"
  | Ok projections =>
      match findWorkspaceIntegrationProjectionByConnectionSlug projections connectionSlug with
      | None => reply_error 404 "workspace integration not found"
      | Some projection =>
          with_policy_lists (normalizeWorkspaceIntegrationProjectionPolicyTools projection)
            allowedValues deniedValues (λ allowedTools deniedTools,
          let! r := try (ReplaceWorkspaceIntegrationToolPolicies
            (Connection_ID (Projection_Connection projection))
            (workspaceIntegrationProjectionPolicyRows projection allowedTools deniedTools)) in
          match r with
          | Err _ => reply_error 500 "failed to update workspace integration policy"
          | Ok _ =>
              log_config claims accountID "config.workspace_integration_policy_updated" ;;
              reply 200 (workspaceIntegrationManagementItemFromProjection projection
                           allowedTools deniedTools)
          end)
      end
  end.
Definition update_policy (claims : Claims) (accountID : Z) (integration : WorkspaceIntegration)
    (allowedValues deniedValues : list string) : I response :=
  match parseWorkspaceIntegrationManifest (Integration_ToolManifest integration) with
  | None => reply_error 400 "workspace integration manifest is invalid"
  | Some manifestTools =>
      with_policy_lists
        (normalizeWorkspaceIntegrationPolicyTools (Integration_Slug integration) manifestTools)
        allowedValues deniedValues (λ allowedTools deniedTools,
      let integration := integration <| Integration_AllowedTools := allowedTools |>
                                     <| Integration_DeniedTools := deniedTools |> in
      let! r := try (UpsertWorkspaceIntegration integration) in
      match r with
      | Err _ => reply_error 500 "failed to update workspace integration policy"
      | Ok row =>
          log_config claims accountID "config.workspace_integration_policy_updated" ;;
          reply 200 (workspaceIntegrationManagementItemFromStore row)
      end)
  end.
Definition handleUpdateWorkspaceIntegrationPolicy (claims : Claims) (accountID : Z)
    (workspaceID integrationSlug : string) (body : option (list string * list string))
    : I response :=
  workspaceForIntegrationRequest accountID workspaceID (λ workspace,
  let slug := TrimSpace integrationSlug in
  if String.eqb slug "" then reply_error 400 "integration slug is required"
  else
    match body with
    | None => reply_error 400 "invalid request body"
    | Some (allowedValues, deniedValues) =>
        let! r := try (findWorkspaceIntegrationBySlug (Workspace_ID workspace) slug) in
        match r with
        | Err e =>
            if errors_is e ErrPluginNotFound then
              handleUpdateNormalizedWorkspaceIntegrationPolicy claims accountID workspace slug
                allowedValues deniedValues
            else reply_error 404 "workspace integration not found"
        | Ok integration => update_policy claims accountID integration allowedValues deniedValues
        end
    end).

(** *** The mock integration *)

Definition mockEchoToolManifest : json :=
  JArr [JObj [("name", JStr "echo");
    ("description", JStr "Echo input back through the workspace integration gateway");
    ("parameters", JObj [("type", JStr "object");
       ("properties", JObj [("message", JObj [("type", JStr "string")])]);
       ("additionalProperties", JBool true)])]].
Definition mock_integration (workspaceID : string) (actorID : option Z) (now : time)
    : WorkspaceIntegration :=
  mkWorkspaceIntegration "" workspaceID "mock-echo" "Mock Echo" "mock" "mock" None true
    (Some mockEchoToolManifest) (Some (JObj [("mode", JStr "echo")])) [] [] "" ""
    actorID (Some now) actorID (Some now) zero_time zero_time.
Definition ensureWorkspaceIntegrationRuntimeForWorkspace (accountID : Z) (workspaceID : string)
    : I unit :=
  let! machines := wrap "list machines" (stmt (in_db (ListMachinesByAccount accountID))) in
  for_each (List.filter (λ m, bool_decide (Machine_WorkspaceID m = Some workspaceID) &&
      String.eqb (NormalizeMachineKind (Machine_Kind m)) MachineKindOpenClaw) machines)
    (λ m, stmt (in_db (EnableMachinePlugin (Machine_ID m) workspaceIntegrationPluginID None))).
Definition handleCreateMockWorkspaceIntegration (claims : Claims) (accountID : Z)
    (workspaceID : string) : I response :=
  workspaceForIntegrationRequest accountID workspaceID (λ workspace,
  let! t := in_db now in
  let! r := try (UpsertWorkspaceIntegration
    (mock_integration (Workspace_ID workspace) (Some (Claims_UserID claims)) t)) in
  match r with
  | Err _ => reply_error 500 "failed to create mock integration"
  | Ok integration =>
      let! e := try (ensureWorkspaceIntegrationRuntimeForWorkspace accountID
                       (Workspace_ID workspace)) in
      match e with
      | Err _ => reply_error 500 "failed to assign workspace integration to machines"
      | Ok _ =>
          log_config claims accountID "config.workspace_integration_created" ;;
          reply 200 (workspaceIntegrationManagementItemFromStore integration)
      end
  end).

(** *** Revoking *)

Definition revoked_json (item : json) : json :=
  JObj [("status", JStr "revoked"); ("integration", item)].
Definition handleRevokeNormalizedWorkspaceIntegrationConnection (claims : Claims) (accountID : Z)
    (workspace : Workspace) (connectionSlug : string) : I response :=
  let! r := try (DeleteWorkspaceIntegrationConnection (Workspace_ID workspace) connectionSlug) in
  match r with
  | Err e =>
      if errors_is e ErrNoRows then reply_error 404 "workspace integration not found"
      else reply_error 500 "failed to revoke workspace integration"
  | Ok projection =>
      log_config claims accountID "config.workspace_integration_revoked" ;;
      reply 200 (revoked_json (workspaceIntegrationManagementItemFromProjection projection [] []))
  end.
Definition handleRevokeWorkspaceIntegration (claims : Claims) (accountID : Z)
    (workspaceID integrationSlug : string) : I response :=
  workspaceForIntegrationRequest accountID workspaceID (λ workspace,
  let slug := TrimSpace integrationSlug in
  if String.eqb slug "" then reply_error 400 "integration slug is required"
  else
    let! r := try (DeleteWorkspaceIntegration (Workspace_ID workspace) slug) in
    match r with
    | Err e =>
        if errors_is e ErrNoRows then
          handleRevokeNormalizedWorkspaceIntegrationConnection claims accountID workspace slug
        else reply_error 500 "failed to revoke workspace integration"
    | Ok integration =>
        log_config claims accountID "config.workspace_integration_revoked" ;;
        reply 200 (revoked_json (workspaceIntegrationManagementItemFromStore integration))
    end).

(** *** Testing *)

Definition tested (r : res (list (string * json))) : I response :=
  match r with
  | Err _ => reply_error 502 "workspace integration test failed"
  | Ok result => reply 200 (JObj [("status", JStr "ok"); ("result", JObj result)])
  end.
Definition firstWorkspaceIntegrationTestTool (integration : WorkspaceIntegration)
    : option workspaceIntegrationManifestTool :=
  manifestTools ← parseWorkspaceIntegrationManifest (Integration_ToolManifest integration);
  head (List.filter (λ tool, negb (String.eqb (TrimSpace (Tool_Name tool)) "") &&
    workspaceIntegrationToolAllowed integration (Tool_Name tool)) manifestTools).
Definition firstWorkspaceIntegrationProjectionTestTool
    (projection : WorkspaceIntegrationConnectorProjection)
    : option (WorkspaceIntegration * workspaceIntegrationManifestTool) :=
  let source := Projection_Source projection in
  let connection := Projection_Connection projection in
  if negb (Connection_Enabled connection) then None
  else
    let policies := policies_by_name (Projection_Policies projection) in
    head (omap (λ snapshot,
      let name := TrimSpace (Snapshot_ToolName snapshot) in
      if String.eqb name "" ||
         bool_decide (policies !! name = Some workspaceIntegrationPolicyBlock) then None
      else
        let transport := workspaceIntegrationNormalizedRuntimeTransport source connection snapshot
          (TrimSpace (Snapshot_Source snapshot)) in
        tool ← workspaceIntegrationNormalizedRuntimeManifestTool snapshot transport;
        Some (workspaceIntegrationNormalizedRuntimeIntegration source connection
                (workspaceIntegrationProjectionDescriptorSourceSlug source snapshot) transport, tool))
      (Projection_Tools projection)).
Definition handleTestNormalizedWorkspaceIntegrationConnection (workspace : Workspace)
    (connectionSlug : string) : I response :=
  let! r := try (ListWorkspaceIntegrationConnectorProjections (Workspace_ID workspace)) in
  match r with
  | Err _ => reply_error 500 "failed to load workspace integration connection"
  | Ok projections =>
      match findWorkspaceIntegrationProjectionByConnectionSlug projections connectionSlug with
      | None => reply_error 404 "workspace integration not configured"
      | Some projection =>
          match firstWorkspaceIntegrationProjectionTestTool projection with
          | None => reply_error 404 "workspace integration test tool not configured"
          | Some (integration, tool) =>
              let! r := try (callWorkspaceIntegrationTool s upstream decrypt integration tool []) in
              tested r
          end
      end
  end.
Definition handleTestWorkspaceIntegration (accountID : Z) (workspaceID integrationSlug : string)
    : I response :=
  workspaceForIntegrationRequest accountID workspaceID (λ workspace,
  let slug := TrimSpace integrationSlug in
  if String.eqb slug "" then reply_error 400 "integration slug is required"
  else
    let! r := try (findWorkspaceIntegrationBySlug (Workspace_ID workspace) slug) in
    match r with
    | Err e =>
        if errors_is e ErrPluginNotFound then
          handleTestNormalizedWorkspaceIntegrationConnection workspace slug
        else reply_error 404 "workspace integration not configured"
    | Ok integration =>
        match firstWorkspaceIntegrationTestTool integration with
        | None => reply_error 404 "workspace integration test tool not configured"
        | Some tool =>
            let! r := try (callWorkspaceIntegrationTool s upstream decrypt integration tool []) in
            tested r
        end
    end).
End Admin.
