(* ===== verification/IntegrationLemmas.v ===== *)
(** * Workspace integrations: what runs read and change

    [view] is the state without the pending faults.  [looks v b m Q]: [m], started in a
    state that looks like [v] (without faults when [b]), leaves it so and answers what
    satisfies [Q].  [calls v b P m]: it makes one call that satisfies [P], or none. *)

From S2P Require Import Prelude Schema World GoStrings GoText Api Integrations.
From S2P Require Import IntegrationStore ToolGateway.

Definition view (s : Integrations) : Integrations :=
  s <| wi_world ::= set w_faults (λ _, []) |>.
Definition faultless (s : Integrations) : Prop := w_faults (wi_world s) = [].
#[export] Instance faultless_dec s : Decision (faultless s).
Proof. unfold faultless. destruct (w_faults (wi_world s)); [by left|by right]. Defined.

Lemma elem_of_order_by {V} (f g : V → string) l x : x ∈ order_by f g l ↔ x ∈ l.
Proof. unfold order_by. by rewrite merge_sort_Permutation. Qed.

(** ** Runs that read *)

Section Runs.
  Variables (v : Integrations) (b : bool).

Definition at_view (s : Integrations) : Prop := view s = v ∧ (b = true → faultless s).
Definition looks {A} (m : I A) (Q : A → Prop) : Prop :=
  ∀ s, at_view s → at_view (m s).2 ∧ ∀ a, (m s).1 = Ok a → Q a.
Definition calls {A} (P : upstream_call → Prop) (m : I A) : Prop :=
  ∀ s, at_view s → wi_calls (m s).2 = wi_calls s ∨
    ∃ c, P c ∧ wi_calls (m s).2 = c :: wi_calls s.

Lemma view_calls s : view s = v → wi_calls s = wi_calls v.
Proof. by intros <-. Qed.

Lemma looks_weaken {A} (m : I A) (Q R : A → Prop) :
  looks m Q → (∀ a, Q a → R a) → looks m R.
Proof. intros H HR s Hs. destruct (H s Hs) as [? ?]. eauto. Qed.
Lemma looks_ret {A} (a : A) (Q : A → Prop) : Q a → looks (ret a) Q.
Proof. intros H s Hs. split; [done|]. by intros ? [= <-]. Qed.
Lemma looks_fail {A} e (Q : A → Prop) : looks (fail e) Q.
Proof. intros s Hs. done. Qed.
Lemma looks_bind {A B} (m : I A) (k : A → I B) Q R :
  looks m Q → (∀ a, Q a → looks (k a) R) → looks (bind m k) R.
Proof.
  intros Hm Hk s Hs. destruct (Hm s Hs) as [H1 H2]. unfold bind.
  destruct (m s) as [[a|e] s1]; cbn in *; [|done]. by apply Hk; [apply H2|].
Qed.
Lemma looks_try {A} (m : I A) Q : looks m Q → looks (try m) (λ r, ∀ a, r = Ok a → Q a).
Proof.
  intros Hm s Hs. destruct (Hm s Hs) as [H1 H2]. unfold try.
  destruct (m s) as [r s1]; cbn in *. split; [done|]. intros ? [= <-]. exact H2.
Qed.
Lemma looks_gets {A} (f : Integrations → A) :
  (∀ s, f s = f (view s)) → looks (gets f) (λ a, a = f v).
Proof. intros Hf s Hs. split; [done|]. intros a [= <-]. rewrite Hf. by rewrite (proj1 Hs). Qed.
Lemma looks_stmt {A} (m : I A) Q : looks m Q → looks (stmt m) Q.
Proof.
  intros Hm s Hs. unfold stmt, bind, in_world, pop_fault.
  destruct (w_faults (wi_world s)) as [|f fs] eqn:E.
  - assert (s <| wi_world := wi_world s |> = s) as -> by (by destruct s).
    unfold tx. destruct (Hm s Hs) as [H1 H2]. by destruct (m s) as [[] ?].
  - set (s1 := s <| wi_world := _ |>).
    assert (at_view s1) as Hs1.
    { split; [rewrite <-(proj1 Hs); by destruct s|].
      intros Hb. apply Hs in Hb. unfold faultless in Hb. congruence. }
    destruct f; [by split|]. unfold tx. destruct (Hm s1 Hs1) as [H1 H2].
    by destruct (m s1) as [[] ?].
Qed.

(** Without faults a statement answers what it computes. *)
Lemma stmt_gets {A} (f : Integrations → A) s : faultless s → stmt (gets f) s = (Ok (f s), s).
Proof.
  intros E. unfold stmt, bind, in_world, pop_fault. rewrite E. unfold tx, gets.
  by destruct s.
Qed.

Lemma calls_read {A} (m : I A) P Q : looks m Q → calls P m.
Proof.
  intros Hm s Hs. left. destruct (Hm s Hs) as [[H _] _].
  rewrite (view_calls _ H). by rewrite (view_calls _ (proj1 Hs)).
Qed.
Lemma calls_bind {A B} (m : I A) (k : A → I B) P Q :
  looks m Q → (∀ a, Q a → calls P (k a)) → calls P (bind m k).
Proof.
  intros Hm Hk s Hs. destruct (Hm s Hs) as [H1 H2]. unfold bind.
  assert (wi_calls (m s).2 = wi_calls s) as E.
  { rewrite (view_calls _ (proj1 H1)). by rewrite (view_calls _ (proj1 Hs)). }
  destruct (m s) as [[a|e] s1]; cbn in *; [|by left].
  rewrite <-E. by apply Hk; [apply H2|].
Qed.
Lemma calls_weaken {A} (m : I A) (P R : upstream_call → Prop) :
  (∀ c, P c → R c) → calls P m → calls R m.
Proof. intros HP Hm s Hs. destruct (Hm s Hs) as [|(c & ? & ?)]; eauto. Qed.
Lemma calls_reply (P : upstream_call → Prop) status body : calls P (reply status body).
Proof. by apply (calls_read _ _ (λ _, True)), looks_ret. Qed.
Lemma calls_ret {A} (P : upstream_call → Prop) (a : A) : calls P (ret a).
Proof. by apply (calls_read _ _ (λ _, True)), looks_ret. Qed.
(** What follows a call only answers. *)
Lemma calls_then {A B} (m : I A) (k : res A → I B) P :
  calls P m → (∀ r s, (k r s).2 = s) → calls P (bind (try m) k).
Proof.
  intros Hm Hk s Hs. rewrite bind_try, Hk. by apply Hm.
Qed.
Lemma calls_finish {A B} (m : I A) (k : A → I B) P :
  calls P m → (∀ a s, (k a s).2 = s) → calls P (bind m k).
Proof.
  intros Hm Hk s Hs. specialize (Hm s Hs). unfold bind. destruct (m s) as [[a|e] s1]; cbn in *; [|done].
  by rewrite Hk.
Qed.
End Runs.

(** ** The statements of the gateway *)

Definition projections_in (workspaceID : string) (s : Integrations)
    : list WorkspaceIntegrationConnectorProjection :=
  join_projections (sources_of workspaceID s) (connections_of workspaceID s)
    (snapshots_of workspaceID s) (policies_of workspaceID s).

Section Statements.
  Variables (v : Integrations) (b : bool).

Lemma looks_projections workspaceID :
  looks v b (ListWorkspaceIntegrationConnectorProjections workspaceID)
    (λ ps, ps = projections_in workspaceID v).
Proof.
  unfold ListWorkspaceIntegrationConnectorProjections.
  eapply looks_bind; [by apply looks_stmt, looks_gets|intros sources ->].
  eapply looks_bind; [by apply looks_stmt, looks_gets|intros connections ->].
  eapply looks_bind; [by apply looks_stmt, looks_gets|intros tools ->].
  eapply looks_bind; [by apply looks_stmt, looks_gets|intros policies ->].
  by apply looks_ret.
Qed.
(** Without faults the projections are read. *)
Lemma projections_faultless workspaceID s :
  faultless s →
  ListWorkspaceIntegrationConnectorProjections workspaceID s
  = (Ok (projections_in workspaceID s), s).
Proof.
  intros E. unfold ListWorkspaceIntegrationConnectorProjections.
  by do 4 (erewrite bind_eq_ok by (by apply stmt_gets)).
Qed.
Lemma looks_try_projections workspaceID :
  looks v b (try (ListWorkspaceIntegrationConnectorProjections workspaceID))
    (λ r, (∀ ps, r = Ok ps → ps = projections_in workspaceID v) ∧
          (b = true → is_ok r = true)).
Proof.
  intros s Hs. destruct (looks_try _ _ _ _ (looks_projections workspaceID) s Hs) as [H1 H2].
  split; [done|]. intros r Hr. split; [by apply H2|]. intros Hb. revert Hr. unfold try.
  rewrite projections_faultless by (by apply Hs). by intros [= <-].
Qed.
Lemma looks_machine_integrations machineID :
  looks v b (ListEnabledWorkspaceIntegrationsForMachine machineID)
    (λ l, l = machine_integrations machineID v).
Proof. by apply looks_stmt, looks_gets. Qed.
(** A query of the database alone. *)
Lemma looks_db {A} (q : Q A) (Q' : A → Prop) :
  let db := w_db (wi_world v) in
  (q db).2 = db ∧ (∀ a, (q db).1 = Ok a → Q' a) → looks v b (stmt (in_db q)) Q'.
Proof.
  intros db Hq. apply looks_stmt. intros s Hs. unfold in_db, in_world.
  assert (w_db (wi_world s) = db) as E by (unfold db; by rewrite <-(proj1 Hs)).
  rewrite E. destruct Hq as [H1 H2]. destruct (q db) as [r d]; cbn in *. subst d.
  assert (s <| wi_world := (wi_world s) <| w_db := db |> |> = s) as ->
    by (rewrite <-E; destruct s as [[] ]; done). done.
Qed.
End Statements.

(** ** States of policies *)

Definition policy_states : list string :=
  [workspaceIntegrationPolicyAllow; workspaceIntegrationPolicyRequireApproval;
   workspaceIntegrationPolicyBlock].
Lemma normalize_states p q :
  workspaceIntegrationNormalizePolicyState p = Some q → q ∈ policy_states.
Proof.
  unfold workspaceIntegrationNormalizePolicyState, policy_states.
  repeat case_match; intros [= <-]; set_solver.
Qed.
Lemma configured_states i name q :
  workspaceIntegrationConfiguredToolPolicy i name = Some q → q ∈ policy_states.
Proof.
  unfold workspaceIntegrationConfiguredToolPolicy. destruct (Integration_Config i) as [c|]; [|done].
  destruct (decode_struct policy_config c) as [fs|]; cbn; [|done].
  repeat case_match; eauto using normalize_states; done.
Qed.
Lemma policy_state_states i name : workspaceIntegrationToolPolicyState i name ∈ policy_states.
Proof.
  unfold workspaceIntegrationToolPolicyState.
  repeat case_match; eauto using configured_states; unfold policy_states; set_solver.
Qed.
Lemma state_allow q :
  q ∈ policy_states → q ≠ workspaceIntegrationPolicyBlock →
  q ≠ workspaceIntegrationPolicyRequireApproval → q = workspaceIntegrationPolicyAllow.
Proof. unfold policy_states. set_solver. Qed.
(** Normalizing a state gives it back. *)
Lemma normalize_idem q :
  q ∈ policy_states → workspaceIntegrationNormalizePolicyState q = Some q.
Proof. unfold policy_states. rewrite !elem_of_cons. intros [->|[->|[->|H]]]; [done..|set_solver]. Qed.

(** The store's copy decides as the gateway does. *)
Lemma connector_normalize p :
  workspaceIntegrationConnectorNormalizePolicy p = workspaceIntegrationNormalizePolicyState p.
Proof. done. Qed.
Lemma connector_policy i name :
  workspaceIntegrationConnectorToolPolicy i name = workspaceIntegrationToolPolicyState i name.
Proof. done. Qed.

(** ** Descriptors *)

Section Descriptors.
  Context {unicode : GoUnicode} {F : GoFormat}.

Lemma tool_allowed i name :
  workspaceIntegrationToolAllowed i name = true →
  workspaceIntegrationToolPolicyState i name ≠ workspaceIntegrationPolicyBlock.
Proof.
  unfold workspaceIntegrationToolAllowed. rewrite negb_true_iff. by intros ?%String.eqb_neq.
Qed.
Lemma find_in_spec p i r :
  find_in p i = Some r → r.1 = i ∧ p i r.2 = true ∧
  workspaceIntegrationToolAllowed i (Tool_Name r.2) = true.
Proof.
  unfold find_in. intros (tools & _ & H)%bind_Some. apply fmap_Some in H as (t & H & ->).
  apply head_Some_elem_of, list_elem_of_In, filter_In in H as [_ H].
  by apply andb_true_iff in H as [? ?].
Qed.
Lemma head_omap_spec {A B} (f : A → option B) l b :
  head (omap f l) = Some b → ∃ a, a ∈ l ∧ f a = Some b.
Proof. by intros H%head_Some_elem_of%list_elem_of_omap. Qed.
Lemma find_tool_spec rows requested i t :
  findWorkspaceIntegrationTool rows requested = Some (i, t) →
  i ∈ rows ∧ workspaceIntegrationToolAllowed i (Tool_Name t) = true.
Proof.
  unfold findWorkspaceIntegrationTool.
  destruct (workspaceIntegrationParseStructuredToolAddress requested).
  - intros (j & Hj & H)%head_omap_spec. apply find_in_spec in H as (Hi & _ & H). cbn in *. subst.
    apply list_elem_of_In, filter_In in Hj as [Hj _]. by apply list_elem_of_In in Hj.
  - intros ([slug name] & _ & H)%bind_Some. cbn in H.
    destruct (String.eqb slug "" || String.eqb name ""); [done|]. apply head_omap_spec in H as (j & Hj & H).
    apply find_in_spec in H as (Hi & _ & H). cbn in *. subst.
    apply list_elem_of_In, filter_In in Hj as [Hj _]. by apply list_elem_of_In in Hj.
Qed.
Lemma find_by_id_spec rows id name i t :
  findWorkspaceIntegrationToolByIntegrationID rows id name = Some (i, t) →
  i ∈ rows ∧ workspaceIntegrationToolAllowed i (Tool_Name t) = true ∧
  TrimSpace (Integration_ID i) = TrimSpace id ∧ Tool_Name t = TrimSpace name.
Proof.
  unfold findWorkspaceIntegrationToolByIntegrationID. cbv zeta.
  destruct (_ || _); [done|].
  intros (j & Hj & H)%bind_Some. apply find_in_spec in H as (Hi & Hn & H). cbn in *. subst.
  apply head_Some_elem_of, list_elem_of_In, filter_In in Hj as [Hj E%String.eqb_eq].
  apply String.eqb_eq in Hn. apply list_elem_of_In in Hj. done.
Qed.

Lemma unique_sub matches_ d x :
  x ∈ appendWorkspaceIntegrationUniqueDescriptor matches_ d → x ∈ matches_ ∨ x = d.
Proof. unfold appendWorkspaceIntegrationUniqueDescriptor. case_match; set_solver. Qed.
Lemma describe_spec ds requested d :
  describeWorkspaceIntegrationFacadeToolFromDescriptors ds requested = Some d → d ∈ ds.
Proof.
  unfold describeWorkspaceIntegrationFacadeToolFromDescriptors,
    resolveWorkspaceIntegrationFacadeToolDescriptor.
  destruct (String.eqb _ _); [done|].
  match goal with |- context [foldl ?g [] ds] => set (f := g) end.
  assert (∀ l acc x, x ∈ foldl f acc l → x ∈ acc ∨ x ∈ l) as Hf.
  { induction l as [|y l IH]; intros acc x; cbn; [by left|]. intros [H|H]%IH; [|set_solver].
    unfold f in H. case_match; [|by left]. apply unique_sub in H. set_solver. }
  destruct (foldl f [] ds) as [|x [|y l]] eqn:E; [done| |done].
  intros [= <-]. destruct (Hf ds [] x) as [H|H]; [rewrite E; set_solver|set_solver|done].
Qed.

(** What is offered: the tools of rows, or of the projections if there are any. *)
Definition offered (rows : list WorkspaceIntegration)
    (seen : list WorkspaceIntegrationConnectorProjection)
    : list workspaceIntegrationToolDescriptor :=
  match seen with
  | [] => buildWorkspaceIntegrationToolDescriptors rows false
  | _ => buildWorkspaceIntegrationToolDescriptorsFromConnectorProjections seen false
  end.

Lemma projected_states p name : projected_state p name ∈ policy_states.
Proof.
  unfold projected_state, policy_map.
  assert (∀ l (m : gmap string string), (∀ k q, m !! k = Some q → q ∈ policy_states) →
    ∀ k q, foldl (λ m policy,
      if String.eqb (TrimSpace (ToolPolicy_ToolName policy)) "" then m
      else match workspaceIntegrationNormalizePolicyState (ToolPolicy_Policy policy) with
           | Some normalized => <[ToolPolicy_ToolName policy := normalized]> m
           | None => m
           end) m l !! k = Some q → q ∈ policy_states) as H.
  { induction l as [|x l IH]; intros m Hm; cbn; [exact Hm|]. apply IH. intros k q.
    case_match; [by apply Hm|]. destruct (workspaceIntegrationNormalizePolicyState _) eqn:E;
      [|by apply Hm]. rewrite lookup_insert. case_decide; [|by apply Hm].
    intros [= <-]. by eapply normalize_states. }
  destruct (foldl _ _ _ !! name) as [q|] eqn:E; [|unfold policy_states; set_solver].
  apply H in E; [|by intros ??; rewrite lookup_empty].
  unfold or_empty, orElse; cbn. case_match; [unfold policy_states; set_solver|done].
Qed.
Lemma snapshot_descriptor p sn d :
  descriptor_of_snapshot false p sn = Some d →
  Descriptor_PolicyState d = projected_state p (Snapshot_ToolName sn) ∧
  Descriptor_Name d = Snapshot_ToolName sn ∧
  Descriptor_LegacyIntegrationID d
    = or_empty (Connection_LegacyIntegrationID (Projection_Connection p)) ∧
  Descriptor_PolicyState d ≠ workspaceIntegrationPolicyBlock.
Proof.
  unfold descriptor_of_snapshot. case_match; [done|].
  rewrite andb_true_r. destruct (String.eqb_spec
    (projected_state p (Snapshot_ToolName sn)) workspaceIntegrationPolicyBlock); [done|].
  by intros [= <-].
Qed.
Lemma offered_projection rows p seen d :
  d ∈ offered rows (p :: seen) → ∃ q sn, q ∈ p :: seen ∧ sn ∈ Projection_Tools q ∧
    Connection_Enabled (Projection_Connection q) = true ∧
    descriptor_of_snapshot false q sn = Some d.
Proof.
  unfold offered, buildWorkspaceIntegrationToolDescriptorsFromConnectorProjections.
  intros (q & H & Hq)%list_elem_of_bind.
  destruct (Connection_Enabled (Projection_Connection q)) eqn:E; [|by apply not_elem_of_nil in H].
  apply list_elem_of_omap in H as (sn & Hsn & H). by exists q, sn.
Qed.
Lemma offered_states rows seen d :
  d ∈ offered rows seen → Descriptor_PolicyState d ∈ policy_states ∧
  Descriptor_PolicyState d ≠ workspaceIntegrationPolicyBlock.
Proof.
  destruct seen as [|p seen].
  - unfold offered, buildWorkspaceIntegrationToolDescriptors.
    intros (i & H & _)%list_elem_of_bind. apply list_elem_of_omap in H as (t & _ & H).
    revert H. unfold descriptor_of_tool. case_match; [done|]. rewrite andb_true_r.
    destruct (String.eqb_spec (workspaceIntegrationToolPolicyState i (Tool_Name t))
      workspaceIntegrationPolicyBlock); [done|]. intros [= <-]. split; [|done].
    apply policy_state_states.
  - intros (q & sn & _ & _ & _ & H)%offered_projection.
    apply snapshot_descriptor in H as (E & _ & _ & H). split; [|done]. rewrite E.
    apply projected_states.
Qed.
End Descriptors.
