(* ===== verification/IntegrationRuns.v ===== *)
(** * Workspace integrations: concrete runs

    A workspace with a running machine whose token is [t0], and what administrators and
    the machine do there. *)

From S2P Require Import Prelude Schema HostStore CatalogStore World GoStrings GoText.
From S2P Require Import Json.
From S2P Require Import StoreStep Scenario Fleet FleetLemmas Versions Routing Runtime.
From S2P Require Import RuntimeSpec Api BrowserVMs Machines Integrations.
From S2P Require Import IntegrationStore.
From S2P Require Import ToolGateway IntegrationAdmin.

#[local] Open Scope string_scope.

(** ** The workspace *)

#[export] Instance unicode0 : GoUnicode := λ _, false.
#[export] Instance format0 : GoFormat := {| format_value := λ _, ""; float_integral := λ _, false |}.

Definition workspace0 : Workspace := mkWorkspace "ws" 1 "default" "Default" 0 0.
Definition gateway_plugin : PluginCatalogEntry :=
  mkPluginCatalogEntry workspaceIntegrationPluginID "Integrations" None "integrations" "1"
    "builtin" None None None "active" 0 0 0.
Definition db_workspace : DB := db_running
  <| db_workspaces := {["ws" := workspace0]} |>
  <| db_plugin_catalog := {[workspaceIntegrationPluginID := gateway_plugin]} |>
  <| db_machines ::= alter (λ m, m <| Machine_WorkspaceID := Some "ws" |>) "id-4" |>.
Definition integrations0 : Integrations := mkIntegrations (world db_workspace) ∅ ∅ ∅ ∅ ∅ ∅ [].
Definition server0 : Server :=
  mkServer runtime0 None false false false false None false "" "" 2 "example.com" "" "" "" "" ""
    "" "key" false (λ _, EmptyString).
Definition claims0 : Claims := mkClaims 1 "alice@example.com".

(** The services behind integrations answer with a text; credentials decrypt to themselves. *)
Definition upstream0 (c : upstream_call) : res (list (string * json)) :=
  Ok [("text", JStr "the token is s3cret, says the service")].
Definition decrypt0 (encrypted key : string) : option string := Some encrypted.
Definition validate0 (token : string) : option WorkspaceIntegrationClaims :=
  if String.eqb token "t0" then Some (mkIntegrationClaims "id-4" 1 None) else None.
Definition rank0 (ds : list workspaceIntegrationToolDescriptor) (args : list (string * json))
    : res json := Ok (JArr (describe_json <$> ds)).

Definition call_as0 (tool : string) (args : list (string * json)) : I response :=
  handleWorkspaceIntegrationCallTool server0 upstream0 decrypt0 validate0 rank0 "Bearer t0" tool
    (Some (Some args, None)).
Definition update0 (slug : string) (allowed denied : list string) : I response :=
  handleUpdateWorkspaceIntegrationPolicy claims0 1 "ws" slug (Some (allowed, denied)).

(** The mock integration is connected, which gives the plugin to the machine. *)
Definition connected : Integrations :=
  (handleCreateMockWorkspaceIntegration claims0 1 "ws" integrations0).2.

(** An integration whose tool needs an approval, by its configuration. *)
Definition approval_integration : WorkspaceIntegration :=
  (mock_integration "ws" (Some 1) 0) <| Integration_Config :=
    Some (JObj [("tool_policy", JObj [("echo", JStr "require_approval")])]) |>.
Definition cautious : Integrations :=
  (UpsertWorkspaceIntegration approval_integration connected).2.

(** A connection that no row stands behind, with a tool over HTTP that needs an approval. *)
Definition source0 : WorkspaceIntegrationSource :=
  mkWorkspaceIntegrationSource "src" "ws" "crm" "CRM" "openapi" "openapi" None 0 0.
Definition connection0 : WorkspaceIntegrationConnection :=
  mkWorkspaceIntegrationConnection "con" "ws" "src" None "crm" "CRM" "workspace" None "connected"
    true (Some (JObj [("transport", JStr "http"); ("endpoint", JStr "https://crm.example.com")]))
    0 0.
Definition snapshot0 : WorkspaceIntegrationToolSnapshot :=
  mkWorkspaceIntegrationToolSnapshot "snap" "ws" "con" "purge" "wi.ws.crm.crm.purge"
    (Some "crm.purge") "Purge the records" None None None "write" "openapi"
    (Some (JObj [("request", JObj [("method", JStr "POST"); ("path", JStr "/purge")])])) 0 None 0 0.
Definition policy0 (state : string) : WorkspaceIntegrationToolPolicy :=
  mkWorkspaceIntegrationToolPolicy "pol" "ws" "con" "purge" state "api" 0 0.
Definition imported (state : string) : Integrations := connected
  <| wi_sources ::= <["src" := source0]> |> <| wi_connections ::= <["con" := connection0]> |>
  <| wi_snapshots ::= <["snap" := snapshot0]> |> <| wi_policies ::= <["pol" := policy0 state]> |>.
