(* ===== verification/AddressSpec.v ===== *)
(** * Addresses of tools: what is shown

    An address built from the names of a workspace, a source, a connection and a tool is
    read back as their segments. *)

From S2P Require Import Prelude GoStrings GoText Integrations.

#[local] Open Scope string_scope.

(** What a segment holds: ASCII letters, digits, underscores, dashes, and runes of more than
    a byte; neither dots nor spaces. *)
Definition seg_char (c : ascii) : bool :=
  ascii_word c || Ascii.eqb c "-" || bool_decide (128 ≤ ascii_code c)%Z.
Definition not_dot (c : ascii) : bool := negb (Ascii.eqb c ".").
Lemma seg_char_plain c : seg_char c = true → not_space c && not_dot c = true.
Proof. by destruct c as [[] [] [] [] [] [] [] []]. Qed.
Lemma continuation_seg c : continuation c = true → seg_char c = true.
Proof.
  unfold continuation, seg_char. intros [? _]%bool_decide_eq_true.
  apply orb_true_iff. right. by apply bool_decide_eq_true.
Qed.

Definition seg_text (s : string) : Prop := s ≠ "" ∧ all_chars seg_char s = true.
Lemma seg_nonempty s : seg_text s → String.eqb s "" = false.
Proof. intros [H _]. by apply String.eqb_neq. Qed.
Lemma seg_spaceless s : seg_text s → all_chars not_space s = true.
Proof. intros [_ H]. revert H. apply all_chars_impl. by intros c [? _]%seg_char_plain%andb_true_iff. Qed.
Lemma seg_dotless s : seg_text s → all_chars not_dot s = true.
Proof. intros [_ H]. revert H. apply all_chars_impl. by intros c [_ ?]%seg_char_plain%andb_true_iff. Qed.

Section Segments.
  Context {unicode : GoUnicode}.

Lemma word_rune_seg r : is_rune r → word_rune r = true → all_chars seg_char r = true.
Proof.
  intros (c & t & -> & Ht). unfold word_rune. cbn [all_chars]. destruct t as [|d t].
  - intros H. unfold seg_char. by rewrite H.
  - intros [H%bool_decide_eq_true _]%andb_true_iff. apply andb_true_iff. split.
    + unfold seg_char. apply orb_true_iff. right. apply bool_decide_eq_true. lia.
    + revert Ht. apply all_chars_impl, continuation_seg.
Qed.
Lemma dashed_seg lastDash rs :
  Forall is_rune rs → all_chars seg_char (dashed word_rune lastDash rs) = true.
Proof.
  intros H. revert lastDash. induction H as [|r rs Hr _ IH]; intros b; [done|]. cbn [dashed].
  destruct (word_rune r) eqn:E.
  - rewrite all_chars_app, IH, andb_true_r. by apply word_rune_seg.
  - destruct b; [apply IH|]. apply (IH true).
Qed.
Lemma segment_text value fallback : seg_text (workspaceIntegrationAddressSegment value fallback).
Proof.
  unfold workspaceIntegrationAddressSegment, segment. cbv zeta.
  match goal with |- context [Trim "-" ?x] => set (t := Trim "-" x) end.
  destruct (String.eqb_spec t ""); [by split|]. split; [done|].
  apply Trim_chars, dashed_seg, runes_spec.
Qed.

Lemma TrimSpace_plain s : all_chars not_space s = true → TrimSpace s = s.
Proof.
  destruct s as [|c s]; [done|]. intros H. generalize (TrimSpace_app c s "" H).
  by rewrite !append_nil_r.
Qed.

(** *** Splitting at the dots *)

Lemma dot_first a b rest x :
  all_chars not_dot a = true → all_chars not_dot b = true →
  a +:+ String "." rest = b +:+ String "." x → a = b ∧ rest = x.
Proof.
  intros Ha Hb E. apply (f_equal (split_first ".")) in E.
  rewrite !split_first_app in E by done. by simplify_eq.
Qed.
Lemma SplitN_dot n a rest :
  all_chars not_dot a = true → SplitN "." (S (S n)) (a +:+ String "." rest) = a :: SplitN "." (S n) rest.
Proof. intros Ha. cbn [SplitN]. by rewrite split_first_app. Qed.
Lemma TrimPrefix_dot a b rest :
  all_chars not_dot a = true → all_chars not_dot b = true →
  TrimPrefix_from (a +:+ String "." rest) (b +:+ ".") = if String.eqb a b then Some rest else None.
Proof.
  intros Ha Hb. destruct (String.eqb_spec a b) as [<-|Hn].
  - replace (a +:+ String "." rest) with ((a +:+ ".") +:+ rest) by (by rewrite append_assoc).
    apply TrimPrefix_from_app.
  - destruct (TrimPrefix_from _ _) as [x|] eqn:E; [|done]. apply TrimPrefix_from_Some in E.
    rewrite append_assoc in E. change ("." +:+ x) with (String "." x) in E.
    by apply dot_first in E as [? _].
Qed.

(** C32: the address built from the names of a workspace, a source, a connection and a tool
    is parsed back into the four segments the names were turned into, whatever the names are
    (blank ones, dots and spaces included), except for a workspace whose
    segment is [workspace]: its addresses are taken for legacy ones, that name no
    workspace. *)
Theorem tool_address_roundtrip w source connection tool :
  workspaceIntegrationParseStructuredToolAddress
    (workspaceIntegrationStructuredToolAddressFromParts w source connection tool)
  = let workspace := workspaceIntegrationAddressSegment w "workspace" in
    Some (mkToolAddress (if String.eqb workspace "workspace" then "" else workspace)
      (workspaceIntegrationAddressSegment source "source")
      (workspaceIntegrationAddressSegment connection "connection")
      (workspaceIntegrationAddressSegment tool "tool")).
Proof.
  unfold workspaceIntegrationStructuredToolAddressFromParts. cbv zeta.
  assert (∀ v f, seg_text (workspaceIntegrationAddressSegment v f)) as Hseg by apply segment_text.
  generalize (Hseg w "workspace"), (Hseg source "source"), (Hseg connection "connection"),
    (Hseg tool "tool"). clear Hseg.
  generalize (workspaceIntegrationAddressSegment w "workspace") as ws,
    (workspaceIntegrationAddressSegment source "source") as so,
    (workspaceIntegrationAddressSegment connection "connection") as co,
    (workspaceIntegrationAddressSegment tool "tool") as to.
  intros ws so co to Hw Hs Hc Ht.
  match goal with |- _ ?t = _ => set (text := t) end.
  assert (text = "wi." +:+ ws +:+ String "." (so +:+ String "." (co +:+ String "." to))) as E by done.
  assert (TrimSpace text = text) as HT.
  { apply TrimSpace_plain. rewrite E. cbn [append all_chars].
    repeat (rewrite all_chars_app; cbn [all_chars]).
    by rewrite !seg_spaceless by done. }
  unfold workspaceIntegrationParseStructuredToolAddress. rewrite HT, E. clear HT E text.
  set (t := ws +:+ String "." (so +:+ String "." (co +:+ String "." to))).
  change (TrimPrefix_from ("wi." +:+ t) workspaceIntegrationLegacyToolAddressPrefix)
    with (TrimPrefix_from t ("workspace" +:+ ".")).
  unfold workspaceIntegrationToolAddressPrefix. rewrite TrimPrefix_from_app.
  subst t.
  rewrite TrimPrefix_dot by (done || by apply seg_dotless).
  destruct (String.eqb_spec ws "workspace"); cbn [option_bind mbind];
    rewrite !SplitN_dot by (by apply seg_dotless); cbn [SplitN];
    by rewrite !seg_nonempty by done.
Qed.
End Segments.
