(* ===== verification/RedactionSpec.v ===== *)
(** * The secrets of an integration: what is shown

    A result that goes back to a machine holds none of the secrets of the integration's
    configuration or credential. *)

From S2P Require Import Prelude Schema World GoStrings GoText JsonSpec Fleet Api.
From S2P Require Import Integrations IntegrationStore ToolGateway IntegrationLemmas.
From S2P Require Import IntegrationAdmin IntegrationRuns.

(** The texts of a value, keys left aside. *)
Fixpoint texts_of (j : json) : list string :=
  match j with
  | JStr s => [s]
  | JArr l => mbind texts_of l
  | JObj fs => mbind (λ kv, texts_of kv.2) fs
  | _ => []
  end.

(** A secret of an integration: a text below a key such as [token] of its configuration, or
    one that its credential decrypts to. *)
Inductive secret_of (s : Server) (decrypt : string → string → option string)
    (i : WorkspaceIntegration) (st : Integrations) (t : string) : Prop :=
| secret_config : t ∈ collectWorkspaceIntegrationConfigSecrets (Integration_Config i) →
    secret_of s decrypt i st t
| secret_credential credential encrypted :
    wi_credentials st !! Integration_ID i = Some credential →
    encrypted ∈ [Credential_SecretEnc credential; or_empty (Credential_RefreshEnc credential)] →
    TrimSpace encrypted ≠ ""%string →
    decrypt encrypted (srv_secretKey s) = Some t →
    secret_of s decrypt i st t.
(** The mark of a redaction does not bring the text in. *)
Definition markless (t : string) : Prop :=
  all_chars (λ c, negb (Ascii.eqb c "[")) t = true ∧
  all_chars (λ c, negb (Ascii.eqb c "]")) t = true ∧ Contains "REDACTED" t = false.

(** ** Texts *)

Lemma markless_apart t : markless t → apart t redacted_mark.
Proof.
  intros (H1 & H2 & H3). apply (apart_bracketed "[" "]" "REDACTED"); [done..|].
  rewrite <-Contains_occurs. by rewrite H3.
Qed.
Lemma unique_from_in seen values v :
  v ∈ values → TrimSpace v ≠ ""%string →
  TrimSpace v ∈ unique_from seen values ∨ TrimSpace v ∈ seen.
Proof.
  intros Hv Hn. revert seen. induction values as [|u values IH]; intros seen; cbn; [set_solver|].
  apply elem_of_cons in Hv as [->|Hv].
  - apply String.eqb_neq in Hn. rewrite Hn. cbn. case_bool_decide; [by right|]. left. by left.
  - destruct (_ || _); [by apply IH|]. destruct (IH Hv (TrimSpace u :: seen)) as [H|H]; set_solver.
Qed.
Lemma unique_secrets_in values v :
  v ∈ values → TrimSpace v ≠ ""%string → TrimSpace v ∈ uniqueWorkspaceIntegrationSecrets values.
Proof.
  intros Hv Hn. destruct (unique_from_in [] values v Hv Hn) as [H|H]; [done|].
  by apply not_elem_of_nil in H.
Qed.

Lemma redact_free t secrets text :
  t ≠ ""%string → apart t redacted_mark → t ∈ secrets ∨ ¬ occurs t text →
  ¬ occurs t (redactWorkspaceIntegrationString text secrets).
Proof.
  intros Ht Hm. unfold redactWorkspaceIntegrationString. revert text.
  induction secrets as [|u secrets IH]; intros text H; cbn; [set_solver|].
  apply IH. destruct (String.eqb_spec u "") as [->|Hu]; [set_solver|].
  destruct H as [[->|H]%elem_of_cons|H]; [|by left|]; right; apply ReplaceAll_free; auto.
Qed.
Lemma texts_redacted secrets j u :
  u ∈ texts_of (redactWorkspaceIntegrationValue secrets j) →
  ∃ text, u = redactWorkspaceIntegrationString text secrets.
Proof.
  induction j as [|b|n|n|t|l Hl|l Hl] using json_nested_ind; cbn; rewrite ?elem_of_nil; try done.
  - rewrite list_elem_of_singleton. eauto.
  - intros (x & H & (y & -> & Hy)%list_elem_of_fmap)%list_elem_of_bind.
    rewrite List.Forall_forall in Hl. apply (Hl y); [by apply list_elem_of_In|done].
  - intros (x & H & (y & -> & Hy)%list_elem_of_fmap)%list_elem_of_bind. cbn in H.
    rewrite List.Forall_forall in Hl. apply (Hl y); [by apply list_elem_of_In|done].
Qed.

(** ** The secrets that are read *)

Section Redaction.
  Context {unicode : GoUnicode} {F : GoFormat}.
  Variable s : Server.
  Variable upstream : upstream_call → res (list (string * json)).
  Variable decrypt : string → string → option string.

Lemma decrypt_secret_ok encrypted st l st' :
  decrypt_secret s decrypt encrypted st = (Ok l, st') →
  st' = st ∧ ∀ t, TrimSpace encrypted ≠ ""%string → decrypt encrypted (srv_secretKey s) = Some t →
    t ∈ l.
Proof.
  unfold decrypt_secret. destruct (String.eqb_spec (TrimSpace encrypted) "") as [He|He].
  { by intros [= <- <-]. }
  case_match; [done|]. case_match; [|done]. intros [= <- <-]. split; [done|]. set_solver.
Qed.
Lemma credential_read id st r st' :
  try (GetWorkspaceIntegrationCredential id) st = (Ok r, st') →
  (∀ c, r = Ok c → wi_credentials st !! id = Some c) ∧
  (∀ e, r = Err e → errors_is e ErrNoRows = true → wi_credentials st !! id = None).
Proof.
  unfold GetWorkspaceIntegrationCredential, stmt, try, uuid_param.
  unfold bind, in_world, pop_fault, tx, get, query_row, of_res.
  destruct (w_faults (wi_world st)) as [|[] fs], (String.eqb id ""),
    (wi_credentials st !! id) eqn:E; cbn; rewrite ?E; intros [= <- <-]; naive_solver.
Qed.
Lemma secrets_read i st l st' t :
  workspaceIntegrationRedactionSecrets s decrypt i st = (Ok l, st') →
  secret_of s decrypt i st t → TrimSpace t ≠ ""%string → TrimSpace t ∈ l.
Proof.
  unfold workspaceIntegrationRedactionSecrets. cbv zeta.
  intros (r & st1 & Hr & H)%bind_ok Ht Hn.
  destruct (credential_read _ _ _ _ Hr) as [Hc He]. destruct r as [c|e].
  - specialize (Hc c eq_refl).
    apply bind_ok in H as (l1 & st2 & H1 & H). apply decrypt_secret_ok in H1 as [-> H1].
    apply bind_ok in H as (l2 & st3 & H2 & H). apply decrypt_secret_ok in H2 as [-> H2].
    injection H as <- _. apply unique_secrets_in; [|done]. rewrite !elem_of_app.
    destruct Ht as [Ht|c' enc Hc' Henc Hne Hd]; [by left|]. right.
    rewrite Hc in Hc'. injection Hc' as <-. rewrite !elem_of_cons, elem_of_nil in Henc.
    destruct Henc as [->|[->|[]]]; [left|right]; auto.
  - destruct (errors_is e ErrNoRows) eqn:E; [|done]. specialize (He e eq_refl E).
    injection H as <- _. apply unique_secrets_in; [|done]. destruct Ht; [done|congruence].
Qed.

End Redaction.

(** The service of [upstream0] says the token of the configuration. *)
Definition crm : WorkspaceIntegration :=
  (mock_integration "ws" None 0) <| Integration_ID := "id-9"%string |>
    <| Integration_Transport := "http"%string |>
    <| Integration_Config := Some (JObj [("api_token", JStr " s3cret ")]%string) |>.
Definition tell : workspaceIntegrationManifestTool :=
  mkManifestTool "tell" "" None None None "read" "" None None.
Abbreviation told := (callWorkspaceIntegrationTool server0 upstream0 decrypt0 crm tell [] connected).
