(* ===== verification/ProjectionSpec.v ===== *)
(** * The projection of an integration: what is shown

    After an integration's row is written, the tools projected from it have the policies
    of the row. *)

From S2P Require Import Prelude Schema World GoStrings GoText Integrations.
From S2P Require Import IntegrationStore.
From S2P Require Import ToolGateway IntegrationLemmas IntegrationRuns.

(** ** Rows that are added *)

(** [t'] has the rows of [t] and one like each of [l]. *)
Section Adds.
  Context {G V : Type} (like : G → V → Prop).
  Implicit Types t : gmap string V.
Definition adds (l : list G) t t' : Prop :=
  t ⊆ t' ∧ (∀ g, g ∈ l → ∃ k v, t' !! k = Some v ∧ like g v) ∧
  (∀ k v, t' !! k = Some v → t !! k = Some v ∨ ∃ g, g ∈ l ∧ like g v).
Lemma adds_nil t : adds [] t t.
Proof. split_and!; [done|set_solver|by left]. Qed.
Lemma adds_cons g l t k v t' :
  t !! k = None → like g v → adds l (<[k:=v]> t) t' → adds (g :: l) t t'.
Proof.
  intros Hk Hv (H1 & H2 & H3). split_and!.
  - etrans; [|exact H1]. by apply insert_subseteq.
  - intros x [->|Hx]%elem_of_cons; [|by apply H2]. exists k, v. split; [|done].
    eapply lookup_weaken; [|exact H1]. apply lookup_insert_eq.
  - intros k' v' [H|(x & Hx & ?)]%H3; [|right; exists x; set_solver].
    destruct (decide (k = k')) as [<-|Hn].
    + rewrite lookup_insert_eq in H. injection H as <-. right. exists g. set_solver.
    + rewrite lookup_insert_ne in H by done. by left.
Qed.
End Adds.

(** ** Statements *)

Definition rows (s : Integrations) :=
  (wi_integrations s, wi_connections s, wi_snapshots s, wi_policies s).
Lemma in_world_rows {A} (m : M A) s r s' : in_world m s = (r, s') → rows s' = rows s.
Proof. unfold in_world. destruct (m (wi_world s)). by intros [= _ <-]. Qed.
Lemma in_db_rows {A} (q : Q A) s r s' : in_db q s = (r, s') → rows s' = rows s.
Proof. apply in_world_rows. Qed.
Lemma stmt_rows {A} (m : I A) s a s' :
  stmt m s = (Ok a, s') → ∃ s1, rows s1 = rows s ∧ m s1 = (Ok a, s').
Proof.
  unfold stmt. intros (f & s1 & H1%in_world_rows & H)%bind_ok. destruct f; [done|].
  exists s1. split; [exact H1|by apply tx_ok].
Qed.
Lemma test_ok {S} (b : bool) e (s : S) a s' :
  (if b then ret tt else fail e) s = (Ok a, s') → b = true ∧ s' = s.
Proof. unfold ret, fail. destruct b; by intros [= -> <-] || by intros [=]. Qed.
(** Inversion of a run of statements that ends well. *)
Ltac ok_step H :=
  lazymatch type of H with
  | bind get _ _ = _ => unfold bind at 1, get in H
  | bind (ret _) _ _ = _ => unfold bind at 1, ret in H
  | bind (modify _) _ _ = _ => unfold bind at 1, modify in H
  | bind (if _ then ret tt else fail _) _ _ = _ =>
      let Hb := fresh "Hb" in
      apply bind_ok in H as (? & ? & [Hb ->]%test_ok & H)
  | bind (in_db _) _ _ = _ =>
      let Hr := fresh "Hr" in apply bind_ok in H as (? & ? & Hr%in_db_rows & H)
  end.
Ltac ok_steps H := repeat ok_step H.

Ltac take_rows H := unfold rows in H; injection H as Ei Ec Es Ep.
Lemma rows_connections s s' : rows s' = rows s → wi_connections s' = wi_connections s.
Proof. by intros [= _ -> _ _]. Qed.
Lemma is_free {V} (o : option V) b : negb (is_some_b o) && b = true → o = None.
Proof. by destruct o. Qed.

Definition snapshot_like (cid : string) (g r : WorkspaceIntegrationToolSnapshot) : Prop :=
  Snapshot_ConnectionID r = cid ∧ Snapshot_ToolName r = Snapshot_ToolName g.
Definition policy_like (cid : string) (g r : WorkspaceIntegrationToolPolicy) : Prop :=
  ToolPolicy_ConnectionID r = cid ∧ ToolPolicy_ToolName r = ToolPolicy_ToolName g ∧
  ToolPolicy_WorkspaceID r = ToolPolicy_WorkspaceID g ∧
  ToolPolicy_Policy r = ToolPolicy_Policy g.

Lemma insert_policy_ok t cid g s a s' :
  insert_policy t cid g s = (Ok a, s') → ToolPolicy_ConnectionID g = cid →
  wi_connections s' = wi_connections s ∧ wi_snapshots s' = wi_snapshots s ∧
  ∃ k p, wi_policies s !! k = None ∧ policy_like cid g p ∧
    wi_policies s' = <[k:=p]> (wi_policies s).
Proof.
  unfold insert_policy, references, unique. cbv zeta. intros H Hg. ok_steps H.
  injection H as _ <-. take_rows Hr. cbn. rewrite Ec, Es, Ep. split_and!; [done..|].
  eexists _, _. split_and!; [by eapply is_free| |done]. split_and!; try done.
  cbn. rewrite Hg. by case_match.
Qed.
Lemma insert_snapshot_ok t cid g s a s' :
  insert_snapshot t cid g s = (Ok a, s') → Snapshot_ConnectionID g = cid →
  wi_connections s' = wi_connections s ∧ wi_policies s' = wi_policies s ∧
  ∃ k p, wi_snapshots s !! k = None ∧ snapshot_like cid g p ∧
    wi_snapshots s' = <[k:=p]> (wi_snapshots s).
Proof.
  unfold insert_snapshot, references, unique. cbv zeta. intros H Hg. ok_steps H.
  injection H as _ <-. take_rows Hr. cbn. rewrite Ec, Es, Ep. split_and!; [done..|].
  eexists _, _. split_and!; [by eapply is_free| |done]. split_and!; try done.
  cbn. rewrite Hg. by case_match.
Qed.

(** A list of insertions. *)
Lemma inserts_ok {G V} (like : G → V → Prop) (t : Integrations → gmap string V) {T}
    (f : Integrations → T) (body : G → I unit) l :
  (∀ g s a s', g ∈ l → body g s = (Ok a, s') → f s' = f s ∧
     ∃ k v, t s !! k = None ∧ like g v ∧ t s' = <[k:=v]> (t s)) →
  ∀ s a s', for_each l body s = (Ok a, s') → f s' = f s ∧ adds like l (t s) (t s').
Proof.
  induction l as [|g l IH]; intros Hb s a s'; cbn.
  { intros [= _ <-]. split; [done|apply adds_nil]. }
  intros (? & s1 & H1 & H)%bind_ok.
  apply Hb in H1 as (Hf & k & v & Hk & Hv & E); [|by left].
  apply IH in H as (Hf' & Ha); [|intros ?????; apply Hb; by right].
  split; [congruence|]. eapply adds_cons; [exact Hk|exact Hv|]. by rewrite <-E.
Qed.
Lemma replace_policies_ok cid given s a s' :
  ReplaceWorkspaceIntegrationToolPolicies cid given s = (Ok a, s') →
  (∀ g, g ∈ given → ToolPolicy_ConnectionID g = cid) →
  wi_connections s' = wi_connections s ∧ wi_snapshots s' = wi_snapshots s ∧
  adds (policy_like cid) given
    (delete_where (λ r, String.eqb (ToolPolicy_ConnectionID r) cid) (wi_policies s)) (wi_policies s').
Proof.
  intros (s1 & E1 & H)%stmt_rows Hg. ok_steps H.
  apply (inserts_ok (policy_like cid) wi_policies (λ s, (wi_connections s, wi_snapshots s))) in H
    as [Hf Ha].
  - rewrite E1 in Hr. take_rows Hr. cbn in Hf, Ha. rewrite Ep in Ha. split_and!; congruence.
  - intros g s2 b s2' Hin (-> & -> & H')%insert_policy_ok; [by split|by apply Hg].
Qed.
Lemma replace_snapshots_ok cid given s a s' :
  ReplaceWorkspaceIntegrationToolSnapshots cid given s = (Ok a, s') →
  (∀ g, g ∈ given → Snapshot_ConnectionID g = cid) →
  wi_connections s' = wi_connections s ∧ wi_policies s' = wi_policies s ∧
  adds (snapshot_like cid) given
    (delete_where (λ r, String.eqb (Snapshot_ConnectionID r) cid) (wi_snapshots s)) (wi_snapshots s').
Proof.
  intros (s1 & E1 & H)%stmt_rows Hg. ok_steps H.
  apply (inserts_ok (snapshot_like cid) wi_snapshots (λ s, (wi_connections s, wi_policies s))) in H
    as [Hf Ha].
  - rewrite E1 in Hr. take_rows Hr. cbn in Hf, Ha. rewrite Es in Ha. split_and!; congruence.
  - intros g s2 b s2' Hin (-> & -> & H')%insert_snapshot_ok; [by split|by apply Hg].
Qed.
Lemma upsert_source_ok source s row s' :
  UpsertWorkspaceIntegrationSource source s = (Ok row, s') →
  wi_connections s' = wi_connections s ∧ wi_snapshots s' = wi_snapshots s ∧
  wi_policies s' = wi_policies s.
Proof.
  unfold UpsertWorkspaceIntegrationSource. cbv zeta. intros (s1 & E1 & H)%stmt_rows.
  unfold references, unique in H. ok_steps H. rewrite E1 in Hr. clear E1.
  apply bind_ok in H as (r & s2 & Hrow & H). ok_steps H. injection H as _ <-.
  assert (rows s2 = rows s) as E.
  { case_match; [by injection Hrow as _ <-|]. ok_steps Hrow. injection Hrow as _ <-. congruence. }
  take_rows E. cbn. done.
Qed.
Lemma upsert_connection_ok given s row s' :
  UpsertWorkspaceIntegrationConnection given s = (Ok row, s') →
  wi_connections s' = <[Connection_ID row:=row]> (wi_connections s) ∧
  wi_snapshots s' = wi_snapshots s ∧ wi_policies s' = wi_policies s.
Proof.
  unfold UpsertWorkspaceIntegrationConnection. cbv zeta. intros (s1 & E1 & H)%stmt_rows.
  unfold references, unique in H. ok_steps H. rewrite E1 in Hr. clear E1.
  apply bind_ok in H as (r & s2 & Hrow & H). ok_steps H. injection H as <- <-.
  assert (rows s2 = rows s) as E.
  { case_match; [by injection Hrow as _ <-|]. ok_steps Hrow. injection Hrow as _ <-. congruence. }
  take_rows E. cbn. rewrite Ec. done.
Qed.

(** ** Connections that follow a row *)

Section Follow.
  Context {unicode : GoUnicode}.
  Variable i : WorkspaceIntegration.

(** The policies of a connection are those of the row, one for each tool of it. *)
Definition policy_follows (p : WorkspaceIntegrationToolPolicy) : Prop :=
  ToolPolicy_WorkspaceID p = Integration_WorkspaceID i ∧
  TrimSpace (ToolPolicy_ToolName p) ≠ ""%string ∧
  ToolPolicy_Policy p = workspaceIntegrationToolPolicyState i (ToolPolicy_ToolName p).
Definition follows (cid : string) (s : Integrations) : Prop :=
  (∀ k p, wi_policies s !! k = Some p → ToolPolicy_ConnectionID p = cid → policy_follows p) ∧
  (∀ k sn, wi_snapshots s !! k = Some sn → Snapshot_ConnectionID sn = cid →
     ∃ k' p, wi_policies s !! k' = Some p ∧ ToolPolicy_ConnectionID p = cid ∧
       ToolPolicy_ToolName p = Snapshot_ToolName sn).
Definition named (tools : list workspaceIntegrationV1ManifestTool) : Prop :=
  ∀ tool, tool ∈ tools → TrimSpace (V1_Name tool) ≠ ""%string.

Lemma follows_rows cid s s' :
  wi_snapshots s' = wi_snapshots s → wi_policies s' = wi_policies s → follows cid s → follows cid s'.
Proof. unfold follows. by intros -> ->. Qed.

(** The replacement of a connection's snapshots and policies. *)
Lemma replaced_follows cid (snapshots : list WorkspaceIntegrationToolSnapshot)
    (policies : list WorkspaceIntegrationToolPolicy) s s' :
  adds (snapshot_like cid) snapshots
    (delete_where (λ r, String.eqb (Snapshot_ConnectionID r) cid) (wi_snapshots s)) (wi_snapshots s') →
  adds (policy_like cid) policies
    (delete_where (λ r, String.eqb (ToolPolicy_ConnectionID r) cid) (wi_policies s)) (wi_policies s') →
  (∀ g, g ∈ policies → policy_follows g) →
  (∀ g, g ∈ snapshots → ∃ p, p ∈ policies ∧ ToolPolicy_ToolName p = Snapshot_ToolName g) →
  follows cid s' ∧ ∀ c, c ≠ cid → follows c s → follows c s'.
Proof.
  intros (S1 & S2 & S3) (P1 & P2 & P3) Hp Hs. split; [split|].
  - intros k p [[_ Hn%String.eqb_neq]%lookup_delete_where|(g & Hg & ? & E & E1 & E2)]%P3 Hc; [done|].
    unfold policy_follows. rewrite E, E1, E2. by apply Hp.
  - intros k sn [[_ Hn%String.eqb_neq]%lookup_delete_where|(g & Hg & _ & E)]%S3 Hc; [done|].
    apply Hs in Hg as (p & Hin & E'). apply P2 in Hin as (k' & r & Hr & Hc' & E1 & _).
    exists k', r. split_and!; congruence.
  - intros c Hne [F1 F2]. split.
    + intros k p [[Hk _]%lookup_delete_where|(g & _ & ? & _)]%P3 Hc; [by eapply F1|congruence].
    + intros k sn [[Hk _]%lookup_delete_where|(g & _ & ? & _)]%S3 Hc; [|congruence].
      destruct (F2 k sn Hk Hc) as (k' & p & Hp' & E1 & E2). exists k', p. split_and!; [|done..].
      eapply lookup_weaken; [|exact P1]. apply lookup_delete_where. split; [done|].
      apply String.eqb_neq. congruence.
Qed.

Lemma project_group_ok slug tools s cid s' :
  project_group i (slug, tools) s = (Ok cid, s') → named tools →
  follows cid s' ∧ (∀ c, follows c s → follows c s') ∧
  (keyed Connection_ID (wi_connections s) → keyed Connection_ID (wi_connections s')).
Proof.
  intros H Hn. cbn in H.
  apply bind_ok in H as (source & s1 & H1%wrap_ok%upsert_source_ok & H).
  apply bind_ok in H as (c & s2 & H2%wrap_ok%upsert_connection_ok & H).
  apply bind_ok in H as (t & s3 & H3%in_db_rows & H).
  apply bind_ok in H as (? & s4 & H4%wrap_ok & H).
  apply replace_snapshots_ok in H4 as (C4 & P4 & A4);
    [|by intros ? (? & -> & _)%list_elem_of_fmap].
  apply bind_ok in H as (? & s5 & H5%wrap_ok & H).
  apply replace_policies_ok in H5 as (C5 & S5 & A5);
    [|by intros ? (? & -> & _)%list_elem_of_fmap].
  injection H as <- <-. take_rows H3.
  destruct H1 as (C1 & S1 & P1), H2 as (C2 & S2 & P2).
  rewrite Es, S2, S1, <-S5 in A4. rewrite P4, Ep, P2, P1 in A5.
  destruct (replaced_follows (Connection_ID c) _ _ s s5 A4 A5) as [Hc Ho].
  - intros g (tool & -> & Ht)%list_elem_of_fmap. split_and!; [done|by apply Hn|done].
  - intros g (tool & -> & Ht)%list_elem_of_fmap. exists (projected_policy i c tool).
    split; [|done]. apply list_elem_of_fmap. eauto.
  - split_and!; [done| |].
    + intros c' Hf. destruct (decide (c' = Connection_ID c)) as [->|]; auto.
    + intros Hk. rewrite C5, C4, Ec, C2, C1. by apply keyed_insert.
Qed.
Lemma project_groups_ok groups s kept s' :
  project_groups i groups s = (Ok kept, s') → (∀ g, g ∈ groups → named g.2) →
  (∀ c, c ∈ kept ∨ follows c s → follows c s') ∧
  (keyed Connection_ID (wi_connections s) → keyed Connection_ID (wi_connections s')).
Proof.
  revert s kept. induction groups as [|[slug tools] groups IH]; intros s kept H Hn; cbn in H.
  { injection H as <- <-. split; [|done]. intros c [?%elem_of_nil|]; done. }
  apply bind_ok in H as (cid & s1 & H1 & H). apply bind_ok in H as (more & s2 & H2 & H).
  injection H as <- <-. apply project_group_ok in H1 as (F1 & F2 & F3); [|apply (Hn (slug, tools)); by left].
  apply IH in H2 as [G1 G2]; [|intros g Hg; apply Hn; by right]. split; [|auto].
  intros c [[->|Hc]%elem_of_cons|Hc]; apply G1; auto.
Qed.

(** Tools without a name are in no group. *)
Lemma add_to_group_named slug tool groups :
  TrimSpace (V1_Name tool) ≠ ""%string → (∀ g, g ∈ groups → named g.2) →
  ∀ g, g ∈ add_to_group slug tool groups → named g.2.
Proof.
  intros Ht. induction groups as [|[slug' tools] groups IH]; cbn.
  { intros _ g Hg%list_elem_of_singleton. subst g. intros ? Hg%list_elem_of_singleton. by subst. }
  intros Hn. assert (named tools) as Htools by (apply (Hn (slug', tools)); by left).
  assert (∀ g, g ∈ groups → named g.2) as Hrest by (intros g ?; apply Hn; by right).
  destruct (String.eqb slug' slug); intros g [->|Hg]%elem_of_cons; cbn; auto.
  intros x [?|Hx%list_elem_of_singleton]%elem_of_app; [auto|]. by subst x.
Qed.
Lemma groups_named tools g :
  g ∈ workspaceIntegrationConnectorProjectionGroups i tools → named g.2.
Proof.
  unfold workspaceIntegrationConnectorProjectionGroups.
  assert (named (named_tools tools)) as Hn.
  { unfold named_tools. intros t [Ht Hne]%list_elem_of_In%filter_In. apply list_elem_of_In in Ht.
    apply list_elem_of_fmap in Ht as (t0 & -> & _). cbn in Hne.
    change (TrimSpace (TrimSpace (V1_Name t0)) ≠ ""%string). rewrite TrimSpace_idem.
    by apply negb_true_iff, String.eqb_neq in Hne. }
  destruct (named_tools tools) as [|t ts] eqn:E.
  { intros Hg%list_elem_of_singleton. subst g. intros ? Hx. by apply not_elem_of_nil in Hx. }
  rewrite <-E in *. clear E t ts. revert Hn.
  assert (∀ l acc, named l → (∀ g, g ∈ acc → named g.2) →
    ∀ g, g ∈ foldl (λ groups tool, add_to_group
      (workspaceIntegrationConnectorToolSourceSlug i tool) tool groups) acc l → named g.2) as Hl.
  { induction l as [|t l IH]; intros acc Hl Hacc; cbn; [done|]. apply IH.
    - intros x Hx. apply Hl. by right.
    - apply add_to_group_named; [|done]. apply Hl. by left. }
  intros Hn. apply Hl; [done|]. intros ? Hx. by apply not_elem_of_nil in Hx.
Qed.

(** *** Stale connections *)

Lemma delete_follows c id s : follows c s → follows c (delete_connection id s).
Proof.
  intros [F1 F2]. unfold delete_connection. cbn. split; cbn.
  - intros k p [Hk _]%lookup_delete_where. by apply F1 with k.
  - intros k sn [Hk Hn%String.eqb_neq]%lookup_delete_where Hc.
    destruct (F2 k sn Hk Hc) as (k' & p & Hp & E1 & E2). exists k', p. split_and!; [|done..].
    apply lookup_delete_where. split; [done|]. apply String.eqb_neq. congruence.
Qed.
Lemma deletes_ok ids s a s' :
  for_each ids (λ id, stmt (modify (delete_connection id))) s = (Ok a, s') →
  (∀ c, follows c s → follows c s') ∧
  ∀ k c, wi_connections s' !! k = Some c → wi_connections s !! k = Some c ∧ k ∉ ids.
Proof.
  revert s. induction ids as [|id ids IH]; intros s; cbn.
  { intros [= _ <-]. split; [done|]. intros k c Hk. split; [done|apply not_elem_of_nil]. }
  intros (? & s1 & (s0 & E%eq_sym & H1)%stmt_rows & H)%bind_ok. injection H1 as _ <-.
  apply IH in H as [F C]. take_rows E. split.
  - intros c Hc. by apply F, delete_follows, (follows_rows c s).
  - intros k c [Hk Hn]%C. cbn in Hk. apply lookup_delete_Some in Hk as [Hne Hk].
    rewrite Ec. split; [done|]. set_solver.
Qed.
Lemma stale_ok legacyID keep s a s' :
  deleteStaleWorkspaceIntegrationConnectorProjectionConnections legacyID keep s = (Ok a, s') →
  keyed Connection_ID (wi_connections s) →
  (∀ c, follows c s → follows c s') ∧
  ∀ k c, wi_connections s' !! k = Some c →
    Connection_LegacyIntegrationID c = Some legacyID → Connection_ID c ∈ keep.
Proof.
  intros (stale & s1 & (s0 & E%eq_sym & H1)%stmt_rows & H)%bind_ok Hk.
  injection H1 as <- <-. apply deletes_ok in H as [F C]. take_rows E. split.
  { intros c Hc. by apply F, (follows_rows c s). }
  intros k c [Hc Hn]%C HL. rewrite <-Ec in Hc, Hn. assert (Connection_ID c = k) as <- by (by apply Hk).
  destruct (decide (Connection_ID c ∈ keep)) as [|Hkeep]; [done|]. destruct Hn.
  apply list_elem_of_In, filter_In. split; [|by rewrite bool_decide_eq_false_2].
  apply list_elem_of_In, list_elem_of_fmap. exists c. split; [done|]. apply elem_of_select.
  split; [by apply bool_decide_eq_true|eauto].
Qed.
Lemma projection_ok s a s' :
  upsertWorkspaceIntegrationConnectorProjectionFromV1 i s = (Ok a, s') →
  Integration_ID i ≠ ""%string → Integration_WorkspaceID i ≠ ""%string →
  keyed Connection_ID (wi_connections s) →
  ∀ k c, wi_connections s' !! k = Some c →
    Connection_LegacyIntegrationID c = Some (Integration_ID i) → follows (Connection_ID c) s'.
Proof.
  unfold upsertWorkspaceIntegrationConnectorProjectionFromV1.
  intros H Hi%String.eqb_neq Hw%String.eqb_neq Hk. rewrite Hi, Hw in H. cbn [orb] in H.
  case_match; [|done]. apply bind_ok in H as (kept & s1 & H1 & H2).
  apply project_groups_ok in H1 as [F K]; [|by intros g ?%groups_named].
  apply stale_ok in H2 as [F' C]; [|by apply K]. intros k c Hc HL. apply F', F. left. by eapply C.
Qed.
End Follow.

(** *** The states of what is listed *)

Section Listed.
  Context {unicode : GoUnicode}.
  Variable i : WorkspaceIntegration.

Lemma policy_map_follows policies name :
  (∀ p, p ∈ policies → policy_follows i p) →
  (∃ p, p ∈ policies ∧ ToolPolicy_ToolName p = name) →
  policy_map policies !! name = Some (workspaceIntegrationToolPolicyState i name).
Proof.
  intros Hp Hex. unfold policy_map. match goal with |- foldl ?g _ _ !! _ = _ => set (f := g) end.
  assert (∀ l (m : gmap string string), (∀ p, p ∈ l → policy_follows i p) →
    (m !! name = Some (workspaceIntegrationToolPolicyState i name) ∨
     ∃ p, p ∈ l ∧ ToolPolicy_ToolName p = name) →
    foldl f m l !! name = Some (workspaceIntegrationToolPolicyState i name)) as H.
  { induction l as [|x l IH]; intros m Hl Hm; cbn.
    { destruct Hm as [|(p & Hp' & _)]; [done|]. by apply not_elem_of_nil in Hp'. }
    destruct (Hl x) as (_ & Hn%String.eqb_neq & Hx); [by left|].
    unfold f at 2. rewrite Hn, Hx, normalize_idem by apply policy_state_states.
    apply IH; [intros p Hp'; apply Hl; by right|].
    destruct (decide (ToolPolicy_ToolName x = name)) as [<-|Hne].
    - left. by rewrite lookup_insert_eq.
    - rewrite lookup_insert_ne by done. destruct Hm as [|(p & [->|]%elem_of_cons & ?)]; eauto. done. }
  apply H; [done|by right].
Qed.
Lemma projections_follow s p sn :
  (∀ k c, wi_connections s !! k = Some c →
     Connection_LegacyIntegrationID c = Some (Integration_ID i) → follows i (Connection_ID c) s) →
  p ∈ projections_in (Integration_WorkspaceID i) s →
  Connection_LegacyIntegrationID (Projection_Connection p) = Some (Integration_ID i) →
  sn ∈ Projection_Tools p →
  projected_state p (Snapshot_ToolName sn) = workspaceIntegrationToolPolicyState i (Snapshot_ToolName sn).
Proof.
  unfold projections_in, join_projections. intros HF.
  intros (c & Hc & (source & _ & ->)%fmap_Some)%list_elem_of_omap HL. cbn in HL.
  apply elem_of_order_by, elem_of_select in Hc as (_ & k & Hc).
  destruct (HF k c Hc HL) as [F1 F2].
  cbn. intros [Hsn E%String.eqb_eq]%list_elem_of_In%filter_In.
  apply list_elem_of_In, elem_of_order_by, elem_of_select in Hsn as (_ & k' & Hsn).
  unfold projected_state. cbn.
  rewrite policy_map_follows.
  - unfold orElse. cbn. destruct (String.eqb_spec
      (workspaceIntegrationToolPolicyState i (Snapshot_ToolName sn)) "") as [E'|]; [|done].
    generalize (policy_state_states i (Snapshot_ToolName sn)). rewrite E'. set_solver.
  - intros q [Hq Eq%String.eqb_eq]%list_elem_of_In%filter_In.
    apply list_elem_of_In, elem_of_order_by, elem_of_select in Hq as (_ & k'' & Hq). eauto.
  - destruct (F2 k' sn Hsn E) as (k'' & q & Hq & Ec & Et). exists q. split; [|done].
    apply list_elem_of_In, filter_In. split; [|by apply String.eqb_eq].
    apply list_elem_of_In, elem_of_order_by, elem_of_select. split; [|eauto].
    apply String.eqb_eq. by apply F1 in Hq as [? _].
Qed.
End Listed.

(** C31: after an integration is written, the tools that its connections show have the
    policies of its row: for each tool of each connection of the row, the state that the
    gateway computes from the policies of the connection is the one that it computes from
    the row's denied tools, allowed tools and configuration. *)
Theorem projection_follows_row `{GoUnicode} given st row st' :
  UpsertWorkspaceIntegration given st = (Ok row, st') →
  Integration_ID row ≠ ""%string → Integration_WorkspaceID row ≠ ""%string →
  keyed Connection_ID (wi_connections st) →
  ∀ p sn, p ∈ projections_in (Integration_WorkspaceID row) st' →
    Connection_LegacyIntegrationID (Projection_Connection p) = Some (Integration_ID row) →
    sn ∈ Projection_Tools p →
    projected_state p (Snapshot_ToolName sn)
    = workspaceIntegrationToolPolicyState row (Snapshot_ToolName sn).
Proof.
  unfold UpsertWorkspaceIntegration. cbv zeta.
  intros (r & s1 & (s0 & E & H0)%stmt_rows & Hrun)%bind_ok.
  assert (wi_connections s1 = wi_connections st) as Hc.
  { rewrite <-(rows_connections _ _ E). ok_steps H0. rewrite <-(rows_connections _ _ Hr).
    case_match; [ok_steps H0; by injection H0 as _ <-|].
    unfold insert_integration, references, unique in H0. ok_steps H0. injection H0 as _ <-.
    apply rows_connections in Hr0, Hr1. cbn. congruence. }
  apply bind_ok in Hrun as (? & s2 & Hp & H2). injection H2 as <- <-.
  intros Hi Hw Hk p sn. apply projections_follow.
  eapply projection_ok; [exact Hp|done|done|by rewrite Hc].
Qed.

(** The row of an integration whose tool waits for an approval. *)
Abbreviation upserted := (UpsertWorkspaceIntegration approval_integration connected).
Lemma projection_follows_row_witness :
  match upserted with
  | (Ok row, st') =>
      projected_state <$> projections_in "ws" st' ≠ [] ∧
      ∀ p sn, p ∈ projections_in (Integration_WorkspaceID row) st' →
        Connection_LegacyIntegrationID (Projection_Connection p) = Some (Integration_ID row) →
        sn ∈ Projection_Tools p →
        projected_state p (Snapshot_ToolName sn)
        = workspaceIntegrationToolPolicyState row (Snapshot_ToolName sn)
  | _ => False
  end.
Proof.
  assert (match upserted with
          | (Ok row, st') => Integration_ID row ≠ ""%string ∧
              Integration_WorkspaceID row ≠ ""%string ∧ projections_in "ws" st' ≠ []
          | _ => False
          end) as H by (vm_compute; repeat split; discriminate).
  assert (keyed Connection_ID (wi_connections connected)) as Hk
    by (unfold keyed; refine (bool_decide_unpack _ _); vm_compute; exact Logic.I).
  pose proof (projection_follows_row approval_integration connected) as HT.
  destruct upserted as [[row|e] st']; [|exact H].
  destruct H as (H1 & H2 & H3). split; [|exact (HT row st' eq_refl H1 H2 Hk)].
  intros H4. apply H3. exact (fmap_nil_inv _ _ H4).
Defined.
