(* ===== verification/GatewaySpec.v ===== *)
(** * The gateway of workspace integrations: what is shown

    What a machine can get called, that an address is read back, and that secrets do
    not leave; the runs at the end show where the tables and the code let an
    administrator's decision, or a result, get lost. *)

From S2P Require Import Prelude Schema HostStore CatalogStore World GoStrings GoText.
From S2P Require Import Json.
From S2P Require Import Fleet Versions Routing Runtime Api Integrations.
From S2P Require Import IntegrationStore.
From S2P Require Import ToolGateway IntegrationAdmin IntegrationLemmas IntegrationRuns.

(** ** What can be called *)

(** The caller: the machine of a valid token that is not revoked, in its workspace, with
    the plugin enabled. *)
Record authenticated (validate_token : string → option WorkspaceIntegrationClaims)
    (v : Integrations) (authorization machineID : string) (w : Workspace) : Prop := {
  auth_token : ∃ token claims machine wid,
    TrimPrefix_from authorization "Bearer " = Some token ∧
    validate_token (TrimSpace token) = Some claims ∧
    IntegrationClaims_MachineID claims = machineID ∧
    db_machines (w_db (wi_world v)) !! machineID = Some machine ∧
    token_revoked claims machine = false ∧
    Machine_WorkspaceID machine = Some wid ∧
    db_workspaces (w_db (wi_world v)) !! wid = Some w;
  auth_plugin : ∃ p, p ∈ machine_plugins machineID (w_db (wi_world v)) ∧
    MachinePlugin_PluginID p = workspaceIntegrationPluginID ∧ MachinePlugin_Enabled p = true
}.

Section Calls.
  Context {unicode : GoUnicode} {F : GoFormat}.
  Variables (v : Integrations) (b : bool).

(** A call is permitted by the rows of the workspace and what was offered from them or
    from the projections. *)
Inductive permitted (rows : list WorkspaceIntegration)
    (seen : list WorkspaceIntegrationConnectorProjection) (c : upstream_call) : Prop :=
| permitted_row :
    Upstream_Integration c ∈ rows →
    workspaceIntegrationToolPolicyState (Upstream_Integration c) (Tool_Name (Upstream_Tool c))
      = workspaceIntegrationPolicyAllow →
    (seen ≠ [] → ∃ d, d ∈ offered rows seen ∧
       Descriptor_PolicyState d = workspaceIntegrationPolicyAllow ∧
       TrimSpace (Descriptor_LegacyIntegrationID d)
         = TrimSpace (Integration_ID (Upstream_Integration c)) ∧
       TrimSpace (Descriptor_Name d) = Tool_Name (Upstream_Tool c)) →
    permitted rows seen c
| permitted_connection d workspaceID :
    d ∈ offered rows seen →
    Descriptor_PolicyState d = workspaceIntegrationPolicyAllow →
    normalized_tool (projections_in workspaceID v) d
      = Some (Upstream_Integration c, Upstream_Tool c) →
    permitted rows seen c.

(** *** Resolution *)

Definition runnable (authoritative : bool) (ds : list workspaceIntegrationToolDescriptor)
    (rows : list WorkspaceIntegration) (r : resolved) : Prop :=
  (Resolved_Integration r ∈ rows ∧
   workspaceIntegrationToolAllowed (Resolved_Integration r) (Tool_Name (Resolved_Tool r)) = true ∧
   (authoritative = true → Resolved_Descriptor r ∈ ds ∧
      TrimSpace (Descriptor_LegacyIntegrationID (Resolved_Descriptor r))
        = TrimSpace (Integration_ID (Resolved_Integration r)) ∧
      TrimSpace (Descriptor_Name (Resolved_Descriptor r)) = Tool_Name (Resolved_Tool r))) ∨
  (Resolved_Descriptor r ∈ ds ∧ ∃ workspaceID,
   normalized_tool (projections_in workspaceID v) (Resolved_Descriptor r)
     = Some (Resolved_Integration r, Resolved_Tool r)).

Lemma looks_normalized w d :
  looks v b (resolveWorkspaceIntegrationNormalizedRuntimeTool (Some w) d)
    (λ o, o = None ∨ ∃ workspaceID, o = normalized_tool (projections_in workspaceID v) d).
Proof.
  unfold resolveWorkspaceIntegrationNormalizedRuntimeTool. cbv zeta.
  match goal with |- looks _ _ (if ?x then _ else _) _ => destruct x end;
    [by apply looks_ret; left|].
  eapply looks_bind; [apply looks_try_projections|]. intros [ps|e] [H _]; apply looks_ret; [|by left].
  right. eexists. by rewrite (H ps eq_refl).
Qed.
Lemma resolve_in_rows_spec rows requested o r :
  resolve_in_rows rows requested o = Some r →
  Resolved_Integration r ∈ rows ∧
  workspaceIntegrationToolAllowed (Resolved_Integration r) (Tool_Name (Resolved_Tool r)) = true.
Proof.
  unfold resolve_in_rows, found_as. intros ([i t] & H & E)%bind_Some. simplify_eq. cbn.
  by apply find_tool_spec in H.
Qed.
Lemma looks_resolve w ds authoritative rows requested :
  looks v b (resolveWorkspaceIntegrationRuntimeToolFromDescriptors (Some w) ds authoritative rows
               requested) (λ o, ∀ r, o = Some r → runnable authoritative ds rows r).
Proof.
  assert (∀ o r, (if authoritative then None else resolve_in_rows rows requested o) = Some r →
    runnable authoritative ds rows r) as Hrows.
  { intros o r. destruct authoritative; [done|]. intros H%resolve_in_rows_spec.
    left. naive_solver. }
  unfold resolveWorkspaceIntegrationRuntimeToolFromDescriptors.
  destruct (describeWorkspaceIntegrationFacadeToolFromDescriptors ds requested) as [d|] eqn:Ed;
    [|apply looks_ret; intros r; apply Hrows].
  apply describe_spec in Ed. cbv zeta.
  destruct (if negb _ then _ else None) as [[i t]|] eqn:Ei.
  { apply looks_ret. unfold found_as. cbn. intros r [= <-]. left. cbn.
    destruct (negb _); [|done]. apply find_by_id_spec in Ei as (? & ? & ? & ?). done. }
  eapply looks_bind; [apply looks_normalized|]. intros [[i t]|] Ho.
  - apply looks_ret. unfold found_as. cbn. intros r [= <-]. right. cbn.
    destruct Ho as [|[W HW]]; [done|]. split; [done|]. by exists W.
  - apply looks_ret. intros r. apply Hrows.
Qed.

(** What was seen: the workspace's projections, or none when they cannot be read. *)
Definition saw (w : Workspace) (seen : list WorkspaceIntegrationConnectorProjection) : Prop :=
  seen = projections_in (Workspace_ID w) v ∨
  (b = false ∨ Workspace_ID w = ""%string) ∧ seen = [].
Lemma looks_offered w rows :
  looks v b (buildWorkspaceIntegrationRuntimeToolDescriptorsWithSource (Some w) rows false)
    (λ r, ∃ seen, saw w seen ∧ r.1 = offered rows seen ∧ (r.2 = true ↔ seen ≠ [])).
Proof.
  unfold buildWorkspaceIntegrationRuntimeToolDescriptorsWithSource. cbv zeta.
  destruct (String.eqb_spec (Workspace_ID w) "") as [Hw|Hw].
  { eapply (looks_bind _ _ _ _ (λ r, r = Ok [])); [by apply looks_ret|]. intros r ->.
    apply looks_ret. exists []. unfold saw. naive_solver. }
  eapply looks_bind; [apply looks_try_projections|]. intros r [H1 H2]. apply looks_ret.
  destruct r as [[|p ps]|e].
  - exists []. unfold saw. rewrite <-(H1 _ eq_refl). naive_solver.
  - exists (p :: ps). unfold saw. rewrite <-(H1 _ eq_refl). naive_solver.
  - exists []. unfold saw. destruct b; [by discriminate H2|]. naive_solver.
Qed.

(** *** The call *)

Lemma permitted_runnable authoritative rows seen r args :
  runnable authoritative (offered rows seen) rows r → (authoritative = true ↔ seen ≠ []) →
  requires_approval r = false →
  permitted rows seen (mkUpstreamCall (Resolved_Integration r) (Resolved_Tool r) args).
Proof.
  intros Hr Ha [Hd Ht]%orb_false_iff. apply String.eqb_neq in Hd, Ht.
  assert (Resolved_Descriptor r ∈ offered rows seen →
    Descriptor_PolicyState (Resolved_Descriptor r) = workspaceIntegrationPolicyAllow) as Hallow.
  { intros [H1 H2]%offered_states. by apply state_allow. }
  destruct Hr as [(Hi & Hn & H)|[Hin [W HW]]].
  - apply permitted_row; cbn; [done| |].
    + apply state_allow; [apply policy_state_states|by apply tool_allowed|done].
    + intros Hs%Ha. destruct (H Hs) as (Hin & HL & HN).
      exists (Resolved_Descriptor r). auto.
  - eapply permitted_connection; cbn; eauto.
Qed.

End Calls.

(** *** The run of a call *)

Section Run.
  Context {unicode : GoUnicode} {F : GoFormat}.
  Variable s : Server.
  Variable upstream : upstream_call → res (list (string * json)).
  Variable decrypt : string → string → option string.

Lemma looks_any {A} v b (m : I A) Q : looks v b m Q → looks v b m (λ _, True).
Proof. intros H. by eapply looks_weaken. Qed.
Lemma looks_secrets v b i :
  looks v b (workspaceIntegrationRedactionSecrets s decrypt i) (λ _, True).
Proof.
  assert (∀ e, looks v b (decrypt_secret s decrypt e) (λ _, True)) as Hd.
  { intros e. unfold decrypt_secret. repeat case_match; try apply looks_fail; by apply looks_ret. }
  unfold workspaceIntegrationRedactionSecrets. cbv zeta.
  eapply (looks_bind _ _ _ _ (λ _, True)).
  - eapply looks_any, looks_try, (looks_stmt _ _ _ (λ _, True)).
    eapply (looks_bind _ _ _ _ (λ _, True)).
    + unfold uuid_param. case_match; [apply looks_fail|by apply looks_ret].
    + intros _ _. intros st Hst. unfold bind, get, query_row, of_res. by case_match.
  - intros [c|e] _; [|case_match; [by apply looks_ret|apply looks_fail]].
    eapply looks_bind; [apply Hd|]. intros ? _. eapply looks_bind; [apply Hd|]. intros ? _.
    by apply looks_ret.
Qed.
Lemma looks_redact v b i result :
  looks v b (redactWorkspaceIntegrationToolResult s decrypt i result) (λ _, True).
Proof.
  eapply looks_bind; [apply looks_secrets|]. intros l _. case_match; by apply looks_ret.
Qed.

(** One call, of that tool with these arguments, or none. *)
Lemma calls_tool v b i t args :
  calls v b (eq (mkUpstreamCall i t args))
    (callWorkspaceIntegrationTool s upstream decrypt i t args).
Proof.
  unfold callWorkspaceIntegrationTool. intros st Hst.
  destruct (workspaceIntegrationRuntimeAdapterFor upstream i) as [adapter|]; [|by left].
  destruct (validateWorkspaceIntegrationToolArguments t args); [by left|]. right. eexists. split; [done|].
  set (c := mkUpstreamCall i t args). set (st1 := set wi_calls (cons c) st).
  change (wi_calls (bind (of_res (adapter c)) (redactWorkspaceIntegrationToolResult s decrypt i) st1).2
          = wi_calls st1).
  unfold bind, of_res. destruct (adapter c) as [result|e]; [|done].
  assert (at_view (view st1) b st1) as H1.
  { split; [done|]. intros Hb. by apply Hst in Hb. }
  destruct (looks_redact (view st1) b i result st1 H1) as [[H _] _].
  rewrite (view_calls _ _ H). done.
Qed.
Lemma calls_resolved {B} v b rows seen (P : upstream_call → Prop) authoritative r args
    (k : res (list (string * json)) → I B) :
  runnable v authoritative (offered rows seen) rows r → (authoritative = true ↔ seen ≠ []) →
  requires_approval r = false →
  (∀ c, permitted v rows seen c → P c) → (∀ a st, (k a st).2 = st) →
  calls v b P (bind (try (callWorkspaceIntegrationTool s upstream decrypt (Resolved_Integration r)
                 (Resolved_Tool r) args)) k).
Proof.
  intros Hr Ha Hq HP Hk. apply calls_then; [|done]. intros st Hst.
  destruct (calls_tool v b (Resolved_Integration r) (Resolved_Tool r) args st Hst)
    as [H|(c & <- & H)]; [by left|]. right. eexists. split; [|done].
  by apply HP, (permitted_runnable v authoritative).
Qed.

(** *** The handlers *)

Variable validate_token : string → option WorkspaceIntegrationClaims.
Variable rank : list workspaceIntegrationToolDescriptor → list (string * json) → res json.

Definition permitted_for v b (w : Workspace) rows (c : upstream_call) : Prop :=
  ∃ seen, saw v b w seen ∧ permitted v rows seen c.

Lemma calls_answer {A} v b (P : upstream_call → Prop) (m : I A) :
  looks v b m (λ _, True) → calls v b P m.
Proof. apply calls_read. Qed.
Lemma looks_refuse v b status msg : looks v b (refuse status msg) (λ _, True).
Proof. by apply looks_ret. Qed.
Lemma calls_call_tool v b w rows args :
  calls v b (permitted_for v b w rows) (call_tool s upstream decrypt w rows args).
Proof.
  unfold call_tool. destruct (workspaceIntegrationFacadeRequestedTool args) as [requested|];
    [|by apply calls_answer, looks_refuse].
  destruct (workspaceIntegrationFacadeArguments _) as [callArgs|];
    [|by apply calls_answer, looks_refuse].
  eapply calls_bind; [apply looks_offered|].
  intros [ds authoritative] (seen & Hseen & Hds & Ha). cbn in Hds, Ha. subst ds.
  destruct (resolveWorkspaceIntegrationFacadeToolDescriptor (offered rows seen) requested) eqn:E;
    try (by apply calls_answer, looks_refuse).
  all: (eapply calls_bind; [apply looks_resolve|]; intros [r|] Hr;
    [|by apply calls_answer, looks_refuse]).
  all: destruct (requires_approval r) eqn:Er; [by apply calls_answer, looks_refuse|].
  all: eapply calls_resolved; [by apply Hr|done|done| |by intros [] ?].
  all: intros c Hc; by exists seen.
Qed.
Lemma calls_facade v b w rows name args :
  calls v b (permitted_for v b w rows)
    (callWorkspaceIntegrationFacadeTool s upstream decrypt rank w rows name args).
Proof.
  unfold callWorkspaceIntegrationFacadeTool.
  destruct (String.eqb name workspaceIntegrationSearchToolsName).
  { eapply calls_bind; [apply looks_offered|]. intros [ds ?] _. apply calls_ret. }
  destruct (String.eqb name workspaceIntegrationDescribeToolName).
  { unfold describe_tool. destruct (workspaceIntegrationFacadeRequestedTool args);
      [|by apply calls_answer, looks_refuse].
    eapply calls_bind; [apply looks_offered|]. intros [ds ?] _. case_match;
      [by apply calls_answer, looks_refuse|apply calls_ret|by apply calls_answer, looks_refuse]. }
  destruct (String.eqb name workspaceIntegrationCallToolName); [apply calls_call_tool|].
  by apply calls_answer, looks_refuse.
Qed.
Lemma calls_direct v b w rows requested args :
  calls v b (permitted_for v b w rows) (call_direct s upstream decrypt w rows requested args).
Proof.
  unfold call_direct, resolveWorkspaceIntegrationRuntimeTool.
  eapply (calls_bind _ _ _ _ _ (λ o, ∃ seen authoritative, saw v b w seen ∧
    (authoritative = true ↔ seen ≠ []) ∧
    ∀ r, o = Some r → runnable v authoritative (offered rows seen) rows r)).
  { eapply looks_bind; [apply looks_offered|].
    intros [ds authoritative] (seen & Hseen & Hds & Ha). cbn in Hds, Ha. subst ds.
    eapply looks_weaken; [apply looks_resolve|]. intros o Ho. by exists seen, authoritative. }
  intros [r|] (seen & authoritative & Hseen & Ha & Hr).
  - destruct (requires_approval r) eqn:Er; [apply calls_reply|].
    eapply calls_resolved; [by apply Hr|done|done| |by intros [] ?].
    intros c Hc. by exists seen.
  - eapply calls_bind; [apply looks_offered|]. intros [ds ?] _. apply calls_reply.
Qed.

Lemma calls_token v b P authorization next :
  (∀ machineID w, authenticated validate_token v authorization machineID w →
     calls v b P (next machineID w)) →
  calls v b P (requireWorkspaceIntegrationToken validate_token authorization next).
Proof.
  clear s upstream decrypt rank. intros Hn. unfold requireWorkspaceIntegrationToken.
  destruct (String.eqb authorization ""); [apply calls_reply|].
  destruct (TrimPrefix_from authorization "Bearer ") as [token|] eqn:Et; [|apply calls_reply].
  cbv zeta. destruct (String.eqb (TrimSpace token) ""); [apply calls_reply|].
  destruct (validate_token (TrimSpace token)) as [claims|] eqn:Ec; [|apply calls_reply].
  set (id := IntegrationClaims_MachineID claims).
  eapply (calls_bind _ _ _ _ _ (λ r, ∀ m, r = Ok m → db_machines (w_db (wi_world v)) !! id = Some m)).
  { apply looks_try, looks_db. unfold GetMachine, bind, get, query_row, of_res.
    split; [by case_match|]. intros m. case_match; naive_solver. }
  intros [machine|] Hm; [|apply calls_reply].
  destruct (token_revoked claims machine) eqn:Er; [apply calls_reply|].
  eapply (calls_bind _ _ _ _ _ (λ r, ∀ w, r = Ok w → ∃ m wid,
    db_machines (w_db (wi_world v)) !! id = Some m ∧ Machine_WorkspaceID m = Some wid ∧
    db_workspaces (w_db (wi_world v)) !! wid = Some w)).
  { apply looks_try, looks_db. unfold GetWorkspaceForMachine, bind, get, query_row, of_res.
    split; [by case_match|]. intros w. case_match eqn:E; [|done]. intros [= <-].
    apply bind_Some in E as (m & ? & (wid & ? & ?)%bind_Some). eauto. }
  intros [w|] Hw; [|apply calls_reply].
  set (Q := λ e : bool, e = true → ∃ p, p ∈ machine_plugins id (w_db (wi_world v)) ∧
    MachinePlugin_PluginID p = workspaceIntegrationPluginID ∧ MachinePlugin_Enabled p = true).
  eapply (calls_bind _ _ _ _ _ (λ r, ∀ e, r = Ok e → Q e)).
  { apply looks_try.
    eapply (looks_bind _ _ _ _ (λ l, l = machine_plugins id (w_db (wi_world v)))).
    - apply looks_db. split; [done|]. by intros ? [= <-].
    - intros l ->. apply looks_ret. intros (p & Hp & H)%existsb_exists.
      apply list_elem_of_In in Hp. apply andb_true_iff in H as [H%String.eqb_eq ?]. eauto. }
  intros [[]|] Hp; [|apply calls_reply..].
  apply Hn. destruct (Hw w eq_refl) as (m & wid & H1 & H2 & H3).
  rewrite (Hm machine eq_refl) in H1. injection H1 as <-. split; [|exact (Hp true eq_refl eq_refl)].
  exists token, claims, machine, wid. split_and!; try done. by apply Hm.
Qed.
End Run.


(** The machine calls the tool of the mock integration. *)
Abbreviation echoed := (call_as0 "mock-echo.echo" [] connected).

(** ** Runs in which a decision or a result is lost *)

Definition called (st : Integrations) : list string :=
  (λ c, Tool_Name (Upstream_Tool c)) <$> wi_calls st.
Definition status_of {S} (r : res response * S) : option Z :=
  match r.1 with Ok resp => Some (response_status resp) | Err _ => None end.

(** The administrator denies the tool; connecting the integration again, which asks for no
    policy, clears the list. *)
Abbreviation denied := (update0 "mock-echo" [] ["echo"]%string connected).
Abbreviation reconnected := (handleCreateMockWorkspaceIntegration claims0 1 "ws" denied.2).
Lemma reconnect_allows_denied_tools :
  status_of denied = Some 200 ∧
  status_of (call_as0 "mock-echo.echo" [] denied.2) = Some 404 ∧
  called (call_as0 "mock-echo.echo" [] denied.2).2 = [] ∧
  called (call_as0 "mock-echo.echo" [] reconnected.2).2 = ["echo"]%string.
Proof. vm_compute. by split_and!. Qed.

(** A tool that requires an approval is run by the test of its integration. *)
Lemma test_runs_unapproved_tools :
  status_of (call_as0 "mock-echo.echo" [] cautious) = Some 409 ∧
  called (call_as0 "mock-echo.echo" [] cautious).2 = [] ∧
  called (handleTestWorkspaceIntegration server0 upstream0 decrypt0 1 "ws" "mock-echo" cautious).2
    = ["echo"]%string.
Proof. vm_compute. by split_and!. Qed.

(** A tool of a connection without a row is run, and its result is not given. *)
Lemma result_of_connection_lost :
  status_of (call_as0 "crm.purge" [] (imported "allow")) = Some 502 ∧
  called (call_as0 "crm.purge" [] (imported "allow")).2 = ["purge"]%string.
Proof. vm_compute. by split_and!. Qed.

(** Saving the lists of a connection lets a tool run that required an approval. *)
Abbreviation listed := (update0 "crm" ["purge"]%string [] (imported "require_approval")).
Lemma update_drops_approval :
  status_of (call_as0 "crm.purge" [] (imported "require_approval")) = Some 409 ∧
  status_of listed = Some 200 ∧
  called (call_as0 "crm.purge" [] listed.2).2 = ["purge"]%string.
Proof. vm_compute. by split_and!. Qed.

(** The projection of the row fails: the row denies the tool, and the tool is still run. *)
Definition failing_projection : Integrations :=
  connected <| wi_world ::= set w_faults (λ _, [false; false; false; true]) |>.
Abbreviation half_denied := (update0 "mock-echo" [] ["echo"]%string failing_projection).
Lemma row_without_projection :
  status_of half_denied = Some 500 ∧
  Integration_DeniedTools <$> machine_integrations "id-4" half_denied.2 = [["echo"%string]] ∧
  called (call_as0 "mock-echo.echo" [] half_denied.2).2 = ["echo"]%string.
Proof. vm_compute. by split_and!. Qed.
